(* ===== verification/_CoqProject ===== *)
-Q . S2P
Prelude.v
CString.v
Printk.v
Algo.v
Queue.v
Kstate.v
Sched.v
Moves.v
Lock.v
Process.v
Life.v
FsLayout.v
Fs.v
FsDisk.v
FsPath.v
FsOps.v
FsFiles.v
FsRemove.v
FsTree.v
Screen.v
Terminal.v
Memory.v
Mac.v
Mailbox.v
Syscall.v
Shell.v
Session.v
Programs.v
Boot.v
Image.v
Cpu.v
Inline.v
Entry.v
Refill.v
Switch.v
