(* ===== verification/Prelude.v ===== *)
(** * Verification of the MIPS teaching kernel: overview

    The program is a small kernel for a 32-bit MIPS machine, with its shell and
    the host tool that makes its disk image.  This library translates its C code
    into functions, component by component, and proves what the components do.
    Comments name the files under [src/]; a definition has the name of the C
    function it models, and a part of a function that is a definition of its own
    says which part it is.

    ** The model of C

    This file: [outcome] is the result of a piece of code, [Ok a] when it returns
    [a], [Fault f] when it has no defined result (an access outside an array, a
    null pointer, a missing return value, an uninitialised object), [OutOfFuel]
    when the bound of a recursive definition was too small.  Theorems say [Ok]
    where the code returns, so they include the absence of faults and the
    termination of loops.  State is passed explicitly.  Arrays are lists, read
    and written with [aget] and [aset]; [for_range] is the counting loop, with its
    invariant rule [for_range_inv]; [find_range] a search.  Integers are Z, and
    [u8], [u32], [i8], [i32] write the wrap-around out.  Uninitialised memory is
    a parameter, usually called [junk]: theorems hold for any content.

    ** The parts and where they are

    - [CString], [Printk], [Algo]: [libs/string.c], [libs/printk.c],
      [libs/algo.c].
    - [Queue]: [kernel/sched/queue.c]; [Kstate]: the process table and the
      variables of the kernel; [Sched]: choosing, switching, sleeping, blocking
      and waking ([kernel/sched/sched.c]); [Moves]: what waking does to queues;
      [Lock]: [kernel/locking/*.c]; [Process]: creating, ending, waiting, the
      interrupts, and [init_pcb]; [Life]: these calls and the clock in any order.
    - [FsLayout]: the structures of [include/os/fs.h] and their images on the
      disk, and the block device; [Fs]: every function of [kernel/fs/fs.c];
      [FsDisk], [FsPath], [FsOps], [FsFiles], [FsRemove]: its theorems;
      [FsTree]: an abstract file system with a current directory.
    - [Screen]: [drivers/screen.c]; [Terminal]: the terminal behind the serial
      port.  [Mac]: [drivers/mac.c].  [Memory]: [kernel/mm/memory.c] and the
      copies between kernel and user space.  [Mailbox]: [libs/mailbox.c].
    - [Syscall]: the stubs and the helper of [kernel/syscall/syscall.c], the table
      of [init_syscall], [do_getchar], and [kernel], the record of all states on
      which the handlers work.  [Shell]: [kernel/shell/shell.c].  [Session]: the
      shell on that kernel, one command and whole sessions.  [Programs]: the
      programs of [test/] and the functions that print DMA descriptors.  [Boot]:
      [_start] of [init/main.c].
    - [Image]: [tools/createimage.c], and what [bootblock.S] loads.
    - [Cpu]: the registers, the coprocessor 0 and the TLB, and the instructions
      that the assembly uses; [Entry]: [arch/mips/kernel/entry.S] and [syscall.S],
      routine by routine; [Inline]: the inline assembly of C functions; [Refill]:
      the handler of TLB exceptions; [Switch]: [do_scheduler] around [scheduler].

    ** How they interact

    A command line goes through the definitions as it goes through the program:
    [solve_cmd] splits it and calls a command of the table; the command calls a
    stub, which fills in a [trap]; [system_call_helper] looks its number up in the
    table and calls the handler, which works on its part of [kernel].  The kernel
    handlers share the process table and the queues of [Kstate]: a lock blocks a
    process with [do_block], which chooses another one with [scheduler].  A
    handler that waits gives back the point where the process continues, so
    that the order in which processes run is a list of steps ([sem_step],
    [mutex_step], [mbox_step]) or of operations ([kop] of [Life]).  The cursor is
    shared by the driver and the scheduler: [sched_in] and [sched_out] of
    [Syscall] carry it.

    Below C, a run of [Cpu] executes the routines of [Entry]; the C functions
    they call are its parameter [call].  [represents] of [Switch] says how the
    process table lies in memory, and [scheduler_compiled] that [call] of
    [scheduler] does what [Sched.scheduler] does; [tables_at] of [Refill] does
    the same for the page tables of [Memory], and [operands] of [Inline] for the
    writes of the TLB that [Memory] records.

    Interfaces are type classes: [BlockDev] with [BlockDevLaws] (the SD card: what
    was written is read), [Terminal] with [TerminalLaws], [EngineLaws] (the DMA
    engine), [Os] with [ConsoleLaws] (what a program asks of its kernel),
    [Direct] (the memory a program shares with it).  Each has an instance, with
    which the witnesses compute: [memdisk], [vt], [quick_engine], [log], the
    kernel of [Session].

    ** What is proved

    - Libraries: [strcmp], [strcpy], [memcpy] and [memset] do what their names say
      within their arrays; [mini_vsnprintf] leaves the longest prefix of the
      rendered text that fits; [atoi] reads back what [mini_itoa] writes.
    - Processes: a queue represents a list ([queue_rep]); [sched_wf] is the
      invariant of the table and the queues, and [scheduler], [do_block],
      [do_unblock_one], [do_unblock_all], [do_exit] and spawning keep it and
      have the stated effect; no two processes hold a mutex in any interleaving; a
      semaphore never lets more through than its value and its ups.  From a settled
      state, such as the one that [init_pcb] leaves if the scheduler's index is 0
      and not the -1 it starts with, no sequence of the calls of [kcall], clock
      interrupts and continuations inside the kernel faults or loses a process
      ([settled], [no_process_lost], [processes_after_boot]); with -1 the first
      selection faults ([select_queue_first_call]).
    - File system: [fs_inv] ties the directories, as a map from inodes to
      entries, to memory and disk; [do_mkfs], [do_mkdir], [do_touch] and [do_rm]
      refine updates of the map; [name_parse] follows the entries; mounting in a
      fresh memory gives the same tree back; what is written to a file is read;
      a sequence of [mkdir], [touch] and [cd] refines the abstract tree.
    - Memory: no frame is handed out twice; a page miss makes entries for two
      fresh frames and keeps the others, and the entries lead to the frames
      themselves below 16 MB of memory, and to low memory otherwise; what is copied
      to a page is copied back.
    - Drivers: writing to the screen is typing on a page of lines, and after a
      refresh the terminal shows the buffer, whatever the sequence of calls; a
      ring of descriptors is handed to the engine in order and every wait ends.
    - Mailboxes: whatever the interleaving, messages arrive in the order in which
      they were sent, each once, and at most two are in the box.
    - System calls: every call reaches its handler with its arguments.  Shell: the
      keys edit the line; its words are the arguments; a command performs the
      system call it stands for; a session of [mkdir], [touch] and [cd] lines
      refines the abstract tree.
    - Assembly: an exception gives the interrupted program back with all its
      registers, and a system call with the result in v0; [do_scheduler] keeps
      the registers of a process until it runs again, and starts a new one at its
      entry point; the TLB handler loads what the page table holds, or calls the
      page-miss handler; a switch leaves no translation in the TLB.
    - Programs: the sending program sends its packages and ends; the receiving one
      waits in its queue unless the engine is done with its last descriptor by then;
      the file program has no defined result.
    - Start: [_start] returns with every invariant established, except for the
      index of the scheduler.  Image: [createimage] and the boot block agree.
    - Behaviour that the code certainly does not intend is stated as theorems
      too: accesses at the end of a block, names that overflow their buffers, frames
      that alias low memory, killing and spawning, a cursor left of the screen, the
      inode that removing a directory leaves behind on the disk, executables that
      overflow a buffer of [createimage], the first choice of the scheduler.

    ** Bounds

    Fuel occurs where the code recurses or loops without a count: [do_fread],
    [do_fwrite] and [rm_recurse] take it as an argument, and a theorem that says
    [Ok] says how much is enough ([block_end_never_returns] that none is);
    [qsort] needs twice the number of elements; the waiting loops of [Mac] take
    the number of steps within which the engine is done; [latency] one more than
    the readings of the clock; the loops on queues run at most once per process
    ([queue_fuel]), the loop of [record_kernel_sectors] once per word of the file,
    and the shell's loop once per key.  [next_free] of [FsTree] tries as many
    numbers as are in use and one more.  A run of assembly, [runs], holds when
    some number of steps reaches its end, and more steps give the same
    ([run_mono]).

    ** Not modelled

    The two calls of [pmon/common.c] are firmware at fixed addresses: they are the
    bytes sent to the serial port.  The delay slots of branches are filled by the
    assembler, and no instruction here depends on one.  The entry that [tlbwr]
    writes is the one that the random register of the coprocessor names.
    [ptimer] is only declared, and [get_ticks] returns a variable that
    nothing changes; the count register is an argument of the clock interrupt.
    The preemption of a handler by the clock is not modelled: handlers run with
    interrupts off until they block.  A handler that switches inside, as
    [irq_timer] does, is split there: what follows is [irq_timer_rest], which runs
    when the process is selected again.  What the engine and other processes do
    around the test of the receiving program is an argument of [mac_recv_task], for
    which [interlude] says what is assumed; it gives the processor away between its
    rounds, which are definitions of their own.  Arguments of
    system calls that point to memory are the values they point to, so that a
    program that changes a string while a handler reads it is outside the model.
    In [Life] locks, semaphores and barriers exist before the sequence starts,
    killing is left out, since it loses processes
    ([kill_then_spawn_loses_process]), and so are listing, releasing several locks,
    blocking on a queue of the caller's and waiting for packages.  Empty functions
    are left out. *)

From stdpp Require Export prelude strings gmap.
From Stdlib Require Export ZArith Lia.

#[global] Open Scope Z_scope.

(** ** Outcomes of C code *)

(** The reasons for which a run of the C code has no defined result. *)
Inductive fault :=
  | NullPointer      (* a null pointer is dereferenced *)
  | OutOfBounds      (* an array is accessed outside its bounds *)
  | NoReturnValue    (* a value-returning function runs off its end *)
  | Uninitialised    (* an uninitialised object is read *)
  | DivisionByZero
  | BadPointer       (* a pointer that designates no object is dereferenced *)
  | ProcessorTrap.   (* an instruction raises an exception *)

(** [Ok a]: the code returns [a]; [Fault f]: it has undefined behaviour;
    [OutOfFuel]: the bound given to a recursive model was too small. *)
Inductive outcome (A : Type) :=
  | Ok (a : A)
  | Fault (f : fault)
  | OutOfFuel.
Arguments Ok {A} a.
Arguments Fault {A} f.
Arguments OutOfFuel {A}.

#[export] Instance fault_eq_dec : EqDecision fault.
Proof. solve_decision. Defined.
#[export] Instance outcome_eq_dec {A} `{EqDecision A} : EqDecision (outcome A).
Proof. solve_decision. Defined.

#[export] Instance outcome_ret : MRet outcome := @Ok.
#[export] Instance outcome_bind : MBind outcome := λ A B k m,
  match m with
  | Ok a => k a
  | Fault f => Fault f
  | OutOfFuel => OutOfFuel
  end.
#[export] Instance outcome_fmap : FMap outcome := λ A B k m,
  match m with
  | Ok a => Ok (k a)
  | Fault f => Fault f
  | OutOfFuel => OutOfFuel
  end.

Lemma bind_Ok {A B} (a : A) (k : A → outcome B) : (Ok a ≫= k) = k a.
Proof. done. Qed.

Lemma bind_Ok_inv {A B} (m : outcome A) (k : A → outcome B) b :
  (m ≫= k) = Ok b → ∃ a, m = Ok a ∧ k a = Ok b.
Proof. destruct m; simpl; try discriminate. eauto. Qed.

#[export] Instance Ok_inj {A} : Inj (=) (=) (@Ok A).
Proof. by intros a b [= ->]. Qed.

(** Dereferencing a pointer that may be null. *)
Definition deref {A} (p : option A) : outcome A :=
  match p with Some a => Ok a | None => Fault NullPointer end.

(** [outcome_inv H] decomposes [H : m = Ok b] along the binds of [m]. *)
Ltac outcome_inv H :=
  lazymatch type of H with
  | (_ ≫= _) = Ok _ =>
      let a := fresh "a" in let H1 := fresh "H" in
      apply bind_Ok_inv in H as (a & H1 & H); outcome_inv H
  | Ok _ = Ok _ => injection H as H
  | _ => idtac
  end.

(** ** Machine integers *)

Definition u8 (x : Z) : Z := x mod 2 ^ 8.
Definition u32 (x : Z) : Z := x mod 2 ^ 32.
Definition i8 (x : Z) : Z := (x + 2 ^ 7) mod 2 ^ 8 - 2 ^ 7.
Definition i32 (x : Z) : Z := (x + 2 ^ 31) mod 2 ^ 32 - 2 ^ 31.

Lemma u32_range x : 0 ≤ u32 x < 2 ^ 32.
Proof. apply Z.mod_pos_bound. lia. Qed.

Lemma u32_small x : 0 ≤ x < 2 ^ 32 → u32 x = x.
Proof. apply Z.mod_small. Qed.

(** Bit fields that do not overlap. *)
Lemma lor_add a b n : 0 ≤ n → 0 ≤ b < 2 ^ n → Z.lor (a * 2 ^ n) b = a * 2 ^ n + b.
Proof.
  intros Hn Hb. assert (Hland : Z.land (a * 2 ^ n) b = 0).
  { apply Z.bits_inj'. intros i Hi. rewrite Z.land_spec, Z.bits_0.
    rewrite <- Z.shiftl_mul_pow2 by done.
    destruct (Z.lt_ge_cases i n); [by rewrite Z.shiftl_spec_low by lia|].
    rewrite andb_comm. destruct (Z.eq_dec b 0) as [->|]; [by rewrite Z.bits_0|].
    rewrite (Z.bits_above_log2 b i); [done|lia|]. apply Z.log2_lt_pow2; [lia|].
    apply Z.lt_le_trans with (2 ^ n); [lia|]. by apply Z.pow_le_mono_r. }
  rewrite Z.add_nocarry_lxor by done. symmetry. by apply Z.lxor_lor.
Qed.


Lemma u8_range x : 0 ≤ u8 x < 2 ^ 8.
Proof. apply Z.mod_pos_bound. lia. Qed.

Lemma u8_small x : 0 ≤ x < 2 ^ 8 → u8 x = x.
Proof. apply Z.mod_small. Qed.

Lemma i32_small x : - 2 ^ 31 ≤ x < 2 ^ 31 → i32 x = x.
Proof. intros. unfold i32. rewrite Z.mod_small; lia. Qed.

Lemma i32_range x : - 2 ^ 31 ≤ i32 x < 2 ^ 31.
Proof. unfold i32. pose proof (Z.mod_pos_bound (x + 2 ^ 31) (2 ^ 32)). lia. Qed.

Lemma i8_small x : - 2 ^ 7 ≤ x < 2 ^ 7 → i8 x = x.
Proof. intros. unfold i8. rewrite Z.mod_small; lia. Qed.

Create HintDb machine.
Create Rewrite HintDb machine.
#[export] Hint Rewrite @u32_small @i32_small @u8_small using lia : machine.
#[export] Hint Resolve u32_range u8_range i32_range : machine.

(** ** Arrays *)

(** A C array is a list; an access outside its bounds is a fault. *)
Section array.
Context {A : Type}.
Implicit Types (l : list A) (i : Z) (x : A).

Definition aget l i : outcome A :=
  if decide (i < 0) then Fault OutOfBounds
  else match l !! Z.to_nat i with
       | Some x => Ok x
       | None => Fault OutOfBounds
       end.

Definition aset l i x : outcome (list A) :=
  if decide (0 ≤ i < Z.of_nat (length l)) then Ok (<[Z.to_nat i := x]> l)
  else Fault OutOfBounds.

Lemma aget_Ok l i x : aget l i = Ok x ↔ 0 ≤ i ∧ l !! Z.to_nat i = Some x.
Proof.
  unfold aget. case_decide.
  - split; [discriminate|lia].
  - destruct (l !! Z.to_nat i); naive_solver lia.
Qed.

Lemma aget_lookup l (n : nat) : aget l (Z.of_nat n) =
  match l !! n with Some x => Ok x | None => Fault OutOfBounds end.
Proof. unfold aget. rewrite decide_False, Nat2Z.id by lia. done. Qed.

Lemma aget_total l i :
  0 ≤ i < Z.of_nat (length l) → ∃ x, aget l i = Ok x.
Proof.
  intros Hi. destruct (lookup_lt_is_Some_2 l (Z.to_nat i)) as [x Hx]; [lia|].
  exists x. apply aget_Ok. split; [lia|done].
Qed.

Lemma aget_cases l i : (∃ x, aget l i = Ok x) ∨ aget l i = Fault OutOfBounds.
Proof. unfold aget. case_decide; [by right|]. destruct (l !! _); eauto. Qed.

Lemma aget_bound l i x : aget l i = Ok x → 0 ≤ i < Z.of_nat (length l).
Proof. intros [? Hl%lookup_lt_Some]%aget_Ok. lia. Qed.

Lemma aset_Ok l i x l' :
  aset l i x = Ok l' ↔
  0 ≤ i < Z.of_nat (length l) ∧ l' = <[Z.to_nat i := x]> l.
Proof. unfold aset. case_decide; naive_solver. Qed.

Lemma aset_total l i x :
  0 ≤ i < Z.of_nat (length l) → aset l i x = Ok (<[Z.to_nat i := x]> l).
Proof. intros. by apply aset_Ok. Qed.

Lemma aset_length l i x l' : aset l i x = Ok l' → length l' = length l.
Proof. intros [_ ->]%aset_Ok. apply length_insert. Qed.

Lemma aget_insert_eq l i x :
  0 ≤ i < Z.of_nat (length l) → aget (<[Z.to_nat i := x]> l) i = Ok x.
Proof.
  intros. apply aget_Ok. split; [lia|]. apply list_lookup_insert_eq. lia.
Qed.

Lemma aget_insert_ne l i j x :
  0 ≤ i → i ≠ j → aget (<[Z.to_nat i := x]> l) j = aget l j.
Proof.
  intros. unfold aget. case_decide; [done|].
  rewrite list_lookup_insert_ne by lia. done.
Qed.

Lemma aget_aset_eq l i x l' : aset l i x = Ok l' → aget l' i = Ok x.
Proof. intros [? ->]%aset_Ok. by apply aget_insert_eq. Qed.

Lemma aget_aset_ne l i j x l' : aset l i x = Ok l' → i ≠ j → aget l' j = aget l j.
Proof. intros [? ->]%aset_Ok ?. apply aget_insert_ne; lia. Qed.
End array.

Create Rewrite HintDb len.
#[export] Hint Rewrite @length_insert @length_replicate @length_app @length_take
  @length_drop @length_fmap @length_reverse @length_map : len.

(** Arithmetic on the lengths of lists. *)
Ltac len := repeat progress (autorewrite with len in *; cbn [length] in *); lia.

(** Writing a run of elements at an offset, and reading one. *)
Section slice.
Context {A : Type}.
Implicit Types (l xs : list A) (o n : Z).

Definition slice l o n : outcome (list A) :=
  if decide (0 ≤ o ∧ 0 ≤ n ∧ o + n ≤ Z.of_nat (length l))
  then Ok (take (Z.to_nat n) (drop (Z.to_nat o) l)) else Fault OutOfBounds.

Definition splice l o xs : list A :=
  take (Z.to_nat o) l ++ xs ++ drop (Z.to_nat o + length xs) l.

Definition put l o xs : outcome (list A) :=
  if decide (0 ≤ o ∧ o + Z.of_nat (length xs) ≤ Z.of_nat (length l))
  then Ok (splice l o xs) else Fault OutOfBounds.

Lemma length_splice l o xs :
  0 ≤ o → o + Z.of_nat (length xs) ≤ Z.of_nat (length l) →
  length (splice l o xs) = length l.
Proof. intros. unfold splice. autorewrite with len. lia. Qed.

Lemma splice_nil l o : splice l o [] = l.
Proof. unfold splice. simpl. rewrite Nat.add_0_r. apply take_drop. Qed.

Lemma lookup_splice l o xs (i : nat) :
  0 ≤ o → o + Z.of_nat (length xs) ≤ Z.of_nat (length l) →
  splice l o xs !! i =
    if decide (o ≤ Z.of_nat i < o + Z.of_nat (length xs))
    then xs !! (i - Z.to_nat o)%nat else l !! i.
Proof.
  intros. unfold splice. case_decide.
  - rewrite lookup_app_r by (autorewrite with len; lia).
    autorewrite with len. rewrite Nat.min_l by lia.
    rewrite lookup_app_l by lia. done.
  - destruct (decide (Z.of_nat i < o)).
    + rewrite lookup_app_l by (autorewrite with len; lia).
      by rewrite lookup_take_lt by lia.
    + rewrite lookup_app_r by (autorewrite with len; lia).
      autorewrite with len. rewrite Nat.min_l by lia.
      rewrite lookup_app_r by lia. rewrite lookup_drop. f_equal. lia.
Qed.

Lemma put_Ok l o xs l' :
  put l o xs = Ok l' ↔
  0 ≤ o ∧ o + Z.of_nat (length xs) ≤ Z.of_nat (length l) ∧ l' = splice l o xs.
Proof. unfold put. case_decide; naive_solver. Qed.

Lemma slice_Ok l o n xs :
  slice l o n = Ok xs ↔
  (0 ≤ o ∧ 0 ≤ n ∧ o + n ≤ Z.of_nat (length l)) ∧
  xs = take (Z.to_nat n) (drop (Z.to_nat o) l).
Proof. unfold slice. case_decide; naive_solver. Qed.

Lemma slice_total l o n :
  0 ≤ o → 0 ≤ n → o + n ≤ Z.of_nat (length l) → ∃ xs,
  slice l o n = Ok xs ∧ Z.of_nat (length xs) = n.
Proof.
  intros. unfold slice. rewrite decide_True by lia. eexists; split; [done|].
  autorewrite with len. lia.
Qed.

Lemma slice_splice_eq l o xs :
  0 ≤ o → o + Z.of_nat (length xs) ≤ Z.of_nat (length l) →
  slice (splice l o xs) o (Z.of_nat (length xs)) = Ok xs.
Proof.
  intros. apply slice_Ok. rewrite length_splice by lia. split; [lia|].
  unfold splice. rewrite drop_app_length' by (autorewrite with len; lia).
  by rewrite Nat2Z.id, take_app_length.
Qed.

Lemma slice_splice_ne l o xs o' n :
  0 ≤ o → o + Z.of_nat (length xs) ≤ Z.of_nat (length l) →
  o' + n ≤ o ∨ o + Z.of_nat (length xs) ≤ o' →
  slice (splice l o xs) o' n = slice l o' n.
Proof.
  intros. unfold slice. rewrite length_splice by lia.
  case_decide; [|done]. f_equal. apply list_eq. intros i.
  destruct (decide (i < Z.to_nat n)%nat).
  - rewrite !lookup_take_lt, !lookup_drop by lia.
    rewrite lookup_splice by lia. rewrite decide_False by lia. done.
  - rewrite !lookup_take_ge by lia. done.
Qed.

Lemma put_slice_eq l o xs l' :
  put l o xs = Ok l' → slice l' o (Z.of_nat (length xs)) = Ok xs.
Proof. intros (?&?&->)%put_Ok. by apply slice_splice_eq. Qed.

Lemma put_slice_ne l o xs l' o' n :
  put l o xs = Ok l' →
  o' + n ≤ o ∨ o + Z.of_nat (length xs) ≤ o' →
  slice l' o' n = slice l o' n.
Proof. intros (?&?&->)%put_Ok ?. by apply slice_splice_ne. Qed.

Lemma put_length l o xs l' : put l o xs = Ok l' → length l' = length l.
Proof. intros (?&?&->)%put_Ok. by apply length_splice. Qed.

(** A write that starts right after [pre]. *)
Lemma aset_app_length (pre : list A) x y rest :
  aset (pre ++ x :: rest) (Z.of_nat (length pre)) y = Ok (pre ++ y :: rest).
Proof.
  apply aset_Ok. autorewrite with len. simpl. split; [lia|].
  rewrite Nat2Z.id. rewrite insert_app_r_alt by lia. by rewrite Nat.sub_diag.
Qed.

Lemma splice_middle (pre mid xs rest : list A) :
  length mid = length xs →
  splice (pre ++ mid ++ rest) (Z.of_nat (length pre)) xs = pre ++ xs ++ rest.
Proof.
  intros Hl. unfold splice. rewrite Nat2Z.id, take_app_length.
  do 2 f_equal. rewrite (assoc_L (++)). apply drop_app_length'. rewrite length_app. lia.
Qed.
End slice.
#[global] Arguments slice : simpl never.
#[global] Arguments put : simpl never.
#[global] Arguments splice : simpl never.
#[global] Arguments aget : simpl never.
#[global] Arguments aset : simpl never.

(** An array of [n] equal elements, for large [n]. *)
Definition fill {A} (n : Z) (x : A) : list A := replicate (Z.to_nat n) x.
#[global] Arguments fill : simpl never.

Lemma length_fill {A} n (x : A) : 0 ≤ n → Z.of_nat (length (fill n x)) = n.
Proof. intros. unfold fill. rewrite length_replicate. lia. Qed.

Lemma Forall_fill {A} (P : A → Prop) n x : P x → Forall P (fill n x).
Proof. apply Forall_replicate. Qed.

(** ** Counting loops *)

Section loops.
Context {S : Type}.

Fixpoint for_list (js : list Z) (body : Z → S → outcome S) (s : S) : outcome S :=
  match js with
  | [] => Ok s
  | i :: js => s ← body i s; for_list js body s
  end.

(** [for (i = lo; i < hi; ++i) body] *)
Definition for_range (lo hi : Z) : (Z → S → outcome S) → S → outcome S :=
  for_list (seqZ lo (hi - lo)).

Lemma for_range_nil lo hi body s : hi ≤ lo → for_range lo hi body s = Ok s.
Proof. intros. unfold for_range. by rewrite seqZ_nil by lia. Qed.

Lemma for_range_cons lo hi body s :
  lo < hi → for_range lo hi body s = (s ← body lo s; for_range (lo + 1) hi body s).
Proof.
  intros. unfold for_range. rewrite seqZ_cons by lia. simpl.
  destruct (body lo s); simpl; [|done|done]. do 2 f_equal. lia.
Qed.

(** The invariant rule: a loop whose body succeeds and keeps [P] succeeds. *)
Lemma for_range_inv (P : Z → S → Prop) lo hi body s :
  lo ≤ hi → P lo s →
  (∀ i s, lo ≤ i < hi → P i s → ∃ s', body i s = Ok s' ∧ P (i + 1) s') →
  ∃ s', for_range lo hi body s = Ok s' ∧ P hi s'.
Proof.
  intros Hle. remember (Z.to_nat (hi - lo)) as n eqn:Hn.
  revert lo s Hle Hn. induction n as [|n IH]; intros lo s Hle Hn H0 Hstep.
  - assert (lo = hi) as -> by lia. rewrite for_range_nil by lia. eauto.
  - rewrite for_range_cons by lia.
    destruct (Hstep lo s) as (s' & Hb & HP); [lia|done|].
    rewrite Hb, bind_Ok. apply IH; [lia|lia|done|].
    intros. apply Hstep; [lia|done].
Qed.

(** Any successful run keeps an invariant that successful bodies keep. *)
Lemma for_range_keeps (P : Z → S → Prop) lo hi body s s' :
  lo ≤ hi → P lo s →
  (∀ i s s', lo ≤ i < hi → P i s → body i s = Ok s' → P (i + 1) s') →
  for_range lo hi body s = Ok s' → P hi s'.
Proof.
  intros Hle. remember (Z.to_nat (hi - lo)) as n eqn:Hn.
  revert lo s Hle Hn. induction n as [|n IH]; intros lo s Hle Hn H0 Hstep Hrun.
  - assert (lo = hi) as -> by lia. rewrite for_range_nil in Hrun by lia.
    by injection Hrun as <-.
  - rewrite for_range_cons in Hrun by lia.
    apply bind_Ok_inv in Hrun as (s1 & Hb & Hrun).
    apply (IH (lo + 1) s1); [lia|lia| |..|done].
    + apply (Hstep lo s); [lia|done|done].
    + intros. eapply Hstep; [|done|done]. lia.
Qed.
End loops.

(** [for (i = lo; i < hi; ++i) if (p(i)) return i;] *)
Fixpoint find_list (js : list Z) (p : Z → outcome bool) : outcome (option Z) :=
  match js with
  | [] => Ok None
  | i :: js => b ← p i; if (b : bool) then Ok (Some i) else find_list js p
  end.

Definition find_range (lo hi : Z) : (Z → outcome bool) → outcome (option Z) :=
  find_list (seqZ lo (hi - lo)).

Lemma find_range_nil lo hi p : hi ≤ lo → find_range lo hi p = Ok None.
Proof. intros. unfold find_range. by rewrite seqZ_nil by lia. Qed.

Lemma find_range_cons lo hi p :
  lo < hi →
  find_range lo hi p =
    (b ← p lo; if (b : bool) then Ok (Some lo) else find_range (lo + 1) hi p).
Proof.
  intros. unfold find_range. rewrite seqZ_cons by lia. simpl.
  destruct (p lo) as [[]| |]; simpl; try done. do 2 f_equal. lia.
Qed.

(** The search returns the first index at which [p] holds. *)
Lemma find_range_spec lo hi p (q : Z → bool) :
  (∀ i, lo ≤ i < hi → p i = Ok (q i)) →
  ∃ r, find_range lo hi p = Ok r ∧
    match r with
    | Some i => lo ≤ i < hi ∧ q i = true ∧ ∀ j, lo ≤ j < i → q j = false
    | None => ∀ j, lo ≤ j < hi → q j = false
    end.
Proof.
  remember (Z.to_nat (hi - lo)) as n eqn:Hn. revert lo Hn.
  induction n as [|n IH]; intros lo Hn Hp.
  - rewrite find_range_nil by lia. exists None. split; [done|]. lia.
  - rewrite find_range_cons, Hp, bind_Ok by lia. destruct (q lo) eqn:Hq.
    + exists (Some lo). split; [done|]. split_and!; [lia|lia|done|lia].
    + destruct (IH (lo + 1)) as (r & Hr & Hspec); [lia| |].
      { intros. apply Hp. lia. }
      exists r. split; [done|]. destruct r as [i|].
      * destruct Hspec as (?&?&Hj). split_and!; [lia|lia|done|].
        intros j ?. destruct (decide (j = lo)) as [->|]; [done|apply Hj; lia].
      * intros j ?. destruct (decide (j = lo)) as [->|]; [done|apply Hspec; lia].
Qed.

Lemma find_range_first lo hi p (q : Z → bool) i :
  (∀ j, lo ≤ j < hi → p j = Ok (q j)) → lo ≤ i < hi →
  q i = true → (∀ j, lo ≤ j < i → q j = false) →
  find_range lo hi p = Ok (Some i).
Proof.
  intros Hp Hi Hq Hj. destruct (find_range_spec lo hi p q Hp) as (r & -> & Hr).
  destruct r as [k|]; [|by rewrite Hr in Hq].
  destruct Hr as (Hk & Hqk & Hbefore). do 2 f_equal.
  destruct (Z.lt_trichotomy k i) as [?|[?|?]]; [|done|].
  - rewrite Hj in Hqk by lia. done.
  - rewrite Hbefore in Hq by lia. done.
Qed.

#[global] Opaque for_range find_range.
#[global] Arguments for_range : simpl never.
#[global] Arguments find_range : simpl never.

(** ** Record update *)

(** [r <| f := v |>] is [r] with field [f] set to [v], [r <| f ::= g |>] with
    [g] applied to it.  [derive_update eta f] builds the instance of field [f]
    from the eta-expansion of the record. *)
Class Update {R T : Type} (proj : R → T) := update : (T → T) → R → R.

Declare Scope record_scope.
#[global] Open Scope record_scope.
#[warnings="-postfix-notation-not-level-1"]
Notation "r <| f ::= g |>" := (update (proj:=f) g r)
  (at level 12, f at next level, left associativity, format "r  <| f  ::=  g |>")
  : record_scope.
#[warnings="-postfix-notation-not-level-1"]
Notation "r <| f := v |>" := (update (proj:=f) (λ _, v) r)
  (at level 12, f at next level, left associativity, format "r  <| f  :=  v |>")
  : record_scope.

Ltac derive_update eta f :=
  lazymatch type of f with
  | ?R → ?T =>
      exact (λ (g : T → T) (r : R),
        ltac:(let b := eval cbv beta delta [eta] in (eta r) in
              let b := eval pattern (f r) in b in
              lazymatch b with
              | ?F _ => let b := eval cbv beta in (F (g (f r))) in exact b
              end))
  end.
