(* ===== verification/CString.v ===== *)
(** * C strings and byte blocks: [libs/string.c]

    Memory is a list of bytes [0..255]; a [char *] is the suffix of its array
    that starts at the pointer, and a destination is an array with an index.
    Running past the end of an array is the fault [OutOfBounds].  [char] is
    signed on the target, which is visible in [strcmp] only.  The [int]
    arithmetic of [atoi] wraps, as the compiler's code does. *)

From S2P Require Import Prelude.

Abbreviation bytes := (list Z).

(** String literals: [str] without, [cstr] with the terminator. *)
Definition str (s : string) : bytes :=
  map (λ c, Z.of_N (Ascii.N_of_ascii c)) (String.list_ascii_of_string s).
Definition cstr (s : string) : bytes := str s ++ [0].

(** ** The functions *)

Fixpoint strlen (src : bytes) : outcome Z :=
  match src with
  | [] => Fault OutOfBounds
  | c :: src => if c =? 0 then Ok 0 else n ← strlen src; Ok (n + 1)
  end.

Definition memcpy (dest src : bytes) (len : Z) : outcome bytes :=
  for_range 0 len (λ i dest, c ← aget src i; aset dest i c) dest.

Definition memset (dest : bytes) (val len : Z) : outcome bytes :=
  for_range 0 len (λ i dst, aset dst i (u8 val)) dest.

Definition bzero (dest : bytes) (len : Z) : outcome bytes := memset dest 0 len.

Fixpoint strcmp (str1 str2 : bytes) : outcome Z :=
  match str1, str2 with
  | c1 :: s1, c2 :: s2 =>
      if negb (c1 =? 0) && negb (c2 =? 0) && (c1 =? c2)
      then strcmp s1 s2 else Ok (i8 c1 - i8 c2)
  | _, _ => Fault OutOfBounds
  end.

(** [strcpy(&dest[d], src)] *)
Fixpoint strcpy (dest : bytes) (d : Z) (src : bytes) : outcome bytes :=
  match src with
  | [] => Fault OutOfBounds
  | c :: src =>
      if c =? 0 then aset dest d 0
      else dest ← aset dest d c; strcpy dest (d + 1) src
  end.

(** The three parts of [atoi]: the leading blanks, the sign and the base, and
    the loop over the digits. *)
Fixpoint atoi_skip (s : bytes) : bytes :=
  match s with
  | c :: s' => if c =? 32 then atoi_skip s' else s
  | [] => []
  end.

Fixpoint atoi_digits (s : bytes) (base abs : Z) : outcome Z :=
  match s with
  | [] => Fault OutOfBounds
  | c :: s =>
      if c =? 0 then Ok abs
      else if c =? 32 then atoi_digits s base abs
      else atoi_digits s base (i32 (abs * base + i8 c - 48))
  end.

Definition atoi_base (s : bytes) : outcome (Z * bytes) :=
  c0 ← aget s 0;
  if c0 =? 48 then
    c1 ← aget s 1;
    Ok (if c1 =? 120 then (16, drop 2 s) else if c1 =? 98 then (2, drop 2 s)
        else (10, s))
  else Ok (10, s).

Definition atoi (s : bytes) : outcome Z :=
  let s := atoi_skip s in
  c ← aget s 0;
  let '(sign, s) := if c =? 45 then (-1, drop 1 s) else (1, s) in
  '(base, s) ← atoi_base s;
  abs ← atoi_digits s base 0;
  Ok (i32 (sign * abs)).

(** ** Strings in memory *)

(** [p] points at the string [s]: its characters, then a terminator. *)
Definition string_at (p s : bytes) : Prop :=
  0 ∉ s ∧ ∃ rest, p = s ++ 0 :: rest.

Lemma string_at_nil rest : string_at (0 :: rest) [].
Proof. split; [set_solver|]. by exists rest. Qed.

Lemma string_at_cons c s p : c ≠ 0 → string_at p s → string_at (c :: p) (c :: s).
Proof. intros Hc [Hs [r ->]]. split; [set_solver|]. by exists r. Qed.

(** The string at a pointer, when there is one. *)
Fixpoint read_cstr (p : bytes) : outcome bytes :=
  match p with
  | [] => Fault OutOfBounds
  | c :: p => if c =? 0 then Ok [] else s ← read_cstr p; Ok (c :: s)
  end.

Lemma read_cstr_Ok p s : read_cstr p = Ok s ↔ string_at p s.
Proof.
  revert s. induction p as [|c p IH]; intros s; simpl.
  - split; [done|]. intros [_ [r Hr]]. by destruct s.
  - destruct (Z.eqb_spec c 0) as [->|Hc].
    + split.
      * intros [= <-]. apply string_at_nil.
      * intros [Hs [r Hr]]. destruct s; [done|]. set_solver.
    + split.
      * intros (s' & Hs' & [= <-])%bind_Ok_inv.
        apply string_at_cons; [done|by apply IH].
      * intros [Hs [r Hr]]. destruct s as [|c' s]; [naive_solver|].
        injection Hr as <- ->. simpl in *.
        rewrite (proj2 (IH s)); [done|]. split; [set_solver|]. by exists r.
Qed.

Lemma string_at_inj p s s' : string_at p s → string_at p s' → s = s'.
Proof. intros H1%read_cstr_Ok H2%read_cstr_Ok. congruence. Qed.

Lemma string_at_length p s : string_at p s → (length s < length p)%nat.
Proof. intros [_ [r ->]]. rewrite length_app. simpl. lia. Qed.

Lemma string_at_app s rest : 0 ∉ s → string_at (s ++ 0 :: rest) s.
Proof. intros. split; [done|]. by exists rest. Qed.

(** ** [strlen] and [strcmp] *)

Lemma strlen_string p s : string_at p s → strlen p = Ok (Z.of_nat (length s)).
Proof.
  intros [Hs [r ->]]. induction s as [|c s IH]; [done|]. simpl.
  destruct (Z.eqb_spec c 0); [set_solver|].
  rewrite IH by set_solver. simpl. f_equal. lia.
Qed.

Lemma strlen_inv p n : strlen p = Ok n → ∃ s, string_at p s ∧ n = Z.of_nat (length s).
Proof.
  revert n. induction p as [|c p IH]; intros n; simpl; [done|].
  destruct (Z.eqb_spec c 0) as [->|].
  - intros [= <-]. exists []. split; [apply string_at_nil|done].
  - intros (m & (s & Hs & ->)%IH & [= <-])%bind_Ok_inv.
    exists (c :: s). split; [by apply string_at_cons|]. simpl. lia.
Qed.

Definition is_byte (c : Z) : Prop := 0 ≤ c < 256.
Abbreviation all_bytes := (Forall is_byte).

#[export] Instance is_byte_dec c : Decision (is_byte c).
Proof. unfold is_byte. apply _. Defined.

Lemma i8_inj c d : is_byte c → is_byte d → i8 c = i8 d → c = d.
Proof.
  unfold is_byte, i8. change (2 ^ 7) with 128. change (2 ^ 8) with 256.
  intros. Z.to_euclidean_division_equations. lia.
Qed.

(** ** [strcpy], [memcpy] and [memset] *)

Lemma strcpy_string dest d src s :
  string_at src s → 0 ≤ d → d + Z.of_nat (length s) < Z.of_nat (length dest) →
  strcpy dest d src = Ok (splice dest d (s ++ [0])).
Proof.
  intros [Hs [r ->]]. revert dest d. induction s as [|c s IH]; intros dest d Hd Hl; simpl in *.
  - rewrite aset_total by lia. f_equal.
    apply list_eq. intros i. rewrite lookup_splice by len. simpl.
    destruct (decide (i = Z.to_nat d)) as [->|].
    + rewrite list_lookup_insert_eq, decide_True by lia. by rewrite Nat.sub_diag.
    + rewrite list_lookup_insert_ne, decide_False by lia. done.
  - destruct (Z.eqb_spec c 0); [set_solver|].
    rewrite aset_total, bind_Ok by lia.
    rewrite IH; [|set_solver|lia|rewrite length_insert; lia]. f_equal.
    apply list_eq. intros i.
    rewrite lookup_splice by len.
    rewrite lookup_splice by len.
    simpl. rewrite length_app. simpl.
    destruct (decide (i = Z.to_nat d)) as [->|].
    + rewrite decide_False, decide_True by lia.
      by rewrite list_lookup_insert_eq, Nat.sub_diag by lia.
    + case_decide.
      * rewrite decide_True by lia.
        by replace (i - Z.to_nat d)%nat with (S (i - Z.to_nat (d + 1))) by lia.
      * rewrite decide_False by lia. by rewrite list_lookup_insert_ne by lia.
Qed.

Lemma strcpy_overflow dest d src s :
  string_at src s → 0 ≤ d → Z.of_nat (length dest) ≤ d + Z.of_nat (length s) →
  strcpy dest d src = Fault OutOfBounds.
Proof.
  intros [Hs [r ->]]. revert dest d. induction s as [|c s IH]; intros dest d Hd Hl; simpl in *.
  - unfold aset. by rewrite decide_False by lia.
  - destruct (Z.eqb_spec c 0); [set_solver|].
    destruct (decide (d < Z.of_nat (length dest))).
    + rewrite aset_total, bind_Ok by lia.
      apply IH; [set_solver|lia|rewrite length_insert; lia].
    + unfold aset. by rewrite decide_False by lia.
Qed.

(** A loop that stores [f i] at every index up to [len]. *)
Lemma fill_loop (f : Z → outcome Z) (xs dest : bytes) :
  (length xs ≤ length dest)%nat →
  (∀ i x, xs !! i = Some x → f (Z.of_nat i) = Ok x) →
  for_range 0 (Z.of_nat (length xs)) (λ i dst, c ← f i; aset dst i c) dest =
    Ok (splice dest 0 xs).
Proof.
  intros Hl Hf.
  destruct (for_range_inv (λ i dst, dst = splice dest 0 (take (Z.to_nat i) xs))
    0 (Z.of_nat (length xs)) (λ i dst, c ← f i; aset dst i c) dest)
    as (dst & -> & ->); [lia|change (Z.to_nat 0) with 0%nat; by rewrite take_0, splice_nil| |].
  - intros i dst Hi ->.
    destruct (lookup_lt_is_Some_2 xs (Z.to_nat i)) as [x Hx]; [lia|].
    replace (f i) with (Ok x).
    2:{ symmetry. rewrite <- (Hf _ _ Hx). f_equal. lia. }
    rewrite bind_Ok, aset_total.
    2:{ rewrite length_splice; rewrite ?length_take; lia. }
    eexists; split; [done|]. rewrite Z2Nat.inj_add, Nat.add_1_r by lia.
    rewrite (take_S_r _ _ _ Hx). apply list_eq. intros j.
    rewrite lookup_splice by len.
    rewrite length_app, length_take. simpl.
    destruct (decide (j = Z.to_nat i)) as [->|].
    + rewrite list_lookup_insert_eq.
      2:{ rewrite length_splice; rewrite ?length_take; lia. }
      rewrite decide_True by lia. rewrite lookup_app_r by len.
      rewrite length_take, Nat.min_l by lia. by rewrite Nat.sub_0_r, Nat.sub_diag.
    + rewrite list_lookup_insert_ne by lia.
      rewrite lookup_splice by len. rewrite length_take.
      destruct (decide (j < Z.to_nat i)%nat).
      * rewrite !decide_True by lia. by rewrite lookup_app_l by len.
      * rewrite !decide_False by lia. done.
  - by rewrite Nat2Z.id, firstn_all.
Qed.

Lemma memcpy_spec dest src len :
  0 ≤ len → len ≤ Z.of_nat (length dest) → len ≤ Z.of_nat (length src) →
  memcpy dest src len = Ok (splice dest 0 (take (Z.to_nat len) src)).
Proof.
  intros. unfold memcpy.
  replace len with (Z.of_nat (length (take (Z.to_nat len) src))) at 1
    by len.
  apply fill_loop; [rewrite length_take; lia|].
  intros i x [Hx ?]%lookup_take_Some. apply aget_Ok. split; [lia|].
  by rewrite Nat2Z.id.
Qed.

Lemma memset_spec dest val len :
  0 ≤ len → len ≤ Z.of_nat (length dest) →
  memset dest val len = Ok (splice dest 0 (replicate (Z.to_nat len) (u8 val))).
Proof.
  intros. unfold memset.
  replace len with (Z.of_nat (length (replicate (Z.to_nat len) (u8 val)))) at 1
    by len.
  rewrite <- (fill_loop (λ _, Ok (u8 val))); [done|rewrite length_replicate; lia|].
  intros i x [-> ?]%lookup_replicate. done.
Qed.

(** ** Comparison *)

Lemma strcmp_spec p1 p2 s1 s2 :
  string_at p1 s1 → string_at p2 s2 → all_bytes s1 → all_bytes s2 →
  ∃ r, strcmp p1 p2 = Ok r ∧ strcmp p2 p1 = Ok (- r) ∧ (r = 0 ↔ s1 = s2).
Proof.
  intros [Hz1 [r1 ->]] [Hz2 [r2 ->]] Hb1 Hb2.
  revert s2 Hz2 Hb2. induction s1 as [|c s1 IH]; intros [|d s2] Hz2 Hb2; simpl.
  - exists 0. naive_solver.
  - destruct (Z.eqb_spec d 0); [set_solver|]. simpl.
    eexists; split_and!; [done|f_equal; lia|].
    split; [|done]. intros Hi. decompose_Forall_hyps.
    assert (0 = d); [|lia]. apply i8_inj; [done|done|lia].
  - destruct (Z.eqb_spec c 0); [set_solver|]. simpl.
    eexists; split_and!; [done|f_equal; lia|].
    split; [|done]. intros Hi. decompose_Forall_hyps.
    assert (c = 0); [|lia]. apply i8_inj; [done|done|lia].
  - decompose_Forall_hyps. destruct (Z.eqb_spec c 0); [set_solver|].
    destruct (Z.eqb_spec d 0); [set_solver|]. simpl.
    rewrite (Z.eqb_sym d c). destruct (Z.eqb_spec c d) as [->|Hne].
    + destruct (IH ltac:(set_solver) ltac:(done) s2) as (r & ?&?&Hr); [set_solver|done|].
      exists r. split_and!; [done|done|]. rewrite Hr. naive_solver.
    + eexists; split_and!; [done|f_equal; lia|].
      split; [|congruence]. intros. exfalso. apply Hne, i8_inj; [done|done|lia].
Qed.

Lemma strcmp_eq p1 p2 s1 s2 :
  string_at p1 s1 → string_at p2 s2 → all_bytes s1 → all_bytes s2 →
  ∃ r, strcmp p1 p2 = Ok r ∧ (r =? 0) = bool_decide (s1 = s2).
Proof.
  intros H1 H2 Hb1 Hb2. destruct (strcmp_spec p1 p2 s1 s2) as (r & ? & _ & Hr); [done..|].
  exists r. split; [done|]. destruct (Z.eqb_spec r 0); case_bool_decide; naive_solver.
Qed.

(** ** Theorems *)

(** [strcmp] on two strings reads within them, is antisymmetric, and
    returns 0 exactly when they are equal. *)
Theorem strcmp_correct p1 p2 s1 s2 :
  string_at p1 s1 → string_at p2 s2 → all_bytes s1 → all_bytes s2 →
  ∃ r, strcmp p1 p2 = Ok r ∧ strcmp p2 p1 = Ok (- r) ∧ (r = 0 ↔ s1 = s2).
Proof. apply strcmp_spec. Qed.

Lemma strcmp_correct_witness :
  string_at (cstr "ls") (str "ls") ∧ ∃ r, strcmp (cstr "ls") (cstr "lt") = Ok r ∧ r ≠ 0.
Proof.
  assert (∀ s, 0 ∉ s → string_at (s ++ [0]) s) as Hs by (intros; by apply string_at_app).
  assert (string_at (cstr "ls") (str "ls")) as H1 by (apply Hs; vm_compute; set_solver).
  split; [done|].
  destruct (strcmp_correct (cstr "ls") (cstr "lt") (str "ls") (str "lt") H1)
    as (r & Hr & _ & Hr0).
  - apply Hs. vm_compute. set_solver.
  - by apply (bool_decide_unpack _).
  - by apply (bool_decide_unpack _).
  - exists r. split; [done|]. by intros ?%Hr0.
Defined.

(** [strcpy] copies the string and its terminator and nothing else, when
    the destination has room for both; otherwise it writes past its end. *)
Lemma strcpy_correct dest d src s :
  string_at src s → 0 ≤ d →
  strcpy dest d src =
    if decide (d + Z.of_nat (length s) < Z.of_nat (length dest))
    then Ok (splice dest d (s ++ [0])) else Fault OutOfBounds.
Proof.
  intros. case_decide; [by apply strcpy_string|]. apply (strcpy_overflow _ _ _ s); [done..|lia].
Qed.
