(* ===== verification/Printk.v ===== *)
(** * Formatted output: [libs/printk.c]

    [mini_itoa] and [mini_vsnprintf] with their buffers as lists of bytes and
    every store explicit; [printx] is the body shared by [printk], [printf] and
    [printks], which differ only in the routine that receives the text.  The
    specification is [render], the text a format denotes, and the main theorem
    is that the buffer ends up with exactly its longest prefix that fits. *)

From S2P Require Import Prelude CString.

(** ** The functions *)

Fixpoint mini_strlen (s : bytes) : outcome Z :=
  match s with
  | [] => Fault OutOfBounds
  | c :: s => if c =? 0 then Ok 0 else n ← mini_strlen s; Ok (n + 1)
  end.

Definition digit_char (uppercase : bool) (digit : Z) : Z :=
  if digit <? 10 then 48 + digit else (if uppercase then 65 else 97) + digit - 10.

(** The [do ... while (value > 0)] loop, writing at index [p] of [buffer]. *)
Fixpoint itoa_loop (fuel : nat) (radix : Z) (uppercase : bool) (value : Z)
    (buffer : bytes) (p : Z) : outcome (bytes * Z) :=
  match fuel with
  | O => OutOfFuel
  | S fuel =>
      let digit := i32 (u32 value mod radix) in
      buffer ← aset buffer p (u8 (digit_char uppercase digit));
      let value := i32 (u32 value / radix) in
      if 0 <? value then itoa_loop fuel radix uppercase value buffer (p + 1)
      else Ok (buffer, p + 1)
  end.

Definition itoa_swap (len i : Z) (buffer : bytes) : outcome bytes :=
  j ← aget buffer i;
  k ← aget buffer (len - i - 1);
  buffer ← aset buffer i k;
  aset buffer (len - i - 1) j.

(** 33 rounds are enough for every radix of at least 2. *)
Definition mini_itoa (value radix : Z) (uppercase unsig : bool) (buffer : bytes)
    (zero_pad : Z) : outcome (bytes * Z) :=
  if 16 <? radix then Ok (buffer, 0)
  else if radix =? 0 then Fault DivisionByZero
  else
    let negative := (value <? 0) && negb unsig in
    let value := if negative then i32 (- value) else value in
    '(buffer, p) ← itoa_loop 33 radix uppercase value buffer 0;
    '(buffer, p) ← for_range p zero_pad (λ _ '(buffer, p),
       buffer ← aset buffer p 48; Ok (buffer, p + 1)) (buffer, p);
    '(buffer, p) ← (if negative : bool then buffer ← aset buffer p 45; Ok (buffer, p + 1)
                    else Ok (buffer, p));
    buffer ← aset buffer p 0;
    let len := p in
    buffer ← for_range 0 (len / 2) (itoa_swap len) buffer;
    Ok (buffer, len).

Record mini_buff := MiniBuff {
  buffer : bytes;
  pbuffer : Z;       (* the index of [pbuffer] in [buffer] *)
  buffer_len : Z;
}.

Definition _putc (ch : Z) (b : mini_buff) : outcome (Z * mini_buff) :=
  if buffer_len b <=? u32 (pbuffer b + 1) then Ok (0, b)
  else
    buf ← aset (buffer b) (pbuffer b) (u8 ch);
    buf ← aset buf (pbuffer b + 1) 0;
    Ok (1, MiniBuff buf (pbuffer b + 1) (buffer_len b)).

Definition _puts (s : bytes) (len : Z) (b : mini_buff) : outcome (Z * mini_buff) :=
  let room := u32 (buffer_len b - pbuffer b - 1) in
  let len := if room <? len then room else len in
  '(buf, p) ← for_range 0 len (λ i '(buf, p),
     c ← aget s i; buf ← aset buf p c; Ok (buf, p + 1)) (buffer b, pbuffer b);
  buf ← aset buf p 0;
  Ok (len, MiniBuff buf p (buffer_len b)).

(** The variadic arguments: integers, or pointers to strings. *)
Inductive arg := ArgInt (z : Z) | ArgStr (p : bytes).

Definition va_arg_int (va : list arg) : outcome (Z * list arg) :=
  match va with ArgInt z :: va => Ok (z, va) | _ => Fault Uninitialised end.

Definition va_arg_str (va : list arg) : outcome (bytes * list arg) :=
  match va with ArgStr p :: va => Ok (p, va) | _ => Fault Uninitialised end.

(** The [switch] on the conversion character; [None] is [goto end].  [bf] is
    the local array of 24 bytes. *)
Definition convert (ch zero_pad : Z) (bf : bytes) (va : list arg) (b : mini_buff) :
    outcome (option (list arg * mini_buff)) :=
  if ch =? 0 then Ok None
  else if (ch =? 117) || (ch =? 100) then
    '(v, va) ← va_arg_int va;
    '(bf, len) ← mini_itoa (i32 v) 10 false (ch =? 117) bf zero_pad;
    '(_, b) ← _puts bf len b;
    Ok (Some (va, b))
  else if (ch =? 120) || (ch =? 88) then
    '(v, va) ← va_arg_int va;
    '(bf, len) ← mini_itoa (i32 v) 16 (ch =? 88) true bf zero_pad;
    '(_, b) ← _puts bf len b;
    Ok (Some (va, b))
  else if ch =? 99 then
    '(v, va) ← va_arg_int va;
    '(_, b) ← _putc (i8 v) b;
    Ok (Some (va, b))
  else if ch =? 115 then
    '(ptr, va) ← va_arg_str va;
    len ← mini_strlen ptr;
    '(_, b) ← _puts ptr len b;
    Ok (Some (va, b))
  else
    '(_, b) ← _putc ch b;
    Ok (Some (va, b)).

Fixpoint vsnprintf_loop (fmt bf : bytes) (va : list arg) (b : mini_buff) :
    outcome mini_buff :=
  match fmt with
  | [] => Fault OutOfBounds
  | ch :: fmt =>
      if ch =? 0 then Ok b
      else if buffer_len b <=? u32 (pbuffer b + 1) then Ok b
      else if negb (ch =? 37) then
        '(_, b) ← _putc ch b;
        vsnprintf_loop fmt bf va b
      else
        match fmt with
        | [] => Fault OutOfBounds
        | ch :: fmt =>
            if ch =? 48 then
              match fmt with
              | [] => Fault OutOfBounds
              | ch :: fmt =>
                  if ch =? 0 then Ok b
                  else
                    let zero_pad :=
                      if (48 <=? ch) && (ch <=? 57) then ch - 48 else 0 in
                    match fmt with
                    | [] => Fault OutOfBounds
                    | ch :: fmt =>
                        r ← convert ch zero_pad bf va b;
                        match r with
                        | None => Ok b
                        | Some (va, b) => vsnprintf_loop fmt bf va b
                        end
                    end
              end
            else
              r ← convert ch 0 bf va b;
              match r with
              | None => Ok b
              | Some (va, b) => vsnprintf_loop fmt bf va b
              end
        end
  end.

(** [bf] is uninitialised stack memory: any 24 bytes. *)
Definition mini_vsnprintf (buf : bytes) (len : Z) (fmt : bytes) (va : list arg)
    (bf : bytes) : outcome (bytes * Z) :=
  b ← vsnprintf_loop fmt bf va (MiniBuff buf 0 len);
  Ok (buffer b, pbuffer b).

(** The common body of [printk], [printf] and [printks]: [buff] is their local
    array of 256 bytes and [write] the routine that receives the text. *)
Definition printx {W} (write : bytes → W → outcome W) (buff bf fmt : bytes)
    (va : list arg) (w : W) : outcome (Z * W) :=
  '(buff, ret) ← mini_vsnprintf buff 256 fmt va bf;
  buff ← aset buff ret 0;
  w ← write buff w;
  Ok (ret, w).

(** Calls of other components whose effect is on the screen or the console; their
    callers record them in their order. *)
Inductive message := Printk (fmt : bytes) (args : list arg)
                   | Printks (fmt : bytes) (args : list arg)
                   | Screen_reflush.

(** ** The text a format denotes *)

(** The digits of [n], the least significant first. *)
Fixpoint digits (fuel : nat) (radix n : Z) : list Z :=
  match fuel with
  | O => []
  | S fuel =>
      n mod radix :: (if 0 <? n / radix then digits fuel radix (n / radix) else [])
  end.

Definition itoa_text (value radix : Z) (uppercase unsig : bool) (zero_pad : Z) : bytes :=
  let negative := (value <? 0) && negb unsig in
  let ds := map (digit_char uppercase)
    (digits 33 radix (if negative then - value else u32 value)) in
  (if negative then [45] else []) ++
  replicate (Z.to_nat zero_pad - length ds) 48 ++ reverse ds.

(** The text of one conversion with the arguments it leaves. *)
Definition convert_text (ch zero_pad : Z) (va : list arg) :
    outcome (option (bytes * list arg)) :=
  if ch =? 0 then Ok None
  else if (ch =? 117) || (ch =? 100) then
    '(v, va) ← va_arg_int va; Ok (Some (itoa_text (i32 v) 10 false (ch =? 117) zero_pad, va))
  else if (ch =? 120) || (ch =? 88) then
    '(v, va) ← va_arg_int va; Ok (Some (itoa_text (i32 v) 16 (ch =? 88) true zero_pad, va))
  else if ch =? 99 then
    '(v, va) ← va_arg_int va; Ok (Some ([u8 v], va))
  else if ch =? 115 then
    '(p, va) ← va_arg_str va; s ← read_cstr p; Ok (Some (s, va))
  else Ok (Some ([ch], va)).

(** A format is split into characters and conversions ([zero_pad], char). *)
Inductive item := Char (ch : Z) | Conv (zero_pad ch : Z).

Fixpoint parse (fmt : bytes) : outcome (list item) :=
  match fmt with
  | [] => Fault OutOfBounds
  | ch :: fmt =>
      if ch =? 0 then Ok []
      else if negb (ch =? 37) then is_ ← parse fmt; Ok (Char ch :: is_)
      else
        match fmt with
        | [] => Fault OutOfBounds
        | ch :: fmt =>
            if ch =? 48 then
              match fmt with
              | [] => Fault OutOfBounds
              | d :: fmt =>
                  if d =? 0 then Ok []
                  else
                    match fmt with
                    | [] => Fault OutOfBounds
                    | ch :: fmt =>
                        if ch =? 0 then Ok []
                        else is_ ← parse fmt;
                          Ok (Conv (if (48 <=? d) && (d <=? 57) then d - 48 else 0) ch :: is_)
                    end
              end
            else if ch =? 0 then Ok []
            else is_ ← parse fmt; Ok (Conv 0 ch :: is_)
        end
  end.

Fixpoint render (items : list item) (va : list arg) : outcome bytes :=
  match items with
  | [] => Ok []
  | Char ch :: items => t ← render items va; Ok (ch :: t)
  | Conv pad ch :: items =>
      r ← convert_text ch pad va;
      match r with
      | None => Ok []
      | Some (t1, va) => t2 ← render items va; Ok (t1 ++ t2)
      end
  end.

(** ** Runs of stores *)

(** A loop that appends the characters [xs] after [pre]. *)
Lemma append_loop (f : Z → outcome Z) lo (pre xs rest : bytes) :
  (length xs ≤ length rest)%nat →
  (∀ i x, xs !! i = Some x → f (lo + Z.of_nat i) = Ok x) →
  for_range lo (lo + Z.of_nat (length xs)) (λ i '(buffer, p),
      c ← f i; buffer ← aset buffer p c; Ok (buffer, p + 1))
    (pre ++ rest, Z.of_nat (length pre)) =
  Ok (pre ++ xs ++ drop (length xs) rest, Z.of_nat (length pre + length xs)).
Proof.
  revert lo pre rest. induction xs as [|x xs IH]; intros lo pre rest Hl Hf.
  - rewrite for_range_nil by len. simpl. by rewrite drop_0, Nat.add_0_r.
  - destruct rest as [|y rest]; simpl in Hl; [lia|].
    rewrite for_range_cons by len.
    replace (f lo) with (Ok x) by (rewrite <- (Hf 0%nat x) by done; f_equal; lia).
    rewrite !bind_Ok, aset_app_length, !bind_Ok.
    replace (pre ++ x :: rest) with ((pre ++ [x]) ++ rest) by by rewrite <- (assoc_L (++)).
    replace (Z.of_nat (length pre) + 1) with (Z.of_nat (length (pre ++ [x]))) by len.
    replace (lo + Z.of_nat (length (x :: xs)))
      with (lo + 1 + Z.of_nat (length xs)) by len.
    rewrite IH; [|lia|].
    + rewrite <- (assoc_L (++)). simpl. do 2 f_equal. len.
    + intros i c Hi. rewrite <- (Hf (S i) c) by done. f_equal. lia.
Qed.

(** The swapping loop reverses the text. *)
Lemma reverse_loop (t rest : bytes) :
  for_range 0 (Z.of_nat (length t) / 2) (itoa_swap (Z.of_nat (length t))) (t ++ rest) =
  Ok (reverse t ++ rest).
Proof.
  set (n := length t).
  set (Q := λ (i : Z) (b : bytes), ∀ k : nat, b !! k =
    if decide (Z.of_nat k < i ∨ Z.of_nat n - i ≤ Z.of_nat k < Z.of_nat n)
    then t !! (n - 1 - k)%nat else (t ++ rest) !! k).
  assert (Z.of_nat n / 2 * 2 ≤ Z.of_nat n) as Hdiv
    by (Z.to_euclidean_division_equations; lia).
  assert (Hodd : Z.of_nat n < Z.of_nat n / 2 * 2 + 2)
    by (Z.to_euclidean_division_equations; lia).
  destruct (for_range_inv Q 0 (Z.of_nat n / 2) (itoa_swap (Z.of_nat n)) (t ++ rest))
    as (b & -> & Hb).
  - apply Z.div_pos; lia.
  - intros k. by rewrite decide_False by lia.
  - intros i b Hi Hb.
    assert (∀ k : nat, i ≤ Z.of_nat k < Z.of_nat n - i → b !! k = t !! k) as Hmid.
    { intros k ?. rewrite Hb, decide_False by lia.
      apply lookup_app_l. fold n. lia. }
    destruct (lookup_lt_is_Some_2 t (Z.to_nat i)) as [j Hj]; [fold n; lia|].
    destruct (lookup_lt_is_Some_2 t (n - 1 - Z.to_nat i)) as [k Hk]; [fold n; lia|].
    assert (aget b i = Ok j) as Hgi.
    { apply aget_Ok. split; [lia|]. rewrite Hmid by lia. done. }
    assert (aget b (Z.of_nat n - i - 1) = Ok k) as Hgk.
    { apply aget_Ok. split; [lia|].
      replace (Z.to_nat (Z.of_nat n - i - 1)) with (n - 1 - Z.to_nat i)%nat by lia.
      rewrite Hmid by lia. done. }
    apply aget_bound in Hgi as Hbi. apply aget_bound in Hgk as Hbk.
    unfold itoa_swap. rewrite Hgi, bind_Ok, Hgk, bind_Ok, aset_total, bind_Ok by lia.
    rewrite aset_total by len. eexists; split; [done|].
    intros m. rewrite !list_lookup_insert, length_insert.
    destruct (decide (m = n - 1 - Z.to_nat i)%nat) as [->|].
    + rewrite decide_True by lia. rewrite decide_True by lia.
      by replace (n - 1 - (n - 1 - Z.to_nat i))%nat with (Z.to_nat i) by lia.
    + rewrite decide_False by lia. destruct (decide (m = Z.to_nat i)) as [->|].
      * rewrite decide_True by lia. by rewrite decide_True by lia.
      * rewrite decide_False by lia. rewrite Hb.
        repeat case_decide; try done; lia.
  - f_equal. apply list_eq. intros k. rewrite Hb.
    destruct (decide (k < n)%nat).
    + rewrite (lookup_app_l (reverse t)) by (rewrite length_reverse; fold n; lia).
      rewrite reverse_lookup by (fold n; lia). fold n.
      case_decide.
      * f_equal. lia.
      * rewrite lookup_app_l by (fold n; lia). f_equal. lia.
    + rewrite decide_False by lia.
      rewrite !lookup_app_r by (rewrite ?length_reverse; fold n; lia).
      by rewrite length_reverse.
Qed.

(** ** Digits *)

Lemma digits_bound fuel radix n :
  0 < radix → Forall (λ d, 0 ≤ d < radix) (digits fuel radix n).
Proof.
  intros Hr. revert n. induction fuel as [|fuel IH]; intros n; simpl; constructor.
  - by apply Z.mod_pos_bound.
  - case_match; [apply IH|constructor].
Qed.

Lemma digits_length fuel radix n (k : nat) :
  1 < radix → 0 ≤ n < radix ^ Z.of_nat (S k) → (length (digits fuel radix n) ≤ S k)%nat.
Proof.
  intros Hr. revert k n. induction fuel as [|fuel IH]; intros k n Hn; simpl; [lia|].
  destruct (Z.ltb_spec 0 (n / radix)) as [Hq|]; simpl; [|lia].
  destruct k as [|k].
  - rewrite Z.pow_1_r in Hn. rewrite Z.div_small in Hq by lia. lia.
  - apply le_n_S, IH. split; [lia|]. apply Z.div_lt_upper_bound; [lia|].
    rewrite <- Z.pow_succ_r by lia. rewrite <- Nat2Z.inj_succ. lia.
Qed.

(** The number that a list of digits, the least significant first, stands for. *)
Fixpoint digits_value (radix : Z) (ds : list Z) : Z :=
  match ds with [] => 0 | d :: ds => d + radix * digits_value radix ds end.

Lemma digits_value_digits fuel radix n :
  1 < radix → 0 ≤ n < radix ^ Z.of_nat fuel → digits_value radix (digits fuel radix n) = n.
Proof.
  intros Hr. revert n. induction fuel as [|fuel IH]; intros n Hn; simpl.
  - change (radix ^ Z.of_nat 0) with 1 in Hn. lia.
  - assert (0 ≤ n / radix) by (apply Z.div_pos; lia).
    destruct (Z.ltb_spec 0 (n / radix)); simpl.
    + rewrite IH; [rewrite (Z.div_mod n radix) at 3; lia|]. split; [lia|].
      apply Z.div_lt_upper_bound; [lia|]. rewrite <- Z.pow_succ_r by lia.
      rewrite <- Nat2Z.inj_succ. lia.
    + rewrite (Z.div_mod n radix) at 2; lia.
Qed.

Lemma digit_char_byte uppercase d : 0 ≤ d < 16 → 48 ≤ digit_char uppercase d < 103.
Proof. unfold digit_char. case_match; destruct uppercase; lia. Qed.

(** ** [mini_itoa] *)

Lemma itoa_loop_spec fuel radix uppercase value pre rest :
  2 ≤ radix ≤ 16 → u32 value < radix ^ Z.of_nat fuel → (0 < fuel)%nat →
  let ds := map (digit_char uppercase) (digits fuel radix (u32 value)) in
  (length ds ≤ length rest)%nat →
  itoa_loop fuel radix uppercase value (pre ++ rest) (Z.of_nat (length pre)) =
    Ok (pre ++ ds ++ drop (length ds) rest, Z.of_nat (length pre + length ds)).
Proof.
  intros Hr Hv Hf. revert value pre rest Hv Hf.
  induction fuel as [|fuel IH]; intros value pre rest Hv Hf ds Hl; [lia|].
  pose proof (u32_range value) as Hu. subst ds. simpl in *.
  destruct rest as [|y rest]; simpl in Hl; [lia|].
  pose proof (Z.mod_pos_bound (u32 value) radix ltac:(lia)) as Hm.
  rewrite (i32_small (_ mod _)) by lia.
  rewrite u8_small by (pose proof (digit_char_byte uppercase (u32 value mod radix)); lia).
  rewrite aset_app_length, bind_Ok.
  assert (0 ≤ u32 value / radix < 2 ^ 31) as Hq.
  { split; [apply Z.div_pos; lia|]. apply Z.div_lt_upper_bound; lia. }
  rewrite i32_small by lia.
  destruct (Z.ltb_spec 0 (u32 value / radix)) as [Hpos|]; simpl in *.
  - replace (pre ++ digit_char uppercase (u32 value mod radix) :: rest) with
      ((pre ++ [digit_char uppercase (u32 value mod radix)]) ++ rest)
      by by rewrite <- (assoc_L (++)).
    replace (Z.of_nat (length pre) + 1) with
      (Z.of_nat (length (pre ++ [digit_char uppercase (u32 value mod radix)]))) by len.
    assert (u32 (u32 value / radix) = u32 value / radix) as Hid by (apply u32_small; lia).
    assert (u32 value / radix < radix ^ Z.of_nat fuel) as Hlt.
    { apply Z.div_lt_upper_bound; [lia|]. rewrite <- Z.pow_succ_r by lia.
      rewrite <- Nat2Z.inj_succ. lia. }
    assert (0 < fuel)%nat.
    { destruct (decide (fuel = 0%nat)) as [->|]; [|lia].
      change (Z.of_nat 0) with 0 in Hlt. rewrite Z.pow_0_r in Hlt. lia. }
    rewrite IH; rewrite ?Hid; [|done..|lia].
    rewrite <- (assoc_L (++)). simpl. do 2 f_equal. len.
  - rewrite drop_0. do 2 f_equal. lia.
Qed.

#[local] Opaque digits.

Lemma u32_i32 x : u32 (i32 x) = u32 x.
Proof.
  unfold u32, i32. change (2 ^ 31) with 2147483648. change (2 ^ 32) with 4294967296.
  Z.to_euclidean_division_equations. lia.
Qed.

(** The magnitude whose digits are printed. *)
Lemma itoa_magnitude value unsig :
  - 2 ^ 31 ≤ value < 2 ^ 31 →
  u32 (if (value <? 0) && negb unsig then i32 (- value) else value) =
  (if (value <? 0) && negb unsig then - value else u32 value).
Proof.
  intros. case_match eqn:Hn; [|done].
  rewrite u32_i32, u32_small; [done|]. apply andb_true_iff in Hn as [?%Z.ltb_lt _]. lia.
Qed.

Lemma itoa_magnitude_bound value (radix : Z) unsig :
  2 ≤ radix → - 2 ^ 31 ≤ value < 2 ^ 31 →
  0 ≤ (if (value <? 0) && negb unsig then - value else u32 value) < radix ^ 32.
Proof.
  intros Hr Hv. assert (2 ^ 32 ≤ radix ^ 32) by (apply Z.pow_le_mono_l; lia).
  case_match eqn:Hn.
  - apply andb_true_iff in Hn as [?%Z.ltb_lt _]. lia.
  - pose proof (u32_range value). lia.
Qed.

Lemma pad_loop (p : nat) zero_pad (pre rest : bytes) :
  length pre = p → (Z.to_nat zero_pad - p ≤ length rest)%nat →
  for_range (Z.of_nat p) zero_pad (λ _ '(buffer, p),
      buffer ← aset buffer p 48; Ok (buffer, p + 1)) (pre ++ rest, Z.of_nat p) =
  Ok (pre ++ replicate (Z.to_nat zero_pad - p) 48 ++ drop (Z.to_nat zero_pad - p) rest,
      Z.of_nat (p + (Z.to_nat zero_pad - p))).
Proof.
  intros <- Hl. destruct (decide (zero_pad ≤ Z.of_nat (length pre))).
  - rewrite for_range_nil by lia.
    replace (Z.to_nat zero_pad - length pre)%nat with 0%nat by lia.
    simpl. by rewrite drop_0, Nat.add_0_r.
  - set (k := (Z.to_nat zero_pad - length pre)%nat) in *.
    pose proof (append_loop (λ _, Ok 48) (Z.of_nat (length pre)) pre (replicate k 48) rest)
      as Happ.
    rewrite length_replicate in Happ.
    replace (Z.of_nat (length pre) + Z.of_nat k) with zero_pad in Happ by lia.
    apply Happ; [lia|]. by intros i x [-> _]%lookup_replicate.
Qed.

(** The text of a number, and no store beyond its terminator. *)
Lemma mini_itoa_text value radix uppercase unsig bf zero_pad :
  2 ≤ radix ≤ 16 → - 2 ^ 31 ≤ value < 2 ^ 31 → 0 ≤ zero_pad →
  let t := itoa_text value radix uppercase unsig zero_pad in
  (length t < length bf)%nat →
  mini_itoa value radix uppercase unsig bf zero_pad =
    Ok (splice bf 0 (t ++ [0]), Z.of_nat (length t)).
Proof.
  intros Hr Hv Hz t Ht. unfold mini_itoa.
  destruct (Z.ltb_spec 16 radix); [lia|]. destruct (Z.eqb_spec radix 0); [lia|].
  set (neg := (value <? 0) && negb unsig) in *.
  pose proof (itoa_magnitude value unsig Hv) as Hmag. fold neg in Hmag.
  pose proof (itoa_magnitude_bound value radix unsig ltac:(lia) Hv) as Hb. fold neg in Hb.
  set (mag := if neg then - value else u32 value) in *.
  set (ds := map (digit_char uppercase) (digits 33 radix mag)).
  set (zs := replicate (Z.to_nat zero_pad - length ds) 48).
  set (sign := if neg then [45] else []).
  assert (t = sign ++ zs ++ reverse ds) as Et by done. clearbody t. subst t.
  rewrite !length_app, length_reverse in Ht. subst zs. rewrite length_replicate in Ht.
  set (zn := (Z.to_nat zero_pad - length ds)%nat) in *.
  pose proof (itoa_loop_spec 33 radix uppercase (if neg then i32 (- value) else value)
    [] bf) as Hloop. rewrite Hmag in Hloop. fold ds in Hloop.
  change (Z.of_nat (length (@nil Z))) with 0 in Hloop.
  change ([] ++ ?l) with l in Hloop. change (length (@nil Z) + ?m)%nat with m in Hloop.
  rewrite Hloop; [|lia| |lia|lia].
  2:{ transitivity (radix ^ 32); [lia|]. apply Z.pow_lt_mono_r; lia. }
  rewrite bind_Ok. clear Hloop Hmag Hb. clearbody ds.
  rewrite (pad_loop (length ds)) by len. fold zn. rewrite bind_Ok.
  set (rest := drop zn (drop (length ds) bf)).
  assert (length rest = length bf - length ds - zn)%nat as Hrest by (subst rest; len).
  rewrite (assoc_L (++)).
  set (body := (ds ++ replicate zn 48) ++ sign).
  assert ((if neg
     then buffer0 ← aset ((ds ++ replicate zn 48) ++ rest) (Z.of_nat (length ds + zn)) 45;
          Ok (buffer0, Z.of_nat (length ds + zn) + 1)
     else Ok ((ds ++ replicate zn 48) ++ rest, Z.of_nat (length ds + zn))) =
    Ok (body ++ drop (length sign) rest, Z.of_nat (length body))) as ->.
  { subst body sign. replace (length ds + zn)%nat with (length (ds ++ replicate zn 48)) by len.
    destruct neg.
    - destruct rest as [|y rest]; [simpl in *; lia|].
      rewrite aset_app_length, bind_Ok, <- (assoc_L (++)). simpl. rewrite drop_0. do 2 f_equal; [|len]. by rewrite <- !(assoc_L (++)).
    - simpl. by rewrite app_nil_r, drop_0. }
  rewrite bind_Ok.
  destruct (drop (length sign) rest) as [|y rest'] eqn:Hd.
  { apply (f_equal length) in Hd. rewrite length_drop in Hd. simpl in Hd. lia. }
  rewrite aset_app_length, bind_Ok, reverse_loop, bind_Ok.
  assert (length body = length sign + (zn + length ds))%nat as Hlb by (subst body; len).
  rewrite !length_app, length_reverse, length_replicate, Hlb. do 2 f_equal.
  unfold splice. change (Z.to_nat 0) with 0%nat. rewrite take_0. simpl app.
  subst body. rewrite !reverse_app, reverse_replicate.
  assert (reverse sign = sign) as -> by (subst sign; by destruct neg).
  rewrite <- !(assoc_L (++)). do 3 f_equal. simpl. f_equal.
  apply (f_equal (drop 1)) in Hd. simpl in Hd. rewrite drop_0 in Hd. rewrite <- Hd. subst rest.
  rewrite !drop_drop. f_equal. len.
Qed.

Lemma itoa_text_length value radix uppercase unsig zero_pad (k : nat) :
  2 ≤ radix ≤ 16 → - 2 ^ 31 ≤ value < 2 ^ 31 → (1 ≤ k)%nat → 2 ^ 32 ≤ radix ^ Z.of_nat k →
  zero_pad ≤ Z.of_nat k →
  (length (itoa_text value radix uppercase unsig zero_pad) ≤ k + 1)%nat.
Proof.
  intros Hr Hv Hk Hpow Hz. unfold itoa_text.
  rewrite !length_app, length_replicate, length_reverse, length_map.
  pose proof (digits_length 33 radix
    (if (value <? 0) && negb unsig then - value else u32 value) (k - 1)) as Hd.
  replace (S (k - 1)) with k in Hd by lia.
  specialize (Hd ltac:(lia)).
  destruct ((value <? 0) && negb unsig) eqn:Hn; simpl length.
  - apply andb_true_iff in Hn as [?%Z.ltb_lt _]. lia.
  - pose proof (u32_range value). lia.
Qed.

(** ** Reading a printed number back *)

Lemma i32_cong x y : (x - y) mod 2 ^ 32 = 0 → i32 x = i32 y.
Proof.
  unfold i32. change (2 ^ 31) with 2147483648. change (2 ^ 32) with 4294967296.
  intros. Z.to_euclidean_division_equations. lia.
Qed.

Lemma i32_mod x : (i32 x - x) mod 2 ^ 32 = 0.
Proof.
  unfold i32. change (2 ^ 31) with 2147483648. change (2 ^ 32) with 4294967296.
  intros. Z.to_euclidean_division_equations. lia.
Qed.

Lemma i32_horner a d : i32 (i32 a * 10 + d) = i32 (a * 10 + d).
Proof.
  apply i32_cong. replace (i32 a * 10 + d - (a * 10 + d)) with ((i32 a - a) * 10) by lia.
  rewrite Z.mul_mod, i32_mod by lia. done.
Qed.

Lemma i32_opp m : i32 (-1 * i32 m) = i32 (- m).
Proof.
  apply i32_cong. replace (-1 * i32 m - - m) with ((i32 m - m) * -1) by lia.
  rewrite Z.mul_mod, i32_mod by lia. done.
Qed.

Definition decimal (c : Z) : Prop := 48 ≤ c < 58.

Lemma atoi_digits_decimal cs rest a :
  Forall decimal cs →
  atoi_digits (cs ++ 0 :: rest) 10 (i32 a) =
    Ok (i32 (foldl (λ a c, a * 10 + (c - 48)) a cs)).
Proof.
  intros Hcs. revert a. induction Hcs as [|c cs Hc _ IH]; intros a; [done|].
  unfold decimal in Hc. simpl.
  destruct (Z.eqb_spec c 0); [lia|]. destruct (Z.eqb_spec c 32); [lia|].
  rewrite i8_small by lia.
  replace (i32 a * 10 + c - 48) with (i32 a * 10 + (c - 48)) by lia.
  rewrite i32_horner. apply IH.
Qed.

(** The value of a text of decimal digits. *)
Definition decimal_value (cs : bytes) : Z := foldl (λ a c, a * 10 + (c - 48)) 0 cs.

Lemma atoi_magnitude c cs rest :
  Forall decimal (c :: cs) →
  atoi_base (c :: cs ++ 0 :: rest) = Ok (10, c :: cs ++ 0 :: rest) ∧
  atoi_digits (c :: cs ++ 0 :: rest) 10 0 = Ok (i32 (decimal_value (c :: cs))).
Proof.
  intros Hcs. split; [|exact (atoi_digits_decimal (c :: cs) rest 0 Hcs)].
  apply Forall_cons in Hcs as [Hc Htl]. unfold decimal in Hc. unfold atoi_base. simpl.
  destruct (Z.eqb_spec c 48); [|done]. destruct cs as [|d cs]; simpl; [done|].
  apply Forall_cons in Htl as [Hd _]. unfold decimal in Hd.
  destruct (Z.eqb_spec d 120); [lia|]. by destruct (Z.eqb_spec d 98); [lia|].
Qed.

Lemma atoi_decimal cs rest :
  cs ≠ [] → Forall decimal cs → atoi (cs ++ 0 :: rest) = Ok (i32 (decimal_value cs)).
Proof.
  destruct cs as [|c cs]; [done|]. intros _ Hcs.
  destruct (atoi_magnitude c cs rest Hcs) as [Hbase Hds].
  apply Forall_cons in Hcs as [Hc _]. unfold decimal in Hc. unfold atoi. simpl.
  destruct (Z.eqb_spec c 32); [lia|]. simpl. destruct (Z.eqb_spec c 45); [lia|].
  rewrite Hbase, bind_Ok, Hds, bind_Ok. f_equal. rewrite Z.mul_1_l. apply i32_cong, i32_mod.
Qed.

Lemma atoi_negative cs rest :
  cs ≠ [] → Forall decimal cs →
  atoi (45 :: cs ++ 0 :: rest) = Ok (i32 (- decimal_value cs)).
Proof.
  destruct cs as [|c cs]; [done|]. intros _ Hcs.
  destruct (atoi_magnitude c cs rest Hcs) as [Hbase Hds].
  unfold atoi. simpl. rewrite Hbase, bind_Ok, Hds, bind_Ok. f_equal. apply i32_opp.
Qed.

Lemma digit_char_decimal d : 0 ≤ d < 10 → decimal (digit_char false d).
Proof. unfold decimal, digit_char. intros. destruct (Z.ltb_spec d 10); lia. Qed.

Lemma decimal_value_digits ds :
  Forall (λ d, 0 ≤ d < 10) ds →
  decimal_value (reverse (map (digit_char false) ds)) = digits_value 10 ds.
Proof.
  unfold decimal_value. induction 1 as [|d ds Hd _ IH]; [done|].
  rewrite map_cons, reverse_cons, foldl_app, IH. simpl. unfold digit_char.
  destruct (Z.ltb_spec d 10); lia.
Qed.

Lemma decimal_value_zeros n cs : decimal_value (replicate n 48 ++ cs) = decimal_value cs.
Proof. unfold decimal_value. induction n; [done|]. simpl. done. Qed.

(** [atoi] reads back what [mini_itoa] writes: every 32-bit integer
    printed in decimal, with up to ten padding zeros, into the 24 bytes the
    caller provides, without a store outside them. *)
Theorem atoi_itoa v zero_pad bf rest :
  - 2 ^ 31 ≤ v < 2 ^ 31 → 0 ≤ zero_pad ≤ 10 → (24 ≤ length bf)%nat →
  ∃ buf len, mini_itoa v 10 false false bf zero_pad = Ok (buf, len) ∧
    atoi (buf ++ rest) = Ok v.
Proof.
  intros Hv Hz Hbf.
  pose proof (itoa_text_length v 10 false false zero_pad 10) as Hl.
  specialize (Hl ltac:(lia) Hv ltac:(lia) ltac:(vm_compute; congruence) ltac:(lia)).
  rewrite mini_itoa_text by lia. eexists _, _. split; [done|].
  unfold splice. change (Z.to_nat 0) with 0%nat. rewrite take_0. simpl app.
  unfold itoa_text. rewrite andb_true_r.
  set (m := if v <? 0 then - v else u32 v).
  pose proof (itoa_magnitude_bound v 10 false ltac:(lia) Hv) as Hm.
  rewrite andb_true_r in Hm. fold m in Hm.
  set (n := (Z.to_nat zero_pad - _)%nat).
  set (cs := replicate n 48 ++ reverse (map (digit_char false) (digits 33 10 m))).
  assert (Forall decimal cs) as Hdec.
  { apply Forall_app; split; [apply Forall_replicate; unfold decimal; lia|].
    apply Forall_reverse, Forall_map. eapply Forall_impl; [apply digits_bound; lia|].
    apply digit_char_decimal. }
  assert (decimal_value cs = m) as Hval.
  { subst cs. rewrite decimal_value_zeros, decimal_value_digits by (apply digits_bound; lia).
    apply digits_value_digits; [lia|]. split; [lia|].
    transitivity (10 ^ 32); [lia|]. by vm_compute. }
  assert (cs ≠ []) as Hne.
  { subst cs. intros [_ Hr]%app_nil. apply (f_equal length) in Hr.
    by rewrite length_reverse, length_map in Hr. }
  clearbody cs. rewrite <- !(assoc_L (++)). simpl. subst m.
  destruct (Z.ltb_spec v 0); simpl.
  - rewrite atoi_negative, Hval by done. f_equal. rewrite Z.opp_involutive. by apply i32_small.
  - rewrite atoi_decimal, Hval by done. f_equal. rewrite u32_small by lia. by apply i32_small.
Qed.

Lemma atoi_itoa_witness :
  (24 ≤ length (replicate 24 0))%nat ∧
  ∃ buf len, mini_itoa (-1905) 10 false false (replicate 24 0) 6 = Ok (buf, len) ∧
    atoi (buf ++ []) = Ok (-1905).
Proof. split; [simpl; lia|]. apply atoi_itoa; simpl; lia. Defined.

(** ** [mini_vsnprintf] *)

(** The buffer holds the longest prefix of [t] that leaves room for the
    terminator. *)
Definition holds (L : nat) (t : bytes) (b : mini_buff) : Prop :=
  ∃ rest, b = MiniBuff (take (L - 1) t ++ rest) (Z.of_nat (length (take (L - 1) t)))
                (Z.of_nat L) ∧
  length (take (L - 1) t ++ rest) = L.

Section bounded.
Context (L : nat) (HL1 : (1 ≤ L)%nat) (HL2 : Z.of_nat L < 2 ^ 31).

Lemma holds_full t t' b :
  (L - 1 ≤ length t)%nat → holds L t b → holds L (t ++ t') b.
Proof. intros Ht. unfold holds. by rewrite take_app_le. Qed.

(** Either the buffer is full, or all of the text is in it. *)
Lemma holds_cases t b :
  holds L t b →
  ((L - 1 ≤ length t)%nat ∧ buffer_len b = Z.of_nat L ∧ pbuffer b = Z.of_nat (L - 1) ∧
    length (buffer b) = L) ∨
  ((length t < L - 1)%nat ∧ ∃ y z rest,
    b = MiniBuff (t ++ y :: z :: rest) (Z.of_nat (length t)) (Z.of_nat L) ∧
    length (t ++ y :: z :: rest) = L).
Proof.
  intros (rest & -> & Hlen). destruct (decide (L - 1 ≤ length t)%nat); [left|right].
  - simpl. rewrite length_take. split_and!; [done|done|f_equal; lia|done].
  - split; [lia|]. rewrite take_ge in * by lia. rewrite length_app in Hlen.
    destruct rest as [|y [|z rest]]; simpl in Hlen; [lia..|].
    exists y, z, rest. split; [done|]. rewrite length_app. done.
Qed.

Lemma holds_intro t rest :
  (length t ≤ L - 1)%nat → length (t ++ rest) = L →
  holds L t (MiniBuff (t ++ rest) (Z.of_nat (length t)) (Z.of_nat L)).
Proof. intros Ht Hl. exists rest. rewrite take_ge by lia. done. Qed.

Lemma _putc_spec ch t b :
  holds L t b → ∃ r b', _putc ch b = Ok (r, b') ∧ holds L (t ++ [u8 ch]) b'.
Proof.
  intros Hb. destruct (holds_cases t b Hb) as [(Hf & Hlen & Hp & _) | (Hf & y & z & rest & -> & Hl)];
    unfold _putc.
  - rewrite Hlen, Hp, u32_small by lia.
    destruct (Z.leb_spec (Z.of_nat L) (Z.of_nat (L - 1) + 1)); [|lia].
    eexists _, _. split; [done|]. by apply holds_full.
  - simpl. rewrite u32_small by lia.
    destruct (Z.leb_spec (Z.of_nat L) (Z.of_nat (length t) + 1)); [lia|].
    rewrite aset_app_length, bind_Ok.
    replace (t ++ u8 ch :: z :: rest) with ((t ++ [u8 ch]) ++ z :: rest)
      by by rewrite <- (assoc_L (++)).
    replace (Z.of_nat (length t) + 1) with (Z.of_nat (length (t ++ [u8 ch]))) by len.
    rewrite aset_app_length, bind_Ok. eexists _, _. split; [done|].
    apply holds_intro; len.
Qed.

Lemma _puts_spec xs more t b :
  holds L t b →
  ∃ r b', _puts (xs ++ more) (Z.of_nat (length xs)) b = Ok (r, b') ∧
    holds L (t ++ xs) b'.
Proof.
  intros (rest & -> & Hlen). unfold _puts. simpl.
  set (pre := take (L - 1) t) in *.
  assert (length pre = (L - 1) `min` length t)%nat as Hpre by (subst pre; len).
  rewrite length_app in Hlen. rewrite u32_small by lia.
  set (k := ((L - 1 - length t) `min` length xs)%nat).
  replace (if _ <? _ then _ else _) with (0 + Z.of_nat (length (take k xs)))
    by (rewrite length_take; case_match eqn:E; [apply Z.ltb_lt in E|apply Z.ltb_ge in E]; lia).
  rewrite append_loop; [|len|].
  2:{ intros i x [Hx ?]%lookup_take_Some. apply aget_Ok. split; [lia|].
      rewrite Z.add_0_l, Nat2Z.id. by apply lookup_app_l_Some. }
  rewrite bind_Ok.
  assert (take (L - 1) (t ++ xs) = pre ++ take k xs) as Htake.
  { rewrite take_app. fold pre. f_equal. subst k.
    destruct (decide (L - 1 - length t ≤ length xs)%nat).
    - by rewrite Nat.min_l by lia.
    - by rewrite Nat.min_r, !take_ge by lia. }
  destruct (drop (length (take k xs)) rest) as [|y rest'] eqn:Hd.
  { apply (f_equal length) in Hd. rewrite length_drop, length_take in Hd. simpl in Hd. lia. }
  rewrite (assoc_L (++)), <- length_app, aset_app_length, bind_Ok.
  eexists _, _. split; [done|]. exists (0 :: rest'). rewrite Htake. split; [done|].
  apply (f_equal length) in Hd. rewrite length_drop, length_take in Hd. len.
Qed.

Lemma u8_i8 v : u8 (i8 v) = u8 v.
Proof.
  unfold u8, i8. change (2 ^ 7) with 128. change (2 ^ 8) with 256.
  Z.to_euclidean_division_equations. lia.
Qed.

Lemma mini_strlen_eq s : mini_strlen s = strlen s.
Proof. induction s as [|c s IH]; simpl; [done|]. by rewrite IH. Qed.

(** A number goes through the local array [bf] of 24 bytes. *)
Lemma itoa_puts_spec v radix (uppercase unsig : bool) zero_pad bf t b :
  radix = 10 ∨ radix = 16 → 0 ≤ zero_pad ≤ 9 → length bf = 24%nat → holds L t b →
  ∃ bf' n r b',
    mini_itoa (i32 v) radix uppercase unsig bf zero_pad = Ok (bf', n) ∧
    _puts bf' n b = Ok (r, b') ∧
    holds L (t ++ itoa_text (i32 v) radix uppercase unsig zero_pad) b'.
Proof.
  intros Hr Hz Hbf Hb. set (text := itoa_text _ _ _ _ _).
  assert (length text ≤ 11)%nat as Hl.
  { apply (itoa_text_length _ _ _ _ _ 10); [lia|apply i32_range|lia| |lia].
    destruct Hr as [-> | ->]; by vm_compute. }
  rewrite mini_itoa_text; [|lia|apply i32_range|lia|fold text; lia]. fold text.
  assert (splice bf 0 (text ++ [0]) =
    text ++ [0] ++ drop (0 + length (text ++ [0])) bf) as ->.
  { unfold splice. change (Z.to_nat 0) with 0%nat.
    by rewrite take_0, app_nil_l, <- (assoc_L (++)). }
  eexists _, _.
  destruct (_puts_spec text ([0] ++ drop (0 + length (text ++ [0])) bf) t b Hb)
    as (r & b' & Hp & Hb').
  exists r, b'. done.
Qed.

Lemma convert_spec ch zero_pad bf va t b r :
  is_byte ch → 0 ≤ zero_pad ≤ 9 → length bf = 24%nat → holds L t b →
  convert_text ch zero_pad va = Ok r →
  match r with
  | None => convert ch zero_pad bf va b = Ok None
  | Some (text, va') => ∃ b',
      convert ch zero_pad bf va b = Ok (Some (va', b')) ∧ holds L (t ++ text) b'
  end.
Proof.
  intros Hch Hz Hbf Hb. unfold convert_text, convert.
  destruct (ch =? 0); [by intros [= <-]|].
  destruct ((ch =? 117) || (ch =? 100)).
  { intros ([v va'] & -> & [= <-])%bind_Ok_inv.
    destruct (itoa_puts_spec v 10 false (ch =? 117) zero_pad bf t b)
      as (bf' & n & r & b' & Hi & Hp & Hb'); [by left|done..|].
    rewrite bind_Ok, Hi, bind_Ok, Hp. eauto. }
  destruct ((ch =? 120) || (ch =? 88)).
  { intros ([v va'] & -> & [= <-])%bind_Ok_inv.
    destruct (itoa_puts_spec v 16 (ch =? 88) true zero_pad bf t b)
      as (bf' & n & r & b' & Hi & Hp & Hb'); [by right|done..|].
    rewrite bind_Ok, Hi, bind_Ok, Hp. eauto. }
  destruct (ch =? 99).
  { intros ([v va'] & -> & [= <-])%bind_Ok_inv.
    destruct (_putc_spec (i8 v) t b Hb) as (r & b' & Hp & Hb').
    rewrite bind_Ok, Hp, bind_Ok. rewrite u8_i8 in Hb'. eauto. }
  destruct (ch =? 115).
  { intros ([p va'] & -> & (s & Hs & [= <-])%bind_Ok_inv)%bind_Ok_inv.
    apply read_cstr_Ok in Hs. rewrite bind_Ok, mini_strlen_eq.
    rewrite (strlen_string p s Hs), bind_Ok. destruct Hs as [_ [rest ->]].
    destruct (_puts_spec s (0 :: rest) t b Hb) as (r & b' & Hp & Hb').
    rewrite Hp, bind_Ok. eauto. }
  intros [= <-]. destruct (_putc_spec ch t b Hb) as (r & b' & Hp & Hb').
  rewrite Hp, bind_Ok. rewrite u8_small in Hb' by done. eauto.
Qed.

Lemma vsnprintf_loop_spec fmt items bf va text t b :
  all_bytes fmt → length bf = 24%nat → holds L t b →
  parse fmt = Ok items → render items va = Ok text →
  ∃ b', vsnprintf_loop fmt bf va b = Ok b' ∧ holds L (t ++ text) b'.
Proof.
  intros Hfmt Hbf. remember (length fmt) as n eqn:Hn.
  revert fmt Hn Hfmt items va text t b.
  induction n as [n IH] using lt_wf_ind; intros fmt -> Hfmt items va text t b Hb.
  destruct fmt as [|ch fmt]; simpl; [done|].
  apply Forall_cons in Hfmt as [Hch Hfmt].
  destruct (ch =? 0).
  { intros [= <-] [= <-]. rewrite app_nil_r. eauto. }
  assert (Hstep : ∀ ch zero_pad fmt' items',
    is_byte ch → 0 ≤ zero_pad ≤ 9 → all_bytes fmt' → (length fmt' < S (length fmt))%nat →
    parse fmt' = Ok items' → render (Conv zero_pad ch :: items') va = Ok text →
    ∃ b', (r ← convert ch zero_pad bf va b;
           match r with
           | None => Ok b
           | Some (va, b) => vsnprintf_loop fmt' bf va b
           end) = Ok b' ∧ holds L (t ++ text) b').
  { intros c zero_pad fmt' items' Hc' Hz Hf Hl Hp (r & Hr & Htext)%bind_Ok_inv.
    pose proof (convert_spec c zero_pad bf va t b r Hc' Hz Hbf Hb Hr) as Hc.
    destruct r as [[text1 va']|].
    - destruct Hc as (b1 & -> & Hb1). rewrite bind_Ok.
      apply bind_Ok_inv in Htext as (text2 & Hr2 & [= <-]).
      destruct (IH _ Hl fmt' eq_refl Hf items' va' text2 (t ++ text1) b1 Hb1 Hp Hr2)
        as (b' & ? & ?).
      exists b'. by rewrite (assoc_L (++)).
    - injection Htext as <-. rewrite Hc, bind_Ok, app_nil_r. eauto. }
  intros Hparse Hrender.
  destruct (buffer_len b <=? u32 (pbuffer b + 1)) eqn:Hfull.
  { exists b. split; [done|]. apply Z.leb_le in Hfull. apply holds_full; [|done].
    destruct (holds_cases t b Hb) as [(? & _)|(? & y & z & rest & -> & Hl)]; [done|].
    simpl in Hfull. rewrite u32_small in Hfull by lia. lia. }
  destruct (ch =? 37); simpl in *.
  - destruct fmt as [|c fmt]; [done|]. apply Forall_cons in Hfmt as [Hc Hfmt].
    destruct (c =? 48).
    + destruct fmt as [|d fmt]; [done|]. apply Forall_cons in Hfmt as [Hd Hfmt].
      destruct (d =? 0).
      { injection Hparse as <-. injection Hrender as <-. rewrite app_nil_r. eauto. }
      destruct fmt as [|e fmt]; [done|]. apply Forall_cons in Hfmt as [He Hfmt].
      destruct (e =? 0) eqn:E0.
      { injection Hparse as <-. injection Hrender as <-. rewrite app_nil_r.
        unfold convert. rewrite E0. simpl. eauto. }
      apply bind_Ok_inv in Hparse as (items' & Hp & [= <-]).
      eapply Hstep; [done| |done|simpl; lia|done|done].
      destruct (Z.leb_spec 48 d), (Z.leb_spec d 57); simpl; lia.
    + destruct (c =? 0) eqn:E0.
      { injection Hparse as <-. injection Hrender as <-. rewrite app_nil_r.
        unfold convert. rewrite E0. simpl. eauto. }
      apply bind_Ok_inv in Hparse as (items' & Hp & [= <-]).
      eapply Hstep; [done|lia|done|simpl; lia|done|done].
  - apply bind_Ok_inv in Hparse as (items' & Hp & [= <-]). simpl in Hrender.
    apply bind_Ok_inv in Hrender as (text' & Hr & [= <-]).
    destruct (_putc_spec ch t b Hb) as (r & b1 & -> & Hb1). rewrite bind_Ok.
    rewrite u8_small in Hb1 by done.
    destruct (IH (length fmt) ltac:(lia) fmt eq_refl Hfmt items' va text' (t ++ [ch]) b1 Hb1 Hp Hr)
      as (b' & ? & ?).
    exists b'. split; [done|]. by rewrite cons_middle, (assoc_L (++)).
Qed.
End bounded.

Lemma mini_vsnprintf_spec buf bf fmt va items text :
  (1 ≤ length buf)%nat → Z.of_nat (length buf) < 2 ^ 31 → length bf = 24%nat →
  all_bytes fmt → parse fmt = Ok items → render items va = Ok text →
  ∃ buf' ret, mini_vsnprintf buf (Z.of_nat (length buf)) fmt va bf = Ok (buf', ret) ∧
    length buf' = length buf ∧ ret = Z.of_nat (length text) `min` (Z.of_nat (length buf) - 1) ∧
    take (Z.to_nat ret) buf' = take (Z.to_nat ret) text.
Proof.
  intros HL1 HL2 Hbf Hfmt Hp Hr.
  destruct (vsnprintf_loop_spec (length buf) HL1 HL2 fmt items bf va text []
    (MiniBuff buf 0 (Z.of_nat (length buf)))) as (b & Hrun & rest & -> & Hl); try done.
  { exists buf. by rewrite take_nil. }
  unfold mini_vsnprintf. rewrite Hrun, bind_Ok. simpl in *.
  eexists _, _. split; [done|]. split; [done|]. rewrite length_take. split; [lia|].
  rewrite Nat2Z.id, take_app_le by len. by rewrite take_take, Nat.min_l by lia.
Qed.

(** C36.  [mini_vsnprintf] never writes outside its buffer, whatever the length
    of the text: the buffer ends up with the longest prefix of the text the
    format denotes that leaves room for a terminator, and the return value is
    the length of that prefix. *)
Theorem mini_vsnprintf_exact buf bf fmt va items text :
  (1 ≤ length buf)%nat → Z.of_nat (length buf) < 2 ^ 31 → length bf = 24%nat →
  all_bytes fmt → parse fmt = Ok items → render items va = Ok text →
  ∃ buf' ret, mini_vsnprintf buf (Z.of_nat (length buf)) fmt va bf = Ok (buf', ret) ∧
    length buf' = length buf ∧ ret = Z.of_nat (length text) `min` (Z.of_nat (length buf) - 1) ∧
    take (Z.to_nat ret) buf' = take (Z.to_nat ret) text.
Proof. apply mini_vsnprintf_spec. Qed.

Lemma mini_vsnprintf_exact_witness :
  render [Char 97; Conv 0 99; Conv 0 115] [ArgInt 98; ArgStr (cstr "cde")] = Ok (str "abcde") ∧
  ∃ buf' ret, mini_vsnprintf (replicate 4 9) 4 (cstr "a%c%s") [ArgInt 98; ArgStr (cstr "cde")]
    (replicate 24 0) = Ok (buf', ret) ∧ take (Z.to_nat ret) buf' = str "abc".
Proof.
  assert (render [Char 97; Conv 0 99; Conv 0 115] [ArgInt 98; ArgStr (cstr "cde")] =
    Ok (str "abcde")) as Hr by done.
  split; [done|].
  destruct (mini_vsnprintf_exact (replicate 4 9) (replicate 24 0) (cstr "a%c%s") _ _ _
    ltac:(simpl; lia) ltac:(simpl; lia) eq_refl ltac:(by apply (bool_decide_unpack _))
    eq_refl Hr) as (buf' & ret & Hv & _ & Hret & Ht).
  exists buf', ret. split; [done|]. by rewrite Ht, Hret.
Defined.
