(* ===== verification/Algo.v ===== *)
(** * Sorting and balanced trees: [libs/algo.c]

    [qsort] works on an array of pointers; here the array holds any type with the
    comparison as a parameter, and [cmp_lock] compares locks by their ids.
    The tree functions work on a heap of nodes addressed by numbers. *)

From S2P Require Import Prelude.

(** ** [qsort] *)

Section qsort.
Context {A : Type} (cmp : A → A → Z).

(** One round of the partition loop; [last] is the last swapped position. *)
Definition qsort_step (i : Z) (st : list A * Z) : outcome (list A * Z) :=
  let '(b, last) := st in
  bi ← aget b i;
  bl ← aget b last;
  if cmp bi bl <? 0 then
    let tmp := bi in
    let last := last + 1 in
    bl ← aget b last;
    b ← aset b i bl;
    b ← aset b last tmp;
    Ok (b, last)
  else Ok (b, last).

Fixpoint qsort (fuel : nat) (a : list A) (left right : Z) : outcome (list A) :=
  match fuel with
  | O => OutOfFuel
  | S fuel =>
      if right <=? left then Ok a
      else
        '(b, last) ← for_range left (right + 1) qsort_step (a, left);
        tmp ← aget b left;
        bl ← aget b last;
        b ← aset b left bl;
        b ← aset b last tmp;
        b ← qsort fuel b left last;
        qsort fuel b (last + 1) right
  end.
End qsort.

(** [cmp_lock] on the ids of the two locks: an unsigned difference read back
    as a signed one. *)
Definition cmp_lock (a b : Z) : Z := i32 (u32 (a - b)).

(** ** Red-black trees *)

Definition RED : Z := 0.
Definition BLACK : Z := 1.

Abbreviation ptr := (option Z).

Record node_t := Node {
  color : Z;
  key : Z;
  parent : ptr;
  left : ptr;
  right : ptr;
}.

Abbreviation heap := (gmap Z node_t).

Definition load (h : heap) (p : ptr) : outcome node_t :=
  a ← deref p;
  match h !! a with Some n => Ok n | None => Fault BadPointer end.

(** [p->field = v], the fields one by one. *)
Definition update (f : node_t → node_t) (h : heap) (p : ptr) : outcome heap :=
  n ← load h p;
  a ← deref p;
  Ok (<[a := f n]> h).

Definition set_color (h : heap) (p : ptr) (c : Z) : outcome heap :=
  update (λ n, Node c (key n) (parent n) (left n) (right n)) h p.
Definition set_parent (h : heap) (p q : ptr) : outcome heap :=
  update (λ n, Node (color n) (key n) q (left n) (right n)) h p.
Definition set_left (h : heap) (p q : ptr) : outcome heap :=
  update (λ n, Node (color n) (key n) (parent n) q (right n)) h p.
Definition set_right (h : heap) (p q : ptr) : outcome heap :=
  update (λ n, Node (color n) (key n) (parent n) (left n) q) h p.

Definition get_parent (h : heap) (n : ptr) : outcome ptr :=
  match n with
  | None => Ok None
  | Some _ => x ← load h n; Ok (parent x)
  end.

Definition get_grandparent (h : heap) (n : ptr) : outcome ptr :=
  p ← get_parent h n; get_parent h p.

Definition get_sibling (h : heap) (n : ptr) : outcome ptr :=
  p ← get_parent h n;
  match p with
  | None => Ok None
  | Some _ =>
      x ← load h p;
      if decide (left x = n) then Ok (right x) else Ok (left x)
  end.

Definition get_uncle (h : heap) (n : ptr) : outcome ptr :=
  p ← get_parent h n; get_sibling h p.

(** The test of line 88 is the assignment [p->left = n]: it stores [n] in
    [p->left] and is true exactly when [n] is not null. *)
Definition rotate_left (h : heap) (n : ptr) : outcome heap :=
  x ← load h n;
  let nnew := right x in
  p ← get_parent h n;
  y ← load h nnew;
  h ← set_right h n (left y);
  h ← set_left h nnew n;
  h ← set_parent h n nnew;
  x ← load h n;
  h ← (match right x with
       | Some _ => set_parent h (right x) n
       | None => Ok h
       end);
  h ← (match p with
       | Some _ =>
           h ← set_left h p n;
           if decide (n ≠ None) then set_left h p nnew else set_right h p nnew
       | None => Ok h
       end);
  set_parent h nnew p.

Definition rotate_right (h : heap) (n : ptr) : outcome heap :=
  x ← load h n;
  let nnew := left x in
  p ← get_parent h n;
  y ← load h nnew;
  h ← set_left h n (right y);
  h ← set_right h nnew n;
  h ← set_parent h n nnew;
  x ← load h n;
  h ← (match left x with
       | Some _ => set_parent h (left x) n
       | None => Ok h
       end);
  h ← (match p with
       | Some _ =>
           z ← load h p;
           if decide (left z = n) then set_left h p nnew else set_right h p nnew
       | None => Ok h
       end);
  set_parent h nnew p.

(** The part of [insert_recurse] that "only leaf function calls reach". *)
Definition insert_leaf (h : heap) (root n : ptr) : outcome heap :=
  h ← set_parent h n root;
  h ← set_right h n None;
  h ← set_left h n None;
  set_color h n RED.

Fixpoint insert_recurse (fuel : nat) (h : heap) (root n : ptr) : outcome heap :=
  match fuel with
  | O => OutOfFuel
  | S fuel =>
      match root with
      | None => insert_leaf h root n
      | Some _ =>
          r ← load h root;
          x ← load h n;
          if key x <? key r then
            match left r with
            | Some _ => insert_recurse fuel h (left r) n
            | None => h ← set_left h root n; insert_leaf h root n
            end
          else
            match right r with
            | Some _ => insert_recurse fuel h (right r) n
            | None => h ← set_right h root n; insert_leaf h root n
            end
      end
  end.

(** The last branch of [insert_repair]: rotations and recolouring. *)
Definition insert_rotate (h : heap) (n : ptr) : outcome heap :=
  p ← get_parent h n;
  g ← get_grandparent h n;
  xg ← load h g;
  xp ← load h p;
  '(h, n) ←
    (if decide (left xg = p ∧ right xp = n) then
       h ← rotate_left h p; x ← load h n; Ok (h, left x)
     else if decide (right xg = p ∧ left xp = n) then
       h ← rotate_right h p; x ← load h n; Ok (h, right x)
     else Ok (h, n));
  p ← get_parent h n;
  g ← get_grandparent h n;
  xp ← load h p;
  h ← (if decide (left xp = n) then rotate_right h g
       else if decide (right xp = n) then rotate_left h g
       else Ok h);
  h ← set_color h p BLACK;
  set_color h g RED.

Fixpoint insert_repair (fuel : nat) (h : heap) (n : ptr) : outcome heap :=
  match fuel with
  | O => OutOfFuel
  | S fuel =>
      p ← get_parent h n;
      match p with
      | None => set_color h n BLACK
      | Some _ =>
          xp ← load h p;
          if color xp =? BLACK then Ok h
          else
            u ← get_uncle h n;
            red_uncle ← (match u with
                         | Some _ => xu ← load h u; Ok (color xu =? RED)
                         | None => Ok false
                         end);
            if (red_uncle : bool) then
              h ← set_color h p BLACK;
              h ← set_color h u BLACK;
              g ← get_grandparent h n;
              h ← set_color h g RED;
              insert_repair fuel h g
            else insert_rotate h n
      end
  end.

Fixpoint find_root (fuel : nat) (h : heap) (root : ptr) : outcome ptr :=
  match fuel with
  | O => OutOfFuel
  | S fuel =>
      p ← get_parent h root;
      match p with
      | None => Ok root
      | Some _ => find_root fuel h p
      end
  end.

Definition insert (fuel : nat) (h : heap) (root n : ptr) : outcome (heap * ptr) :=
  h ← insert_recurse fuel h root n;
  h ← insert_repair fuel h n;
  r ← find_root fuel h n;
  Ok (h, r).

(** ** Swapping two elements *)

Section swap.
Context {A : Type}.
Implicit Types (b : list A).

Lemma swap_Permutation b (i j : nat) x y :
  b !! i = Some x → b !! j = Some y → <[j := x]> (<[i := y]> b) ≡ₚ b.
Proof.
  intros Hx Hy. apply Permutation_inj. split; [by rewrite !length_insert|].
  exists (λ k, if decide (k = j) then i else if decide (k = i) then j else k).
  split.
  - intros k1 k2. repeat case_decide; lia.
  - intros k. apply lookup_lt_Some in Hx as Hi. apply lookup_lt_Some in Hy as Hj.
    rewrite !list_lookup_insert, length_insert.
    destruct (decide (k = j)) as [->|]; [by rewrite decide_True by lia|].
    rewrite decide_False by lia.
    destruct (decide (k = i)) as [->|]; [by rewrite decide_True by lia|].
    by rewrite decide_False by lia.
Qed.

(** The three assignments of a swap, with all that is needed of the result. *)
Lemma swap_spec b i j x y :
  aget b i = Ok x → aget b j = Ok y →
  ∃ b1 b2, aset b i y = Ok b1 ∧ aset b1 j x = Ok b2 ∧ b2 ≡ₚ b ∧
    ∀ k, aget b2 k = if decide (k = j) then Ok x
                     else if decide (k = i) then Ok y else aget b k.
Proof.
  intros Hx Hy. pose proof (aget_bound _ _ _ Hx). pose proof (aget_bound _ _ _ Hy).
  eexists _, _. rewrite aset_total by lia. split; [done|].
  rewrite aset_total by len. split; [done|]. split.
  - apply aget_Ok in Hx as [_ Hx], Hy as [_ Hy]. by apply swap_Permutation.
  - intros k. destruct (decide (k = j)) as [->|]; [by rewrite aget_insert_eq by len|].
    rewrite aget_insert_ne by lia.
    destruct (decide (k = i)) as [->|]; [by rewrite aget_insert_eq by lia|].
    by rewrite aget_insert_ne by lia.
Qed.
End swap.

(** ** [qsort] terminates and permutes *)

Section qsort_spec.
Context {A : Type} (cmp : A → A → Z) (P : A → Prop).
(** On the elements that satisfy [P], the comparison is a strict order. *)
Context (cmp_asym : ∀ x y, P x → P y → cmp x y < 0 → ¬ cmp y x < 0).
Context (cmp_trans : ∀ x y z, P x → P y → P z → cmp x y < 0 → cmp y z < 0 → cmp x z < 0).
Implicit Types (a b : list A).

(** [b] is [a] with the elements at [left..right] permuted. *)
Definition range_perm (left right : Z) (a b : list A) : Prop :=
  b ≡ₚ a ∧ ∀ k, ¬ left ≤ k ≤ right → aget b k = aget a k.

Lemma range_perm_refl left right a : range_perm left right a a.
Proof. done. Qed.

Lemma range_perm_trans left right a b c :
  range_perm left right a b → range_perm left right b c → range_perm left right a c.
Proof.
  intros [H1 H2] [H3 H4]. split; [by rewrite H3|]. intros. by rewrite H4, H2.
Qed.

Lemma range_perm_weaken l1 r1 l2 r2 a b :
  l2 ≤ l1 → r1 ≤ r2 → range_perm l1 r1 a b → range_perm l2 r2 a b.
Proof. intros ?? [? H]. split; [done|]. intros. apply H. lia. Qed.

Lemma range_perm_length left right a b : range_perm left right a b → length b = length a.
Proof. intros [->%Permutation_length _]. done. Qed.

Lemma range_perm_Forall left right a b :
  Forall P a → range_perm left right a b → Forall P b.
Proof. intros Ha [-> _]. done. Qed.

Lemma aget_Forall a i x : Forall P a → aget a i = Ok x → P x.
Proof. intros Ha [_ Hx]%aget_Ok. by eapply Forall_lookup_1. Qed.

(** No element of the range is less than its first one. *)
Definition min_first left right a : Prop :=
  ∀ i x y, left < i ≤ right → aget a left = Ok x → aget a i = Ok y → ¬ cmp y x < 0.

(** What the partition loop maintains before round [i]. *)
Definition partition_inv left right a (i : Z) (st : list A * Z) : Prop :=
  let '(b, last) := st in
  range_perm left right a b ∧
  (i = left ∧ last = left ∨ left < i ∧ left ≤ last < i) ∧
  (last = i - 1 → ∀ j x y, left ≤ j < last →
    aget b last = Ok x → aget b j = Ok y → cmp x y < 0) ∧
  (min_first left right a → last = left ∧ b = a).

Lemma partition_step left right a i st :
  Forall P a → 0 ≤ left → right < Z.of_nat (length a) → left ≤ i < right + 1 →
  partition_inv left right a i st →
  ∃ st', qsort_step cmp i st = Ok st' ∧ partition_inv left right a (i + 1) st'.
Proof.
  intros HP Hl Hr Hi. destruct st as [b last]. intros (Hperm & Hlast & Hdesc & Hmin).
  apply range_perm_length in Hperm as Hlen.
  pose proof (range_perm_Forall _ _ _ _ HP Hperm) as HPb.
  destruct (aget_total b i) as [bi Hbi]; [lia|].
  destruct (aget_total b last) as [bl Hbl]; [lia|].
  assert (P bi ∧ P bl) as [HPbi HPbl] by eauto using aget_Forall.
  unfold qsort_step. rewrite Hbi, bind_Ok, Hbl, bind_Ok.
  destruct (Z.ltb_spec (cmp bi bl) 0) as [Hlt|Hge].
  - assert (left < i ∧ left ≤ last < i) as [Hli Hla].
    { destruct Hlast as [[-> ->]|?]; [|done].
      rewrite Hbi in Hbl. injection Hbl as ->. by destruct (cmp_asym bl bl). }
    destruct (aget_total b (last + 1)) as [bl' Hbl']; [lia|].
    rewrite Hbl', bind_Ok.
    destruct (swap_spec b i (last + 1) bi bl' Hbi Hbl') as (b1 & b2 & -> & H2 & Hp & Hg).
    rewrite bind_Ok, H2, bind_Ok. eexists; split; [done|]. split_and!.
    + apply (range_perm_trans _ _ _ b); [done|]. split; [done|].
      intros k Hk. rewrite Hg, !decide_False by lia. done.
    + right. lia.
    + intros Heq j x y Hj Hx Hy. assert (last = i - 1) as -> by lia.
      rewrite Hg, decide_True in Hx by lia. injection Hx as <-.
      rewrite Hg, !decide_False in Hy by lia.
      destruct (decide (j = i - 1)) as [->|].
      * rewrite Hbl in Hy. by injection Hy as <-.
      * apply (cmp_trans _ bl); eauto using aget_Forall.
        apply (Hdesc eq_refl j); [lia|done|done].
    + intros Hmf. destruct (Hmin Hmf) as [-> ->].
      destruct (Hmf i bl bi); [lia|done|done|done].
  - eexists; split; [done|]. split_and!; [done|right; lia| |done].
    intros -> j x y Hj. assert (i = left) by lia. lia.
Qed.

Lemma partition_spec left right a :
  Forall P a → 0 ≤ left → left ≤ right → right < Z.of_nat (length a) →
  ∃ b last, for_range left (right + 1) (qsort_step cmp) (a, left) = Ok (b, last) ∧
    partition_inv left right a (right + 1) (b, last).
Proof.
  intros HP Hl Hlr Hr.
  destruct (for_range_inv (partition_inv left right a) left (right + 1)
    (qsort_step cmp) (a, left)) as ([b last] & ? & ?); [lia| | |by eauto].
  - split_and!; [done|by left| |done]. intros. lia.
  - intros. by apply partition_step.
Qed.

(** One call, up to its two recursive calls. *)
Lemma qsort_unfold fuel left right a :
  Forall P a → 0 ≤ left → left < right → right < Z.of_nat (length a) →
  ∃ b last,
    qsort cmp (S fuel) a left right =
      (b ← qsort cmp fuel b left last; qsort cmp fuel b (last + 1) right) ∧
    range_perm left right a b ∧ left ≤ last ≤ right ∧
    (last = right → min_first left right b) ∧ (min_first left right a → last = left).
Proof.
  intros HP Hl Hlr Hr.
  destruct (partition_spec left right a) as (b & last & Hloop & Hperm & Hlast & Hdesc & Hmin);
    [done|lia..|].
  apply range_perm_length in Hperm as Hlen.
  pose proof (range_perm_Forall _ _ _ _ HP Hperm) as HPb.
  destruct (aget_total b left) as [x Hx]; [lia|].
  destruct (aget_total b last) as [y Hy]; [lia|].
  destruct (swap_spec b left last x y Hx Hy) as (b1 & b2 & Hb1 & Hb2 & Hp & Hg).
  exists b2, last. simpl. destruct (Z.leb_spec right left); [lia|].
  rewrite Hloop, bind_Ok, Hx, bind_Ok, Hy, bind_Ok, Hb1, bind_Ok, Hb2, bind_Ok.
  split_and!; [done| |lia|lia| |intros Hmf; by apply Hmin].
  { apply (range_perm_trans _ _ _ b); [done|]. split; [done|].
    intros k Hk. rewrite Hg, !decide_False by lia. done. }
  intros -> i u v Hi Hu Hv. rewrite Hg, decide_False, decide_True in Hu by lia.
  injection Hu as <-. rewrite Hg in Hv. destruct (decide (i = right)) as [->|].
  - injection Hv as <-. apply cmp_asym; eauto using aget_Forall.
    apply (Hdesc ltac:(lia) left); [lia|done|done].
  - rewrite decide_False in Hv by lia. apply cmp_asym; eauto using aget_Forall.
    apply (Hdesc ltac:(lia) i); [lia|done|done].
Qed.

(** The fuel for a range of [n + 1] elements; a range whose minimum comes
    first needs one unit less. *)
Definition enough (n fuel : nat) left right a : Prop :=
  (2 * n + 1 ≤ fuel ∨ 1 ≤ n ∧ 2 * n ≤ fuel ∧ min_first left right a)%nat.

Lemma qsort_small fuel left right a :
  right ≤ left → (1 ≤ fuel)%nat → qsort cmp fuel a left right = Ok a.
Proof.
  intros. destruct fuel; [lia|]. simpl. destruct (Z.leb_spec right left); [done|lia].
Qed.

Lemma qsort_perm (n : nat) : ∀ fuel left right a,
  Forall P a → 0 ≤ left → right < Z.of_nat (length a) → right - left ≤ Z.of_nat n →
  enough n fuel left right a →
  ∃ b, qsort cmp fuel a left right = Ok b ∧ range_perm left right a b.
Proof.
  induction n as [|n IH]; intros fuel left right a HP Hl Hr Hn Hfuel.
  { exists a. split; [|done]. apply qsort_small; [|unfold enough in Hfuel]; lia. }
  destruct (decide (right ≤ left)).
  { exists a. split; [|done]. apply qsort_small; [|unfold enough in Hfuel]; lia. }
  assert (Hsmall : ∀ fuel left' right' a', left ≤ left' → right' ≤ right →
    right' - left' < right - left → range_perm left right a a' → (2 * n + 1 ≤ fuel)%nat →
    ∃ b, qsort cmp fuel a' left' right' = Ok b ∧ range_perm left right a b).
  { intros f l' r' a' ??? Hp ?. apply range_perm_length in Hp as Hlen.
    destruct (IH f l' r' a') as (b & Hb & Hpb);
      [by eapply range_perm_Forall|lia|lia|lia|left; lia|].
    exists b. split; [done|]. apply (range_perm_trans _ _ _ a'); [done|].
    eapply range_perm_weaken; [| |done]; lia. }
  assert (Htwo : ∀ fuel last a', left ≤ last < right → range_perm left right a a' →
    (2 * n + 1 ≤ fuel)%nat →
    ∃ b, (b ← qsort cmp fuel a' left last; qsort cmp fuel b (last + 1) right) = Ok b ∧
      range_perm left right a b).
  { intros f last a' ???. destruct (Hsmall f left last a') as (b & -> & ?); [lia..|done|lia|].
    rewrite bind_Ok. apply Hsmall; [lia..|done|lia]. }
  destruct fuel as [|fuel]; [unfold enough in Hfuel; lia|].
  destruct (qsort_unfold fuel left right a) as (b & last & -> & Hpb & Hlast & Hmf & Hmf0);
    [done|lia..|].
  destruct (decide (last = right)) as [->|].
  - (* the same range again, now with its minimum first *)
    destruct Hfuel as [?|(?&?&Hmin)]; [|specialize (Hmf0 Hmin); lia].
    destruct fuel as [|fuel]; [lia|]. apply range_perm_length in Hpb as Hlb.
    destruct (qsort_unfold fuel left right b) as (c & last & -> & Hpc & Hlast' & _ & Hmf1);
      [by eapply range_perm_Forall|lia..|].
    rewrite (Hmf1 (Hmf eq_refl)).
    destruct (Htwo fuel left c) as (d & -> & Hpd);
      [lia|by apply (range_perm_trans _ _ _ b)|lia|].
    rewrite bind_Ok. apply Hsmall; [lia..|done|lia].
  - apply Htwo; [lia|done|unfold enough in Hfuel; lia].
Qed.
End qsort_spec.

Definition lock_id_ok (id : Z) : Prop := 0 ≤ id < 2 ^ 31.

Lemma cmp_lock_small a b : lock_id_ok a → lock_id_ok b → cmp_lock a b = a - b.
Proof.
  unfold lock_id_ok, cmp_lock, u32, i32. change (2 ^ 31) with 2147483648.
  change (2 ^ 32) with 4294967296. intros. Z.to_euclidean_division_equations. lia.
Qed.

(** [qsort] with the comparison of the mutexes terminates on any array of
    lock ids, within its bounds, and permutes it: twice as many nested calls as
    elements are enough. *)
Theorem qsort_terminates locks fuel :
  Forall lock_id_ok locks → (2 * length locks ≤ fuel)%nat → (1 ≤ fuel)%nat →
  ∃ locks', qsort cmp_lock fuel locks 0 (Z.of_nat (length locks) - 1) = Ok locks' ∧
    locks' ≡ₚ locks.
Proof.
  intros Hl Hf Hf1.
  destruct (qsort_perm cmp_lock lock_id_ok) with (n := (length locks - 1)%nat) (fuel := fuel)
    (left := 0) (right := Z.of_nat (length locks) - 1) (a := locks) as (b & Hb & Hp & _).
  - intros x y ??. rewrite !cmp_lock_small by done. lia.
  - intros x y z ???. rewrite !cmp_lock_small by done. lia.
  - done.
  - lia.
  - lia.
  - lia.
  - left. lia.
  - eauto.
Qed.

Lemma qsort_terminates_witness :
  Forall lock_id_ok [2; 0; 1] ∧
  ∃ locks', qsort cmp_lock 6 [2; 0; 1] 0 2 = Ok locks' ∧ locks' ≡ₚ [2; 0; 1].
Proof.
  assert (Forall lock_id_ok [2; 0; 1]) as H by (repeat constructor; done).
  split; [done|]. apply (qsort_terminates [2; 0; 1] 6 H); simpl; lia.
Defined.

(** The result need not be sorted, and depends on the order of the input: the
    same three locks are ordered 0,2,1 or 0,1,2. *)
Example qsort_not_sorting :
  qsort cmp_lock 6 [2; 0; 1] 0 2 = Ok [0; 2; 1] ∧
  qsort cmp_lock 6 [0; 1; 2] 0 2 = Ok [0; 1; 2].
Proof. by vm_compute. Qed.

(** The tree that results from inserting nodes with these keys one by one,
    each node at the address equal to its key. *)
Definition insert_key (st : heap * ptr) (k : Z) : outcome (heap * ptr) :=
  let '(h, root) := st in
  insert 10 (<[k := Node RED k None None None]> h) root (Some k).

Fixpoint insert_keys (st : heap * ptr) (ks : list Z) : outcome (heap * ptr) :=
  match ks with
  | [] => Ok st
  | k :: ks => st ← insert_key st k; insert_keys st ks
  end.

(** The keys below a node, in order. *)
Fixpoint inorder (fuel : nat) (h : heap) (p : ptr) : list Z :=
  match fuel, p with
  | S fuel, Some a =>
      match h !! a with
      | Some n => inorder fuel h (left n) ++ [key n] ++ inorder fuel h (right n)
      | None => []
      end
  | _, _ => []
  end.

(** [rotate_left] assigns [p->left = n] where it means to compare: when
    [n] is the right child of [p], the left subtree of [p] is lost.  Inserting
    10, 5, 15, 20 and 25 leaves a tree without 5. *)
Theorem insert_loses_keys :
  ∃ h r, insert_keys (∅, None) [10; 5; 15; 20; 25] = Ok (h, r) ∧ 5 ∉ inorder 10 h r.
Proof.
  destruct (insert_keys (∅, None) [10; 5; 15; 20; 25]) as [[h r]| |] eqn:E;
    [|vm_compute in E; discriminate..].
  exists h, r. split; [done|]. vm_compute in E. injection E as <- <-.
  by apply (bool_decide_unpack _).
Qed.
