(* ===== verification/Queue.v ===== *)
(** * Process queues: [kernel/sched/queue.c]

    The queues thread through the [prev] and [next] fields of the process table
    [pcb]; those two fields of all entries are the array [links], a pointer to
    an entry is its index, and the null pointer is [None].  A process that is
    pushed while it is still linked elsewhere corrupts the other queue, as in
    the code.  [queue_rep] says that a queue and the links represent a list of
    processes, and each operation is proved against the list operation. *)

From S2P Require Import Prelude.

Abbreviation pid := Z.

Record link := Link { prev : option pid; next : option pid }.
Abbreviation links := (list link).

Record queue_t := Queue { head : option pid; tail : option pid }.

#[export] Instance link_eq_dec : EqDecision link.
Proof. solve_decision. Defined.
#[export] Instance queue_eq_dec : EqDecision queue_t.
Proof. solve_decision. Defined.

(** ** Field accesses through a pointer *)

Definition get_next (lk : links) (p : option pid) : outcome (option pid) :=
  i ← deref p; x ← aget lk i; Ok (next x).

Definition get_prev (lk : links) (p : option pid) : outcome (option pid) :=
  i ← deref p; x ← aget lk i; Ok (prev x).

Definition set_next (lk : links) (p v : option pid) : outcome links :=
  i ← deref p; x ← aget lk i; aset lk i (Link (prev x) v).

Definition set_prev (lk : links) (p v : option pid) : outcome links :=
  i ← deref p; x ← aget lk i; aset lk i (Link v (next x)).

(** ** The operations *)

Definition queue_init : queue_t := Queue None None.

Definition queue_is_empty (q : queue_t) : bool :=
  bool_decide (head q = None).

Definition queue_push (lk : links) (q : queue_t) (item : pid) :
    outcome (links * queue_t) :=
  match head q with
  | None =>
      lk ← set_next lk (Some item) None;
      lk ← set_prev lk (Some item) None;
      Ok (lk, Queue (Some item) (Some item))
  | Some _ =>
      lk ← set_next lk (tail q) (Some item);
      lk ← set_next lk (Some item) None;
      lk ← set_prev lk (Some item) (tail q);
      Ok (lk, Queue (head q) (Some item))
  end.

(** The search loop of [queue_push_if_not_exist]. *)
Fixpoint queue_mem (fuel : nat) (lk : links) (p : option pid) (item : pid) : outcome bool :=
  match fuel with
  | O => OutOfFuel
  | S fuel =>
      match p with
      | None => Ok false
      | Some i =>
          if decide (i = item) then Ok true
          else p ← get_next lk p; queue_mem fuel lk p item
      end
  end.

(** A queue without a cycle has at most as many items as the process table. *)
Definition queue_push_if_not_exist (lk : links) (q : queue_t) (item : pid) :
    outcome (links * queue_t) :=
  found ← queue_mem (S (length lk)) lk (head q) item;
  if (found : bool) then Ok (lk, q) else queue_push lk q item.

Definition queue_dequeue (lk : links) (q : queue_t) :
    outcome (option pid * links * queue_t) :=
  match head q with
  | None => Ok (None, lk, q)
  | Some temp =>
      n ← get_next lk (Some temp);
      '(lk, q) ← (match n with
                  | None => Ok (lk, Queue None None)
                  | Some _ => lk ← set_prev lk n None; Ok (lk, Queue n (tail q))
                  end);
      lk ← set_prev lk (Some temp) None;
      lk ← set_next lk (Some temp) None;
      Ok (Some temp, lk, q)
  end.

(** [queue_remove]; its last branch goes through [pcb->next], the [next] field
    of entry 0 of the process table, where [_item->next] is meant. *)
Definition queue_remove (lk : links) (q : queue_t) (item : pid) :
    outcome (option pid * links * queue_t) :=
  nxt ← get_next lk (Some item);
  '(lk, q) ←
    (if decide (Some item = head q ∧ Some item = tail q) then Ok (lk, Queue None None)
     else if decide (Some item = head q) then
       n ← get_next lk (Some item);
       lk ← set_prev lk n None;
       Ok (lk, Queue n (tail q))
     else if decide (Some item = tail q) then
       p ← get_prev lk (Some item);
       lk ← set_next lk p None;
       Ok (lk, Queue (head q) p)
     else
       p ← get_prev lk (Some item);
       n ← get_next lk (Some item);
       lk ← set_next lk p n;
       n0 ← get_next lk (Some 0);
       p ← get_prev lk (Some item);
       lk ← set_prev lk n0 p;
       Ok (lk, q));
  lk ← set_prev lk (Some item) None;
  lk ← set_next lk (Some item) None;
  Ok (nxt, lk, q).

Definition queue_top (q : queue_t) : option pid := head q.

Definition queue_insert_at_head (lk : links) (q : queue_t) (item : pid) :
    outcome (links * queue_t) :=
  match head q with
  | None => Ok (lk, Queue (Some item) (tail q))
  | Some old_hd =>
      lk ← set_next lk (Some item) (Some old_hd);
      Ok (lk, Queue (Some item) (tail q))
  end.

(** ** Representation of a list of processes *)

Definition valid_pid (lk : links) (i : pid) : Prop := 0 ≤ i < Z.of_nat (length lk).

(** The links of the item at position [i] of [l]. *)
Definition link_at (l : list pid) (i : nat) : link :=
  Link (match i with O => None | S i => l !! i end) (l !! S i).

Record queue_rep (lk : links) (q : queue_t) (l : list pid) : Prop := {
  rep_NoDup : NoDup l;
  rep_head : head q = l !! 0%nat;
  rep_tail : tail q = last l;
  rep_link i x : l !! i = Some x → aget lk x = Ok (link_at l i);
}.

(** Two link arrays agree on a set of processes. *)
Definition same_links (lk lk' : links) (X : pid → Prop) : Prop :=
  length lk' = length lk ∧ ∀ x, X x → aget lk' x = aget lk x.

Lemma queue_rep_frame lk lk' q l :
  queue_rep lk q l → same_links lk lk' (.∈ l) → queue_rep lk' q l.
Proof.
  intros [? ? ? Hl] [_ Hsame]. split; [done..|]. intros i x Hx.
  rewrite Hsame by (by eapply list_elem_of_lookup_2). by apply Hl.
Qed.

Lemma queue_rep_valid lk q l x : queue_rep lk q l → x ∈ l → valid_pid lk x.
Proof.
  intros Hq [i Hi]%list_elem_of_lookup. eapply aget_bound, rep_link; done.
Qed.

Lemma queue_rep_init lk : queue_rep lk queue_init [].
Proof. split; [constructor|done|done|]. by intros i x Hx. Qed.

Lemma queue_rep_is_empty lk q l : queue_rep lk q l → queue_is_empty q = bool_decide (l = []).
Proof.
  intros [_ Hh _ _]. unfold queue_is_empty. rewrite Hh.
  destruct l; by repeat case_bool_decide.
Qed.

(** Field updates, as equations. *)
Lemma set_next_spec lk i x v :
  aget lk i = Ok x → ∃ lk', set_next lk (Some i) v = Ok lk' ∧ length lk' = length lk ∧
    ∀ j, aget lk' j = if decide (j = i) then Ok (Link (prev x) v) else aget lk j.
Proof.
  intros Hx. unfold set_next. simpl. rewrite Hx, bind_Ok.
  pose proof (aget_bound _ _ _ Hx). rewrite aset_total by lia.
  eexists; split; [done|]. split; [apply length_insert|]. intros j.
  case_decide; [subst; by apply aget_insert_eq|apply aget_insert_ne; lia].
Qed.

Lemma set_prev_spec lk i x v :
  aget lk i = Ok x → ∃ lk', set_prev lk (Some i) v = Ok lk' ∧ length lk' = length lk ∧
    ∀ j, aget lk' j = if decide (j = i) then Ok (Link v (next x)) else aget lk j.
Proof.
  intros Hx. unfold set_prev. simpl. rewrite Hx, bind_Ok.
  pose proof (aget_bound _ _ _ Hx). rewrite aset_total by lia.
  eexists; split; [done|]. split; [apply length_insert|]. intros j.
  case_decide; [subst; by apply aget_insert_eq|apply aget_insert_ne; lia].
Qed.

(** Following the [next] pointers from [p] gives exactly the items of [l]. *)
Fixpoint leads (lk : links) (p : option pid) (l : list pid) : Prop :=
  match l with
  | [] => p = None
  | x :: l => p = Some x ∧ ∃ n, get_next lk (Some x) = Ok n ∧ leads lk n l
  end.

Lemma leads_list lk l :
  (∀ i x, l !! i = Some x → get_next lk (Some x) = Ok (l !! S i)) → leads lk (l !! 0%nat) l.
Proof.
  induction l as [|x l IH]; intros Hl; [done|]. split; [done|]. exists (l !! 0%nat).
  split; [by apply (Hl 0%nat x)|]. apply IH. intros i y Hy. by apply (Hl (S i) y).
Qed.

(** ** The operations against the list *)

Section spec.
Context (lk : links) (q : queue_t) (l : list pid) (Hq : queue_rep lk q l).

Lemma queue_rep_length : (length l ≤ length lk)%nat.
Proof.
  assert (l ⊆+ seqZ 0 (Z.of_nat (length lk))) as Hsub.
  { apply NoDup_submseteq; [by destruct Hq|]. intros x Hx. apply elem_of_seqZ.
    by eapply queue_rep_valid. }
  apply submseteq_length in Hsub. by rewrite length_seqZ, Nat2Z.id in Hsub.
Qed.

Lemma get_next_rep i x : l !! i = Some x → get_next lk (Some x) = Ok (l !! S i).
Proof.
  intros Hx. unfold get_next. simpl. by rewrite (rep_link _ _ _ Hq _ _ Hx).
Qed.

Lemma queue_rep_leads : leads lk (head q) l.
Proof. rewrite (rep_head _ _ _ Hq). apply leads_list. intros i x. apply get_next_rep. Qed.

Lemma queue_mem_spec fuel (i : nat) item :
  (length l - i < fuel)%nat →
  queue_mem fuel lk (l !! i) item = Ok (bool_decide (item ∈ drop i l)).
Proof.
  revert i. induction fuel as [|fuel IH]; intros i Hf; [lia|].
  destruct (l !! i) as [x|] eqn:Hx; simpl.
  - rewrite (drop_S _ _ _ Hx). apply lookup_lt_Some in Hx as Hlt.
    destruct (decide (x = item)) as [->|Hne].
    + rewrite bool_decide_eq_true_2; [done|set_solver].
    + rewrite (get_next_rep i x Hx), bind_Ok, IH by lia. f_equal. apply bool_decide_ext. set_solver.
  - apply lookup_ge_None in Hx. rewrite drop_ge by lia.
    rewrite bool_decide_eq_false_2; [done|]. set_solver.
Qed.

(** The two branches of [queue_push]. *)
Lemma queue_push_empty item :
  l = [] → valid_pid lk item →
  ∃ lk' q', queue_push lk q item = Ok (lk', q') ∧ queue_rep lk' q' [item] ∧
    same_links lk lk' (λ x, x ≠ item).
Proof.
  intros El Hv. destruct Hq as [_ Hh _ _]. unfold queue_push. rewrite Hh, El. simpl.
  destruct (aget_total lk item Hv) as [xi Hxi].
  destruct (set_next_spec lk item xi None Hxi) as (lk1 & -> & Hlen1 & Hg1).
  destruct (set_prev_spec lk1 item (Link (prev xi) None) None) as (lk2 & H2 & Hlen2 & Hg2).
  { by rewrite Hg1, decide_True. }
  rewrite bind_Ok, H2, bind_Ok. eexists _, _. split; [done|]. split.
  - split; [apply NoDup_singleton|done|done|].
    intros [|i] x Hx; [|done]. injection Hx as <-. by rewrite Hg2, decide_True.
  - split; [congruence|]. intros x Hx. by rewrite Hg2, decide_False, Hg1, decide_False.
Qed.

Lemma link_at_snoc i item :
  (i < length l - 1)%nat → link_at (l ++ [item]) i = link_at l i.
Proof.
  intros Hi. unfold link_at. rewrite lookup_app_l by lia. f_equal.
  destruct i; [done|]. by rewrite lookup_app_l by lia.
Qed.

Lemma link_at_snoc_last item :
  (1 ≤ length l)%nat →
  link_at (l ++ [item]) (length l - 1) =
    Link (prev (link_at l (length l - 1))) (Some item) ∧
  link_at (l ++ [item]) (length l) = Link (last l) None.
Proof.
  intros Hl. unfold link_at. split; f_equal.
  - destruct (length l - 1)%nat eqn:E; [done|]. by rewrite lookup_app_l by lia.
  - rewrite lookup_app_r by lia. by replace (S (length l - 1) - length l)%nat with 0%nat by lia.
  - rewrite last_lookup. destruct (length l) eqn:E; [lia|]. by rewrite lookup_app_l by lia.
  - apply lookup_ge_None. len.
Qed.

Lemma queue_push_nonempty item :
  l ≠ [] → valid_pid lk item → item ∉ l →
  ∃ lk' q', queue_push lk q item = Ok (lk', q') ∧ queue_rep lk' q' (l ++ [item]) ∧
    same_links lk lk' (λ x, x ∉ item :: l).
Proof.
  intros Hnil Hv Hi. destruct Hq as [Hnd Hh Ht Hl]. unfold queue_push.
  assert (1 ≤ length l)%nat as Hlen by (destruct l; simpl; [done|lia]).
  destruct (lookup_lt_is_Some_2 l 0) as [h Hh0]; [lia|]. rewrite Hh, Hh0.
  destruct (lookup_lt_is_Some_2 l (length l - 1)) as [t Htn]; [lia|].
  assert (last l = Some t) as Htl.
  { rewrite last_lookup. by replace (pred (length l)) with (length l - 1)%nat by lia. }
  rewrite Ht, Htl. assert (t ∈ l) as Hin by (by eapply list_elem_of_lookup_2).
  assert (t ≠ item) as Hne by (intros ->; done).
  destruct (aget_total lk item Hv) as [xi Hxi].
  destruct (set_next_spec lk t _ (Some item) (Hl _ _ Htn)) as (lk1 & -> & Hlen1 & Hg1).
  destruct (set_next_spec lk1 item xi None) as (lk2 & H2 & Hlen2 & Hg2).
  { by rewrite Hg1, decide_False by done. }
  destruct (set_prev_spec lk2 item (Link (prev xi) None) (Some t)) as (lk3 & H3 & Hlen3 & Hg3).
  { by rewrite Hg2, decide_True. }
  rewrite bind_Ok, H2, bind_Ok, H3, bind_Ok. eexists _, _. split; [done|].
  destruct (link_at_snoc_last item Hlen) as [Hlast Hnew]. split; [split|split].
  - apply NoDup_app. split_and!; [done|set_solver|apply NoDup_singleton].
  - simpl. rewrite lookup_app_l by lia. congruence.
  - by rewrite last_snoc.
  - intros i x [[Hlt Hx]|[-> <-]]%lookup_snoc_Some.
    + assert (x ≠ item) by (intros ->; eapply Hi, list_elem_of_lookup_2; done).
      rewrite Hg3, decide_False, Hg2, decide_False, Hg1 by done.
      destruct (decide (x = t)) as [->|Hxt].
      * assert (i = length l - 1)%nat as -> by (eapply NoDup_lookup; done). by rewrite Hlast.
      * assert (i ≠ length l - 1)%nat by (intros ->; congruence).
        rewrite (Hl _ _ Hx), link_at_snoc by lia. done.
    + rewrite Hg3, decide_True by done. by rewrite Hnew, Htl.
  - congruence.
  - intros x Hx. assert (x ≠ item ∧ x ≠ t) as [? ?] by set_solver.
    by rewrite Hg3, decide_False, Hg2, decide_False, Hg1, decide_False by done.
Qed.

(** Pushing an item that is in the queue, other than at its end, cuts off the
    items behind it. *)
Lemma queue_push_linked l1 v l2 :
  l = l1 ++ v :: l2 → l2 ≠ [] →
  ∃ lk' q', queue_push lk q v = Ok (lk', q') ∧ leads lk' (head q') (l1 ++ [v]) ∧
    same_links lk lk' (λ x, x ∉ l).
Proof.
  intros El H2. destruct Hq as [Hnd Hh Ht Hl].
  destruct (exists_last H2) as (l3 & t & E3). rewrite E3 in El.
  assert (last l = Some t) as Hlast.
  { rewrite El. change (v :: l3 ++ [t]) with ((v :: l3) ++ [t]). by rewrite (assoc_L (++)), last_snoc. }
  assert (Hv : l !! length l1 = Some v) by (rewrite El; by apply list_lookup_middle).
  assert (Hnotin : ∀ x, x ∈ l1 → x ≠ t ∧ x ≠ v).
  { rewrite El in Hnd. apply NoDup_app in Hnd as (_ & Hd & _). intros x Hx.
    split; intros ->; apply (Hd _ Hx); [right; apply elem_of_app; right; left|left]. }
  assert (Htv : t ≠ v).
  { intros ->. rewrite El in Hnd. apply NoDup_app in Hnd as (_ & _ & Hd).
    apply NoDup_cons in Hd as [Hd _]. apply Hd, elem_of_app. right. left. }
  assert (Hin : t ∈ l) by (rewrite El; apply elem_of_app; right; right; apply elem_of_app; right; left).
  pose proof Hin as [i Hi]%list_elem_of_lookup.
  unfold queue_push. rewrite Hh, Ht, Hlast. destruct (l !! 0%nat) as [h|] eqn:Hh0.
  2:{ apply lookup_ge_None in Hh0. apply lookup_lt_Some in Hv. lia. }
  destruct (set_next_spec lk t _ (Some v) (Hl _ _ Hi)) as (lk1 & -> & Hlen1 & Hg1).
  destruct (set_next_spec lk1 v (link_at l (length l1)) None) as (lk2 & H2' & Hlen2 & Hg2).
  { rewrite Hg1, decide_False by done. by apply Hl. }
  destruct (set_prev_spec lk2 v (Link (prev (link_at l (length l1))) None) (Some t)) as (lk3 & H3 & Hlen3 & Hg3).
  { by rewrite Hg2, decide_True. }
  rewrite bind_Ok, H2', bind_Ok, H3, bind_Ok. eexists _, _. split; [done|]. split.
  - cbn [head]. replace (Some h) with ((l1 ++ [v]) !! 0%nat).
    2:{ rewrite <- Hh0, El. by destruct l1. }
    apply leads_list. intros j x Hx. unfold get_next. cbn [deref]. rewrite bind_Ok.
    apply lookup_snoc_Some in Hx as [[Hj Hx]|[-> <-]].
    + destruct (Hnotin x) as [??]; [by eapply list_elem_of_lookup_2|].
      assert (l !! j = Some x) as Hx' by (rewrite El; by apply lookup_app_l_Some).
      rewrite Hg3, decide_False, Hg2, decide_False, Hg1, decide_False, (Hl _ _ Hx'), bind_Ok by done.
      cbn [next link_at]. rewrite El. f_equal. destruct (decide (S j < length l1)%nat).
      * by rewrite !lookup_app_l by lia.
      * assert (S j = length l1) as -> by lia. by rewrite !list_lookup_middle.
    + rewrite Hg3, decide_True, bind_Ok by done. cbn [next]. f_equal. symmetry.
      apply lookup_ge_None. rewrite length_app. cbn. lia.
  - split; [congruence|]. intros x Hx.
    assert (x ≠ v ∧ x ≠ t) as [? ?].
    { split; intros ->; [|done]. apply Hx. by eapply list_elem_of_lookup_2. }
    by rewrite Hg3, decide_False, Hg2, decide_False, Hg1, decide_False by done.
Qed.

Lemma queue_push_spec item :
  valid_pid lk item → item ∉ l →
  ∃ lk' q', queue_push lk q item = Ok (lk', q') ∧ queue_rep lk' q' (l ++ [item]) ∧
    same_links lk lk' (λ x, x ∉ item :: l).
Proof.
  intros Hv Hi. destruct (decide (l = [])) as [El|]; [|by apply queue_push_nonempty].
  destruct (queue_push_empty item El Hv) as (lk' & q' & ? & ? & [? Hs]).
  exists lk', q'. rewrite El. split_and!; [done|done|]. split; [done|].
  intros x Hx. apply Hs. set_solver.
Qed.

Lemma queue_push_if_not_exist_spec item :
  valid_pid lk item →
  ∃ lk' q', queue_push_if_not_exist lk q item = Ok (lk', q') ∧
    queue_rep lk' q' (if decide (item ∈ l) then l else l ++ [item]) ∧
    same_links lk lk' (λ x, x ∉ item :: l).
Proof.
  intros Hv. unfold queue_push_if_not_exist. rewrite (rep_head _ _ _ Hq).
  rewrite queue_mem_spec by (pose proof queue_rep_length; lia). rewrite drop_0, bind_Ok.
  destruct (decide (item ∈ l)) as [Hin|Hin].
  - rewrite bool_decide_eq_true_2 by done. exists lk, q. done.
  - rewrite bool_decide_eq_false_2 by done. by apply queue_push_spec.
Qed.

Lemma queue_dequeue_nil : l = [] → queue_dequeue lk q = Ok (None, lk, q).
Proof. intros El. unfold queue_dequeue. by rewrite (rep_head _ _ _ Hq), El. Qed.

Lemma queue_dequeue_cons x l' :
  l = x :: l' →
  ∃ lk' q', queue_dequeue lk q = Ok (Some x, lk', q') ∧ queue_rep lk' q' l' ∧
    same_links lk lk' (λ y, y ∉ l).
Proof.
  intros El. destruct Hq as [Hnd Hh Ht Hl]. unfold queue_dequeue.
  assert (l !! 0%nat = Some x) as H0 by by rewrite El.
  assert (l !! 1%nat = l' !! 0%nat) as H1 by by rewrite El.
  rewrite Hh, H0. rewrite (get_next_rep 0 x H0), bind_Ok, H1.
  pose proof (Hl _ _ H0) as Hx. assert (x ∉ l' ∧ NoDup l') as [Hxl Hnd'].
  { rewrite El in Hnd. by apply NoDup_cons in Hnd. }
  destruct (l' !! 0%nat) as [n|] eqn:Hn.
  - assert (n ∈ l') as Hnin by (by eapply list_elem_of_lookup_2).
    assert (n ≠ x) as Hnx by (intros ->; done).
    pose proof (Hl 1%nat n ltac:(congruence)) as Hln.
    destruct (set_prev_spec lk n _ None Hln) as (lk1 & -> & Hlen1 & Hg1). rewrite !bind_Ok.
    destruct (set_prev_spec lk1 x (link_at l 0) None) as (lk2 & -> & Hlen2 & Hg2).
    { by rewrite Hg1, decide_False by done. }
    rewrite bind_Ok.
    destruct (set_next_spec lk2 x (Link None (next (link_at l 0))) None)
      as (lk3 & -> & Hlen3 & Hg3).
    { by rewrite Hg2, decide_True by done. }
    rewrite bind_Ok. eexists _, _. split; [done|]. split; [split|split].
    + done.
    + simpl. congruence.
    + simpl. rewrite Ht, El. destruct l'; [done|]. by rewrite last_cons_cons.
    + intros i y Hy. assert (y ≠ x) by (intros ->; eapply Hxl, list_elem_of_lookup_2; done).
      rewrite Hg3, decide_False, Hg2, decide_False, Hg1 by done.
      assert (l !! S i = Some y) as Hly by by rewrite El.
      destruct (decide (y = n)) as [->|Hyn].
      * assert (i = 0%nat) as -> by (eapply NoDup_lookup; done).
        unfold link_at. by rewrite El.
      * rewrite (Hl _ _ Hly). unfold link_at. rewrite El. simpl.
        destruct i; [congruence|done].
    + congruence.
    + intros y Hy. assert (y ≠ x ∧ y ≠ n) as [? ?] by (rewrite El in Hy; set_solver).
      by rewrite Hg3, decide_False, Hg2, decide_False, Hg1, decide_False by done.
  - rewrite bind_Ok. assert (l' = []) as -> by (by destruct l').
    destruct (set_prev_spec lk x _ None Hx) as (lk1 & -> & Hlen1 & Hg1). rewrite !bind_Ok.
    destruct (set_next_spec lk1 x (Link None (next (link_at l 0))) None)
      as (lk2 & -> & Hlen2 & Hg2).
    { by rewrite Hg1, decide_True by done. }
    rewrite bind_Ok. eexists _, _. split; [done|]. split; [|split; [congruence|]].
    + split; [constructor|done|done|]. by intros i y Hy.
    + intros y Hy. assert (y ≠ x) by (rewrite El in Hy; set_solver).
      by rewrite Hg2, decide_False, Hg1, decide_False by done.
Qed.
End spec.

(** ** Theorems *)

(** C26.  The queue operations implement a list of distinct processes: pushing
    appends, pushing if absent appends unless the process is there, dequeuing
    takes the first one, and no link outside the queue changes. *)
Theorem queue_refines_list lk q l :
  queue_rep lk q l →
  queue_is_empty q = bool_decide (l = []) ∧ queue_top q = l !! 0%nat ∧
  (∀ item, valid_pid lk item → item ∉ l → ∃ lk' q', queue_push lk q item = Ok (lk', q') ∧
     queue_rep lk' q' (l ++ [item]) ∧ same_links lk lk' (λ x, x ∉ item :: l)) ∧
  (∀ item, valid_pid lk item → ∃ lk' q', queue_push_if_not_exist lk q item = Ok (lk', q') ∧
     queue_rep lk' q' (if decide (item ∈ l) then l else l ++ [item]) ∧
     same_links lk lk' (λ x, x ∉ item :: l)) ∧
  (∃ lk' q', queue_dequeue lk q = Ok (l !! 0%nat, lk', q') ∧ queue_rep lk' q' (drop 1 l) ∧
     same_links lk lk' (λ x, x ∉ l)).
Proof.
  intros Hq. split_and!; [by eapply queue_rep_is_empty|apply Hq| | |].
  - intros. by apply queue_push_spec.
  - intros. by apply queue_push_if_not_exist_spec.
  - destruct l as [|x l].
    + exists lk, q. by rewrite (queue_dequeue_nil _ _ _ Hq eq_refl).
    + rewrite skipn_cons, drop_0. by apply queue_dequeue_cons.
Qed.

Lemma queue_refines_list_witness :
  let lk := [Link None (Some 1); Link (Some 0) None; Link None None] in
  let q := Queue (Some 0) (Some 1) in
  queue_rep lk q [0; 1] ∧
  ∃ lk' q', queue_push lk q 2 = Ok (lk', q') ∧ queue_rep lk' q' [0; 1; 2].
Proof.
  intros lk q. assert (queue_rep lk q [0; 1]) as Hq.
  { split; [by apply (bool_decide_unpack _)|done|done|].
    intros [|[|i]] x [= <-]; done. }
  split; [done|]. destruct (queue_refines_list lk q [0; 1] Hq) as (_ & _ & Hpush & _).
  destruct (Hpush 2) as (lk' & q' & ? & ? & _);
    [by apply (bool_decide_unpack _)|by apply (bool_decide_unpack _)|].
  by exists lk', q'.
Defined.

(** Two operations that no other code of the kernel calls are wrong.
    [queue_remove] on a process in the middle of a queue does not unlink it: it
    reads [pcb->next], the field of entry 0.  After removing 2 from 1, 2, 3 the
    [prev] field of 3 still is 2; when entry 0 has no successor the call
    dereferences a null pointer.  [queue_insert_at_head] on an empty queue
    leaves the tail null, and the next push then dereferences it. *)
Theorem queue_unused_operations lk x y :
  queue_remove [Link None (Some 1); Link None (Some 2); Link (Some 1) (Some 3);
                Link (Some 2) None] (Queue (Some 1) (Some 3)) 2 =
    Ok (Some 3, [Link None (Some 1); Link (Some 1) (Some 3); Link None None;
                 Link (Some 2) None], Queue (Some 1) (Some 3)) ∧
  queue_remove [Link None None; Link None (Some 2); Link (Some 1) (Some 3);
                Link (Some 2) None] (Queue (Some 1) (Some 3)) 2 = Fault NullPointer ∧
  ∃ q', queue_insert_at_head lk queue_init x = Ok (lk, q') ∧
    queue_push lk q' y = Fault NullPointer.
Proof. split; [done|]. split; [done|]. eexists. by split. Qed.
