(* ===== verification/Kstate.v ===== *)
(** * The state of the kernel's process management

    The process table ([include/os/sched.h]), the scheduler's variables
    ([kernel/sched/sched.c]) and the synchronisation objects
    ([include/os/lock.h], [sem.h], [cond.h], [barrier.h]).  Objects that user
    programs allocate (locks, semaphores, ...) live at addresses; the queue
    embedded in an object is designated by a [qid]. *)

From S2P Require Import Prelude CString Printk Queue.

Definition NUM_MAX_TASK : Z := 16.
Definition MAX_PRIORITY_NUM : Z := 5.
Definition PRIORITY_FACTOR : Z := 3.
Definition MAX_LOCK_NUM_FOR_A_PROC : Z := 8.
Definition INVALID_PID : Z := -1.

Inductive task_status_t :=
  | TASK_BLOCKED | TASK_RUNNING | TASK_READY | TASK_EXITED | TASK_CREATE.

Inductive task_type_t :=
  | KERNEL_PROCESS | KERNEL_THREAD | USER_PROCESS | USER_THREAD.

#[export] Instance task_status_eq_dec : EqDecision task_status_t.
Proof. solve_decision. Defined.
#[export] Instance task_type_eq_dec : EqDecision task_type_t.
Proof. solve_decision. Defined.

(** Addresses of user objects; 0 is the null pointer. *)
Abbreviation addr := Z.

Record regs_context_t := RegsContext {
  regs : list Z;
  cp0_status : Z;
  hi : Z;
  lo : Z;
  cp0_badvaddr : Z;
  cp0_cause : Z;
  cp0_epc : Z;
  pc : Z;
}.

(** The fields [prev] and [next] are in [plinks] of [kstate], the block queue
    [proc_block_queue] is the queue [QProc]. *)
Record pcb_t := Pcb {
  kernel_context : regs_context_t;
  user_context : regs_context_t;
  p_pid : Z;
  kernel_stack_top : Z;
  user_stack_top : Z;
  name : bytes;
  entry_point : Z;
  locks : list (option addr);
  type : task_type_t;
  status : task_status_t;
  awake_time : Z;
  cursor_x : Z;
  cursor_y : Z;
  priority : Z;
  waiting_desc : option addr;
}.

Definition regs_eta (r : regs_context_t) : regs_context_t :=
  RegsContext (regs r) (cp0_status r) (hi r) (lo r) (cp0_badvaddr r) (cp0_cause r)
    (cp0_epc r) (pc r).
#[export] Instance upd_regs : Update regs := ltac:(derive_update regs_eta regs).
#[export] Instance upd_cp0_status : Update cp0_status := ltac:(derive_update regs_eta cp0_status).
#[export] Instance upd_hi : Update hi := ltac:(derive_update regs_eta hi).
#[export] Instance upd_lo : Update lo := ltac:(derive_update regs_eta lo).
#[export] Instance upd_cp0_badvaddr : Update cp0_badvaddr :=
  ltac:(derive_update regs_eta cp0_badvaddr).
#[export] Instance upd_cp0_cause : Update cp0_cause := ltac:(derive_update regs_eta cp0_cause).
#[export] Instance upd_pc : Update pc := ltac:(derive_update regs_eta pc).
#[export] Instance upd_cp0_epc : Update cp0_epc := ltac:(derive_update regs_eta cp0_epc).

Definition pcb_eta (p : pcb_t) : pcb_t :=
  Pcb (kernel_context p) (user_context p) (p_pid p) (kernel_stack_top p)
    (user_stack_top p) (name p) (entry_point p) (locks p) (type p) (status p)
    (awake_time p) (cursor_x p) (cursor_y p) (priority p) (waiting_desc p).
#[export] Instance upd_kernel_context : Update kernel_context :=
  ltac:(derive_update pcb_eta kernel_context).
#[export] Instance upd_user_context : Update user_context :=
  ltac:(derive_update pcb_eta user_context).
#[export] Instance upd_p_pid : Update p_pid := ltac:(derive_update pcb_eta p_pid).
#[export] Instance upd_kernel_stack_top : Update kernel_stack_top :=
  ltac:(derive_update pcb_eta kernel_stack_top).
#[export] Instance upd_user_stack_top : Update user_stack_top :=
  ltac:(derive_update pcb_eta user_stack_top).
#[export] Instance upd_name : Update name := ltac:(derive_update pcb_eta name).
#[export] Instance upd_entry_point : Update entry_point :=
  ltac:(derive_update pcb_eta entry_point).
#[export] Instance upd_locks : Update locks := ltac:(derive_update pcb_eta locks).
#[export] Instance upd_type : Update type := ltac:(derive_update pcb_eta type).
#[export] Instance upd_status : Update status := ltac:(derive_update pcb_eta status).
#[export] Instance upd_awake_time : Update awake_time :=
  ltac:(derive_update pcb_eta awake_time).
#[export] Instance upd_cursor_x : Update cursor_x := ltac:(derive_update pcb_eta cursor_x).
#[export] Instance upd_cursor_y : Update cursor_y := ltac:(derive_update pcb_eta cursor_y).
#[export] Instance upd_priority : Update priority := ltac:(derive_update pcb_eta priority).
#[export] Instance upd_waiting_desc : Update waiting_desc :=
  ltac:(derive_update pcb_eta waiting_desc).

(** ** Queues *)

(** The queues of the kernel: [priority_ready_queue[i]], [block_queue],
    [recv_block_queue], and those inside a process table entry, a mutex, a
    semaphore, a condition variable or a barrier. *)
Inductive qid :=
  | QReady (i : Z)
  | QBlock
  | QRecv
  | QProc (p : pid)
  | QLock (a : addr)
  | QSem (a : addr)
  | QCond (a : addr)
  | QBarrier (a : addr).

#[export] Instance qid_eq_dec : EqDecision qid.
Proof. solve_decision. Defined.

Definition qid_code (q : qid) : nat * Z :=
  match q with
  | QReady i => (0%nat, i) | QBlock => (1%nat, 0) | QRecv => (2%nat, 0)
  | QProc p => (3%nat, p) | QLock a => (4%nat, a) | QSem a => (5%nat, a)
  | QCond a => (6%nat, a) | QBarrier a => (7%nat, a)
  end.

Definition qid_decode (c : nat * Z) : option qid :=
  match c with
  | (0%nat, i) => Some (QReady i) | (1%nat, _) => Some QBlock | (2%nat, _) => Some QRecv
  | (3%nat, p) => Some (QProc p) | (4%nat, a) => Some (QLock a)
  | (5%nat, a) => Some (QSem a) | (6%nat, a) => Some (QCond a)
  | (7%nat, a) => Some (QBarrier a) | _ => None
  end.

#[export] Instance qid_countable : Countable qid.
Proof. apply (inj_countable qid_code qid_decode). by intros []. Defined.

(** ** Synchronisation objects *)

Inductive lock_status_t := UNLOCKED | LOCKED.

#[export] Instance lock_status_eq_dec : EqDecision lock_status_t.
Proof. solve_decision. Defined.

Record mutex_lock_t := Mutex {
  m_status : lock_status_t;
  is_init : Z;
  lock_id : Z;
}.

Record semaphore_t := Semaphore { value : Z; s_initialized : Z }.

Record barrier_t := Barrier { b_initialized : Z; cur_val : Z; bound : Z }.

Record condition_t := Condition { c_initialized : Z }.

Definition mutex_eta (m : mutex_lock_t) := Mutex (m_status m) (is_init m) (lock_id m).
#[export] Instance upd_m_status : Update m_status := ltac:(derive_update mutex_eta m_status).

Definition semaphore_eta (x : semaphore_t) := Semaphore (value x) (s_initialized x).
#[export] Instance upd_value : Update value := ltac:(derive_update semaphore_eta value).

Definition barrier_eta (b : barrier_t) := Barrier (b_initialized b) (cur_val b) (bound b).
#[export] Instance upd_cur_val : Update cur_val := ltac:(derive_update barrier_eta cur_val).
#[export] Instance upd_bound : Update bound := ltac:(derive_update barrier_eta bound).

(** ** The kernel state *)

Record kstate := KState {
  pcb : list pcb_t;
  plinks : links;
  queues : gmap qid queue_t;            (* absent: both pointers null *)
  ready_counter : list Z;               (* priority_ready_queue_counter *)
  ready_bound : list Z;                 (* ..._counter_uppper_bound *)
  last_sel_index : Z;
  glb_sched_cnt : Z;
  glb_sched_bound : Z;
  current_running : option pid;
  time_elapsed : Z;
  screen_cursor_x : Z;
  screen_cursor_y : Z;
  mutexes : gmap addr mutex_lock_t;
  lock_cnt : Z;
  semaphores : gmap addr semaphore_t;
  barriers : gmap addr barrier_t;
  conditions : gmap addr condition_t;
  tdes0 : gmap addr Z;                  (* first word of the DMA descriptors *)
  klog : list message;
}.

Definition kstate_eta (s : kstate) : kstate :=
  KState (pcb s) (plinks s) (queues s) (ready_counter s) (ready_bound s)
    (last_sel_index s) (glb_sched_cnt s) (glb_sched_bound s) (current_running s)
    (time_elapsed s) (screen_cursor_x s) (screen_cursor_y s) (mutexes s) (lock_cnt s)
    (semaphores s) (barriers s) (conditions s) (tdes0 s) (klog s).
#[export] Instance upd_pcb : Update pcb := ltac:(derive_update kstate_eta pcb).
#[export] Instance upd_plinks : Update plinks := ltac:(derive_update kstate_eta plinks).
#[export] Instance upd_queues : Update queues := ltac:(derive_update kstate_eta queues).
#[export] Instance upd_time_elapsed : Update time_elapsed :=
  ltac:(derive_update kstate_eta time_elapsed).
#[export] Instance upd_ready_counter : Update ready_counter :=
  ltac:(derive_update kstate_eta ready_counter).
#[export] Instance upd_ready_bound : Update ready_bound :=
  ltac:(derive_update kstate_eta ready_bound).
#[export] Instance upd_last_sel_index : Update last_sel_index :=
  ltac:(derive_update kstate_eta last_sel_index).
#[export] Instance upd_glb_sched_cnt : Update glb_sched_cnt :=
  ltac:(derive_update kstate_eta glb_sched_cnt).
#[export] Instance upd_current_running : Update current_running :=
  ltac:(derive_update kstate_eta current_running).
#[export] Instance upd_screen_cursor_x : Update screen_cursor_x :=
  ltac:(derive_update kstate_eta screen_cursor_x).
#[export] Instance upd_screen_cursor_y : Update screen_cursor_y :=
  ltac:(derive_update kstate_eta screen_cursor_y).
#[export] Instance upd_mutexes : Update mutexes := ltac:(derive_update kstate_eta mutexes).
#[export] Instance upd_lock_cnt : Update lock_cnt := ltac:(derive_update kstate_eta lock_cnt).
#[export] Instance upd_semaphores : Update semaphores :=
  ltac:(derive_update kstate_eta semaphores).
#[export] Instance upd_barriers : Update barriers :=
  ltac:(derive_update kstate_eta barriers).
#[export] Instance upd_conditions : Update conditions :=
  ltac:(derive_update kstate_eta conditions).
#[export] Instance upd_tdes0 : Update tdes0 := ltac:(derive_update kstate_eta tdes0).
#[export] Instance upd_klog : Update klog := ltac:(derive_update kstate_eta klog).

(** ** Accesses *)

Definition get_pcb (s : kstate) (p : option pid) : outcome pcb_t :=
  i ← deref p; aget (pcb s) i.

(** [p->field = ...]: [f] is applied to the entry [p] points to. *)
Definition upd_proc (s : kstate) (p : option pid) (f : pcb_t → pcb_t) : outcome kstate :=
  i ← deref p;
  x ← aget (pcb s) i;
  t ← aset (pcb s) i (f x);
  Ok (s <| pcb := t |>).

Definition get_queue (s : kstate) (q : qid) : queue_t := default queue_init (queues s !! q).

(** [&priority_ready_queue[i]] *)
Definition ready_q (i : Z) : outcome qid :=
  if decide (0 ≤ i < MAX_PRIORITY_NUM) then Ok (QReady i) else Fault OutOfBounds.

(** The queue operations on a queue of the kernel. *)
Definition k_push (s : kstate) (q : qid) (item : pid) : outcome kstate :=
  '(lk, qq) ← queue_push (plinks s) (get_queue s q) item;
  Ok (s <| plinks := lk |> <| queues ::= <[q := qq]> |>).

Definition k_push_if_not_exist (s : kstate) (q : qid) (item : pid) : outcome kstate :=
  '(lk, qq) ← queue_push_if_not_exist (plinks s) (get_queue s q) item;
  Ok (s <| plinks := lk |> <| queues ::= <[q := qq]> |>).

Definition k_dequeue (s : kstate) (q : qid) : outcome (option pid * kstate) :=
  '(p, lk, qq) ← queue_dequeue (plinks s) (get_queue s q);
  Ok (p, s <| plinks := lk |> <| queues ::= <[q := qq]> |>).

Definition say (s : kstate) (m : message) : kstate := s <| klog ::= (.++ [m]) |>.
