(* ===== verification/Sched.v ===== *)
(** * The scheduler: [kernel/sched/sched.c], blocking and waking

    [do_scheduler] saves the registers of the current process, calls
    [scheduler] and restores those of the process it selected; a function that
    calls it in tail position is modelled up to that switch, the new
    [current_running] being the process that continues.  The TLB is cleared at
    every switch by inline assembly, which [Inline] models. *)

From S2P Require Import Prelude CString Printk Queue Kstate.

(** ** Priority bounds *)

Definition clamp_priority (priority : Z) : Z :=
  if MAX_PRIORITY_NUM <=? priority then MAX_PRIORITY_NUM - 1 else priority.

Definition increase_priority_upper_bound (s : kstate) (priority : Z) : outcome kstate :=
  let priority := clamp_priority priority in
  b ← aget (ready_bound s) priority;
  t ← aset (ready_bound s) priority (u32 (b + PRIORITY_FACTOR * (priority + 1)));
  Ok (s <| ready_bound := t |>).

Definition decrease_priority_upper_bound (s : kstate) (priority : Z) : outcome kstate :=
  let priority := clamp_priority priority in
  let decreament := PRIORITY_FACTOR * (priority + 1) in
  b ← aget (ready_bound s) priority;
  t ← aset (ready_bound s) priority (if b <? decreament then 0 else b - decreament);
  Ok (s <| ready_bound := t |>).

(** ** Waking *)

Definition invoke_blocked_proc (s : kstate) (proc : option pid) : outcome kstate :=
  match proc with
  | None => Ok s
  | Some p =>
      s ← upd_proc s proc (λ x, x <| status := TASK_RUNNING |>);
      x ← get_pcb s proc;
      s ← increase_priority_upper_bound s (priority x);
      q ← ready_q (priority x);
      k_push_if_not_exist s q p
  end.

Definition check_sleeping (s : kstate) : outcome kstate :=
  let cur_time := time_elapsed s in
  match head (get_queue s QBlock) with
  | None => Ok s
  | Some _ =>
      blk_top ← get_pcb s (head (get_queue s QBlock));
      if awake_time blk_top <? cur_time then
        '(proc, s) ← k_dequeue s QBlock;
        s ← upd_proc s proc (λ x, x <| awake_time := 0 |>);
        invoke_blocked_proc s proc
      else Ok s
  end.

Definition check_net_recv (s : kstate) : outcome kstate :=
  let proc := head (get_queue s QRecv) in
  match proc with
  | None => Ok s
  | Some _ =>
      x ← get_pcb s proc;
      d ← deref (waiting_desc x);
      w ← (match tdes0 s !! d with Some w => Ok w | None => Fault BadPointer end);
      if Z.land w 0x80000000 =? 0 then
        '(_, s) ← k_dequeue s QRecv;
        invoke_blocked_proc s proc
      else Ok s
  end.

(** ** Selection of the next process *)

(** [while (this_index < MAX && counter[this_index] >= bound[this_index]) ++this_index;]
    at most six rounds, as [this_index] starts at -1 or above. *)
Fixpoint skip_exhausted (fuel : nat) (s : kstate) (this_index : Z) : outcome Z :=
  match fuel with
  | O => OutOfFuel
  | S fuel =>
      if this_index <? MAX_PRIORITY_NUM then
        c ← aget (ready_counter s) this_index;
        b ← aget (ready_bound s) this_index;
        if b <=? c then skip_exhausted fuel s (this_index + 1) else Ok this_index
      else Ok this_index
  end.

(** The choice of the queue: lines 142-177. *)
Definition select_queue (s : kstate) : outcome (Z * kstate) :=
  let this_index :=
    if MAX_PRIORITY_NUM <=? last_sel_index s then 1 else last_sel_index s in
  this_index ← skip_exhausted 7 s this_index;
  '(this_index, s) ←
    (if MAX_PRIORITY_NUM <=? this_index then
       t ← for_range 1 MAX_PRIORITY_NUM (λ i t, aset t i 0) (ready_counter s);
       Ok (1, s <| ready_counter := t |>)
     else Ok (this_index, s));
  let cnt := i32 (glb_sched_cnt s + 1) in
  let s := s <| glb_sched_cnt := cnt |> in
  if glb_sched_bound s <=? cnt then
    Ok (0, s <| glb_sched_cnt := 0 |>)
  else
    q ← ready_q this_index;
    match head (get_queue s q) with
    | None => Ok (0, s)
    | Some _ =>
        let s := s <| last_sel_index := this_index |> in
        c ← aget (ready_counter s) this_index;
        t ← aset (ready_counter s) this_index (u32 (c + 1));
        Ok (this_index, s <| ready_counter := t |>)
    end.

(** The first process of the queue that has not exited; the exited ones before
    it are dropped. *)
Fixpoint dequeue_live (fuel : nat) (s : kstate) (q : qid) : outcome (option pid * kstate) :=
  match fuel with
  | O => OutOfFuel
  | S fuel =>
      '(top, s) ← k_dequeue s q;
      match top with
      | None => Ok (None, s)
      | Some _ =>
          x ← get_pcb s top;
          if decide (status x = TASK_EXITED) then dequeue_live fuel s q
          else Ok (top, s)
      end
  end.

(** One more round than the process table has entries. *)
Definition queue_fuel (s : kstate) : nat := S (length (plinks s)).

(** The switch itself: lines 188-212, without the TLB. *)
Definition switch_to (s : kstate) (top : option pid) : outcome kstate :=
  s ← upd_proc s top (λ x, x <| status := TASK_RUNNING |>);
  s ← upd_proc s (current_running s) (λ x,
        x <| cursor_x := screen_cursor_x s |> <| cursor_y := screen_cursor_y s |>);
  c ← get_pcb s (current_running s);
  cp ← deref (current_running s);
  s ← (if decide (status c ≠ TASK_BLOCKED ∧ status c ≠ TASK_EXITED) then
         q ← ready_q (priority c); k_push s q cp
       else Ok s);
  s ← check_sleeping s;
  s ← check_net_recv s;
  let s := s <| current_running := top |> in
  x ← get_pcb s top;
  Ok (s <| screen_cursor_x := cursor_x x |> <| screen_cursor_y := cursor_y x |>).

Definition scheduler (s : kstate) : outcome kstate :=
  '(this_index, s) ← select_queue s;
  q ← ready_q this_index;
  '(top, s) ← dequeue_live (queue_fuel s) s q;
  match top with
  | Some _ => switch_to s top
  | None => Ok (say s (Printk (cstr "[ERROR] scheduler error!
") []))
  end.

(** [do_scheduler] (entry.S) is [scheduler] between the saving and the restoring
    of the kernel context. *)
Definition do_scheduler (s : kstate) : outcome kstate := scheduler s.

(** ** Blocking *)

Definition do_block (s : kstate) (blk_queue : qid) : outcome kstate :=
  cp ← deref (current_running s);
  s ← k_push_if_not_exist s blk_queue cp;
  s ← upd_proc s (current_running s) (λ x, x <| status := TASK_BLOCKED |>);
  c ← get_pcb s (current_running s);
  s ← decrease_priority_upper_bound s (priority c);
  do_scheduler s.

Definition do_sleep (s : kstate) (sleep_time : Z) : outcome kstate :=
  let awkt := i32 (u32 (sleep_time + time_elapsed s)) in
  s ← upd_proc s (current_running s) (λ x, x <| awake_time := u32 awkt |>);
  do_block s QBlock.

Definition do_unblock_one (s : kstate) (q : qid) : outcome kstate :=
  '(proc, s) ← dequeue_live (queue_fuel s) s q;
  match proc with
  | None => Ok s
  | Some _ => invoke_blocked_proc s proc
  end.

Fixpoint unblock_loop (fuel : nat) (s : kstate) (q : qid) : outcome kstate :=
  match fuel with
  | O => OutOfFuel
  | S fuel =>
      match head (get_queue s q) with
      | None => Ok s
      | Some _ => s ← do_unblock_one s q; unblock_loop fuel s q
      end
  end.

Definition do_unblock_all (s : kstate) (q : qid) : outcome kstate :=
  unblock_loop (queue_fuel s) s q.

#[global] Arguments invoke_blocked_proc : simpl never.
#[global] Arguments check_sleeping : simpl never.
#[global] Arguments check_net_recv : simpl never.
#[global] Arguments switch_to : simpl never.
#[global] Arguments scheduler : simpl never.
#[global] Arguments do_block : simpl never.

(** ** Well-formed queues

    [Q] is the abstract content of every queue.  Each queue of the state
    represents its list, and no process is in two queues. *)

Abbreviation queue_map := (qid → list pid).

Definition qset (Q : queue_map) (q : qid) (l : list pid) : queue_map :=
  λ q', if decide (q' = q) then l else Q q'.

Lemma qset_eq Q q l : qset Q q l q = l.
Proof. unfold qset. by rewrite decide_True. Qed.

Lemma qset_ne Q q l q' : q' ≠ q → qset Q q l q' = Q q'.
Proof. intros. unfold qset. by rewrite decide_False. Qed.

Record queues_wf (s : kstate) (Q : queue_map) : Prop := {
  wf_links : Z.of_nat (length (plinks s)) = NUM_MAX_TASK;
  wf_queue q : queue_rep (plinks s) (get_queue s q) (Q q);
  wf_disjoint q q' x : x ∈ Q q → x ∈ Q q' → q = q';
}.

(** The process is in no queue. *)
Definition unqueued (Q : queue_map) (p : pid) : Prop := ∀ q, p ∉ Q q.

(** Two states that differ in the queues only. *)
Definition same_but_queues (s s' : kstate) : Prop :=
  s' = s <| plinks := plinks s' |> <| queues := queues s' |>.

Lemma same_but_queues_trans s1 s2 s3 :
  same_but_queues s1 s2 → same_but_queues s2 s3 → same_but_queues s1 s3.
Proof. unfold same_but_queues. intros H1 H2. rewrite H2, H1. done. Qed.

Lemma get_queue_set s lk q qq q' :
  get_queue (s <| plinks := lk |> <| queues ::= <[q := qq]> |>) q' =
    if decide (q' = q) then qq else get_queue s q'.
Proof.
  unfold get_queue. simpl. rewrite lookup_insert. by repeat case_decide.
Qed.

(** Replacing one queue and the links of its members. *)
Lemma queues_wf_set s Q q lk qq l (X : list pid) :
  queues_wf s Q → queue_rep lk qq l → same_links (plinks s) lk (λ x, x ∉ X) →
  (∀ x, x ∈ l → x ∈ X) → (∀ x q', x ∈ X → x ∈ Q q' → q' = q) →
  let s' := s <| plinks := lk |> <| queues ::= <[q := qq]> |> in
  queues_wf s' (qset Q q l) ∧ same_but_queues s s'.
Proof.
  intros [Hlen Hrep Hdisj] Hqq [Hsl Hsame] Hl HX. split; [|done]. split.
  - simpl. congruence.
  - intros q'. rewrite get_queue_set. unfold qset. case_decide; [done|].
    eapply queue_rep_frame; [apply Hrep|]. split; [done|].
    intros x Hx. apply Hsame. intros HxX. by eapply H, HX.
  - intros q1 q2 x. unfold qset. do 2 case_decide; intros; subst; [done|..].
    + symmetry. eauto.
    + eauto.
    + eauto.
Qed.

Lemma queues_wf_valid s Q q x : queues_wf s Q → x ∈ Q q → 0 ≤ x < NUM_MAX_TASK.
Proof. intros [<- Hrep _] Hx. by eapply (queue_rep_valid _ _ _ _ (Hrep q)). Qed.

Lemma queues_wf_ext s Q Q' : queues_wf s Q → (∀ q, Q' q = Q q) → queues_wf s Q'.
Proof.
  intros [H1 H2 H3] Heq. split; [done|..].
  - intros q. rewrite Heq. apply H2.
  - intros q q' x. rewrite !Heq. apply H3.
Qed.

Lemma k_push_spec s Q q p :
  queues_wf s Q → 0 ≤ p < NUM_MAX_TASK → unqueued Q p →
  ∃ s', k_push s q p = Ok s' ∧ queues_wf s' (qset Q q (Q q ++ [p])) ∧ same_but_queues s s'.
Proof.
  intros Hwf Hp Hun. unfold k_push.
  destruct (queue_push_spec _ _ _ (wf_queue _ _ Hwf q) p) as (lk & qq & -> & Hrep & Hsame).
  { unfold valid_pid. by rewrite (wf_links _ _ Hwf). }
  { apply Hun. }
  rewrite bind_Ok. eexists; split; [done|].
  eapply queues_wf_set; [done|done|done|set_solver|].
  intros x q' [->|Hx]%elem_of_cons Hx'; [by destruct (Hun q')|].
  by eapply wf_disjoint.
Qed.

Lemma k_push_if_not_exist_spec s Q q p :
  queues_wf s Q → 0 ≤ p < NUM_MAX_TASK → (∀ q', p ∈ Q q' → q' = q) →
  ∃ s', k_push_if_not_exist s q p = Ok s' ∧
    queues_wf s' (qset Q q (if decide (p ∈ Q q) then Q q else Q q ++ [p])) ∧
    same_but_queues s s'.
Proof.
  intros Hwf Hp Hun. unfold k_push_if_not_exist.
  destruct (queue_push_if_not_exist_spec _ _ _ (wf_queue _ _ Hwf q) p)
    as (lk & qq & -> & Hrep & Hsame).
  { unfold valid_pid. by rewrite (wf_links _ _ Hwf). }
  rewrite bind_Ok. eexists; split; [done|].
  eapply queues_wf_set; [done|done|done|case_decide; set_solver|].
  intros x q' [->|Hx]%elem_of_cons Hx'; [by apply Hun|]. by eapply wf_disjoint.
Qed.

Lemma k_dequeue_spec s Q q :
  queues_wf s Q →
  ∃ s', k_dequeue s q = Ok (Q q !! 0%nat, s') ∧ queues_wf s' (qset Q q (drop 1 (Q q))) ∧
    same_but_queues s s'.
Proof.
  intros Hwf. pose proof (wf_queue _ _ Hwf q) as Hq. unfold k_dequeue.
  destruct (Q q) as [|x l] eqn:El.
  - rewrite (queue_dequeue_nil _ _ _ Hq eq_refl), bind_Ok. eexists; split; [done|].
    eapply (queues_wf_set _ _ _ _ _ _ []); [done|done|done|done|].
    intros x q' Hx. by apply elem_of_nil in Hx.
  - destruct (queue_dequeue_cons _ _ _ Hq x l eq_refl) as (lk & qq & -> & Hrep & Hsame).
    rewrite bind_Ok. eexists; split; [done|]. simpl. rewrite drop_0.
    eapply queues_wf_set; [done|done|done|set_solver|].
    intros y q' Hy Hy'. eapply wf_disjoint; [done|done|]. by rewrite El.
Qed.

(** ** Well-formed scheduler states *)

Definition pid_ok (p : pid) : Prop := 0 ≤ p < NUM_MAX_TASK.

Record sched_wf (s : kstate) (Q : queue_map) : Prop := {
  wf_queues : queues_wf s Q;
  wf_pcb : Z.of_nat (length (pcb s)) = NUM_MAX_TASK;
  wf_counter : Z.of_nat (length (ready_counter s)) = MAX_PRIORITY_NUM;
  wf_bound : Z.of_nat (length (ready_bound s)) = MAX_PRIORITY_NUM;
  wf_last : 0 ≤ last_sel_index s;
  wf_priority p x : aget (pcb s) p = Ok x → 0 ≤ priority x < MAX_PRIORITY_NUM;
  wf_recv p x : p ∈ Q QRecv → aget (pcb s) p = Ok x →
    ∃ d w, waiting_desc x = Some d ∧ tdes0 s !! d = Some w;
}.

(** Updates of a process table entry that keep its priority and its DMA
    descriptor keep the state well formed. *)
Lemma upd_proc_spec s Q p f :
  sched_wf s Q → pid_ok p →
  (∀ x, priority (f x) = priority x ∧ waiting_desc (f x) = waiting_desc x) →
  ∃ x s', aget (pcb s) p = Ok x ∧ upd_proc s (Some p) f = Ok s' ∧ sched_wf s' Q ∧
    s' = s <| pcb := <[Z.to_nat p := f x]> (pcb s) |>.
Proof.
  intros [Hq Hpcb Hc Hb Hl Hpri Hrecv] Hp Hf.
  destruct (aget_total (pcb s) p) as [x Hx]; [unfold pid_ok in Hp; lia|].
  exists x. eexists. split; [done|]. unfold upd_proc. simpl. rewrite Hx, bind_Ok.
  unfold pid_ok in Hp. rewrite aset_total by lia. split; [done|]. split; [|done].
  assert (Hg : ∀ p' x', aget (<[Z.to_nat p := f x]> (pcb s)) p' = Ok x' →
    ∃ y, aget (pcb s) p' = Ok y ∧ priority x' = priority y ∧ waiting_desc x' = waiting_desc y).
  { intros p' x'. destruct (decide (p' = p)) as [->|].
    - rewrite aget_insert_eq by lia. intros [= <-]. exists x. destruct (Hf x). done.
    - rewrite aget_insert_ne by lia. eauto. }
  split; simpl; [|by rewrite length_insert|done|done|done|..].
  - destruct Hq as [H1 H2 H3]. by split.
  - intros p' x' (y & Hy & -> & _)%Hg. by eapply Hpri.
  - intros p' x' Hp' (y & Hy & _ & ->)%Hg. by eapply Hrecv.
Qed.

Lemma get_pcb_spec s Q p :
  sched_wf s Q → pid_ok p →
  ∃ x, get_pcb s (Some p) = Ok x ∧ aget (pcb s) p = Ok x ∧ 0 ≤ priority x < MAX_PRIORITY_NUM.
Proof.
  intros Hwf Hp. destruct (aget_total (pcb s) p) as [x Hx].
  { rewrite (wf_pcb _ _ Hwf). done. }
  exists x. split_and!; [done|done|..]; by eapply (wf_priority _ _ Hwf).
Qed.

(** The other fields are untouched when the queues change. *)
Lemma sched_wf_queues s s' Q Q' :
  sched_wf s Q → queues_wf s' Q' → same_but_queues s s' →
  (∀ p, p ∈ Q' QRecv → p ∈ Q QRecv) → sched_wf s' Q'.
Proof.
  intros [_ Hpcb Hc Hb Hl Hpri Hrecv] Hq Hs Hsub. rewrite Hs in *. split; simpl in *; [|done..|].
  - destruct Hq as [H1 H2 H3]. by split.
  - eauto.
Qed.

Lemma clamp_priority_range p : 0 ≤ p → 0 ≤ clamp_priority p < MAX_PRIORITY_NUM.
Proof. unfold clamp_priority, MAX_PRIORITY_NUM. case_match; lia. Qed.

Lemma increase_spec s Q p :
  sched_wf s Q → 0 ≤ p →
  ∃ t, increase_priority_upper_bound s p = Ok (s <| ready_bound := t |>) ∧
    sched_wf (s <| ready_bound := t |>) Q.
Proof.
  intros [Hq Hpcb Hc Hb Hl Hpri Hrecv] Hp. pose proof (clamp_priority_range p Hp).
  unfold increase_priority_upper_bound.
  destruct (aget_total (ready_bound s) (clamp_priority p)) as [b ->]; [lia|].
  rewrite bind_Ok, aset_total, bind_Ok by lia. eexists; split; [done|].
  split; simpl; [|done|done|by rewrite length_insert|done|done|done].
  destruct Hq as [H1 H2 H3]. by split.
Qed.

Lemma decrease_spec s Q p :
  sched_wf s Q → 0 ≤ p →
  ∃ t, decrease_priority_upper_bound s p = Ok (s <| ready_bound := t |>) ∧
    sched_wf (s <| ready_bound := t |>) Q.
Proof.
  intros [Hq Hpcb Hc Hb Hl Hpri Hrecv] Hp. pose proof (clamp_priority_range p Hp).
  unfold decrease_priority_upper_bound.
  destruct (aget_total (ready_bound s) (clamp_priority p)) as [b ->]; [lia|].
  rewrite bind_Ok, aset_total, bind_Ok by lia. eexists; split; [done|].
  split; simpl; [|done|done|by rewrite length_insert|done|done|done].
  destruct Hq as [H1 H2 H3]. by split.
Qed.

Lemma ready_q_ok i : 0 ≤ i < MAX_PRIORITY_NUM → ready_q i = Ok (QReady i).
Proof. intros. unfold ready_q. by rewrite decide_True. Qed.

(** ** Waking a process *)

(** What waking [p] does to the queues: it joins its ready queue. *)
Definition woken (s : kstate) (Q : queue_map) (p : pid) (s' : kstate) (Q' : queue_map) :
    Prop :=
  ∃ x x', aget (pcb s) p = Ok x ∧ x' = x <| status := TASK_RUNNING |> ∧
    Q' = qset Q (QReady (priority x)) (Q (QReady (priority x)) ++ [p]) ∧
    pcb s' = <[Z.to_nat p := x']> (pcb s) ∧ current_running s' = current_running s ∧
    last_sel_index s' = last_sel_index s ∧ glb_sched_cnt s' = glb_sched_cnt s ∧
    ready_counter s' = ready_counter s ∧ tdes0 s' = tdes0 s ∧
    time_elapsed s' = time_elapsed s.

Lemma invoke_blocked_proc_spec s Q p :
  sched_wf s Q → pid_ok p → unqueued Q p →
  ∃ s' Q', invoke_blocked_proc s (Some p) = Ok s' ∧ sched_wf s' Q' ∧ woken s Q p s' Q'.
Proof.
  intros Hwf Hp Hun. unfold invoke_blocked_proc.
  destruct (upd_proc_spec s Q p (λ x, x <| status := TASK_RUNNING |>))
    as (x & s1 & Hx & -> & Hwf1 & Hs1); [done|done|done|].
  rewrite bind_Ok. destruct (get_pcb_spec s1 Q p Hwf1 Hp) as (x1 & -> & Hx1 & Hpri).
  assert (x1 = x <| status := TASK_RUNNING |>) as ->.
  { rewrite Hs1 in Hx1. simpl in Hx1. pose proof (aget_bound _ _ _ Hx).
    rewrite aget_insert_eq in Hx1 by done. congruence. }
  simpl in Hpri. rewrite bind_Ok. simpl.
  destruct (increase_spec s1 Q (priority x) Hwf1) as (t & -> & Hwf2); [lia|].
  rewrite bind_Ok, ready_q_ok, bind_Ok by done.
  set (s2 := s1 <| ready_bound := t |>) in *.
  destruct (k_push_if_not_exist_spec s2 Q (QReady (priority x)) p) as (s3 & Hs3 & Hq3 & Hsame).
  { apply Hwf2. } { done. } { intros q' Hq'. by destruct (Hun q'). }
  rewrite decide_False in Hq3 by apply Hun.
  exists s3. eexists. split; [done|]. split.
  - eapply sched_wf_queues; [done|done|done|]. intros y. by rewrite qset_ne.
  - exists x. eexists. split_and!; [done|done|done|..]; rewrite Hsame; simpl; by rewrite ?Hs1.
Qed.

(** ** The periodic wake-ups *)

Definition queued (Q : queue_map) (p : pid) : Prop := ∃ q, p ∈ Q q.

Lemma unqueued_queued Q p : unqueued Q p ↔ ¬ queued Q p.
Proof. unfold unqueued, queued. naive_solver. Qed.

(** The state changed by moving processes between queues: the same processes
    are queued, the current one is the same, and a table entry changes in its
    status and awake time only, the status only to [TASK_RUNNING]. *)
Record requeued (s : kstate) (Q : queue_map) (s' : kstate) (Q' : queue_map) : Prop := {
  rq_wf : sched_wf s' Q';
  rq_current : current_running s' = current_running s;
  rq_queued p : queued Q' p ↔ queued Q p;
  rq_pcb p x : aget (pcb s) p = Ok x → ∃ x', aget (pcb s') p = Ok x' ∧
    priority x' = priority x ∧ (status x' = status x ∨ status x' = TASK_RUNNING ∧ queued Q p);
  rq_ready i y : y ∈ Q (QReady i) → y ∈ Q' (QReady i);
}.

Lemma requeued_refl s Q : sched_wf s Q → requeued s Q s Q.
Proof. split; [done|done|done| |done]. intros p x Hx. exists x. auto. Qed.

Lemma requeued_trans s1 Q1 s2 Q2 s3 Q3 :
  requeued s1 Q1 s2 Q2 → requeued s2 Q2 s3 Q3 → requeued s1 Q1 s3 Q3.
Proof.
  intros [_ Hc1 Hq1 Hp1 Hr1] [Hwf Hc2 Hq2 Hp2 Hr2]. split; [done|congruence| | |].
  - intros p. by rewrite Hq2.
  - intros p x (x1 & Hx1 & Hpr1 & Hs1)%Hp1. destruct (Hp2 p x1 Hx1) as (x2 & Hx2 & Hpr2 & Hs2).
    exists x2. split_and!; [done|congruence|]. rewrite Hq1 in Hs2.
    destruct Hs2 as [->|[? ?]]; [done|by right].
  - auto.
Qed.

Lemma queued_qset_snoc Q q c y : queued (qset Q q (Q q ++ [c])) y ↔ queued Q y ∨ y = c.
Proof.
  unfold queued. split.
  - intros [q' Hq']. unfold qset in Hq'. case_decide; [|eauto]. subst.
    apply elem_of_app in Hq' as [?|?%list_elem_of_singleton]; eauto.
  - intros [[q' Hq']| ->].
    + exists q'. unfold qset. case_decide; [subst; set_solver|done].
    + exists q. rewrite qset_eq. set_solver.
Qed.

Lemma ready_kept_snoc Q q c i y : y ∈ Q (QReady i) → y ∈ qset Q q (Q q ++ [c]) (QReady i).
Proof. intros Hy. unfold qset. case_decide as E; [rewrite <- E; set_solver|done]. Qed.

(** Waking the head of a queue takes no process out of the queues. *)
Lemma queued_head Q q p l y : Q q = p :: l → queued (qset Q q l) y ∨ y = p ↔ queued Q y.
Proof.
  intros Hq. unfold queued. split.
  - intros [[q' Hq']| ->]; [|exists q; rewrite Hq; set_solver].
    unfold qset in Hq'. case_decide; [exists q; rewrite Hq; set_solver|eauto].
  - intros [q' Hq']. destruct (decide (q' = q)) as [->|].
    + rewrite Hq in Hq'. apply elem_of_cons in Hq' as [|]; [by right|].
      left. exists q. by rewrite qset_eq.
    + left. exists q'. by rewrite qset_ne.
Qed.

(** Taking the head [p] of a queue and waking it. *)
Lemma requeue_head s Q q p l s1 s2 Q2 :
  Q q = p :: l → (∀ i, q ≠ QReady i) → current_running s1 = current_running s →
  (∀ p' x, aget (pcb s) p' = Ok x → ∃ x', aget (pcb s1) p' = Ok x' ∧
    priority x' = priority x ∧ status x' = status x) →
  sched_wf s2 Q2 → woken s1 (qset Q q l) p s2 Q2 → requeued s Q s2 Q2.
Proof.
  intros Hq Hnr Hcur Hpcb Hwf2 (x & x' & Hx & -> & -> & Hp2 & Hc2 & _).
  split; [done|congruence|..|intros i y Hy; apply ready_kept_snoc; by rewrite qset_ne].
  - intros p'. rewrite queued_qset_snoc. by apply queued_head.
  - intros p' y Hy. destruct (Hpcb p' y Hy) as (y1 & Hy1 & Hpr & Hst).
    rewrite Hp2. pose proof (aget_bound _ _ _ Hx). destruct (decide (p' = p)) as [->|].
    + rewrite aget_insert_eq by done. eexists; split; [done|]. simpl.
      rewrite Hx in Hy1. injection Hy1 as <-. split; [done|]. right. split; [done|].
      exists q. rewrite Hq. set_solver.
    + rewrite aget_insert_ne by lia. eauto.
Qed.

Lemma head_unqueued s Q q p l : sched_wf s Q → Q q = p :: l → unqueued (qset Q q l) p.
Proof.
  intros Hwf Hq q'. unfold qset. pose proof (wf_queues _ _ Hwf) as [_ Hrep Hdisj].
  case_decide as Hqq.
  - pose proof (rep_NoDup _ _ _ (Hrep q)) as Hnd. rewrite Hq in Hnd.
    by apply NoDup_cons in Hnd as [? _].
  - intros Hin. apply Hqq. eapply Hdisj; [done|]. rewrite Hq. set_solver.
Qed.

Lemma get_queue_head s Q q : queues_wf s Q → head (get_queue s q) = Q q !! 0%nat.
Proof. intros Hwf. apply rep_head with (plinks s), wf_queue, Hwf. Qed.

Lemma check_sleeping_spec s Q :
  sched_wf s Q → ∃ s' Q', check_sleeping s = Ok s' ∧ requeued s Q s' Q'.
Proof.
  intros Hwf. unfold check_sleeping. rewrite (get_queue_head s Q) by apply Hwf.
  destruct (Q QBlock) as [|p l] eqn:Hq; simpl.
  { exists s, Q. split; [done|by apply requeued_refl]. }
  assert (pid_ok p) as Hp.
  { eapply (queues_wf_valid s Q QBlock); [apply Hwf|]. rewrite Hq. set_solver. }
  destruct (get_pcb_spec s Q p Hwf Hp) as (x & -> & Hx & Hpri). rewrite bind_Ok.
  case_match; [|exists s, Q; split; [done|by apply requeued_refl]].
  destruct (k_dequeue_spec s Q QBlock) as (s1 & -> & Hq1 & Hs1); [apply Hwf|].
  rewrite Hq, bind_Ok in *. simpl in *. rewrite drop_0 in Hq1.
  assert (sched_wf s1 (qset Q QBlock l)) as Hwf1.
  { eapply sched_wf_queues; [done|done|done|]. intros y. by rewrite qset_ne. }
  destruct (upd_proc_spec s1 (qset Q QBlock l) p (λ x, x <| awake_time := 0 |>))
    as (y & s2 & Hy & -> & Hwf2 & Hs2); [done|done|done|]. rewrite bind_Ok.
  destruct (invoke_blocked_proc_spec s2 (qset Q QBlock l) p Hwf2 Hp) as (s3 & Q3 & -> & Hwf3 & Hw).
  { by eapply head_unqueued. }
  exists s3, Q3. split; [done|]. eapply (requeue_head s Q QBlock p l s2); try done.
  - by rewrite Hs2, Hs1.
  - intros p' z Hz. rewrite Hs2, Hs1. simpl.
    pose proof (aget_bound _ _ _ Hx). rewrite Hs1 in Hy. simpl in Hy.
    destruct (decide (p' = p)) as [->|].
    + rewrite aget_insert_eq by done. eexists; split; [done|]. simpl.
      rewrite Hz in Hy. by injection Hy as ->.
    + rewrite aget_insert_ne by lia. eauto.
Qed.

Lemma check_net_recv_spec s Q :
  sched_wf s Q → ∃ s' Q', check_net_recv s = Ok s' ∧ requeued s Q s' Q'.
Proof.
  intros Hwf. unfold check_net_recv. rewrite (get_queue_head s Q) by apply Hwf.
  destruct (Q QRecv) as [|p l] eqn:Hq; simpl.
  { exists s, Q. split; [done|by apply requeued_refl]. }
  assert (p ∈ Q QRecv) as Hin by (rewrite Hq; set_solver).
  assert (pid_ok p) as Hp by (eapply (queues_wf_valid s Q QRecv); [apply Hwf|done]).
  destruct (get_pcb_spec s Q p Hwf Hp) as (x & -> & Hx & Hpri). rewrite bind_Ok.
  destruct (wf_recv _ _ Hwf p x Hin Hx) as (d & w & -> & Hw). simpl. rewrite Hw. simpl.
  case_match; [|exists s, Q; split; [done|by apply requeued_refl]].
  destruct (k_dequeue_spec s Q QRecv) as (s1 & -> & Hq1 & Hs1); [apply Hwf|].
  rewrite Hq, bind_Ok in *. simpl in *. rewrite drop_0 in Hq1.
  assert (sched_wf s1 (qset Q QRecv l)) as Hwf1.
  { eapply sched_wf_queues; [done|done|done|]. intros y. rewrite qset_eq, Hq. set_solver. }
  destruct (invoke_blocked_proc_spec s1 (qset Q QRecv l) p Hwf1 Hp) as (s3 & Q3 & -> & Hwf3 & Hwk).
  { by eapply head_unqueued. }
  exists s3, Q3. split; [done|]. eapply (requeue_head s Q QRecv p l s1); try done.
  - by rewrite Hs1.
  - intros p' z Hz. rewrite Hs1. simpl. eauto.
Qed.

(** ** The choice of a process *)

Lemma sched_wf_ext s Q Q' : sched_wf s Q → (∀ q, Q' q = Q q) → sched_wf s Q'.
Proof.
  intros [Hq H1 H2 H3 H4 H5 H6] Heq. split; try done.
  - by eapply queues_wf_ext.
  - intros p x. rewrite Heq. apply H6.
Qed.

Definition exited (s : kstate) (p : pid) : Prop :=
  ∃ x, aget (pcb s) p = Ok x ∧ status x = TASK_EXITED.

(** The live process found in [l], after the exited ones before it. *)
Definition first_live (s : kstate) (l : list pid) (r : option pid) (rest : list pid) : Prop :=
  ∃ dropped, Forall (exited s) dropped ∧
    match r with
    | None => l = dropped ∧ rest = []
    | Some p => l = dropped ++ p :: rest ∧ ¬ exited s p
    end.

Lemma dequeue_live_spec fuel s Q q :
  sched_wf s Q → (length (Q q) < fuel)%nat →
  ∃ r rest s', dequeue_live fuel s q = Ok (r, s') ∧ first_live s (Q q) r rest ∧
    sched_wf s' (qset Q q rest) ∧ same_but_queues s s'.
Proof.
  revert s Q. induction fuel as [|fuel IH]; intros s Q Hwf Hf; [lia|]. simpl.
  destruct (k_dequeue_spec s Q q) as (s1 & -> & Hq1 & Hs1); [apply Hwf|]. rewrite bind_Ok.
  assert (sched_wf s1 (qset Q q (drop 1 (Q q)))) as Hwf1.
  { eapply sched_wf_queues; [done|done|done|]. intros y. unfold qset. case_decide; [|done].
    subst. intros Hy. rewrite <- (take_drop 1 (Q QRecv)). set_solver. }
  destruct (Q q) as [|p l] eqn:Hq; simpl in *.
  { exists None, [], s1. split_and!; [done| |done|done]. by exists []. }
  rewrite drop_0 in *.
  assert (pid_ok p) as Hp.
  { eapply (queues_wf_valid s Q q); [apply Hwf|]. rewrite Hq. set_solver. }
  destruct (get_pcb_spec s1 _ p Hwf1 Hp) as (x & Hgx & Hx & _). rewrite Hgx, bind_Ok.
  assert (aget (pcb s) p = Ok x) as Hx0 by by rewrite Hs1 in Hx.
  case_decide as Hst.
  - destruct (IH s1 (qset Q q l)) as (r & rest & s' & -> & (dr & Hdr & Hr) & Hwf' & Hs');
      [done|rewrite qset_eq; lia|]. rewrite qset_eq in Hr.
    exists r, rest, s'. split_and!; [done| |by eapply sched_wf_ext; [done|];
      intros; unfold qset; case_decide|by eapply same_but_queues_trans].
    assert (∀ y, exited s1 y → exited s y) as Hex.
    { intros y (z & Hz & Hzs). exists z. split; [|done]. by rewrite Hs1 in Hz. }
    exists (p :: dr). split.
    + constructor; [by exists x|]. by eapply Forall_impl.
    + destruct r as [y|].
      * destruct Hr as [-> Hn]. split; [done|]. intros (z & Hz & Hzs). apply Hn.
        exists z. split; [|done]. by rewrite Hs1.
      * destruct Hr as [-> ->]. done.
  - exists (Some p), l, s1. split_and!; [done| |done|done]. exists []. split; [done|].
    split; [done|]. intros (z & Hz & Hzs). congruence.
Qed.

Lemma skip_exhausted_spec s Q fuel i :
  sched_wf s Q → 0 ≤ i ≤ MAX_PRIORITY_NUM → MAX_PRIORITY_NUM - i < Z.of_nat fuel →
  ∃ j, skip_exhausted fuel s i = Ok j ∧ i ≤ j ≤ MAX_PRIORITY_NUM.
Proof.
  intros Hwf. revert i. induction fuel as [|fuel IH]; intros i Hi Hf; [lia|]. simpl.
  destruct (Z.ltb_spec i MAX_PRIORITY_NUM); [|exists i; split; [done|lia]].
  pose proof (wf_counter _ _ Hwf). pose proof (wf_bound _ _ Hwf).
  destruct (aget_total (ready_counter s) i) as [c ->]; [lia|].
  destruct (aget_total (ready_bound s) i) as [b ->]; [lia|]. rewrite !bind_Ok.
  case_match; [|exists i; split; [done|lia]].
  destruct (IH (i + 1)) as (j & -> & ?); [lia|lia|]. exists j. split; [done|lia].
Qed.

(** [s'] differs from [s] in the scheduler's counters only. *)
Definition same_but_counters (s s' : kstate) : Prop :=
  s' = s <| ready_counter := ready_counter s' |> <| last_sel_index := last_sel_index s' |>
         <| glb_sched_cnt := glb_sched_cnt s' |>.

Lemma sched_wf_counters s s' Q :
  sched_wf s Q → same_but_counters s s' →
  length (ready_counter s') = length (ready_counter s) → 0 ≤ last_sel_index s' →
  sched_wf s' Q.
Proof.
  intros [[Hl1 Hl2 Hl3] H1 H2 H3 H4 H5 H6] Hs Hlen Hlast. rewrite Hs. split; simpl; try done.
  by rewrite Hlen.
Qed.

Lemma select_queue_spec s Q :
  sched_wf s Q →
  ∃ i s', select_queue s = Ok (i, s') ∧ sched_wf s' Q ∧ same_but_counters s s' ∧
    0 ≤ i < MAX_PRIORITY_NUM ∧ (i ≠ 0 → Q (QReady i) ≠ []) ∧
    (if glb_sched_bound s <=? i32 (glb_sched_cnt s + 1)
     then i = 0 ∧ glb_sched_cnt s' = 0
     else glb_sched_cnt s' = i32 (glb_sched_cnt s + 1)).
Proof.
  intros Hwf. unfold select_queue.
  set (i0 := if MAX_PRIORITY_NUM <=? last_sel_index s then 1 else last_sel_index s).
  assert (0 ≤ i0 ≤ MAX_PRIORITY_NUM) as Hi0.
  { pose proof (wf_last _ _ Hwf). subst i0. unfold MAX_PRIORITY_NUM in *.
    destruct (Z.leb_spec 5 (last_sel_index s)); lia. }
  destruct (skip_exhausted_spec s Q 7 i0 Hwf Hi0) as (j & -> & Hj);
    [unfold MAX_PRIORITY_NUM in *; lia|]. rewrite bind_Ok.
  assert (∃ k s1, (if MAX_PRIORITY_NUM <=? j
     then t ← for_range 1 MAX_PRIORITY_NUM (λ i t, aset t i 0) (ready_counter s);
          Ok (1, s <| ready_counter := t |>)
     else Ok (j, s)) = Ok (k, s1) ∧ 0 ≤ k < MAX_PRIORITY_NUM ∧ same_but_counters s s1 ∧
       length (ready_counter s1) = length (ready_counter s) ∧
       last_sel_index s1 = last_sel_index s ∧ glb_sched_cnt s1 = glb_sched_cnt s)
    as (k & s1 & -> & Hk & Hs1 & Hlen & Hlast & Hcnt).
  { destruct (Z.leb_spec MAX_PRIORITY_NUM j).
    - destruct (for_range_inv (λ _ t, length t = length (ready_counter s)) 1 MAX_PRIORITY_NUM
        (λ i t, aset t i 0) (ready_counter s)) as (t & -> & Ht); [done|done| |].
      + intros i t Hi Ht. rewrite aset_total by (rewrite Ht, (wf_counter _ _ Hwf); lia).
        eexists. split; [done|]. by rewrite length_insert.
      + eexists _, _. split; [done|]. done.
    - eexists _, _. split; [done|]. split_and!; [lia|lia|by destruct s|done..]. }
  rewrite bind_Ok, ready_q_ok by done. rewrite Hcnt.
  assert (glb_sched_bound s1 = glb_sched_bound s) as Hbd by by rewrite Hs1.
  simpl. rewrite Hbd.
  destruct (glb_sched_bound s <=? i32 (glb_sched_cnt s + 1)).
  { eexists _, _. split; [done|]. split_and!; try done.
    - eapply (sched_wf_counters s); [done| |by simpl; rewrite Hlen|simpl; rewrite Hlast; apply Hwf].
      rewrite Hs1. done.
    - rewrite Hs1. done. }
  set (s2 := s1 <| glb_sched_cnt := i32 (glb_sched_cnt s + 1) |>).
  assert (same_but_counters s s2) as Hs2 by (subst s2; rewrite Hs1; done).
  assert (sched_wf s2 Q) as Hwf2.
  { eapply (sched_wf_counters s); [done|done|by rewrite <- Hlen|].
    subst s2. simpl. rewrite Hlast. apply Hwf. }
  rewrite (get_queue_head s2 Q) by apply Hwf2.
  destruct (Q (QReady k) !! 0%nat) as [h|] eqn:Hh.
  - assert (aget (ready_counter s1) k = aget (ready_counter s2) k) as -> by done.
    destruct (aget_total (ready_counter s2) k) as [c ->].
    { rewrite (wf_counter _ _ Hwf2). lia. }
    rewrite bind_Ok.
    assert (ready_counter s1 = ready_counter s2) as -> by done.
    rewrite aset_total, bind_Ok by (rewrite (wf_counter _ _ Hwf2); lia).
    eexists _, _. split; [done|]. split_and!; [|by rewrite Hs2|lia|lia| |done].
    + eapply (sched_wf_counters s2); [done|done|by simpl; rewrite length_insert|simpl; lia].
    + intros _ Hn. by rewrite Hn in Hh.
  - eexists _, _. split; [done|]. split_and!; [done|done|lia|done|done|done].
Qed.

(** ** The switch *)

Definition runnable (x : pcb_t) : Prop := status x ≠ TASK_BLOCKED ∧ status x ≠ TASK_EXITED.

(** The current process exists and is in no ready queue; when it is runnable it
    is in no queue at all. *)
Definition current_ok (s : kstate) (Q : queue_map) (c : pid) (x : pcb_t) : Prop :=
  current_running s = Some c ∧ aget (pcb s) c = Ok x ∧ (∀ i, c ∉ Q (QReady i)) ∧
  (runnable x → unqueued Q c).

Lemma aget_pcb_ok s Q p x : sched_wf s Q → aget (pcb s) p = Ok x → pid_ok p.
Proof. intros Hwf Hx%aget_bound. unfold pid_ok. pose proof (wf_pcb _ _ Hwf). lia. Qed.

(** The two wake-ups in a row. *)
Lemma wake_ups_spec s Q :
  sched_wf s Q → ∃ s' Q', (s ← check_sleeping s; check_net_recv s) = Ok s' ∧
    requeued s Q s' Q'.
Proof.
  intros Hwf. destruct (check_sleeping_spec s Q Hwf) as (s1 & Q1 & -> & Hr1).
  rewrite bind_Ok. destruct (check_net_recv_spec s1 Q1) as (s2 & Q2 & -> & Hr2); [apply Hr1|].
  exists s2, Q2. split; [done|]. by eapply requeued_trans.
Qed.

Lemma sched_wf_screen s Q c x y :
  sched_wf s Q →
  sched_wf (s <| current_running := c |> <| screen_cursor_x := x |> <| screen_cursor_y := y |>) Q.
Proof. intros [[Hl1 Hl2 Hl3] H1 H2 H3 H4 H5 H6]. split; [by split|done..]. Qed.

(** The states and priorities of processes, where only those in [P] may have
    become running. *)
Definition status_frame (s s' : kstate) (P : pid → Prop) : Prop :=
  ∀ y x, aget (pcb s) y = Ok x → ∃ x', aget (pcb s') y = Ok x' ∧ priority x' = priority x ∧
    (status x' = status x ∨ status x' = TASK_RUNNING ∧ P y).

Lemma switch_to_spec s Q p c xc :
  sched_wf s Q → pid_ok p → unqueued Q p → c ≠ p →
  current_running s = Some c → aget (pcb s) c = Ok xc → (runnable xc → unqueued Q c) →
  ∃ s' Q', switch_to s (Some p) = Ok s' ∧ sched_wf s' Q' ∧ current_running s' = Some p ∧
    unqueued Q' p ∧ (∀ y, queued Q' y ↔ queued Q y ∨ y = c ∧ runnable xc) ∧
    (∃ x', aget (pcb s') p = Ok x' ∧ status x' = TASK_RUNNING) ∧
    status_frame s s' (λ y, y = p ∨ queued Q y ∨ y = c ∧ runnable xc) ∧
    (∀ i y, y ∈ Q (QReady i) → y ∈ Q' (QReady i)) ∧
    (runnable xc → c ∈ Q' (QReady (priority xc))).
Proof.
  intros Hwf Hp Hun Hcp Hcur Hxc Hfree. unfold switch_to.
  pose proof (aget_pcb_ok _ _ _ _ Hwf Hxc) as Hc.
  destruct (upd_proc_spec s Q p (λ x, x <| status := TASK_RUNNING |>))
    as (x & s1 & Hx & -> & Hwf1 & Hs1); [done|done|done|]. rewrite bind_Ok.
  assert (current_running s1 = Some c) as Hc1 by by rewrite Hs1. rewrite Hc1.
  destruct (upd_proc_spec s1 Q c (λ x, x <| cursor_x := screen_cursor_x s1 |>
      <| cursor_y := screen_cursor_y s1 |>)) as (y & s2 & Hy & -> & Hwf2 & Hs2);
    [done|done|done|]. rewrite bind_Ok.
  assert (y = xc) as ->.
  { rewrite Hs1 in Hy. simpl in Hy. unfold pid_ok in Hp. rewrite aget_insert_ne in Hy by lia.
    congruence. }
  assert (current_running s2 = Some c) as Hc2 by by rewrite Hs2. rewrite Hc2.
  destruct (get_pcb_spec s2 Q c Hwf2 Hc) as (xc2 & -> & Hxc2 & Hpri). rewrite bind_Ok. simpl.
  assert (status xc2 = status xc ∧ priority xc2 = priority xc) as [Hst Hpr].
  { rewrite Hs2 in Hxc2. simpl in Hxc2. rewrite aget_insert_eq in Hxc2.
    - by injection Hxc2 as <-.
    - unfold pid_ok in Hc. rewrite (wf_pcb _ _ Hwf1). done. }
  assert (∃ s3 Q3, (if decide (status xc2 ≠ TASK_BLOCKED ∧ status xc2 ≠ TASK_EXITED)
      then q ← ready_q (priority xc2); k_push s2 q c else Ok s2) = Ok s3 ∧ sched_wf s3 Q3 ∧
      (∀ y, queued Q3 y ↔ queued Q y ∨ y = c ∧ runnable xc) ∧ pcb s3 = pcb s2 ∧
      (∀ i y, y ∈ Q (QReady i) → y ∈ Q3 (QReady i)) ∧ (runnable xc → c ∈ Q3 (QReady (priority xc))))
    as (s3 & Q3 & -> & Hwf3 & Hq3 & Hp3 & Hrk3 & Hrc3).
  { rewrite Hst. case_decide as Hr.
    - rewrite ready_q_ok, bind_Ok by done.
      destruct (k_push_spec s2 Q (QReady (priority xc2)) c) as (s3 & Hk & Hq & Hsame);
        [apply Hwf2|done|by apply Hfree|].
      exists s3, (qset Q (QReady (priority xc2)) (Q (QReady (priority xc2)) ++ [c])).
      split_and!; [done| | |by rewrite Hsame|by intros; apply ready_kept_snoc|].
      + eapply sched_wf_queues; [done|done|done|]. intros z. by rewrite qset_ne.
      + intros z. rewrite queued_qset_snoc. unfold runnable. naive_solver.
      + intros _. rewrite Hpr, qset_eq. set_solver.
    - exists s2, Q. split_and!; [done|done| |done|done|done]. intros z. unfold runnable. naive_solver. }
  rewrite bind_Ok.
  destruct (wake_ups_spec s3 Q3 Hwf3) as (s4 & Q4 & Hw & [Hwf4 _ Hq4 Hpcb4 Hrk4]).
  apply bind_Ok_inv in Hw as (s35 & -> & Hw). rewrite bind_Ok, Hw, bind_Ok.
  set (s5 := s4 <| current_running := Some p |>).
  assert (sched_wf s5 Q4) as Hwf5 by (by apply (sched_wf_screen s4 Q4 (Some p)
    (screen_cursor_x s4) (screen_cursor_y s4))).
  destruct (get_pcb_spec s5 Q4 p Hwf5 Hp) as (x5 & -> & Hx5 & _). rewrite bind_Ok.
  assert (∀ y, queued Q4 y ↔ queued Q y ∨ y = c ∧ runnable xc) as Hqq.
  { intros z. by rewrite Hq4, Hq3. }
  eexists _, Q4. split; [done|].
  split_and!; [by apply (sched_wf_screen s4)|done| |done| | |by intros; apply Hrk4, Hrk3|by intros; apply Hrk4, Hrc3].
  - apply unqueued_queued. rewrite Hqq. apply unqueued_queued in Hun. naive_solver.
  - exists x5. split; [done|].
    assert (aget (pcb s3) p = Ok (x <| status := TASK_RUNNING |>)) as Hp3'.
    { pose proof (aget_bound _ _ _ Hx). rewrite Hp3, Hs2. simpl. unfold pid_ok in Hc.
      rewrite aget_insert_ne, Hs1 by lia. simpl. by apply aget_insert_eq. }
    destruct (Hpcb4 _ _ Hp3') as (x6 & Hx6 & _ & Hst6). simpl in Hx5.
    rewrite Hx6 in Hx5. injection Hx5 as <-. by destruct Hst6 as [->|[-> _]].
  - intros y z Hz. pose proof (aget_bound _ _ _ Hx) as Hpb. unfold pid_ok in Hc.
      assert (∃ z3, aget (pcb s3) y = Ok z3 ∧ priority z3 = priority z ∧
        (status z3 = status z ∨ status z3 = TASK_RUNNING ∧ y = p)) as (z3 & Hz3 & Hpz3 & Hst3).
      { rewrite Hp3, Hs2, Hs1. cbn [pcb update upd_pcb]. destruct (decide (y = c)) as [->|Hyc].
        - rewrite aget_insert_eq by (rewrite length_insert; apply (aget_bound _ _ _ Hxc)).
          eexists. split; [done|]. cbn. split; [congruence|left; congruence].
        - rewrite aget_insert_ne by lia. destruct (decide (y = p)) as [->|Hyp].
          + rewrite aget_insert_eq by done. eexists. split; [done|]. cbn. split; [congruence|by right].
          + rewrite aget_insert_ne by lia. eexists. split; [done|]. split; [done|by left]. }
      destruct (Hpcb4 y z3 Hz3) as (z4 & Hz4 & Hpz4 & Hst4). exists z4. split; [exact Hz4|].
      split; [congruence|].
      rewrite Hq3 in Hst4. destruct Hst4 as [->|[-> ?]]; [|by right; auto].
      destruct Hst3 as [->|[-> ->]]; [by left|by right; auto].
Qed.

(** ** The scheduler *)

Definition run_queue_choice (s : kstate) (i : Z) : Prop :=
  0 ≤ i < MAX_PRIORITY_NUM ∧
  (glb_sched_bound s ≤ i32 (glb_sched_cnt s + 1) → i = 0).

Lemma scheduler_full s Q c xc :
  sched_wf s Q → current_ok s Q c xc →
  ∃ s' Q' i r rest, scheduler s = Ok s' ∧ sched_wf s' Q' ∧ run_queue_choice s i ∧
    (i ≠ 0 → Q (QReady i) ≠ []) ∧ first_live s (Q (QReady i)) r rest ∧
    match r with
    | Some p =>
        current_running s' = Some p ∧ unqueued Q' p ∧
        (∃ x', aget (pcb s') p = Ok x' ∧ status x' = TASK_RUNNING) ∧
        (∀ y, queued Q' y ↔ queued (qset Q (QReady i) rest) y ∨ y = c ∧ runnable xc)
    | None =>
        current_running s' = Some c ∧ aget (pcb s') c = Ok xc ∧
        ∀ q, Q' q = qset Q (QReady i) [] q
    end ∧ status_frame s s' (λ y, queued Q y ∨ y = c ∧ runnable xc) ∧
    (is_Some r → (∀ j y, ¬ exited s y → y ∈ Q (QReady j) →
        current_running s' = Some y ∨ y ∈ Q' (QReady j)) ∧
      (runnable xc → c ∈ Q' (QReady (priority xc)))).
Proof.
  intros Hwf (Hcur & Hxc & Hready & Hfree). unfold scheduler.
  destruct (select_queue_spec s Q Hwf) as (i & s1 & -> & Hwf1 & Hs1 & Hi & Hne & Hcnt).
  rewrite bind_Ok, ready_q_ok, bind_Ok by done.
  assert (run_queue_choice s i) as Hchoice.
  { split; [done|]. intros Hb. destruct (Z.leb_spec (glb_sched_bound s) (i32 (glb_sched_cnt s + 1)));
      [by destruct Hcnt|lia]. }
  destruct (dequeue_live_spec (queue_fuel s1) s1 Q (QReady i) Hwf1)
    as (r & rest & s2 & -> & Hlive & Hwf2 & Hs2).
  { unfold queue_fuel. pose proof (queue_rep_length _ _ _ (wf_queue _ _ (wf_queues _ _ Hwf1)
      (QReady i))). lia. }
  rewrite bind_Ok.
  assert (pcb s1 = pcb s) as Hp1 by by rewrite Hs1.
  assert (pcb s2 = pcb s ∧ current_running s2 = Some c) as [Hp2 Hc2]
    by by rewrite Hs2, Hs1.
  assert (first_live s (Q (QReady i)) r rest) as Hlive'.
  { revert Hlive. unfold first_live, exited. by rewrite Hp1. }
  destruct r as [p|].
  - destruct Hlive' as (dr & Hdr & Hq & Hnl).
    assert (p ∈ Q (QReady i)) as Hpin by (rewrite Hq; set_solver).
    destruct (switch_to_spec s2 (qset Q (QReady i) rest) p c xc) as (s3 & Q3 & -> & Hwf3 & H3);
      [done| | | |done|by rewrite Hp2| |].
    + eapply (queues_wf_valid s Q); [apply Hwf|done].
    + intros q'. unfold qset. case_decide as Hqq.
      * pose proof (rep_NoDup _ _ _ (wf_queue _ _ (wf_queues _ _ Hwf) (QReady i))) as Hnd.
        rewrite Hq in Hnd. apply NoDup_app in Hnd as (_ & _ & [? _]%NoDup_cons). done.
      * intros Hin. apply Hqq. eapply wf_disjoint; [apply Hwf|done|done].
    + intros ->. by eapply Hready.
    + intros Hr q'. unfold qset. case_decide; [|by apply Hfree]. subst.
      intros Hin. apply (Hready i). rewrite Hq. set_solver.
    + eexists s3, Q3, i, (Some p), rest.
      destruct H3 as (H3 & H4 & H5 & H6 & H7 & H8 & H9).
      split; [done|]. split; [done|]. split; [done|]. split; [done|]. split; [by exists dr|].
      split; [by split|]. split; [|intros _; split; [|done]].
      2: { intros j y Hny Hy. rewrite H3. destruct (decide (j = i)) as [->|Hji].
        - rewrite Hq in Hy. apply elem_of_app in Hy as [Hy|[->|Hy]%elem_of_cons]; [|by left|].
          + rewrite Forall_forall in Hdr. by apply Hdr in Hy.
          + right. apply H8. by rewrite qset_eq.
        - right. apply H8. rewrite qset_ne by congruence. done. }
      intros y x. rewrite <- Hp2. intros Hx. destruct (H7 y x Hx) as (x' & Hx' & Hpx & Hs). exists x'.
      split; [done|]. split; [done|]. destruct Hs as [?|[? Hs]]; [by left|right; split; [done|]].
      destruct Hs as [->|[[q' Hq']|Hs]]; [left; by exists (QReady i)| |by right].
      left. unfold qset in Hq'. case_decide; [exists (QReady i); rewrite Hq; set_solver|by exists q'].
  - eexists _, (qset Q (QReady i) rest), i, None, rest.
    split_and!; [done| |done|done|done|done|by simpl; rewrite Hp2| | |by intros []].
    + destruct Hwf2 as [[Hl1 Hl2 Hl3] H1 H2 H3 H4 H5 H6]. split; [by split|done..].
    + by destruct Hlive' as (dr & _ & _ & ->).
    + intros y x Hx. exists x. split; [by simpl; rewrite Hp2|]. split; [done|by left].
Qed.

(** ** Blocking and waking *)

Lemma scheduler_spec s Q c xc :
  sched_wf s Q → current_ok s Q c xc →
  ∃ s' Q' i r rest, scheduler s = Ok s' ∧ sched_wf s' Q' ∧ run_queue_choice s i ∧
    (i ≠ 0 → Q (QReady i) ≠ []) ∧ first_live s (Q (QReady i)) r rest ∧
    match r with
    | Some p =>
        current_running s' = Some p ∧ unqueued Q' p ∧
        (∃ x', aget (pcb s') p = Ok x' ∧ status x' = TASK_RUNNING) ∧
        (∀ y, queued Q' y ↔ queued (qset Q (QReady i) rest) y ∨ y = c ∧ runnable xc)
    | None =>
        current_running s' = Some c ∧ aget (pcb s') c = Ok xc ∧
        ∀ q, Q' q = qset Q (QReady i) [] q
    end.
Proof.
  intros Hwf Hc. destruct (scheduler_full s Q c xc Hwf Hc)
    as (s' & Q' & i & r & rest & H1 & H2 & H3 & H4 & H5 & H6 & _).
  by exists s', Q', i, r, rest.
Qed.

Lemma same_but_queues_pcb s s' : same_but_queues s s' → pcb s' = pcb s.
Proof. intros H. by rewrite H. Qed.

(** The process found and those behind it. *)
Lemma first_live_valid s Q q p rest :
  sched_wf s Q → first_live s (Q q) (Some p) rest →
  pid_ok p ∧ p ∈ Q q ∧ ¬ exited s p ∧ unqueued (qset Q q rest) p ∧
  (∀ y, y ∈ rest → y ∈ Q q) ∧ (∀ y, y ∈ Q q → ¬ exited s y → y = p ∨ y ∈ rest) ∧
  (length rest < length (Q q))%nat.
Proof.
  intros Hwf (dr & Hdr & Hq & Hnl).
  assert (p ∈ Q q) as Hin by (rewrite Hq; set_solver).
  split_and!; [|done|done| |rewrite Hq; set_solver| |rewrite Hq; len].
  - eapply (queues_wf_valid s Q); [apply Hwf|done].
  - intros q' Hin'. unfold qset in Hin'. case_decide as Hqq.
    + pose proof (rep_NoDup _ _ _ (wf_queue _ _ (wf_queues _ _ Hwf) q)) as Hnd.
      rewrite Hq in Hnd. apply NoDup_app in Hnd as (_ & _ & [? _]%NoDup_cons). done.
    + apply Hqq. eapply wf_disjoint; [apply Hwf|done|done].
  - intros y. rewrite Hq. intros [Hy|[->|Hy]%elem_of_cons]%elem_of_app Hny; [|by left|by right].
    rewrite Forall_forall in Hdr. by apply Hdr in Hy.
Qed.

Lemma do_unblock_one_lemma s Q q :
  sched_wf s Q →
  ∃ s' Q' r rest, do_unblock_one s q = Ok s' ∧ sched_wf s' Q' ∧
    first_live s (Q q) r rest ∧ current_running s' = current_running s ∧
    match r with
    | None => (∀ q', Q' q' = qset Q q [] q') ∧ pcb s' = pcb s
    | Some p => woken s (qset Q q rest) p s' Q'
    end.
Proof.
  intros Hwf. unfold do_unblock_one.
  destruct (dequeue_live_spec (queue_fuel s) s Q q Hwf) as (r & rest & s1 & -> & Hl & Hwf1 & Hs1).
  { unfold queue_fuel. pose proof (queue_rep_length _ _ _ (wf_queue _ _ (wf_queues _ _ Hwf) q)).
    lia. }
  rewrite bind_Ok. assert (current_running s1 = current_running s) as Hc1 by by rewrite Hs1.
  destruct r as [p|].
  - destruct (first_live_valid _ _ _ _ _ Hwf Hl) as (Hp & _ & _ & Hun & _).
    destruct (invoke_blocked_proc_spec s1 _ p Hwf1 Hp Hun) as (s2 & Q2 & -> & Hwf2 & Hw).
    exists s2, Q2, (Some p), rest. split_and!; [done|done|done| |].
    + destruct Hw as (x & x' & _ & _ & _ & _ & -> & _). done.
    + destruct Hw as (x & x' & Hx & Hx' & HQ & H). exists x, x'. rewrite Hs1 in Hx, H. naive_solver.
  - exists s1, (qset Q q rest), None, rest. split_and!; [done|done|done|done| |].
    + by destruct Hl as (dr & _ & _ & ->).
    + by apply same_but_queues_pcb.
Qed.

(** What waking every live process of [q] means. *)
Record all_woken (s : kstate) (Q : queue_map) (q : qid) (s' : kstate) (Q' : queue_map) :
    Prop := {
  aw_empty : Q' q = [];
  aw_current : current_running s' = current_running s;
  aw_woken y : y ∈ Q q → ¬ exited s y →
    ∃ x, aget (pcb s') y = Ok x ∧ status x = TASK_RUNNING ∧ y ∈ Q' (QReady (priority x));
  aw_others q' y : q' ≠ q → y ∈ Q q' → y ∈ Q' q';
  aw_new q' y : y ∈ Q' q' → y ∈ Q q' ∨ y ∈ Q q;
  aw_pcb y : y ∉ Q q → aget (pcb s') y = aget (pcb s) y;
  aw_priority y x : aget (pcb s) y = Ok x → ∃ x', aget (pcb s') y = Ok x' ∧ priority x' = priority x;
}.

Lemma woken_others s Q p s' Q' y :
  woken s Q p s' Q' → y ≠ p → pid_ok p → aget (pcb s') y = aget (pcb s) y.
Proof.
  intros (x & x' & Hx & -> & -> & -> & _) Hy Hp. unfold pid_ok in Hp. by apply aget_insert_ne; lia.
Qed.

Lemma woken_self s Q p s' Q' :
  woken s Q p s' Q' → ∃ x, aget (pcb s') p = Ok x ∧ status x = TASK_RUNNING ∧
    p ∈ Q' (QReady (priority x)).
Proof.
  intros (x & x' & Hx & -> & -> & -> & _). pose proof (aget_bound _ _ _ Hx).
  eexists. rewrite aget_insert_eq by done. split; [done|]. split; [done|]. simpl.
  rewrite qset_eq. set_solver.
Qed.

Lemma woken_queues s Q p s' Q' :
  woken s Q p s' Q' → (∀ q y, y ∈ Q q → y ∈ Q' q) ∧ (∀ q y, y ∈ Q' q → y ∈ Q q ∨ y = p) ∧
  (∀ q, (∀ i, q ≠ QReady i) → Q' q = Q q).
Proof.
  intros (x & x' & Hx & -> & -> & _). split_and!; intros q; intros; unfold qset in *;
    case_decide; subst; try done; set_solver.
Qed.

Lemma woken_priority s Q p s' Q' y x :
  woken s Q p s' Q' → aget (pcb s) y = Ok x → ∃ x', aget (pcb s') y = Ok x' ∧ priority x' = priority x.
Proof.
  intros (z & z' & Hz & -> & _ & -> & _) Hx. pose proof (aget_bound _ _ _ Hz).
  destruct (decide (y = p)) as [->|].
  - rewrite aget_insert_eq by done. eexists. split; [done|]. cbn. congruence.
  - rewrite aget_insert_ne by lia. by exists x.
Qed.

Lemma all_woken_step s Q q p rest s1 Q1 s' Q' :
  sched_wf s Q → (∀ i, q ≠ QReady i) → first_live s (Q q) (Some p) rest →
  woken s (qset Q q rest) p s1 Q1 → current_running s1 = current_running s →
  all_woken s1 Q1 q s' Q' → all_woken s Q q s' Q'.
Proof.
  intros Hwf Hq Hl Hw Hc1 [He Hc Hwk Hot Hnew Hpcb Hpri].
  destruct (first_live_valid _ _ _ _ _ Hwf Hl) as (Hp & Hin & Hnp & Hun & Hrest & Hlive & _).
  destruct (woken_queues _ _ _ _ _ Hw) as (Hw1 & Hw2 & Hw3).
  assert (Q1 q = rest) as HQ1 by (rewrite Hw3 by done; apply qset_eq). rewrite HQ1 in *.
  assert (p ∉ rest) as Hpr by (intros Hpr; apply (Hun q); by rewrite qset_eq).
  split; [done|congruence|..].
  - intros y Hy Hny. destruct (Hlive y Hy Hny) as [->|Hyr].
    + rewrite Hpcb by done. destruct (woken_self _ _ _ _ _ Hw) as (x & Hx & Hs & Hyq).
      exists x. split_and!; [done..|]. apply Hot; [by intros <-; apply (Hq (priority x))|done].
    + apply Hwk; [done|]. intros (z & Hz & Hzs). apply Hny.
      rewrite (woken_others _ _ _ _ _ y Hw) in Hz by (done || congruence). by exists z.
  - intros q' y Hq' Hy. apply Hot; [done|]. apply Hw1. by rewrite qset_ne.
  - intros q' y [Hy|Hy]%Hnew; [|by right; apply Hrest].
    apply Hw2 in Hy as [Hy| ->]; [|by right]. unfold qset in Hy. case_decide; [|by left].
    right. by apply Hrest.
  - intros y Hy. rewrite Hpcb by (intros Hyr; apply Hy; by apply Hrest).
    apply (woken_others _ _ _ _ _ _ Hw); [by intros ->|done].
  - intros y x Hx. destruct (woken_priority _ _ _ _ _ y x Hw Hx) as (x1 & Hx1 & <-). by apply Hpri.
Qed.

Lemma unblock_loop_spec fuel s Q q :
  sched_wf s Q → (∀ i, q ≠ QReady i) → (length (Q q) < fuel)%nat →
  ∃ s' Q', unblock_loop fuel s q = Ok s' ∧ sched_wf s' Q' ∧ all_woken s Q q s' Q'.
Proof.
  intros Hwf Hq. revert s Q Hwf. induction fuel as [|fuel IH]; intros s Q Hwf Hf; [lia|]. simpl.
  rewrite (get_queue_head s Q) by apply Hwf. destruct (Q q !! 0%nat) eqn:Hh.
  - destruct (do_unblock_one_lemma s Q q Hwf) as (s1 & Q1 & r & rest & -> & Hwf1 & Hl & Hc & Hr).
    rewrite bind_Ok. destruct r as [p'|].
    + destruct (first_live_valid _ _ _ _ _ Hwf Hl) as (_ & _ & _ & _ & _ & _ & Hlen).
      destruct (woken_queues _ _ _ _ _ Hr) as (_ & _ & Hw3).
      assert (Q1 q = rest) as HQ1 by (rewrite Hw3 by done; apply qset_eq).
      destruct (IH s1 Q1 Hwf1) as (s' & Q' & -> & Hwf' & Haw); [rewrite HQ1; lia|].
      exists s', Q'. split_and!; [done|done|]. by eapply all_woken_step.
    + destruct Hr as [HQ Hp]. assert (Q1 q = []) as HQ1 by (rewrite HQ; apply qset_eq).
      assert (unblock_loop fuel s1 q = Ok s1) as ->.
      { destruct fuel; [destruct (Q q); [done|simpl in Hf; lia]|]. simpl.
        rewrite (get_queue_head s1 Q1) by apply Hwf1. by rewrite HQ1. }
      exists s1, Q1. split_and!; [done|done|]. destruct Hl as (dr & Hdr & Hdq & ->).
      rewrite <- Hdq in Hdr. split; [done|done|..].
      * intros y Hy Hny. rewrite Forall_forall in Hdr. by apply Hdr in Hy.
      * intros q' y Hq' Hy. by rewrite HQ, qset_ne.
      * intros q' y. rewrite HQ. unfold qset. case_decide; [set_solver|by left].
      * intros y _. by rewrite Hp.
      * intros y x. rewrite Hp. eauto.
  - assert (Q q = []) as HQ by (destruct (Q q); done).
    exists s, Q. split_and!; [done|done|]. split; rewrite ?HQ; try done; try set_solver.
Qed.

Lemma upd_proc_keeps s Q p f :
  sched_wf s Q → pid_ok p →
  (∀ x, priority (f x) = priority x ∧ waiting_desc (f x) = waiting_desc x) →
  ∃ x s', aget (pcb s) p = Ok x ∧ upd_proc s (Some p) f = Ok s' ∧ sched_wf s' Q ∧
    s' = s <| pcb := <[Z.to_nat p := f x]> (pcb s) |> ∧ aget (pcb s') p = Ok (f x).
Proof.
  intros Hwf Hp Hf. destruct (upd_proc_spec s Q p f Hwf Hp Hf) as (x & s' & Hx & Hu & Hw & Hs).
  exists x, s'. split_and!; [done..|]. rewrite Hs. simpl. apply aget_insert_eq.
  by apply (aget_bound _ _ x).
Qed.

(** The content of a queue after [queue_push_if_not_exist]. *)
Definition joined (l : list pid) (c : pid) : list pid :=
  if decide (c ∈ l) then l else l ++ [c].

Lemma elem_of_joined l c : c ∈ joined l c.
Proof. unfold joined. case_decide; set_solver. Qed.

Lemma joined_notin l c : c ∉ l → joined l c = l ++ [c].
Proof. intros. unfold joined. by rewrite decide_False. Qed.

(** Up to the switch, blocking puts the current process, now blocked, at the
    end of the queue. *)
Lemma do_block_full s Q q c x :
  sched_wf s Q → current_running s = Some c → aget (pcb s) c = Ok x →
  (∀ q', c ∈ Q q' → q' = q) → (∀ i, q ≠ QReady i) →
  (q = QRecv → ∃ d w, waiting_desc x = Some d ∧ tdes0 s !! d = Some w) →
  ∃ s1, do_block s q = scheduler s1 ∧ sched_wf s1 (qset Q q (joined (Q q) c)) ∧
    current_ok s1 (qset Q q (joined (Q q) c)) c (x <| status := TASK_BLOCKED |>) ∧
    pcb s1 = <[Z.to_nat c := x <| status := TASK_BLOCKED |>]> (pcb s) ∧ mutexes s1 = mutexes s.
Proof.
  intros Hwf Hc Hx Hun Hnr Hrecv. pose proof (aget_pcb_ok _ _ _ _ Hwf Hx) as Hp.
  unfold do_block. rewrite Hc. simpl.
  destruct (k_push_if_not_exist_spec s Q q c) as (s1 & -> & Hq1 & Hs1);
    [apply Hwf|done|done|]. fold (joined (Q q) c) in Hq1.
  rewrite bind_Ok. assert (sched_wf s1 (qset Q q (joined (Q q) c))) as Hwf1.
  { destruct Hwf as [_ H1 H2 H3 H4 H5 H6]. rewrite Hs1 in *. split; simpl; [|done..|].
    - destruct Hq1 as [? ? ?]. by split.
    - intros p y. unfold qset. case_decide as Hq; [|apply H6]. subst q.
      intros Hin Hy. assert (p ∈ Q QRecv ∨ p = c) as [Hp'|Hpc].
      { unfold joined in Hin. case_decide; set_solver. }
      + by eapply H6.
      + rewrite Hpc, Hx in Hy. injection Hy as <-. by apply Hrecv. }
  assert (current_running s1 = Some c) as Hc1 by by rewrite Hs1.
  rewrite Hc1.
  destruct (upd_proc_keeps s1 _ c (λ x, x <| status := TASK_BLOCKED |>) Hwf1 Hp)
    as (y & s2 & Hy & -> & Hwf2 & Hs2 & Hy2); [done|]. rewrite bind_Ok.
  assert (y = x) as -> by (rewrite Hs1 in Hy; simpl in Hy; congruence).
  assert (current_running s2 = Some c) as Hc2 by by rewrite Hs2.
  rewrite Hc2. unfold get_pcb. simpl. rewrite Hy2, bind_Ok. simpl.
  pose proof (wf_priority _ _ Hwf _ _ Hx).
  destruct (decrease_spec s2 _ (priority x) Hwf2) as (t & -> & Hwf3); [lia|]. rewrite bind_Ok.
  eexists. split; [done|]. split; [done|]. split.
  2: { cbn [pcb mutexes update upd_ready_bound]. by rewrite Hs2, Hs1. }
  split_and!; [done|done| |by intros []].
  intros i. rewrite qset_ne by naive_solver. intros Hin%Hun. by destruct (Hnr i).
Qed.

Lemma do_block_lemma s Q q c x :
  sched_wf s Q → current_running s = Some c → aget (pcb s) c = Ok x →
  (∀ q', c ∈ Q q' → q' = q) → (∀ i, q ≠ QReady i) →
  (q = QRecv → ∃ d w, waiting_desc x = Some d ∧ tdes0 s !! d = Some w) →
  ∃ s1, do_block s q = scheduler s1 ∧ sched_wf s1 (qset Q q (joined (Q q) c)) ∧
    current_ok s1 (qset Q q (joined (Q q) c)) c (x <| status := TASK_BLOCKED |>).
Proof.
  intros H1 H2 H3 H4 H5 H6. destruct (do_block_full s Q q c x H1 H2 H3 H4 H5 H6) as (s1 & E1 & E2 & E3 & _).
  by exists s1.
Qed.

(** What a call of the scheduler achieves: every live process that was queued
    or runnable still is queued or runs, and nothing else is. *)
Lemma scheduler_no_loss s Q c xc s' Q' i r rest :
  current_ok s Q c xc → first_live s (Q (QReady i)) r rest →
  match r with
  | Some p =>
      current_running s' = Some p ∧ unqueued Q' p ∧
      (∃ x', aget (pcb s') p = Ok x' ∧ status x' = TASK_RUNNING) ∧
      (∀ y, queued Q' y ↔ queued (qset Q (QReady i) rest) y ∨ y = c ∧ runnable xc)
  | None =>
      current_running s' = Some c ∧ aget (pcb s') c = Ok xc ∧
      ∀ q, Q' q = qset Q (QReady i) [] q
  end →
  ∀ y, ¬ exited s y → queued Q y ∨ current_running s = Some y ∧ runnable xc →
    queued Q' y ∨ current_running s' = Some y.
Proof.
  intros (Hcur & Hxc & _) (dr & Hdr & Hr) Hsp y Hy Hq. rewrite Forall_forall in Hdr.
  destruct r as [p|].
  - destruct Hr as [Hl _], Hsp as (-> & _ & _ & Hiff). rewrite Hiff.
    destruct Hq as [[q Hq]|[Hq ?]]; [|left; right; split; [congruence|done]].
    destruct (decide (q = QReady i)) as [->|].
    + rewrite Hl in Hq. apply elem_of_app in Hq as [Hq|[->|Hq]%elem_of_cons]; [|by right|].
      * by apply Hdr in Hq.
      * left. left. exists (QReady i). by rewrite qset_eq.
    + left. left. exists q. by rewrite qset_ne.
  - destruct Hr as [Hl _], Hsp as (-> & _ & HQ').
    destruct Hq as [[q Hq]|[Hq ?]]; [|right; congruence].
    destruct (decide (q = QReady i)) as [->|].
    + rewrite Hl in Hq. by apply Hdr in Hq.
    + left. exists q. by rewrite HQ', qset_ne.
Qed.

(** ** A starting state: sixteen entries, no process queued *)

Definition no_regs : regs_context_t := RegsContext (replicate 32 0) 0 0 0 0 0 0 0.
Definition no_pcb (i : Z) : pcb_t :=
  Pcb no_regs no_regs i 0 0 [] 0 (replicate 8 None) KERNEL_PROCESS TASK_EXITED 0 0 0 1 None.

Definition idle_state : kstate :=
  KState ((λ i, no_pcb i <| status := if decide (i < 4) then TASK_RUNNING else TASK_EXITED |>)
            <$> seqZ 0 16)
    (replicate 16 (Link None None)) ∅ (replicate 5 0) [1; 6; 9; 12; 15] 1 0 5 (Some 0) 100 0 0
    ∅ 0 ∅ ∅ ∅ ∅ [].

Lemma idle_wf : sched_wf idle_state (λ _, []).
Proof.
  split; simpl; try done.
  - split; simpl; [done| |by intros ??? ?%elem_of_nil]. intros q. apply queue_rep_init.
  - intros p x [_ Hx]%aget_Ok. apply list_elem_of_lookup_2 in Hx.
    rewrite list_elem_of_In in Hx. simpl in Hx.
    repeat (destruct Hx as [<-|Hx]; [done|]). done.
  - by intros ?? ?%elem_of_nil.
Qed.

Definition push_or (s : kstate) (q : qid) (p : pid) : kstate :=
  match k_push s q p with Ok s' => s' | _ => s end.

Lemma push_or_wf s Q q p :
  sched_wf s Q → pid_ok p → unqueued Q p → q ≠ QRecv →
  sched_wf (push_or s q p) (qset Q q (Q q ++ [p])) ∧ same_but_queues s (push_or s q p).
Proof.
  intros Hwf Hp Hun Hq. unfold push_or.
  destruct (k_push_spec s Q q p) as (s' & -> & Hq' & Hs); [apply Hwf|done|done|].
  split; [|done]. eapply sched_wf_queues; [done|done|done|].
  intros y. by rewrite qset_ne.
Qed.

(** Processes 1 and 2 are ready, 3 waits in [QLock 16], 0 runs. *)
Definition demo_state : kstate :=
  push_or (push_or (push_or idle_state (QReady 1) 1) (QReady 1) 2) (QLock 16) 3.

Definition demo_queues : queue_map := λ q,
  if decide (q = QReady 1) then [1; 2] else if decide (q = QLock 16) then [3] else [].

Lemma demo_wf : sched_wf demo_state demo_queues.
Proof.
  destruct (push_or_wf idle_state (λ _, []) (QReady 1) 1) as [H1 _];
    [apply idle_wf|done|by intros ? ?%elem_of_nil|done|].
  destruct (push_or_wf _ _ (QReady 1) 2 H1) as [H2 _]; [done| |done|].
  { intros q. unfold qset. case_decide; set_solver. }
  destruct (push_or_wf _ _ (QLock 16) 3 H2) as [H3 _]; [done| |done|].
  { intros q. unfold qset. repeat case_decide; set_solver. }
  eapply sched_wf_ext; [done|]. intros q. unfold qset, demo_queues.
  repeat case_decide; simplify_eq; try done.
Qed.

Lemma demo_current :
  current_ok demo_state demo_queues 0 (no_pcb 0 <| status := TASK_RUNNING |>).
Proof.
  split_and!; [done|done|..].
  - intros i. unfold demo_queues. repeat case_decide; set_solver.
  - intros _ q. unfold demo_queues. repeat case_decide; set_solver.
Qed.

(** ** The theorems *)

(** C1.  From a well-formed state [scheduler] faults on no access and returns a
    well-formed state.  It takes the first process that has not exited from the
    ready queue it selected, drops the exited ones before it, and runs it; the
    process that ran before is queued if it is runnable.  No live process is
    lost: whatever was queued or runnable still is queued or runs.  If the
    selected queue holds only exited processes there is no switch, and the
    current process goes on whatever its status. *)
Theorem scheduler_correct s Q c xc :
  sched_wf s Q → current_ok s Q c xc →
  ∃ s' Q' i r rest, scheduler s = Ok s' ∧ sched_wf s' Q' ∧ run_queue_choice s i ∧
    first_live s (Q (QReady i)) r rest ∧
    match r with
    | Some p =>
        current_running s' = Some p ∧ unqueued Q' p ∧
        (∃ x', aget (pcb s') p = Ok x' ∧ status x' = TASK_RUNNING) ∧
        (∀ y, queued Q' y ↔ queued (qset Q (QReady i) rest) y ∨ y = c ∧ runnable xc)
    | None =>
        current_running s' = Some c ∧ aget (pcb s') c = Ok xc ∧
        ∀ q, Q' q = qset Q (QReady i) [] q
    end ∧
    ∀ y, ¬ exited s y → queued Q y ∨ current_running s = Some y ∧ runnable xc →
      queued Q' y ∨ current_running s' = Some y.
Proof.
  intros Hwf Hc. destruct (scheduler_spec s Q c xc Hwf Hc)
    as (s' & Q' & i & r & rest & H1 & H2 & H3 & _ & H4 & H5).
  exists s', Q', i, r, rest. split_and!; try done; [apply H3..|].
  by eapply scheduler_no_loss.
Qed.

Lemma scheduler_correct_witness :
  sched_wf demo_state demo_queues ∧
  ∃ s' Q', scheduler demo_state = Ok s' ∧ sched_wf s' Q'.
Proof.
  split; [apply demo_wf|].
  destruct (scheduler_correct demo_state demo_queues 0 _ demo_wf demo_current)
    as (s' & Q' & i & r & rest & H1 & H2 & _). by exists s', Q'.
Defined.

(** [do_block] on a wait queue: the current process, marked blocked, is
    the last of that queue when the scheduler takes over.  Afterwards it is
    still in some queue or, when no process could be switched to, still runs;
    a process that was switched to is running and in no queue. *)
Theorem do_block_correct s Q q c x :
  sched_wf s Q → current_running s = Some c → aget (pcb s) c = Ok x → unqueued Q c →
  (∀ i, q ≠ QReady i) → q ≠ QRecv →
  ∃ s1 s' Q', do_block s q = scheduler s1 ∧
    sched_wf s1 (qset Q q (Q q ++ [c])) ∧
    current_ok s1 (qset Q q (Q q ++ [c])) c (x <| status := TASK_BLOCKED |>) ∧
    do_block s q = Ok s' ∧ sched_wf s' Q' ∧
    (queued Q' c ∧ current_running s' = Some c ∨
     ∃ p x', queued Q' c ∧ current_running s' = Some p ∧ p ≠ c ∧ unqueued Q' p ∧
       aget (pcb s') p = Ok x' ∧ status x' = TASK_RUNNING).
Proof.
  intros Hwf Hc Hx Hun Hq Hr.
  destruct (do_block_lemma s Q q c x Hwf Hc Hx) as (s1 & -> & Hwf1 & Hc1);
    [by intros ? ?%Hun|done|done|]. rewrite joined_notin in * by apply Hun.
  destruct (scheduler_spec s1 _ c _ Hwf1 Hc1)
    as (s' & Q' & i & r & rest & Hs & Hwf' & _ & _ & Hl & Hsp).
  assert (queued (qset (qset Q q (Q q ++ [c])) (QReady i) rest) c) as Hqc.
  { exists q. rewrite qset_ne, qset_eq by done. set_solver. }
  exists s1, s', Q'. split_and!; [done|done|apply Hc1..|done|done|].
  destruct r as [p|].
  - right. destruct Hsp as (Hp & Hup & (x' & Hx' & Hst) & Hiff).
    assert (queued Q' c) by (apply Hiff; by left).
    exists p, x'. split_and!; try done. intros ->. by apply unqueued_queued in Hup.
  - left. destruct Hsp as (Hp & _ & HQ). split; [|done].
    exists q. rewrite HQ, qset_ne, qset_eq by done. set_solver.
Qed.

Lemma do_block_correct_witness :
  sched_wf demo_state demo_queues ∧
  ∃ s', do_block demo_state (QSem 40) = Ok s' ∧ current_running s' ≠ None.
Proof.
  split; [apply demo_wf|].
  destruct (do_block_correct demo_state demo_queues (QSem 40) 0
    (no_pcb 0 <| status := TASK_RUNNING |>)) as (_ & s' & Q' & _ & _ & _ & Hs & _ & Hc);
    [apply demo_wf|done|done|by apply demo_current|done|done|].
  exists s'. split; [done|]. destruct Hc as [[_ Hc]|(? & ? & _ & Hc & _)]; by rewrite Hc.
Defined.

(** [do_unblock_one] wakes the first process of the queue that has not
    exited, and only that one: it is marked running and appended to the ready
    queue of its priority; the exited ones before it are dropped. *)
Theorem do_unblock_one_correct s Q q :
  sched_wf s Q →
  ∃ s' Q' r rest, do_unblock_one s q = Ok s' ∧ sched_wf s' Q' ∧
    first_live s (Q q) r rest ∧ current_running s' = current_running s ∧
    match r with
    | None => (∀ q', Q' q' = qset Q q [] q') ∧ pcb s' = pcb s
    | Some p => woken s (qset Q q rest) p s' Q'
    end.
Proof. apply do_unblock_one_lemma. Qed.

Lemma do_unblock_one_correct_witness :
  sched_wf demo_state demo_queues ∧
  ∃ s', do_unblock_one demo_state (QLock 16) = Ok s' ∧ current_running s' = Some 0.
Proof.
  split; [apply demo_wf|].
  destruct (do_unblock_one_correct demo_state demo_queues (QLock 16) demo_wf)
    as (s' & ? & ? & ? & Hs & _ & _ & Hc & _). by exists s'.
Defined.

(** [do_unblock_all] terminates and empties the queue; every process of it
    that has not exited is running and in the ready queue of its priority; the
    other processes and queues keep their content. *)
Theorem do_unblock_all_correct s Q q :
  sched_wf s Q → (∀ i, q ≠ QReady i) →
  ∃ s' Q', do_unblock_all s q = Ok s' ∧ sched_wf s' Q' ∧ all_woken s Q q s' Q'.
Proof.
  intros Hwf Hq. apply unblock_loop_spec; [done|done|]. unfold queue_fuel.
  pose proof (queue_rep_length _ _ _ (wf_queue _ _ (wf_queues _ _ Hwf) q)). lia.
Qed.

Lemma do_unblock_all_correct_witness :
  sched_wf demo_state demo_queues ∧
  ∃ s' Q', do_unblock_all demo_state (QLock 16) = Ok s' ∧ Q' (QLock 16) = [] ∧ sched_wf s' Q'.
Proof.
  split; [apply demo_wf|].
  destruct (do_unblock_all_correct demo_state demo_queues (QLock 16) demo_wf)
    as (s' & Q' & Hs & Hwf & Haw); [done|]. exists s', Q'.
  split_and!; [done|by apply (aw_empty _ _ _ _ _ Haw)|done].
Defined.

(** The queues selected by [n] calls in a row. *)
Fixpoint selections (n : nat) (s : kstate) : outcome (list Z * kstate) :=
  match n with
  | O => Ok ([], s)
  | S n =>
      '(i, s) ← select_queue s;
      '(l, s) ← selections n s;
      Ok (i :: l, s)
  end.

Lemma selections_zero n s Q :
  sched_wf s Q → 0 ≤ glb_sched_cnt s → 0 < glb_sched_bound s < 2 ^ 31 - 1 →
  glb_sched_bound s ≤ glb_sched_cnt s + Z.of_nat n → glb_sched_cnt s < glb_sched_bound s →
  ∃ l s', selections n s = Ok (l, s') ∧ 0 ∈ l.
Proof.
  revert s. induction n as [|n IH]; intros s Hwf Hc Hb Hn Hlt; [lia|]. simpl.
  destruct (select_queue_spec s Q Hwf) as (i & s1 & -> & Hwf1 & Hs1 & Hi & _ & Hcnt).
  rewrite bind_Ok. rewrite i32_small in Hcnt by lia.
  assert (glb_sched_bound s1 = glb_sched_bound s) as Hb1 by by rewrite Hs1.
  destruct (Z.leb_spec (glb_sched_bound s) (glb_sched_cnt s + 1)).
  - destruct Hcnt as [-> Hcnt]. clear IH.
    assert (∀ m s1, sched_wf s1 Q → ∃ l s', selections m s1 = Ok (l, s')) as Htot.
    { induction m as [|m IHm]; intros s2 Hwf2; simpl; [eauto|].
      destruct (select_queue_spec s2 Q Hwf2) as (j & s3 & -> & Hwf3 & _). rewrite bind_Ok.
      destruct (IHm s3 Hwf3) as (l & s' & ->). simpl. eauto. }
    destruct (Htot n s1 Hwf1) as (l & s' & ->). rewrite bind_Ok. eexists _, _.
    split; [done|]. set_solver.
  - destruct (IH s1 Hwf1) as (l & s' & -> & Hl); [lia..|]. rewrite bind_Ok.
    eexists _, _. split; [done|]. set_solver.
Qed.

(** The global counter keeps the lowest queue from starving: among any
    [glb_sched_bound] selections in a row one is queue 0, whatever the other
    queues hold. *)
Theorem selections_serve_queue_0 s Q :
  sched_wf s Q → 0 ≤ glb_sched_cnt s < glb_sched_bound s → glb_sched_bound s < 2 ^ 31 - 1 →
  ∃ l s', selections (Z.to_nat (glb_sched_bound s)) s = Ok (l, s') ∧ 0 ∈ l.
Proof. intros Hwf H1 H2. apply (selections_zero _ s Q Hwf); lia. Qed.

Lemma selections_serve_queue_0_witness :
  sched_wf demo_state demo_queues ∧
  ∃ l s', selections 5 demo_state = Ok (l, s') ∧ 0 ∈ l.
Proof.
  split; [apply demo_wf|].
  apply (selections_serve_queue_0 demo_state demo_queues demo_wf); done.
Defined.

(** [last_sel_index] starts at -1, and nothing assigns it before the first
    selection: the loop condition then reads entry -1 of both counter arrays. *)
Theorem select_queue_first_call s :
  last_sel_index s = -1 → select_queue s = Fault OutOfBounds.
Proof. intros Hl. unfold select_queue. by rewrite Hl. Qed.

Lemma select_queue_first_call_witness :
  select_queue (idle_state <| last_sel_index := -1 |>) = Fault OutOfBounds.
Proof. apply (select_queue_first_call (idle_state <| last_sel_index := -1 |>)). done. Defined.

(** ** What the scheduler leaves alone *)

(** The synchronisation objects of two states are equal. *)
Record sync_eq (s s' : kstate) : Prop := {
  sy_mutexes : mutexes s' = mutexes s;
  sy_semaphores : semaphores s' = semaphores s;
  sy_barriers : barriers s' = barriers s;
  sy_conditions : conditions s' = conditions s;
  sy_lock_cnt : lock_cnt s' = lock_cnt s;
}.

#[export] Instance sync_eq_preorder : PreOrder sync_eq.
Proof.
  split.
  - by intros s.
  - intros s1 s2 s3 [] []. split; congruence.
Qed.

(** Two entries have the same locks and saved registers. *)
Definition same_files (x x' : pcb_t) : Prop :=
  locks x' = locks x ∧ kernel_context x' = kernel_context x ∧ user_context x' = user_context x.

(** The scheduler changes neither these, nor the synchronisation objects. *)
Record sched_frame (s s' : kstate) : Prop := {
  sf_sync :> sync_eq s s';
  sf_entries p x' : aget (pcb s') p = Ok x' → ∃ x, aget (pcb s) p = Ok x ∧ same_files x x';
}.

#[export] Instance sched_frame_preorder : PreOrder sched_frame.
Proof.
  split.
  - intros s. split; [done|]. intros p x Hx. by exists x.
  - intros s1 s2 s3 [Hs1 H1] [Hs2 H2]. split; [by etrans|].
    intros p x3 (x2 & (x1 & Hx1 & E1 & E2 & E3)%H1 & F1 & F2 & F3)%H2.
    exists x1. split; [done|]. split_and!; congruence.
Qed.

(** A state with the same table. *)
Lemma sched_frame_pcb s s' : sync_eq s s' → pcb s' = pcb s → sched_frame s s'.
Proof. intros Hs Hp. split; [done|]. intros p x. rewrite Hp. intros Hx. by exists x. Qed.

(** [sync_frame]: a hypothesis says [m = Ok ..], where [m] is built from
    operations that are known to keep the frame. *)
Create HintDb sync.

Ltac sync_frame :=
  repeat (match goal with
  | H : (_ ≫= _) = Ok _ |- _ => apply bind_Ok_inv in H as (? & ? & H)
  | H : Ok _ = Ok _ |- _ => injection H as H; subst
  | H : (_, _) = (_, _) |- _ => injection H as H; subst
  | H : Fault _ = Ok _ |- _ => discriminate H
  | H : OutOfFuel = Ok _ |- _ => discriminate H
  | x : (_ * _)%type |- _ => destruct x
  | H : context [match ?x with _ => _ end] |- _ => destruct x eqn:?
  end; cbn beta iota zeta in *);
  repeat match goal with
  | |- sched_frame ?s ?s => reflexivity
  | |- sched_frame _ _ => first [ eassumption | etransitivity; [|solve [eauto with sync]] ]
  end.

Lemma upd_proc_sync s p f s' : upd_proc s p f = Ok s' → sync_eq s s'.
Proof.
  unfold upd_proc. intros H. outcome_inv H. subst. done.
Qed.

Lemma upd_proc_frame s p f s' :
  upd_proc s p f = Ok s' → (∀ x, same_files x (f x)) → sched_frame s s'.
Proof.
  intros Hu Hf. split; [by eapply upd_proc_sync|]. unfold upd_proc in Hu. outcome_inv Hu. subst.
  match goal with H : aset _ ?i _ = Ok _ |- _ => rename i into j; apply aset_Ok in H as [Hj ->] end.
  intros p' x'. destruct (decide (p' = j)) as [->|].
  - cbn. rewrite aget_insert_eq by done. intros [= <-]. eauto.
  - cbn. rewrite aget_insert_ne by lia. intros Hx. by exists x'.
Qed.
#[export] Hint Extern 1 (∀ x, same_files x _) => (intros; split_and!; reflexivity) : sync.

Lemma k_push_frame s q p s' : k_push s q p = Ok s' → sched_frame s s'.
Proof. unfold k_push. intros H. apply bind_Ok_inv in H as ([] & _ & [= <-]). by apply sched_frame_pcb. Qed.

Lemma k_push_if_frame s q p s' : k_push_if_not_exist s q p = Ok s' → sched_frame s s'.
Proof.
  unfold k_push_if_not_exist. intros H. apply bind_Ok_inv in H as ([] & _ & [= <-]). by apply sched_frame_pcb.
Qed.

Lemma k_dequeue_frame s q p s' : k_dequeue s q = Ok (p, s') → sched_frame s s'.
Proof.
  unfold k_dequeue. intros H. apply bind_Ok_inv in H as ([[] ?] & _ & [= <- <-]). by apply sched_frame_pcb.
Qed.

Lemma increase_frame s p s' : increase_priority_upper_bound s p = Ok s' → sched_frame s s'.
Proof.
  unfold increase_priority_upper_bound. intros H. outcome_inv H. subst. by apply sched_frame_pcb.
Qed.

Lemma decrease_frame s p s' : decrease_priority_upper_bound s p = Ok s' → sched_frame s s'.
Proof.
  unfold decrease_priority_upper_bound. intros H. outcome_inv H. subst. by apply sched_frame_pcb.
Qed.
#[export] Hint Resolve upd_proc_frame k_push_frame k_push_if_frame k_dequeue_frame increase_frame
  decrease_frame : sync.

Lemma invoke_frame s p s' : invoke_blocked_proc s p = Ok s' → sched_frame s s'.
Proof.
  unfold invoke_blocked_proc. intros H. sync_frame.
Qed.
#[export] Hint Resolve invoke_frame : sync.

Lemma check_sleeping_frame s s' : check_sleeping s = Ok s' → sched_frame s s'.
Proof. unfold check_sleeping. intros H. sync_frame. Qed.

Lemma check_net_recv_frame s s' : check_net_recv s = Ok s' → sched_frame s s'.
Proof. unfold check_net_recv. intros H. sync_frame. Qed.

Lemma dequeue_live_frame fuel s q r s' : dequeue_live fuel s q = Ok (r, s') → sched_frame s s'.
Proof.
  revert s. induction fuel as [|fuel IH]; intros s H; simpl in H; [done|]. sync_frame.
Qed.

Lemma select_queue_frame s i s' : select_queue s = Ok (i, s') → sched_frame s s'.
Proof. unfold select_queue. intros H. sync_frame; by apply sched_frame_pcb. Qed.
#[export] Hint Resolve check_sleeping_frame check_net_recv_frame dequeue_live_frame
  select_queue_frame : sync.

Lemma switch_to_frame s p s' : switch_to s p = Ok s' → sched_frame s s'.
Proof.
  unfold switch_to. intros H.
  apply bind_Ok_inv in H as (s1 & H1 & H). apply bind_Ok_inv in H as (s2 & H2 & H).
  apply bind_Ok_inv in H as (x & _ & H). apply bind_Ok_inv in H as (c & _ & H).
  apply bind_Ok_inv in H as (s3 & H3 & H). apply bind_Ok_inv in H as (s4 & H4 & H).
  apply bind_Ok_inv in H as (s5 & H5 & H). apply bind_Ok_inv in H as (y & _ & [= <-]).
  transitivity s5; [|by apply sched_frame_pcb]. transitivity s2; [etransitivity; eauto with sync|].
  transitivity s3; [|etransitivity; eauto with sync].
  destruct (decide _); sync_frame.
Qed.
#[export] Hint Resolve switch_to_frame : sync.

Lemma say_frame s m : sched_frame s (say s m).
Proof. by apply sched_frame_pcb. Qed.
#[export] Hint Resolve say_frame : sync.

Lemma scheduler_frame s s' : scheduler s = Ok s' → sched_frame s s'.
Proof. unfold scheduler. intros H. sync_frame. Qed.
#[export] Hint Resolve scheduler_frame : sync.

Lemma do_block_frame s q s' : do_block s q = Ok s' → sched_frame s s'.
Proof. unfold do_block, do_scheduler. intros H. sync_frame. Qed.

Lemma do_unblock_one_frame s q s' : do_unblock_one s q = Ok s' → sched_frame s s'.
Proof. unfold do_unblock_one. intros H. sync_frame. Qed.
#[export] Hint Resolve do_block_frame do_unblock_one_frame : sync.

Lemma unblock_loop_frame fuel s q s' : unblock_loop fuel s q = Ok s' → sched_frame s s'.
Proof.
  revert s. induction fuel as [|fuel IH]; intros s H; simpl in H; [done|]. sync_frame.
Qed.

Lemma do_unblock_all_frame s q s' : do_unblock_all s q = Ok s' → sched_frame s s'.
Proof. apply unblock_loop_frame. Qed.
#[export] Hint Resolve do_unblock_all_frame : sync.
