(* ===== verification/Moves.v ===== *)
(** * Moving processes between queues

    Waking, releasing a lock and ending a process move processes to the ready
    queues.  [moved] says that they lose none on the way when every queued process
    is alive; [Life] builds the invariant of the whole process table on it. *)

From S2P Require Import Prelude Queue Kstate Sched.

(** No queue holds a process that has exited. *)
Definition live_queues (s : kstate) (Q : queue_map) : Prop := ∀ p, queued Q p → ¬ exited s p.

(** The same processes are queued, those that are ready in the same queue, all
    priorities are the same, and the states of the processes other than
    [e] are the same or [TASK_RUNNING] for those that were woken. *)
Record moved (e : option pid) (s : kstate) (Q : queue_map) (s' : kstate) (Q' : queue_map) : Prop := {
  mv_queued p : queued Q' p ↔ queued Q p;
  mv_ready i p : p ∈ Q (QReady i) → p ∈ Q' (QReady i);
  mv_status p x : e ≠ Some p → aget (pcb s) p = Ok x → ∃ x', aget (pcb s') p = Ok x' ∧
    priority x' = priority x ∧ (status x' = status x ∨ status x' = TASK_RUNNING ∧ queued Q p);
}.

(** The states and priorities of the processes other than [e] are the same. *)
Definition same_status (e : option pid) (s s' : kstate) : Prop :=
  ∀ p x, e ≠ Some p → aget (pcb s) p = Ok x → ∃ x', aget (pcb s') p = Ok x' ∧
    priority x' = priority x ∧ status x' = status x.

Lemma same_status_pcb e s s' : pcb s' = pcb s → same_status e s s'.
Proof. intros Hp p x _ Hx. exists x. by rewrite Hp. Qed.

Lemma same_status_upd e s s' p x y :
  aget (pcb s) p = Ok x → pcb s' = <[Z.to_nat p := y]> (pcb s) →
  e = Some p ∨ priority y = priority x ∧ status y = status x → same_status e s s'.
Proof.
  intros Hx Hs' Hst p' z Hp' Hz. pose proof (aget_bound _ _ _ Hx). rewrite Hs'.
  destruct (decide (p' = p)) as [->|].
  - rewrite aget_insert_eq by done. exists y. destruct Hst as [->|Hst]; [done|].
    rewrite Hx in Hz. by injection Hz as <-.
  - rewrite aget_insert_ne by lia. by exists z.
Qed.

Lemma same_status_moved e s Q s' : same_status e s s' → moved e s Q s' Q.
Proof.
  intros H. split; [done|done|]. intros p x He Hx. destruct (H p x He Hx) as (x' & ? & ? & ?). eauto.
Qed.

Lemma moved_trans e s1 Q1 s2 Q2 s3 Q3 :
  moved e s1 Q1 s2 Q2 → moved e s2 Q2 s3 Q3 → moved e s1 Q1 s3 Q3.
Proof.
  intros [Hq1 Hr1 H1] [Hq2 Hr2 H2]. split.
  - intros p. by rewrite Hq2.
  - auto.
  - intros p x He Hx. destruct (H1 p x He Hx) as (x2 & Hx2 & Hp2 & Hs2).
    destruct (H2 p x2 He Hx2) as (x3 & Hx3 & Hp3 & Hs3). exists x3. split; [done|]. split; [congruence|].
    rewrite Hq1 in Hs3. destruct Hs3 as [->|]; [done|by right].
Qed.

(** [e] is in no queue. *)
Lemma moved_live e s Q s' Q' :
  sched_wf s Q → live_queues s Q → (∀ c, e = Some c → unqueued Q c) →
  moved e s Q s' Q' → live_queues s' Q'.
Proof.
  intros Hwf Hl He [Hq _ Hst] p Hp (x' & Hx' & Hex). apply Hq in Hp.
  assert (pid_ok p) as Hok by (destruct Hp as [q Hp]; eapply (queues_wf_valid s Q q); [apply Hwf|done]).
  destruct (get_pcb_spec s Q p Hwf Hok) as (x & _ & Hx & _).
  destruct (Hst p x) as (x1 & Hx1 & _ & H1); [|done|].
  { intros Hep%He%unqueued_queued. done. }
  rewrite Hx' in Hx1. injection Hx1 as <-. destruct H1 as [H1|[H1 _]]; [|congruence].
  apply (Hl p Hp). exists x. split; [done|congruence].
Qed.

(** Where all are alive the first one is found. *)
Lemma first_live_head s Q q r rest :
  live_queues s Q → first_live s (Q q) r rest →
  match r with Some p => Q q = p :: rest | None => Q q = [] end.
Proof.
  intros Hl (dr & Hdr & Hr).
  assert (dr = []) as ->.
  { destruct dr as [|y dr]; [done|]. apply Forall_cons in Hdr as [Hy _]. exfalso. apply (Hl y); [|done].
    exists q. destruct r; destruct Hr as [-> _]; set_solver. }
  destruct r; by destruct Hr as [-> _].
Qed.

Lemma qset_nil Q q q' : Q q = [] → qset Q q [] q' = Q q'.
Proof. intros Hq. unfold qset. case_decide; [by subst|done]. Qed.

Lemma queued_ext Q Q' p : (∀ q, Q' q = Q q) → queued Q' p ↔ queued Q p.
Proof. intros H. unfold queued. by setoid_rewrite H. Qed.

(** [do_unblock_one], after an update that keeps the states. *)
Lemma unblocked_moved e s s1 Q q r rest s' Q' :
  live_queues s Q → (∀ i, q ≠ QReady i) → first_live s (Q q) r rest → same_status e s s1 →
  match r with
  | None => (∀ q', Q' q' = qset Q q [] q') ∧ pcb s' = pcb s1
  | Some p => woken s1 (qset Q q rest) p s' Q'
  end → moved e s Q s' Q'.
Proof.
  intros Hl Hnr Hr%first_live_head Hs Hw; [|done]. destruct r as [p|].
  - destruct Hw as (x & x' & Hx & -> & -> & Hp & _). pose proof (aget_bound _ _ _ Hx). split.
    + intros p'. rewrite queued_qset_snoc. by apply queued_head.
    + intros i y Hy. apply ready_kept_snoc. by rewrite qset_ne.
    + intros p' y He Hy. rewrite Hp. destruct (decide (p' = p)) as [->|].
      * rewrite aget_insert_eq by done. destruct (Hs p y He Hy) as (z & Hz & Hpz & _).
        eexists. split; [done|]. split; [cbn; congruence|]. right. split; [done|].
        exists q. rewrite Hr. set_solver.
      * rewrite aget_insert_ne by lia. destruct (Hs p' y He Hy) as (z & ? & ? & ?). eauto.
  - destruct Hw as [HQ Hp]. split.
    + intros p. apply queued_ext. intros q'. by rewrite HQ, qset_nil.
    + intros i y Hy. by rewrite HQ, qset_ne.
    + intros p x He Hx. rewrite Hp. destruct (Hs p x He Hx) as (z & ? & ? & ?). eauto.
Qed.

(** [do_unblock_all], and the loop of [do_exit]. *)
Lemma all_woken_moved e s Q q s' Q' :
  live_queues s Q → (∀ i, q ≠ QReady i) → all_woken s Q q s' Q' → moved e s Q s' Q'.
Proof.
  intros Hl Hnr [He _ Hw Ho Hn Hp Hpri]. split.
  - intros p. split.
    + intros [q' [Hq'|Hq']%Hn]; [by exists q'|by exists q].
    + intros [q' Hq']. destruct (decide (q' = q)) as [->|]; [|exists q'; by apply Ho].
      destruct (Hw p Hq') as (x & _ & _ & Hx); [apply Hl; by exists q|by eexists].
  - intros i p. by apply Ho.
  - intros p x _ Hx. destruct (Hpri p x Hx) as (x1 & Hx1 & Hp1). exists x1. split; [done|]. split; [done|].
    destruct (decide (p ∈ Q q)) as [Hq|Hq].
    + destruct (Hw p Hq) as (x' & Hx' & Hst & _); [apply Hl; by exists q|].
      right. split; [congruence|by exists q].
    + rewrite Hp in Hx1 by done. left. congruence.
Qed.
