(* ===== verification/Lock.v ===== *)
(** * Synchronisation: [kernel/locking/]

    Locks, semaphores, condition variables and barriers on top of the
    scheduler.  A handler that blocks gives the processor away inside
    [do_scheduler] and continues when its process is selected again; it is
    therefore split at its calls of [do_block].  Each part returns [Done] when
    the handler has returned, and otherwise the point at which the process will
    continue.  [sem_step] and [mutex_step] put the parts of all processes in
    any order. *)

From S2P Require Import Prelude CString Printk Queue Kstate Sched Algo.

(** Where a handler of the current process stands after running it. *)
Inductive control :=
  | Done
  | InAcquire (a : addr)      (* in [do_mutex_lock_acquire], after [do_block] *)
  | InDown (a : addr)         (* in [do_semaphore_down], after [do_block] *)
  | InWait (a l : addr)       (* in [do_condition_wait], after [do_block] *)
  | InBarrier (a : addr).     (* in [do_barrier_wait], after [do_block] *)

#[export] Instance control_eq_dec : EqDecision control.
Proof. solve_decision. Defined.

(** ** Spin locks *)

Definition spin_lock_init (lock : lock_status_t) : lock_status_t := UNLOCKED.

(** [seen] are the values the loop reads, one per round. *)
Fixpoint spin_lock_acquire (seen : list lock_status_t) : outcome lock_status_t :=
  match seen with
  | [] => OutOfFuel
  | LOCKED :: seen => spin_lock_acquire seen
  | UNLOCKED :: _ => Ok LOCKED
  end.

Definition spin_lock_release (lock : lock_status_t) : lock_status_t := UNLOCKED.

(** ** Mutexes *)

Definition MUTEX_INITIALIZED : Z := 1.

Definition get_mutex (s : kstate) (a : addr) : outcome mutex_lock_t :=
  match mutexes s !! a with Some m => Ok m | None => Fault BadPointer end.

Definition set_mutex (s : kstate) (a : addr) (m : mutex_lock_t) : kstate :=
  s <| mutexes ::= <[a := m]> |>.

Definition do_mutex_lock_init (s : kstate) (lock : addr) : outcome kstate :=
  m ← get_mutex s lock;
  if negb (is_init m =? MUTEX_INITIALIZED) then
    let s := s <| queues ::= <[QLock lock := Queue None None]> |> in
    let m := Mutex UNLOCKED MUTEX_INITIALIZED (lock_cnt s) in
    let s := s <| lock_cnt := u32 (lock_cnt s + 1) |> in
    Ok (set_mutex s lock m)
  else Ok s.

(** The two loops over [current_running->locks]: the first free slot takes the
    lock, the first slot that holds it is cleared. *)
Fixpoint replace_first (ls : list (option addr)) (old new : option addr) :
    list (option addr) :=
  match ls with
  | [] => []
  | l :: ls => if decide (l = old) then new :: ls else l :: replace_first ls old new
  end.

Definition record_lock (s : kstate) (lock : addr) : outcome kstate :=
  upd_proc s (current_running s) (λ x, x <| locks ::= λ ls, replace_first ls None (Some lock) |>).

Definition forget_lock (s : kstate) (lock : addr) : outcome kstate :=
  upd_proc s (current_running s) (λ x, x <| locks ::= λ ls, replace_first ls (Some lock) None |>).

(** One round of [do_mutex_lock_acquire], from the head of its loop to the next
    [do_block] or to the return. *)
Definition do_mutex_lock_acquire (s : kstate) (lock : addr) : outcome (control * kstate) :=
  m ← get_mutex s lock;
  if decide (m_status m = LOCKED) then
    cp ← deref (current_running s);
    s ← k_push_if_not_exist s (QLock lock) cp;
    s ← do_block s (QLock lock);
    Ok (InAcquire lock, s)
  else
    let s := set_mutex s lock (m <| m_status := LOCKED |>) in
    s ← record_lock s lock;
    if decide (head (get_queue s (QLock lock)) = current_running s) then
      '(_, s) ← k_dequeue s (QLock lock); Ok (Done, s)
    else Ok (Done, s).

Definition do_mutex_lock_release (s : kstate) (lock : addr) : outcome kstate :=
  m ← get_mutex s lock;
  let s := set_mutex s lock (m <| m_status := UNLOCKED |>) in
  s ← forget_lock s lock;
  do_unblock_one s (QLock lock).

(** The order in which [mutex_lock_acquire_multiple] and its inverse take the
    locks: [qsort] by lock ids. *)
Definition lock_order (fuel : nat) (s : kstate) (ls : list addr) : outcome (list addr) :=
  let id a := match mutexes s !! a with Some m => lock_id m | None => 0 end in
  qsort (λ a b, cmp_lock (id a) (id b)) fuel ls 0 (Z.of_nat (length ls) - 1).

(** [mutex_lock_acquire] for each lock, up to the first one that is held: the
    locks that are left are taken when the process continues. *)
Fixpoint acquire_each (s : kstate) (ls : list addr) : outcome (control * list addr * kstate) :=
  match ls with
  | [] => Ok (Done, [], s)
  | lock :: ls =>
      '(r, s) ← do_mutex_lock_acquire s lock;
      if decide (r = Done) then acquire_each s ls else Ok (r, ls, s)
  end.

Definition mutex_lock_acquire_multiple (fuel : nat) (s : kstate) (ls : list addr) :
    outcome (control * list addr * kstate) :=
  ls ← lock_order fuel s ls;
  acquire_each s ls.

Definition release_one (s : kstate) (lock : addr) : outcome kstate :=
  m ← get_mutex s lock;
  let s := set_mutex s lock (m <| m_status := UNLOCKED |>) in
  '(proc, s) ← k_dequeue s (QLock lock);
  s ← forget_lock s lock;
  invoke_blocked_proc s proc.

Fixpoint release_each (s : kstate) (ls : list addr) : outcome kstate :=
  match ls with
  | [] => Ok s
  | lock :: ls => s ← release_one s lock; release_each s ls
  end.

Definition do_mutex_lock_release_multiple (fuel : nat) (s : kstate) (ls : list addr) :
    outcome kstate :=
  ls ← lock_order fuel s ls;
  s ← release_each s ls;
  do_scheduler s.

(** ** Semaphores *)

Definition get_sem (s : kstate) (a : addr) : outcome semaphore_t :=
  match semaphores s !! a with Some x => Ok x | None => Fault BadPointer end.

Definition set_sem (s : kstate) (a : addr) (x : semaphore_t) : kstate :=
  s <| semaphores ::= <[a := x]> |>.

Definition do_semaphore_init (s : kstate) (a : addr) (val : Z) : outcome kstate :=
  x ← get_sem s a;
  if negb (s_initialized x =? 0) then Ok s
  else
    let s := set_sem s a (Semaphore val 1) in
    Ok (s <| queues ::= <[QSem a := queue_init]> |>).

Definition do_semaphore_up (s : kstate) (a : addr) : outcome kstate :=
  x ← get_sem s a;
  let v := i32 (value x + 1) in
  let s := set_sem s a (x <| value := v |>) in
  if v <=? 0 then do_unblock_one s (QSem a) else Ok s.

(** [while (s->value < 0) do_block(...)], one round. *)
Definition semaphore_wait (s : kstate) (a : addr) : outcome (control * kstate) :=
  x ← get_sem s a;
  if value x <? 0 then s ← do_block s (QSem a); Ok (InDown a, s)
  else Ok (Done, s).

Definition do_semaphore_down (s : kstate) (a : addr) : outcome (control * kstate) :=
  x ← get_sem s a;
  semaphore_wait (set_sem s a (x <| value := i32 (value x - 1) |>)) a.

(** ** Condition variables *)

Definition do_condition_init (s : kstate) (a : addr) : outcome kstate :=
  match conditions s !! a with
  | None => Fault BadPointer
  | Some c =>
      if negb (c_initialized c =? 0) then Ok s
      else Ok (s <| queues ::= <[QCond a := queue_init]> |>)
  end.

(** Up to [do_block]; then the process reacquires the lock. *)
Definition do_condition_wait (s : kstate) (lock a : addr) : outcome (control * kstate) :=
  s ← do_mutex_lock_release s lock;
  s ← do_block s (QCond a);
  Ok (InWait a lock, s).

Definition do_condition_signal (s : kstate) (a : addr) : outcome kstate :=
  do_unblock_one s (QCond a).

Definition do_condition_broadcast (s : kstate) (a : addr) : outcome kstate :=
  do_unblock_all s (QCond a).

(** ** Barriers *)

Definition get_barrier (s : kstate) (a : addr) : outcome barrier_t :=
  match barriers s !! a with Some x => Ok x | None => Fault BadPointer end.

Definition set_barrier (s : kstate) (a : addr) (x : barrier_t) : kstate :=
  s <| barriers ::= <[a := x]> |>.

(** It sets neither [initialized] nor the queue. *)
Definition do_barrier_init (s : kstate) (a : addr) (goal : Z) : outcome kstate :=
  x ← get_barrier s a;
  if negb (b_initialized x =? 0) then Ok s
  else Ok (set_barrier s a (x <| cur_val := 0 |> <| bound := goal |>)).

Definition do_barrier_wait (s : kstate) (a : addr) : outcome (control * kstate) :=
  x ← get_barrier s a;
  let v := i32 (cur_val x + 1) in
  let s := set_barrier s a (x <| cur_val := v |>) in
  if v <? bound x then s ← do_block s (QBarrier a); Ok (InBarrier a, s)
  else
    let s := set_barrier s a (x <| cur_val := 0 |>) in
    s ← do_unblock_all s (QBarrier a); Ok (Done, s).

(** ** Continuing a handler *)

(** What the process runs when it is selected again. *)
Definition continue (s : kstate) (c : control) : outcome (control * kstate) :=
  match c with
  | Done => Ok (Done, s)
  | InAcquire a => do_mutex_lock_acquire s a
  | InDown a => semaphore_wait s a
  | InWait _ l => do_mutex_lock_acquire s l
  | InBarrier _ => Ok (Done, s)
  end.

#[global] Arguments do_mutex_lock_acquire : simpl never.
#[global] Arguments do_mutex_lock_release : simpl never.
#[global] Arguments semaphore_wait : simpl never.

(** ** Changing an object keeps the scheduler's state well formed *)

(** [s'] is [s] with other synchronisation objects. *)
Definition same_sched (s s' : kstate) : Prop :=
  pcb s' = pcb s ∧ plinks s' = plinks s ∧ queues s' = queues s ∧
  ready_counter s' = ready_counter s ∧ ready_bound s' = ready_bound s ∧
  last_sel_index s' = last_sel_index s ∧ tdes0 s' = tdes0 s ∧
  current_running s' = current_running s.

Lemma same_sched_wf s s' Q : same_sched s s' → sched_wf s Q → sched_wf s' Q.
Proof.
  intros (Hp & Hl & Hq & Hc & Hb & Hi & Ht & _) [[H1 H2 H3] H4 H5 H6 H7 H8 H9].
  split; rewrite ?Hp, ?Hc, ?Hb, ?Hi, ?Ht; [split|..]; try done; rewrite ?Hl; try done.
  unfold get_queue. by rewrite Hq.
Qed.

Lemma set_mutex_sched s a m : same_sched s (set_mutex s a m).
Proof. done. Qed.
Lemma set_sem_sched s a x : same_sched s (set_sem s a x).
Proof. done. Qed.
Lemma set_barrier_sched s a x : same_sched s (set_barrier s a x).
Proof. done. Qed.
#[export] Hint Resolve set_mutex_sched set_sem_sched set_barrier_sched : sync.

Lemma same_sched_live s s' l r rest :
  same_sched s s' → first_live s' l r rest → first_live s l r rest.
Proof. intros (Hp & _). unfold first_live, exited. by rewrite Hp. Qed.

(** ** Mutexes *)

(** Clearing or filling a slot of [locks]. *)
Lemma replace_first_length ls o n : length (replace_first ls o n) = length ls.
Proof. induction ls as [|l ls IH]; [done|]. simpl. case_decide; simpl; by rewrite ?IH. Qed.

(** The process table entry of [c] with other locks. *)
Lemma upd_locks_spec s Q c x f :
  sched_wf s Q → current_running s = Some c → aget (pcb s) c = Ok x →
  ∃ s', upd_proc s (current_running s) (λ x, x <| locks ::= f |>) = Ok s' ∧ sched_wf s' Q ∧
    s' = s <| pcb := <[Z.to_nat c := x <| locks ::= f |>]> (pcb s) |> ∧
    aget (pcb s') c = Ok (x <| locks ::= f |>).
Proof.
  intros Hwf Hc Hx. rewrite Hc.
  destruct (upd_proc_keeps s Q c (λ x, x <| locks ::= f |>) Hwf) as (y & s' & Hy & H1 & H2 & H3 & H4).
  - by eapply aget_pcb_ok.
  - done.
  - rewrite Hx in Hy. injection Hy as <-. by exists s'.
Qed.

Lemma same_status_live s s' l r rest :
  (∀ p x, aget (pcb s) p = Ok x → ∃ x', aget (pcb s') p = Ok x' ∧ status x' = status x) →
  (∀ p x', aget (pcb s') p = Ok x' → ∃ x, aget (pcb s) p = Ok x ∧ status x' = status x) →
  first_live s' l r rest → first_live s l r rest.
Proof.
  intros H1 H2. assert (∀ p, exited s' p ↔ exited s p) as Heq.
  { intros p. unfold exited. split.
    - intros (x & (y & Hy & Hst)%H2 & Hx). exists y. split; [done|congruence].
    - intros (x & (y & Hy & Hst)%H1 & Hx). exists y. split; [done|congruence]. }
  unfold first_live. intros (dr & Hdr & Hr). exists dr. split.
  - eapply Forall_impl; [exact Hdr|]. intros p. apply Heq.
  - destruct r; [|done]. by rewrite <- Heq.
Qed.

(** The status of the processes is unchanged when one entry gets other locks. *)
Lemma locks_status s s' c x f :
  aget (pcb s) c = Ok x → pcb s' = <[Z.to_nat c := x <| locks ::= f |>]> (pcb s) →
  (∀ p y, aget (pcb s) p = Ok y → ∃ y', aget (pcb s') p = Ok y' ∧ status y' = status y) ∧
  (∀ p y', aget (pcb s') p = Ok y' → ∃ y, aget (pcb s) p = Ok y ∧ status y' = status y).
Proof.
  intros Hx ->. pose proof (aget_bound _ _ _ Hx). split; intros p y Hy.
  - destruct (decide (p = c)) as [->|].
    + rewrite aget_insert_eq by lia. eexists; split; [done|]. simpl. congruence.
    + rewrite aget_insert_ne by lia. eauto.
  - destruct (decide (p = c)) as [->|].
    + rewrite aget_insert_eq in Hy by lia. injection Hy as <-. eauto.
    + rewrite aget_insert_ne in Hy by lia. eauto.
Qed.

(** Taking a free mutex. *)
Lemma acquire_free s Q a m c x :
  sched_wf s Q → current_running s = Some c → aget (pcb s) c = Ok x → unqueued Q c →
  mutexes s !! a = Some m → m_status m = UNLOCKED →
  ∃ s', do_mutex_lock_acquire s a = Ok (Done, s') ∧ sched_wf s' Q ∧
    current_running s' = Some c ∧
    mutexes s' = <[a := m <| m_status := LOCKED |>]> (mutexes s) ∧
    aget (pcb s') c = Ok (x <| locks ::= λ ls, replace_first ls None (Some a) |>) ∧
    pcb s' = <[Z.to_nat c := x <| locks ::= λ ls, replace_first ls None (Some a) |>]> (pcb s).
Proof.
  intros Hwf Hc Hx Hun Hm Hst. unfold do_mutex_lock_acquire, get_mutex, record_lock.
  rewrite Hm, bind_Ok, Hst. rewrite decide_False by done.
  set (s1 := set_mutex s a _).
  assert (sched_wf s1 Q) as Hwf1 by (by apply (same_sched_wf s)).
  destruct (upd_locks_spec s1 Q c x (λ ls, replace_first ls None (Some a)) Hwf1 Hc Hx)
    as (s2 & -> & Hwf2 & Hs2 & Hx2).
  rewrite bind_Ok, (get_queue_head s2 Q) by apply Hwf2.
  assert (current_running s2 = Some c) as Hc2 by by rewrite Hs2.
  rewrite decide_False; [|rewrite Hc2; intros Hh%list_elem_of_lookup_2; by apply (Hun (QLock a))].
  exists s2. split_and!; [done|done|done| |done|]; by rewrite Hs2.
Qed.

(** The locks are sorted without a fault. *)
Lemma lock_order_perm fuel s ls :
  Forall (λ a, ∃ m, mutexes s !! a = Some m ∧ lock_id_ok (lock_id m)) ls →
  (2 * length ls ≤ fuel)%nat → (1 ≤ fuel)%nat →
  ∃ ls', lock_order fuel s ls = Ok ls' ∧ ls' ≡ₚ ls.
Proof.
  intros Hls Hf Hf1. unfold lock_order. set (id a := match mutexes s !! a with Some m => lock_id m | None => 0 end).
  destruct (qsort_perm (λ a b, cmp_lock (id a) (id b)) (λ a, lock_id_ok (id a))) with
    (n := (length ls - 1)%nat) (fuel := fuel) (left := 0) (right := Z.of_nat (length ls) - 1) (a := ls)
    as (b & Hb & Hp & _).
  - intros x y ??. rewrite !cmp_lock_small by done. lia.
  - intros x y z ???. rewrite !cmp_lock_small by done. lia.
  - eapply Forall_impl; [exact Hls|]. intros a (m & Hm & Hid). unfold id. by rewrite Hm.
  - lia.
  - lia.
  - lia.
  - left. lia.
  - eauto.
Qed.

Lemma acquire_each_free s Q c x ls :
  sched_wf s Q → current_running s = Some c → aget (pcb s) c = Ok x → unqueued Q c → NoDup ls →
  Forall (λ a, ∃ m, mutexes s !! a = Some m ∧ m_status m = UNLOCKED) ls →
  ∃ s', acquire_each s ls = Ok (Done, [], s') ∧ sched_wf s' Q ∧ current_running s' = Some c ∧
    (∀ a, a ∈ ls → ∃ m, mutexes s' !! a = Some m ∧ m_status m = LOCKED) ∧
    ∀ a, a ∉ ls → mutexes s' !! a = mutexes s !! a.
Proof.
  intros Hwf Hc Hx Hun. revert s x Hwf Hc Hx.
  induction ls as [|a ls IH]; intros s x Hwf Hc Hx Hnd Hls; cbn [acquire_each].
  { exists s. split_and!; try done. by intros a ?%elem_of_nil. }
  apply NoDup_cons in Hnd as [Ha Hnd]. apply Forall_cons in Hls as [(m & Hm & Hst) Hls].
  destruct (acquire_free s Q a m c x Hwf Hc Hx Hun Hm Hst) as (s1 & -> & Hwf1 & Hc1 & Hm1 & Hx1 & _).
  rewrite bind_Ok, decide_True by done.
  destruct (IH s1 _ Hwf1 Hc1 Hx1 Hnd) as (s' & -> & Hwf' & Hc' & Hin & Hout).
  { apply Forall_forall. intros b Hb. rewrite Forall_forall in Hls. rewrite Hm1, lookup_insert_ne by (by intros ->).
    by apply Hls. }
  exists s'. split_and!; [done..| |].
  - intros b [->|Hb]%elem_of_cons; [|by apply Hin]. rewrite Hout, Hm1, lookup_insert_eq by done. by eexists.
  - intros b [Hne Hb]%not_elem_of_cons. by rewrite Hout, Hm1, lookup_insert_ne by congruence.
Qed.

(** Taking several free mutexes takes them all, in whatever order they are given,
    and no other one. *)
Theorem acquire_multiple_free fuel s Q c x ls :
  sched_wf s Q → current_running s = Some c → aget (pcb s) c = Ok x → unqueued Q c → NoDup ls →
  Forall (λ a, ∃ m, mutexes s !! a = Some m ∧ m_status m = UNLOCKED ∧ lock_id_ok (lock_id m)) ls →
  (2 * length ls ≤ fuel)%nat → (1 ≤ fuel)%nat →
  ∃ s', mutex_lock_acquire_multiple fuel s ls = Ok (Done, [], s') ∧ sched_wf s' Q ∧
    current_running s' = Some c ∧
    (∀ a, a ∈ ls → ∃ m, mutexes s' !! a = Some m ∧ m_status m = LOCKED) ∧
    ∀ a, a ∉ ls → mutexes s' !! a = mutexes s !! a.
Proof.
  intros Hwf Hc Hx Hun Hnd Hls Hf Hf1. unfold mutex_lock_acquire_multiple.
  destruct (lock_order_perm fuel s ls) as (ls' & -> & Hp); [|done..|].
  { eapply Forall_impl; [exact Hls|]. naive_solver. }
  rewrite bind_Ok. destruct (acquire_each_free s Q c x ls') as (s' & -> & Hwf' & Hc' & Hin & Hout); [done..| | |].
  - by rewrite Hp.
  - rewrite Hp. eapply Forall_impl; [exact Hls|]. naive_solver.
  - exists s'. split_and!; [done..| |]; intros a; rewrite <- Hp; auto.
Qed.

(** Finding it locked: the process waits, in the queue of the mutex. *)
Lemma acquire_busy s Q a m c x :
  sched_wf s Q → current_running s = Some c → aget (pcb s) c = Ok x →
  (∀ q, c ∈ Q q → q = QLock a) →
  mutexes s !! a = Some m → m_status m = LOCKED →
  ∃ s1 s', do_mutex_lock_acquire s a = Ok (InAcquire a, s') ∧ scheduler s1 = Ok s' ∧
    sched_wf s1 (qset Q (QLock a) (joined (Q (QLock a)) c)) ∧
    current_ok s1 (qset Q (QLock a) (joined (Q (QLock a)) c)) c (x <| status := TASK_BLOCKED |>) ∧
    mutexes s' = mutexes s ∧ pcb s1 = <[Z.to_nat c := x <| status := TASK_BLOCKED |>]> (pcb s) ∧
    mutexes s1 = mutexes s.
Proof.
  intros Hwf Hc Hx Hun Hm Hst. unfold do_mutex_lock_acquire, get_mutex.
  rewrite Hm, bind_Ok, Hst. rewrite decide_True by done. rewrite Hc. simpl.
  destruct (k_push_if_not_exist_spec s Q (QLock a) c) as (s1 & Hk & Hq1 & Hs1);
    [apply Hwf|by eapply aget_pcb_ok|done|]. rewrite Hk, bind_Ok.
  apply k_push_if_frame in Hk as Hsy1. fold (joined (Q (QLock a)) c) in Hq1.
  set (Q1 := qset Q (QLock a) (joined (Q (QLock a)) c)) in *.
  assert (sched_wf s1 Q1) as Hwf1.
  { eapply sched_wf_queues; [done|done|done|]. intros p. by unfold Q1; rewrite qset_ne. }
  destruct (do_block_full s1 Q1 (QLock a) c x) as (s2 & Hb & Hwf2 & Hc2 & Hp2 & Hm2);
    [done|by rewrite Hs1|by rewrite Hs1| |done|done|].
  { intros q'. unfold Q1, qset. case_decide; [done|]. apply Hun. }
  assert (∀ q, Q1 q = qset Q1 (QLock a) (joined (Q1 (QLock a)) c) q) as Hext.
  { intros q. unfold qset, joined. case_decide; [|done]. subst q.
    rewrite decide_True; [done|]. unfold Q1. rewrite qset_eq. apply elem_of_joined. }
  destruct (scheduler_spec s2 _ c _ Hwf2 Hc2) as (s' & Q' & i & r & rest & Hs & _).
  rewrite Hs in Hb. rewrite Hb, bind_Ok. exists s2, s'.
  split_and!; [done|done|by eapply sched_wf_ext| | |by rewrite Hp2, Hs1|by rewrite Hm2, Hs1].
  - destruct Hc2 as (Hc2 & Hx2 & Hr & Hu). split_and!; [done|done| |by intros []].
    intros i'. rewrite Hext. apply Hr.
  - apply do_block_frame in Hb. rewrite (sy_mutexes _ _ Hb). apply Hsy1.
Qed.

(** One round of [do_mutex_lock_acquire].  A free mutex is locked and
    recorded in the process's table of locks, and nothing is queued.  If it is
    locked, the process is blocked and in the queue of the mutex (once) when
    the scheduler takes over, and no mutex has changed. *)
Theorem mutex_acquire_correct s Q a m c x :
  sched_wf s Q → current_running s = Some c → aget (pcb s) c = Ok x → unqueued Q c →
  mutexes s !! a = Some m →
  match m_status m with
  | UNLOCKED =>
      ∃ s', do_mutex_lock_acquire s a = Ok (Done, s') ∧ sched_wf s' Q ∧
        current_running s' = Some c ∧
        mutexes s' = <[a := m <| m_status := LOCKED |>]> (mutexes s) ∧
        aget (pcb s') c = Ok (x <| locks ::= λ ls, replace_first ls None (Some a) |>)
  | LOCKED =>
      ∃ s1 s', do_mutex_lock_acquire s a = Ok (InAcquire a, s') ∧ scheduler s1 = Ok s' ∧
        sched_wf s1 (qset Q (QLock a) (Q (QLock a) ++ [c])) ∧
        current_ok s1 (qset Q (QLock a) (Q (QLock a) ++ [c])) c
          (x <| status := TASK_BLOCKED |>) ∧
        mutexes s' = mutexes s
  end.
Proof.
  intros Hwf Hc Hx Hun Hm. destruct (m_status m) eqn:Hst.
  { destruct (acquire_free s Q a m c x) as (s' & H); [done..|]. exists s'. naive_solver. }
  destruct (acquire_busy s Q a m c x) as (s1 & s' & H); [done..|by intros q ?%Hun|done|done|].
  rewrite joined_notin in H by apply Hun. exists s1, s'. naive_solver.
Qed.

Definition demo_locks (st : lock_status_t) : kstate :=
  demo_state <| mutexes := <[16 := Mutex st 1 0]> ∅ |> <| semaphores := <[32 := Semaphore (-2) 1]> ∅ |>.

Lemma demo_locks_wf st : sched_wf (demo_locks st) demo_queues.
Proof. apply (same_sched_wf demo_state); [done|apply demo_wf]. Qed.

Lemma mutex_acquire_correct_witness :
  sched_wf (demo_locks UNLOCKED) demo_queues ∧
  ∃ s', do_mutex_lock_acquire (demo_locks UNLOCKED) 16 = Ok (Done, s').
Proof.
  split; [apply demo_locks_wf|].
  destruct (mutex_acquire_correct (demo_locks UNLOCKED) demo_queues 16 (Mutex UNLOCKED 1 0) 0
    (no_pcb 0 <| status := TASK_RUNNING |>)) as (s' & Hs & _);
    [apply demo_locks_wf|done|done|by apply demo_current|done|].
  by exists s'.
Defined.

(** Releasing: the mutex is free, the slot is cleared, and the first live
    waiter is made runnable. *)
Lemma release_spec s Q a m c x :
  sched_wf s Q → current_running s = Some c → aget (pcb s) c = Ok x →
  mutexes s !! a = Some m →
  ∃ s1 s' Q' r rest, do_mutex_lock_release s a = Ok s' ∧ sched_wf s' Q' ∧
    current_running s' = Some c ∧
    mutexes s' = <[a := m <| m_status := UNLOCKED |>]> (mutexes s) ∧
    aget (pcb s1) c = Ok (x <| locks ::= λ ls, replace_first ls (Some a) None |>) ∧
    (∀ p, p ≠ c → aget (pcb s1) p = aget (pcb s) p) ∧
    first_live s (Q (QLock a)) r rest ∧
    match r with
    | None => (∀ q, Q' q = qset Q (QLock a) [] q) ∧ pcb s' = pcb s1
    | Some p => woken s1 (qset Q (QLock a) rest) p s' Q'
    end.
Proof.
  intros Hwf Hc Hx Hm. unfold do_mutex_lock_release, get_mutex, forget_lock.
  rewrite Hm, bind_Ok. set (s0 := set_mutex s a _).
  assert (sched_wf s0 Q) as Hwf0 by (by apply (same_sched_wf s)).
  destruct (upd_locks_spec s0 Q c x (λ ls, replace_first ls (Some a) None) Hwf0 Hc Hx)
    as (s1 & -> & Hwf1 & Hs1 & Hx1). rewrite bind_Ok.
  destruct (do_unblock_one_lemma s1 Q (QLock a) Hwf1)
    as (s' & Q' & r & rest & Hu & Hwf' & Hl & Hcur & Hr).
  pose proof (do_unblock_one_frame _ _ _ Hu) as Hsy.
  exists s1, s', Q', r, rest. split_and!; [done|done|by rewrite Hcur, Hs1| |done| | |done].
  - rewrite (sy_mutexes _ _ Hsy), Hs1. done.
  - intros p Hp. rewrite Hs1. simpl. pose proof (aget_bound _ _ _ Hx).
    by rewrite aget_insert_ne by lia.
  - destruct (locks_status s s1 c x (λ ls, replace_first ls (Some a) None) Hx) as [H1 H2].
    { by rewrite Hs1. }
    by apply (same_status_live s s1).
Qed.

(** [do_mutex_lock_release] unlocks the mutex, clears its slot of the
    holder's table, and makes the first waiter that has not exited runnable:
    a release with a live waiter never loses the wake-up. *)
Theorem mutex_release_correct s Q a m c x :
  sched_wf s Q → current_running s = Some c → aget (pcb s) c = Ok x →
  mutexes s !! a = Some m →
  ∃ s' Q' r rest, do_mutex_lock_release s a = Ok s' ∧ sched_wf s' Q' ∧
    current_running s' = Some c ∧
    mutexes s' = <[a := m <| m_status := UNLOCKED |>]> (mutexes s) ∧
    first_live s (Q (QLock a)) r rest ∧
    match r with
    | None => ∀ q, Q' q = qset Q (QLock a) [] q
    | Some p => ∃ xp, aget (pcb s') p = Ok xp ∧ status xp = TASK_RUNNING ∧
        p ∈ Q' (QReady (priority xp)) ∧ Q' (QLock a) = rest
    end.
Proof.
  intros Hwf Hc Hx Hm.
  destruct (release_spec s Q a m c x Hwf Hc Hx Hm)
    as (s1 & s' & Q' & r & rest & H1 & H2 & H3 & H4 & _ & _ & H5 & H6).
  exists s', Q', r, rest. split_and!; [done..|]. destruct r as [p|]; [|apply H6].
  destruct (woken_self _ _ _ _ _ H6) as (xp & Hxp & Hst & Hin).
  exists xp. split_and!; [done..|].
  destruct (woken_queues _ _ _ _ _ H6) as (_ & _ & Hq). by rewrite Hq, qset_eq.
Qed.

Lemma mutex_release_correct_witness :
  sched_wf (demo_locks LOCKED) demo_queues ∧
  ∃ s' m, do_mutex_lock_release (demo_locks LOCKED) 16 = Ok s' ∧
    mutexes s' !! 16 = Some m ∧ m_status m = UNLOCKED.
Proof.
  split; [apply demo_locks_wf|].
  destruct (mutex_release_correct (demo_locks LOCKED) demo_queues 16 (Mutex LOCKED 1 0) 0
    (no_pcb 0 <| status := TASK_RUNNING |>)) as (s' & Q' & r & rest & Hs & _ & _ & Hm & _);
    [apply demo_locks_wf|done..|].
  exists s'. rewrite Hm. eexists. split_and!; [done|by rewrite lookup_insert_eq|done].
Defined.

(** ** Mutual exclusion *)

(** The steps that can happen to mutex [a] in any order: rounds of
    [do_mutex_lock_acquire] by whatever process runs, releases by the holder,
    and anything that leaves the mutex alone.  The second component is the
    process that has acquired it and not released it. *)
Inductive mutex_step (a : addr) : kstate * option pid → kstate * option pid → Prop :=
  | step_acquired s s' o c :
      current_running s = Some c → do_mutex_lock_acquire s a = Ok (Done, s') →
      mutex_step a (s, o) (s', Some c)
  | step_waiting s s' o :
      do_mutex_lock_acquire s a = Ok (InAcquire a, s') → mutex_step a (s, o) (s', o)
  | step_released s s' c :
      current_running s = Some c → do_mutex_lock_release s a = Ok s' →
      mutex_step a (s, Some c) (s', None)
  | step_other s s' o :
      mutexes s' !! a = mutexes s !! a → mutex_step a (s, o) (s', o).

(** The state of the mutex tells whether it is held. *)
Definition mutex_inv (a : addr) (st : kstate * option pid) : Prop :=
  ∃ m, mutexes st.1 !! a = Some m ∧ (m_status m = LOCKED ↔ is_Some st.2).

(** What a round of acquire does to the mutexes, whatever the queues. *)
Lemma acquire_mutexes s a r s' m :
  do_mutex_lock_acquire s a = Ok (r, s') → mutexes s !! a = Some m →
  match m_status m with
  | UNLOCKED => r = Done ∧ mutexes s' = <[a := m <| m_status := LOCKED |>]> (mutexes s)
  | LOCKED => r = InAcquire a ∧ mutexes s' = mutexes s
  end.
Proof.
  unfold do_mutex_lock_acquire, get_mutex, record_lock. intros H Hm. rewrite Hm, bind_Ok in H.
  destruct (m_status m); simpl in H.
  - apply bind_Ok_inv in H as (s1 & H1%upd_proc_sync & H).
    assert (∃ s2, sync_eq s1 s2 ∧ (Done, s2) = (r, s')) as (s2 & H2 & [= <- <-]).
    { case_decide; [|exists s1; split; [done|congruence]].
      apply bind_Ok_inv in H as ([p s2] & H2%k_dequeue_frame & [= <- <-]). exists s2. by destruct H2. }
    split; [done|]. by rewrite (sy_mutexes _ _ H2), (sy_mutexes _ _ H1).
  - apply bind_Ok_inv in H as (cp & _ & H). apply bind_Ok_inv in H as (s1 & H1%k_push_if_frame & H).
    apply bind_Ok_inv in H as (s2 & H2%do_block_frame & [= <- <-]).
    split; [done|]. by rewrite (sy_mutexes _ _ H2), (sy_mutexes _ _ H1).
Qed.

Lemma release_mutexes s a s' m :
  do_mutex_lock_release s a = Ok s' → mutexes s !! a = Some m →
  mutexes s' = <[a := m <| m_status := UNLOCKED |>]> (mutexes s).
Proof.
  unfold do_mutex_lock_release, get_mutex, forget_lock. intros H Hm. rewrite Hm, bind_Ok in H.
  apply bind_Ok_inv in H as (s1 & H1%upd_proc_sync & H2%do_unblock_one_frame).
  by rewrite (sy_mutexes _ _ H2), (sy_mutexes _ _ H1).
Qed.

Lemma mutex_inv_step a st st' : mutex_step a st st' → mutex_inv a st → mutex_inv a st'.
Proof.
  intros Hstep (m & Hm & Hiff). destruct Hstep as [s s' o c _ Ha|s s' o Ha|s s' c _ Hr|s s' o Heq];
    simpl in *.
  - pose proof (acquire_mutexes _ _ _ _ _ Ha Hm) as Hma.
    destruct (m_status m); destruct Hma as [Hd Hma]; [|done]. eexists. simpl.
    rewrite Hma, lookup_insert_eq. split; [done|]. simpl. split; [eauto|done].
  - pose proof (acquire_mutexes _ _ _ _ _ Ha Hm) as Hma.
    destruct (m_status m) eqn:Hst; destruct Hma as [Hd Hma]; [done|].
    exists m. simpl. by rewrite Hma, Hst.
  - eexists. simpl. rewrite (release_mutexes _ _ _ _ Hr Hm), lookup_insert_eq.
    split; [done|]. simpl. split; [done|by intros []].
  - exists m. simpl. by rewrite Heq.
Qed.

(** C11.  Mutual exclusion.  Whatever processes run in whatever order, as long as
    only the holder releases: [do_mutex_lock_acquire] completes only when no
    process holds the mutex, and a process that finds it held waits. *)
Theorem mutex_exclusion a st st' :
  mutex_inv a st → rtc (mutex_step a) st st' →
  mutex_inv a st' ∧
  ∀ r s'', do_mutex_lock_acquire st'.1 a = Ok (r, s'') →
    (r = Done ↔ st'.2 = None) ∧ (r = InAcquire a ↔ is_Some (st'.2)).
Proof.
  intros Hinv Hrtc. assert (mutex_inv a st') as Hinv'.
  { revert Hinv. induction Hrtc as [st|st1 st2 st3 Hstep _ IH]; [done|].
    intros Hinv. apply IH. by eapply mutex_inv_step. }
  split; [done|]. destruct Hinv' as (m & Hm & Hiff). intros r s'' Ha.
  pose proof (acquire_mutexes _ _ _ _ _ Ha Hm) as Hma.
  destruct (m_status m); destruct Hma as [-> _].
  - assert (st'.2 = None) as -> by (apply eq_None_not_Some; by intros ?%Hiff).
    by split.
  - destruct (proj1 Hiff eq_refl) as [p ->]. by split.
Qed.

Lemma mutex_exclusion_witness :
  mutex_inv 16 (demo_locks UNLOCKED, None) ∧
  ∃ s', mutex_step 16 (demo_locks UNLOCKED, None) (s', Some 0) ∧ mutex_inv 16 (s', Some 0).
Proof.
  assert (mutex_inv 16 (demo_locks UNLOCKED, None)) as Hinv.
  { exists (Mutex UNLOCKED 1 0). split; [done|]. split; [done|by intros []]. }
  split; [done|].
  destruct (acquire_free (demo_locks UNLOCKED) demo_queues 16 (Mutex UNLOCKED 1 0) 0
    (no_pcb 0 <| status := TASK_RUNNING |>)) as (s' & Hs & _);
    [apply demo_locks_wf|done|done|by apply demo_current|done|done|].
  assert (mutex_step 16 (demo_locks UNLOCKED, None) (s', Some 0)) as Hstep by (by apply step_acquired).
  exists s'. split; [done|].
  by apply (mutex_exclusion 16 _ (s', Some 0) Hinv), rtc_once.
Defined.

(** ** Semaphores *)

Lemma semaphore_wait_value s a r s' x :
  semaphore_wait s a = Ok (r, s') → semaphores s !! a = Some x →
  semaphores s' !! a = Some x ∧ r = (if value x <? 0 then InDown a else Done).
Proof.
  unfold semaphore_wait, get_sem. intros H Hx. rewrite Hx, bind_Ok in H.
  destruct (value x <? 0).
  - apply bind_Ok_inv in H as (s1 & H1%do_block_frame & [= <- <-]).
    by rewrite (sy_semaphores _ _ H1).
  - by injection H as <- <-.
Qed.

Lemma semaphore_up_value s a s' x :
  do_semaphore_up s a = Ok s' → semaphores s !! a = Some x →
  ∃ x', semaphores s' !! a = Some x' ∧ value x' = i32 (value x + 1).
Proof.
  unfold do_semaphore_up, get_sem. intros H Hx. rewrite Hx, bind_Ok in H.
  exists (x <| value := i32 (value x + 1) |>). split; [|done].
  destruct (i32 (value x + 1) <=? 0).
  - apply do_unblock_one_frame in H. rewrite (sy_semaphores _ _ H). apply lookup_insert_eq.
  - injection H as <-. apply lookup_insert_eq.
Qed.

(** What the processes have done with a semaphore: the calls of up, the calls
    of down, and those of down that have returned. *)
Record sem_count := SemCount { ups : Z; started : Z; passed : Z }.

Definition returned (r : control) : Z := if decide (r = Done) then 1 else 0.

Inductive sem_step (a : addr) : kstate * sem_count → kstate * sem_count → Prop :=
  | step_up s s' x n :
      semaphores s !! a = Some x → value x < 2 ^ 31 - 1 →
      do_semaphore_up s a = Ok s' →
      sem_step a (s, n) (s', SemCount (ups n + 1) (started n) (passed n))
  | step_down s s' x r n :
      semaphores s !! a = Some x → - 2 ^ 31 < value x →
      do_semaphore_down s a = Ok (r, s') →
      sem_step a (s, n) (s', SemCount (ups n) (started n + 1) (passed n + returned r))
  | step_retry s s' r n :
      passed n < started n → semaphore_wait s a = Ok (r, s') →
      sem_step a (s, n) (s', SemCount (ups n) (started n) (passed n + returned r))
  | step_none s s' n :
      semaphores s' !! a = semaphores s !! a → sem_step a (s, n) (s', n).

(** [value] counts the units that are left, or the callers that wait. *)
Definition sem_inv (a : addr) (v0 : Z) (st : kstate * sem_count) : Prop :=
  ∃ x, semaphores st.1 !! a = Some x ∧ - 2 ^ 31 ≤ value x < 2 ^ 31 ∧
    value x = v0 + ups st.2 - started st.2 ∧ passed st.2 ≤ started st.2 ∧
    passed st.2 ≤ v0 + ups st.2.

Lemma sem_inv_step a v0 st st' :
  0 ≤ v0 → sem_step a st st' → sem_inv a v0 st → sem_inv a v0 st'.
Proof.
  intros Hv0 Hstep (x & Hx & Hr & Hv & Hp & Hpu). unfold sem_inv in *.
  destruct Hstep as [s s' y n Hy Hlt Hu|s s' y r n Hy Hlt Hd|s s' r n Hlt Hw|s s' n Heq];
    simpl in *.
  - rewrite Hx in Hy. injection Hy as <-.
    destruct (semaphore_up_value _ _ _ _ Hu Hx) as (x' & -> & Hx').
    rewrite i32_small in Hx' by lia. exists x'. split; [done|]. lia.
  - rewrite Hx in Hy. injection Hy as <-. unfold do_semaphore_down, get_sem in Hd.
    rewrite Hx, bind_Ok, i32_small in Hd by lia.
    destruct (semaphore_wait_value _ _ _ _ (x <| value := value x - 1 |>) Hd) as [Hs' Hr'];
      [apply lookup_insert_eq|]. rewrite Hs', Hr'. eexists. split; [done|]. simpl. unfold returned.
    destruct (Z.ltb_spec (value x - 1) 0); [rewrite decide_False by done|rewrite decide_True by done];
      lia.
  - destruct (semaphore_wait_value _ _ _ _ x Hw Hx) as [Hs' Hr'].
    exists x. rewrite Hs', Hr'. split; [done|]. unfold returned.
    destruct (Z.ltb_spec (value x) 0); [rewrite decide_False by done|rewrite decide_True by done];
      lia.
  - exists x. rewrite Heq. done.
Qed.

(** C27.  A semaphore never admits more callers than it has units: in every
    interleaving of the rounds of [do_semaphore_down], of [do_semaphore_up] and
    of anything that leaves the semaphore alone, the number of calls of down
    that have returned is at most the initial value plus the calls of up. *)
Theorem semaphore_safety a v0 st st' :
  0 ≤ v0 → sem_inv a v0 st → rtc (sem_step a) st st' →
  passed st'.2 ≤ v0 + ups st'.2 ∧ sem_inv a v0 st'.
Proof.
  intros Hv0 Hinv Hrtc. assert (sem_inv a v0 st') as Hinv'.
  { revert Hinv. induction Hrtc as [st|st1 st2 st3 Hstep _ IH]; [done|].
    intros Hinv. apply IH. by eapply sem_inv_step. }
  split; [|done]. by destruct Hinv' as (x & _ & _ & _ & _ & ?).
Qed.

Definition demo_sem (v : Z) : kstate :=
  demo_state <| semaphores := <[32 := Semaphore v 1]> ∅ |>.

Lemma semaphore_safety_witness :
  sem_inv 32 1 (demo_sem 1, SemCount 0 0 0) ∧
  ∃ st, rtc (sem_step 32) (demo_sem 1, SemCount 0 0 0) st ∧ passed st.2 = 1 ∧
    passed st.2 ≤ 1 + ups st.2.
Proof.
  assert (sem_inv 32 1 (demo_sem 1, SemCount 0 0 0)) as Hinv.
  { exists (Semaphore 1 1). split; [done|]. simpl. lia. }
  split; [done|]. exists (demo_sem 1 <| semaphores ::= <[32 := Semaphore 0 1]> |>, SemCount 0 1 1).
  assert (sem_step 32 (demo_sem 1, SemCount 0 0 0)
    (demo_sem 1 <| semaphores ::= <[32 := Semaphore 0 1]> |>, SemCount 0 1 1)) as Hstep.
  { apply (step_down 32 _ _ (Semaphore 1 1) Done (SemCount 0 0 0)); done. }
  split_and!; [by apply rtc_once|done|].
  by apply (semaphore_safety 32 1 _ _ ltac:(lia) Hinv), rtc_once.
Defined.

(** With two or more waiters a unit is wasted.  [do_semaphore_up] raises a
    value of -2 or less to one that still is negative and makes one waiter
    runnable; that waiter tests the value again and goes back to sleep, so as
    long as nobody else calls up, no caller of down returns. *)
Theorem semaphore_up_wasted s Q a x :
  sched_wf s Q → semaphores s !! a = Some x → - 2 ^ 31 < value x ≤ -2 →
  ∃ s1 Q1 r rest, do_semaphore_up s a = Ok s1 ∧ sched_wf s1 Q1 ∧
    first_live s (Q (QSem a)) r rest ∧
    (∀ p, r = Some p → ∃ xp, aget (pcb s1) p = Ok xp ∧ p ∈ Q1 (QReady (priority xp))) ∧
    ∀ s2 c s3, semaphores s2 !! a = semaphores s1 !! a → semaphore_wait s2 a = Ok (c, s3) →
      c = InDown a.
Proof.
  intros Hwf Hx Hv. set (x' := x <| value := value x + 1 |>).
  destruct (do_unblock_one_lemma (set_sem s a x') Q (QSem a)) as (s1 & Q1 & r & rest & Hu & Hwf1 &
    Hl & _ & Hr); [by apply (same_sched_wf s)|].
  assert (do_semaphore_up s a = Ok s1) as Hup.
  { unfold do_semaphore_up, get_sem. rewrite Hx, bind_Ok, i32_small by lia.
    destruct (Z.leb_spec (value x + 1) 0); [done|lia]. }
  exists s1, Q1, r, rest. split_and!; [done|done|by apply (same_sched_live s (set_sem s a x'))| |].
  - intros p ->. destruct (woken_self _ _ _ _ _ Hr) as (xp & Hxp & _ & Hin). eauto.
  - intros s2 c s3 H2 Hw. destruct (semaphore_up_value _ _ _ _ Hup Hx) as (y & Hy & Hvy).
    rewrite i32_small in Hvy by lia. rewrite <- H2 in Hy.
    destruct (semaphore_wait_value _ _ _ _ _ Hw Hy) as [_ ->].
    destruct (Z.ltb_spec (value y) 0); [done|lia].
Qed.

Lemma semaphore_up_wasted_witness :
  sched_wf (demo_sem (-2)) demo_queues ∧
  ∃ s1, do_semaphore_up (demo_sem (-2)) 32 = Ok s1 ∧
    ∀ c s3, semaphore_wait s1 32 = Ok (c, s3) → c = InDown 32.
Proof.
  assert (sched_wf (demo_sem (-2)) demo_queues) as Hwf
    by (by apply (same_sched_wf demo_state); [|apply demo_wf]).
  split; [done|].
  destruct (semaphore_up_wasted (demo_sem (-2)) demo_queues 32 (Semaphore (-2) 1) Hwf)
    as (s1 & Q1 & r & rest & Hs & _ & _ & _ & Hw); [done|simpl; lia|].
  exists s1. split; [done|]. intros c s3. by apply Hw.
Defined.

(** ** Condition variables and barriers *)

(** [do_condition_wait], up to its switch: the lock is free and its first
    live waiter runnable, and the caller is blocked, in the queue of the
    condition: no signal can come between the release and the wait. *)
Theorem condition_wait_correct s Q l a m c x :
  sched_wf s Q → current_running s = Some c → aget (pcb s) c = Ok x → unqueued Q c →
  mutexes s !! l = Some m →
  ∃ s1 Q1 x1 s', do_condition_wait s l a = Ok (InWait a l, s') ∧ scheduler s1 = Ok s' ∧
    sched_wf s1 Q1 ∧ current_ok s1 Q1 c x1 ∧ status x1 = TASK_BLOCKED ∧ c ∈ Q1 (QCond a) ∧
    mutexes s' = <[l := m <| m_status := UNLOCKED |>]> (mutexes s).
Proof.
  intros Hwf Hc Hx Hun Hm.
  destruct (release_spec s Q l m c x Hwf Hc Hx Hm)
    as (s0 & s1 & Q1 & r & rest & Hrel & Hwf1 & Hc1 & Hm1 & Hx0 & _ & Hl & Hr).
  assert (unqueued Q1 c ∧ ∃ x1, aget (pcb s1) c = Ok x1) as (Hun1 & x1 & Hx1).
  { destruct r as [p|].
    - destruct (first_live_valid _ _ _ _ _ Hwf Hl) as (Hp & Hin & _ & _ & Hrest & _).
      destruct (woken_queues _ _ _ _ _ Hr) as (_ & Hq & _). split.
      + intros q [Hcq| ->]%Hq; [|by apply (Hun (QLock l))].
        unfold qset in Hcq. case_decide; [apply (Hun (QLock l)); by apply Hrest|by apply (Hun q)].
      + rewrite (woken_others _ _ _ _ _ c Hr); [eauto| |done]. intros ->. by apply (Hun (QLock l)).
    - destruct Hr as [Hq Hp]. split; [|rewrite Hp; eauto].
      intros q. rewrite Hq. unfold qset. case_decide; [set_solver|apply Hun]. }
  destruct (do_block_lemma s1 Q1 (QCond a) c x1 Hwf1 Hc1 Hx1) as (s2 & Hb & Hwf2 & Hc2);
    [by intros q ?%Hun1|done|done|].
  destruct (scheduler_spec s2 _ c _ Hwf2 Hc2) as (s' & _ & _ & _ & _ & Hs & _).
  rewrite Hs in Hb. exists s2, (qset Q1 (QCond a) (joined (Q1 (QCond a)) c)),
    (x1 <| status := TASK_BLOCKED |>), s'.
  split; [by unfold do_condition_wait; rewrite Hrel, bind_Ok, Hb|].
  do 3 (split; [done|]). split; [done|]. split.
  - rewrite qset_eq. apply elem_of_joined.
  - apply do_block_frame in Hb. by rewrite (sy_mutexes _ _ Hb).
Qed.

Lemma condition_wait_correct_witness :
  sched_wf (demo_locks LOCKED) demo_queues ∧
  ∃ s', do_condition_wait (demo_locks LOCKED) 16 48 = Ok (InWait 48 16, s').
Proof.
  split; [apply demo_locks_wf|].
  destruct (condition_wait_correct (demo_locks LOCKED) demo_queues 16 48 (Mutex LOCKED 1 0) 0
    (no_pcb 0 <| status := TASK_RUNNING |>)) as (s1 & Q1 & x1 & s' & Hs & _);
    [apply demo_locks_wf|done|done|by apply demo_current|done|]. by exists s'.
Defined.

(** [do_barrier_wait]: a caller that is not the last one is blocked in the
    queue of the barrier, with one more arrival counted; the last one resets
    the count, empties the queue and makes all who waited runnable. *)
Theorem barrier_wait_correct s Q a b c x :
  sched_wf s Q → current_running s = Some c → aget (pcb s) c = Ok x → unqueued Q c →
  barriers s !! a = Some b → 0 ≤ cur_val b < 2 ^ 31 - 1 →
  if cur_val b + 1 <? bound b then
    ∃ s1 s', do_barrier_wait s a = Ok (InBarrier a, s') ∧ scheduler s1 = Ok s' ∧
      sched_wf s1 (qset Q (QBarrier a) (Q (QBarrier a) ++ [c])) ∧
      barriers s' !! a = Some (b <| cur_val := cur_val b + 1 |>)
  else
    ∃ s' Q', do_barrier_wait s a = Ok (Done, s') ∧ sched_wf s' Q' ∧
      all_woken s Q (QBarrier a) s' Q' ∧ barriers s' !! a = Some (b <| cur_val := 0 |>).
Proof.
  intros Hwf Hc Hx Hun Hb Hv. unfold do_barrier_wait, get_barrier.
  rewrite Hb, bind_Ok, i32_small by lia. set (v := cur_val b + 1).
  set (s1 := set_barrier s a (b <| cur_val := v |>)).
  assert (sched_wf s1 Q) as Hwf1 by (by apply (same_sched_wf s)).
  destruct (v <? bound b).
  - destruct (do_block_lemma s1 Q (QBarrier a) c x) as (s2 & Hbl & Hwf2 & Hc2);
      [done..|by intros q ?%Hun|done|done|].
    destruct (scheduler_spec s2 _ c _ Hwf2 Hc2) as (s' & _ & _ & _ & _ & Hs & _).
    rewrite Hs in Hbl. rewrite Hbl, bind_Ok. exists s2, s'.
    rewrite joined_notin in Hwf2 by apply Hun. split_and!; [done..|].
    apply do_block_frame in Hbl. rewrite (sy_barriers _ _ Hbl). apply lookup_insert_eq.
  - set (s2 := set_barrier s1 a (b <| cur_val := 0 |>)).
    destruct (unblock_loop_spec (queue_fuel s2) s2 Q (QBarrier a)) as (s' & Q' & Hu & Hwf' & Haw).
    { by apply (same_sched_wf s). } { done. }
    { unfold queue_fuel. pose proof (queue_rep_length _ _ _ (wf_queue _ _ (wf_queues _ _ Hwf1)
        (QBarrier a))). simpl in *. lia. }
    fold (do_unblock_all s2 (QBarrier a)) in Hu. rewrite Hu, bind_Ok. exists s', Q'.
    split_and!; [done|done| |].
    + destruct Haw as [H1 H2 H3 H4 H5 H6 H7]. by split.
    + apply do_unblock_all_frame in Hu. rewrite (sy_barriers _ _ Hu). apply lookup_insert_eq.
Qed.

Lemma barrier_wait_correct_witness :
  let s := demo_state <| barriers := <[64 := Barrier 0 1 2]> ∅ |> in
  sched_wf s demo_queues ∧ ∃ s', do_barrier_wait s 64 = Ok (Done, s').
Proof.
  intros s. assert (sched_wf s demo_queues) as Hwf
    by (by apply (same_sched_wf demo_state); [|apply demo_wf]).
  split; [done|].
  destruct (barrier_wait_correct s demo_queues 64 (Barrier 0 1 2) 0
    (no_pcb 0 <| status := TASK_RUNNING |>) Hwf) as (s' & Q' & Hs & _);
    [done|done|by apply demo_current|done|simpl; lia|]. by exists s'.
Defined.
