(* ===== verification/Process.v ===== *)
(** * Processes: the rest of [kernel/sched/sched.c], [kernel/sched/time.c] and the
    boot-time initialisation of [init/main.c]

    Creation, exit, waiting and killing, and the time interrupt.  [do_waitpid]
    gives the processor away in tail position, as [do_block] does; [do_exit]
    ends with the switch.  [screen_reflush] and the kernel's messages are
    recorded in [klog]. *)

From S2P Require Import Prelude CString Printk Queue Kstate Sched Moves Lock.

(** ** Looking processes up *)

Definition get_proc_by_pid (s : kstate) (p : pid) : outcome (option pid) :=
  if (p <? 0) || (NUM_MAX_TASK <=? p) then Ok None
  else
    x ← aget (pcb s) p;
    if decide (status x = TASK_RUNNING ∨ status x = TASK_BLOCKED ∨ status x = TASK_READY)
    then Ok (Some p) else Ok None.

(** The address of an entry point; [find_entry] is the loop of [do_get_pid]. *)
Definition do_get_pid (s : kstate) (entry : Z) : outcome Z :=
  r ← for_range 0 NUM_MAX_TASK (λ i r,
        match r with
        | Some _ => Ok r
        | None => x ← aget (pcb s) i;
                  Ok (if entry_point x =? entry then Some (p_pid x) else None)
        end) None;
  Ok (default INVALID_PID r).

(** ** Entries of the process table *)

(** It leaves [cp0_epc] alone. *)
Definition reset_reg_context (r : regs_context_t) : regs_context_t :=
  r <| regs := replicate 32 0 |> <| cp0_badvaddr := 0 |> <| cp0_cause := 0 |>
    <| cp0_status := 0 |> <| hi := 0 |> <| lo := 0 |> <| pc := 0 |>.

(** [regs[29] = regs[30] = v] *)
Definition set_stack_regs (r : regs_context_t) (v : Z) : outcome regs_context_t :=
  l ← aset (regs r) 30 v;
  l ← aset l 29 v;
  Ok (r <| regs := l |>).

Definition reset_entry (x : pcb_t) : pcb_t :=
  x <| kernel_stack_top := 0 |> <| user_stack_top := 0 |> <| cursor_x := 0 |>
    <| type := USER_PROCESS |> <| status := TASK_CREATE |> <| p_pid := 0 |>
    <| awake_time := u32 (-1) |> <| name := str "unkown" |> <| entry_point := 0 |>
    <| priority := 1 |> <| locks := replicate 8 None |>
    <| kernel_context ::= reset_reg_context |> <| user_context ::= reset_reg_context |>.

Definition reset_pcb (s : kstate) (p : pid) : outcome kstate :=
  s ← upd_proc s (Some p) reset_entry;
  lk ← aset (plinks s) p (Link None None);
  Ok (s <| plinks := lk |> <| queues ::= <[QProc p := Queue None None]> |>).

(** [upd_proc] with an update that can fail. *)
Definition upd_proc_m (s : kstate) (p : option pid) (f : pcb_t → outcome pcb_t) :
    outcome kstate :=
  i ← deref p;
  x ← aget (pcb s) i;
  x ← f x;
  t ← aset (pcb s) i x;
  Ok (s <| pcb := t |>).

(** Both stack pointers of both contexts back to the tops of the stacks. *)
Definition rewind_stacks (x : pcb_t) : outcome pcb_t :=
  k ← set_stack_regs (kernel_context x) (kernel_stack_top x);
  u ← set_stack_regs (user_context x) (user_stack_top x);
  Ok (x <| kernel_context := k |> <| user_context := u |>).

(** ** Creation *)

(** The first entry that is free. *)
Definition find_free (s : kstate) : outcome (option pid) :=
  for_range 0 NUM_MAX_TASK (λ i r,
    match r with
    | Some _ => Ok r
    | None => x ← aget (pcb s) i;
              Ok (if decide (status x = TASK_CREATE ∨ status x = TASK_EXITED)
                  then Some i else None)
    end) None.

Definition create_proc_with_priority (s : kstate) (prio : Z) : outcome (option pid * kstate) :=
  let prio := clamp_priority (u32 prio) in
  ret ← find_free s;
  s ← (match ret with
       | None => Ok s
       | Some i =>
           upd_proc_m s ret (λ x,
             rewind_stacks (x <| p_pid := i |> <| status := TASK_READY |> <| priority := prio |>))
       end);
  s ← increase_priority_upper_bound s prio;
  Ok (ret, s).

Definition create_proc (s : kstate) : outcome (option pid * kstate) :=
  create_proc_with_priority s 1.

Record task_info_t := TaskInfo {
  task_name : bytes;
  task_entry_point : Z;
  task_type : task_type_t;
}.

Section spawn.
(** The address of [exception_handler_exit] (entry.S). *)
Context (exception_handler_exit : Z).

(** The fields of the new entry: lines 452-458. *)
Definition fill_entry (s : kstate) (task : task_info_t) (x : pcb_t) : outcome pcb_t :=
  l ← aset (regs (kernel_context x)) 31 exception_handler_exit;
  Ok (x <| entry_point := task_entry_point task |> <| type := task_type task |>
        <| kernel_context ::= λ k, k <| regs := l |> |>
        <| user_context ::= λ u, u <| cp0_epc := task_entry_point task |> |>
        <| name := task_name task |>
        <| cursor_x := screen_cursor_x s |> <| cursor_y := screen_cursor_y s |>).

(** The arguments of the new process are read but not used. *)
Definition do_spawn_with_priority (s : kstate) (task : task_info_t) (prio : Z) :
    outcome kstate :=
  '(tmp, s) ← create_proc_with_priority s prio;
  match tmp with
  | None => Ok s
  | Some p =>
      q ← ready_q prio;
      s ← k_push s q p;
      upd_proc_m s tmp (fill_entry s task)
  end.

Definition do_spawn (s : kstate) (task : task_info_t) : outcome kstate :=
  do_spawn_with_priority s task 1.

(** [test_tasks] is the table of [test/test.c]. *)
Definition do_exec (test_tasks : list task_info_t) (s : kstate) (task_id : Z) :
    outcome kstate :=
  if (task_id <? 0) || (Z.of_nat (length test_tasks) <=? task_id) then Ok s
  else t ← aget test_tasks task_id; do_spawn s t.

(** [init_pready_queue] and [init_pcb]; [shell] is the address of the shell's
    entry point. *)
Definition init_pready_queue (s : kstate) : outcome kstate :=
  for_range 0 MAX_PRIORITY_NUM (λ i s,
    c ← aset (ready_counter s) i 0;
    b ← aset (ready_bound s) i 0;
    Ok (s <| ready_counter := c |> <| ready_bound := b |>)) s.

Definition STK_UNMAPPED_BASE : Z := 0xa0f00000.
Definition STK_MAX_OCC : Z := 16 * 1024.

Definition init_entry (i : Z) (s : kstate) : outcome kstate :=
  s ← reset_pcb s i;
  upd_proc_m s (Some i) (λ x,
    rewind_stacks
      (x <| kernel_stack_top := u32 (STK_UNMAPPED_BASE - i * STK_MAX_OCC) |>
         <| user_stack_top :=
              u32 (STK_UNMAPPED_BASE - NUM_MAX_TASK * STK_MAX_OCC - i * STK_MAX_OCC) |>)).

Definition init_pcb (shell : Z) (s : kstate) : outcome kstate :=
  s ← for_range 0 NUM_MAX_TASK init_entry s;
  let s := s <| current_running := None |> in
  '(tmp, s) ← create_proc_with_priority s 0;
  s ← (match tmp with
       | None => Ok s
       | Some _ =>
           upd_proc (s <| current_running := tmp |>) tmp
             (λ x, x <| type := KERNEL_PROCESS |> <| name := str "kernel" |>)
       end);
  do_spawn_with_priority s (TaskInfo (str "shell") shell USER_PROCESS) 0.
End spawn.

(** ** Exit and kill *)

(** What both do to the entry of the process. *)
Definition clear_entry (x : pcb_t) : outcome pcb_t :=
  let x := x <| user_context ::= reset_reg_context |>
             <| kernel_context ::= reset_reg_context |> <| awake_time := u32 (-1) |> in
  x ← rewind_stacks x;
  Ok (x <| status := TASK_EXITED |> <| entry_point := 0 |> <| name := str "unknown" |>
        <| priority := 1 |>).

(** The loop that releases the locks of [p]; [do_mutex_lock_release] looks them
    up in the table of the running process. *)
Definition release_locks (s : kstate) (p : option pid) : outcome kstate :=
  for_range 0 MAX_LOCK_NUM_FOR_A_PROC (λ i s,
    x ← get_pcb s p;
    l ← aget (locks x) i;
    match l with
    | None => Ok s
    | Some lock =>
        s ← do_mutex_lock_release s lock;
        upd_proc_m s p (λ x, ls ← aset (locks x) i None; Ok (x <| locks := ls |>))
    end) s.

(** The loop that wakes the processes waiting for [p]. *)
Fixpoint wake_waiters (fuel : nat) (s : kstate) (p : pid) : outcome kstate :=
  match fuel with
  | O => OutOfFuel
  | S fuel =>
      '(cur, s) ← k_dequeue s (QProc p);
      match cur with
      | None => Ok s
      | Some _ =>
          x ← get_pcb s cur;
          s ← (if decide (status x = TASK_EXITED) then Ok s
               else s ← upd_proc s cur (λ x, x <| status := TASK_RUNNING |>);
                    invoke_blocked_proc s cur);
          wake_waiters fuel s p
      end
  end.

(** The common part of [do_exit] and [do_kill]. *)
Definition terminate (s : kstate) (p : option pid) : outcome kstate :=
  s ← upd_proc_m s p clear_entry;
  s ← release_locks s p;
  i ← deref p;
  s ← wake_waiters (queue_fuel s) s i;
  x ← get_pcb s p;
  s ← decrease_priority_upper_bound s (priority x);
  Ok (say s Screen_reflush).

Definition do_exit (s : kstate) : outcome kstate :=
  s ← terminate s (current_running s);
  do_scheduler s.

(** The format has quotes (34) around the name. *)
Definition kill_format : bytes :=
  str "Kill process " ++ [34] ++ str "%s" ++ [34] ++ cstr " whose pid = %d.
".

Definition do_kill (s : kstate) (p : Z) : outcome kstate :=
  proc ← get_proc_by_pid s p;
  match proc with
  | None => Ok (say s (Printks (cstr "Invalid pid.
Do nothing.
") []))
  | Some i =>
      x ← get_pcb s proc;
      if decide (type x = KERNEL_PROCESS) then
        Ok (say s (Printks (cstr "Cannot kill a kernel process.
") []))
      else
        let s := say s (Printks kill_format [ArgStr (name x ++ [0]); ArgInt (p_pid x)]) in
        terminate s proc
  end.

Definition do_waitpid (s : kstate) (p : Z) : outcome kstate :=
  if (p <=? 0) || (NUM_MAX_TASK <? p) then Ok s
  else
    proc ← get_proc_by_pid s p;
    match proc with
    | None => Ok s
    | Some i => do_block s (QProc i)
    end.

(** ** Listing *)

(** [status] is uninitialised for a blocked process. *)
Definition do_print_proc_info (s : kstate) (p : option pid) : outcome kstate :=
  x ← get_pcb s p;
  st ← (match status x with
        | TASK_READY => Ok (cstr "ready")
        | TASK_RUNNING => Ok (cstr "running")
        | TASK_EXITED => Ok (cstr "exited")
        | _ => Fault Uninitialised
        end);
  Ok (say s (Printks (str "PID: %d" ++ [9] ++ str "NAME: %s" ++ [9] ++ str "PRIORITY: %d" ++
                      [9] ++ cstr "STATUS: %s
") [ArgInt (p_pid x); ArgStr (name x ++ [0]); ArgInt (priority x); ArgStr st])).

(** The loop over one queue, [cur = cur->next]. *)
Fixpoint ps_queue (fuel : nat) (s : kstate) (cur : option pid) (cnt : Z) :
    outcome (Z * kstate) :=
  match fuel with
  | O => OutOfFuel
  | S fuel =>
      match cur with
      | None => Ok (cnt, s)
      | Some _ =>
          s ← do_print_proc_info (say s (Printks (cstr "[%d] ") [ArgInt cnt])) cur;
          n ← get_next (plinks s) cur;
          ps_queue fuel s n (i32 (cnt + 1))
      end
  end.

Definition do_ps (s : kstate) : outcome kstate :=
  let s := say s (Printks (cstr "[PROCESS TABLE]
") []) in
  let s := say s (Printks (cstr "[%d] ") [ArgInt 0]) in
  s ← do_print_proc_info s (current_running s);
  '(_, s) ← for_range 0 MAX_PRIORITY_NUM (λ i '(cnt, s),
     ps_queue (queue_fuel s) s (head (get_queue s (QReady i))) cnt) (1, s);
  Ok s.

(** ** Time and interrupts: [kernel/sched/time.c], [kernel/irq/irq.c] *)

Definition MHZ : Z := 300.

(** [count] is the value of the CP0 count register. *)
Definition update_time_stamp (s : kstate) (count : Z) : kstate :=
  let ms_cnt := MHZ * 1000 / 2 in
  s <| time_elapsed := u32 (time_elapsed s + Z.quot (i32 count) ms_cnt) |>.

Definition get_timer (s : kstate) : Z := time_elapsed s.
Definition get_timer_in_sec (s : kstate) : Z := get_timer s / 1000.

(** The loop of [latency]: [clock i] is what the [i]-th call of [get_timer]
    returns, between which interrupts move [time_elapsed] on.  The result is the
    number of calls made. *)
Fixpoint latency_loop (fuel : nat) (clock : nat → Z) (begin_time time : Z) (i : nat) : outcome nat :=
  match fuel with
  | O => OutOfFuel
  | S fuel =>
      if u32 (clock i - begin_time) <? time then latency_loop fuel clock begin_time time (S i)
      else Ok (S i)
  end.
Definition latency (fuel : nat) (clock : nat → Z) (time : Z) : outcome nat :=
  latency_loop fuel clock (clock O) time 1.

(** [irq_timer] up to the switch in [do_scheduler]: another process may run then. *)
Definition irq_timer (s : kstate) : outcome kstate := do_scheduler (say s Screen_reflush).

(** What it does when the interrupted process is selected again; the registers
    that it then sets are outside the model. *)
Definition irq_timer_rest (s : kstate) (count : Z) : kstate := update_time_stamp s count.

(** [int_sr] is the interrupt status register, [handler] is [mac_int_handler]. *)
Definition irq_device (handler : option (kstate → outcome kstate)) (int_sr : Z) (s : kstate) :
    outcome kstate :=
  if negb (Z.land int_sr 0x8 =? 0) then
    match handler with
    | Some h => h s
    | None => Ok (say s (Printk (cstr "[ERROR] Uinitialized mac irq handler") []))
    end
  else Ok s.

Definition pending_interrupts (cp0_status cause : Z) : Z :=
  Z.land (Z.shiftr (Z.land cause cp0_status) 8) 255.

(** The second test of [interrupt_helper]. *)
Definition helper_device (handler : option (kstate → outcome kstate)) (int_sr ip : Z) (s : kstate) :
    outcome kstate :=
  if negb (Z.land ip 8 =? 0) then irq_device handler int_sr s else Ok s.

(** [interrupt_helper] up to the switch; the first result is the interrupts with
    which the process goes on in [interrupt_helper_rest], when there is one. *)
Definition interrupt_helper (handler : option (kstate → outcome kstate))
    (int_sr : Z) (s : kstate) (cp0_status cause : Z) : outcome (option Z * kstate) :=
  let ip := pending_interrupts cp0_status cause in
  if negb (Z.land ip 128 =? 0) then s ← irq_timer s; Ok (Some ip, s)
  else s ← helper_device handler int_sr ip s; Ok (None, s).

(** After the switch back: [handler], [int_sr] and [count] are what is there then. *)
Definition interrupt_helper_rest (handler : option (kstate → outcome kstate))
    (int_sr count ip : Z) (s : kstate) : outcome kstate :=
  helper_device handler int_sr ip (irq_timer_rest s count).

#[global] Arguments terminate : simpl never.
#[global] Arguments clear_entry : simpl never.
#[global] Arguments rewind_stacks : simpl never.
#[global] Arguments create_proc_with_priority : simpl never.

(** ** Finding a free entry *)

Definition free_status (x : pcb_t) : Prop := status x = TASK_CREATE ∨ status x = TASK_EXITED.

#[export] Instance free_status_dec x : Decision (free_status x).
Proof. unfold free_status. apply _. Defined.

(** [r] is the first free entry of the table. *)
Definition first_free (s : kstate) (hi : Z) (r : option pid) : Prop :=
  match r with
  | Some i => 0 ≤ i < hi ∧ (∃ x, aget (pcb s) i = Ok x ∧ free_status x) ∧
      ∀ j x, 0 ≤ j < i → aget (pcb s) j = Ok x → ¬ free_status x
  | None => ∀ j x, 0 ≤ j < hi → aget (pcb s) j = Ok x → ¬ free_status x
  end.

(** The first free entry of a table is the one that is free when no entry
    before it is. *)
Lemma first_free_at s i r x :
  0 ≤ i < NUM_MAX_TASK → aget (pcb s) i = Ok x → free_status x →
  (∀ j y, 0 ≤ j < i → aget (pcb s) j = Ok y → ¬ free_status y) →
  first_free s NUM_MAX_TASK r → r = Some i.
Proof.
  intros Hi Hx Hf Hbefore Hr. destruct r as [k|]; [|by destruct (Hr i x)].
  destruct Hr as (Hk & (y & Hy & Hfy) & Hmin). f_equal.
  destruct (Z.lt_trichotomy k i) as [?|[?|?]]; [|done|].
  - exfalso. apply (Hbefore k y); [lia|done|done].
  - exfalso. apply (Hmin i x); [lia|done|done].
Qed.

Lemma find_free_spec s :
  Z.of_nat (length (pcb s)) = NUM_MAX_TASK →
  ∃ r, find_free s = Ok r ∧ first_free s NUM_MAX_TASK r.
Proof.
  intros Hlen. apply for_range_inv with (P := λ i r, first_free s i r).
  - done.
  - intros j x Hj. lia.
  - intros i r Hi Hr. destruct r as [j|].
    + exists (Some j). destruct Hr as (? & ? & ?). split; [done|]. split_and!; [lia|lia|done..].
    + destruct (aget_total (pcb s) i) as [x Hx]; [lia|]. rewrite Hx, bind_Ok.
      eexists. split; [done|]. fold (free_status x). destruct (decide (free_status x)) as [Hf|Hf].
      * split_and!; [lia|lia|by exists x|]. intros j y Hj. apply Hr. lia.
      * intros j y Hj Hy. destruct (decide (j = i)) as [->|]; [congruence|].
        apply (Hr j); [lia|done].
Qed.

(** ** Updates that can fail *)

Lemma upd_proc_m_spec s Q p x f y :
  sched_wf s Q → aget (pcb s) p = Ok x → f x = Ok y →
  0 ≤ priority y < MAX_PRIORITY_NUM → waiting_desc y = waiting_desc x →
  ∃ s', upd_proc_m s (Some p) f = Ok s' ∧ sched_wf s' Q ∧
    s' = s <| pcb := <[Z.to_nat p := y]> (pcb s) |> ∧ aget (pcb s') p = Ok y.
Proof.
  intros Hwf Hx Hf Hp Hw. pose proof (aget_bound _ _ _ Hx) as Hb.
  unfold upd_proc_m. simpl. rewrite Hx, bind_Ok, Hf, bind_Ok, aset_total, bind_Ok by done.
  eexists. split; [done|]. split; [|split; [done|by apply aget_insert_eq]].
  destruct Hwf as [[H1 H2 H3] H4 H5 H6 H7 H8 H9].
  split; simpl; [by split|by rewrite length_insert|done|done|done| |].
  - intros p' z. destruct (decide (p' = p)) as [->|].
    + rewrite aget_insert_eq by done. by intros [= <-].
    + rewrite aget_insert_ne by lia. apply H8.
  - intros p' z Hp'. destruct (decide (p' = p)) as [->|].
    + rewrite aget_insert_eq by done. intros [= <-]. rewrite Hw. by apply (H9 p).
    + rewrite aget_insert_ne by lia. by apply H9.
Qed.

(** Both register files have their 32 entries. *)
Definition regs_ok (x : pcb_t) : Prop :=
  length (regs (kernel_context x)) = 32%nat ∧ length (regs (user_context x)) = 32%nat.

(** The entry with rewound stack pointers. *)
Definition rewound (x : pcb_t) : pcb_t :=
  x <| kernel_context ::= λ k,
         k <| regs ::= λ l, <[29%nat := kernel_stack_top x]> (<[30%nat := kernel_stack_top x]> l) |> |>
    <| user_context ::= λ u,
         u <| regs ::= λ l, <[29%nat := user_stack_top x]> (<[30%nat := user_stack_top x]> l) |> |>.

Lemma set_stack_regs_spec r v :
  length (regs r) = 32%nat →
  set_stack_regs r v = Ok (r <| regs ::= λ l, <[29%nat := v]> (<[30%nat := v]> l) |>).
Proof.
  intros H. unfold set_stack_regs. rewrite aset_total, bind_Ok by (rewrite H; lia).
  rewrite aset_total, bind_Ok by (rewrite length_insert, H; lia). done.
Qed.

Lemma rewind_stacks_spec x : regs_ok x → rewind_stacks x = Ok (rewound x).
Proof.
  intros [H1 H2]. unfold rewind_stacks.
  by rewrite !set_stack_regs_spec, !bind_Ok by (done || by rewrite H2).
Qed.

Lemma rewound_regs x : regs_ok x → regs_ok (rewound x).
Proof. intros [H1 H2]. split; simpl; by rewrite !length_insert. Qed.

(** ** Creation *)

Definition created (x : pcb_t) (i prio : Z) : pcb_t :=
  rewound (x <| p_pid := i |> <| status := TASK_READY |> <| priority := prio |>).

Lemma create_proc_spec s Q prio :
  sched_wf s Q → 0 ≤ prio < 2 ^ 32 → (∀ p x, aget (pcb s) p = Ok x → regs_ok x) →
  ∃ r s', create_proc_with_priority s prio = Ok (r, s') ∧ sched_wf s' Q ∧
    first_free s NUM_MAX_TASK r ∧ plinks s' = plinks s ∧ queues s' = queues s ∧
    current_running s' = current_running s ∧
    match r with
    | None => pcb s' = pcb s
    | Some i => ∃ x, aget (pcb s) i = Ok x ∧
        pcb s' = <[Z.to_nat i := created x i (clamp_priority prio)]> (pcb s)
    end.
Proof.
  intros Hwf Hprio Hregs. unfold create_proc_with_priority. rewrite u32_small by lia.
  destruct (find_free_spec s (wf_pcb _ _ Hwf)) as (r & -> & Hr). rewrite bind_Ok.
  pose proof (clamp_priority_range prio ltac:(lia)) as Hc.
  destruct r as [i|].
  - destruct Hr as (Hi & (x & Hx & Hfree) & Hmin).
    destruct (upd_proc_m_spec s Q i x (λ x, rewind_stacks (x <| p_pid := i |>
      <| status := TASK_READY |> <| priority := clamp_priority prio |>))
      (created x i (clamp_priority prio)) Hwf Hx) as (s1 & -> & Hwf1 & Hs1 & _).
    { apply rewind_stacks_spec. destruct (Hregs _ _ Hx). by split. }
    { done. } { done. }
    rewrite bind_Ok. destruct (increase_spec s1 Q (clamp_priority prio) Hwf1) as (t & -> & Hwf2);
      [lia|]. rewrite bind_Ok. eexists (Some i), _. split; [done|]. split; [done|].
    split; [split_and!; [lia|lia|by exists x|done]|].
    rewrite Hs1. split_and!; [done..|]. by exists x.
  - rewrite bind_Ok. destruct (increase_spec s Q (clamp_priority prio) Hwf) as (t & -> & Hwf2);
      [lia|]. rewrite bind_Ok. eexists None, _. split; [done|]. done.
Qed.

(** [create_proc_with_priority] takes the first entry whose process has
    exited or was never created: its pid is its index, it is ready, its
    priority is the argument limited to the highest one, and its stack pointers
    are at the tops of its stacks.  The queues and all other entries keep their
    content; with no free entry the table is unchanged. *)
Lemma create_proc_correct s Q prio :
  sched_wf s Q → 0 ≤ prio < 2 ^ 32 → (∀ p x, aget (pcb s) p = Ok x → regs_ok x) →
  ∃ r s', create_proc_with_priority s prio = Ok (r, s') ∧ sched_wf s' Q ∧
    first_free s NUM_MAX_TASK r ∧ current_running s' = current_running s ∧
    match r with
    | None => pcb s' = pcb s
    | Some i => ∃ x y, aget (pcb s) i = Ok x ∧ aget (pcb s') i = Ok y ∧
        p_pid y = i ∧ status y = TASK_READY ∧
        priority y = (if MAX_PRIORITY_NUM <=? prio then MAX_PRIORITY_NUM - 1 else prio) ∧
        regs (user_context y) !! 29%nat = Some (user_stack_top x) ∧
        regs (kernel_context y) !! 29%nat = Some (kernel_stack_top x) ∧
        ∀ p, p ≠ i → aget (pcb s') p = aget (pcb s) p
    end.
Proof.
  intros Hwf Hprio Hregs.
  destruct (create_proc_spec s Q prio Hwf Hprio Hregs) as (r & s' & H1 & H2 & H3 & _ & _ & H4 & H5).
  exists r, s'. split_and!; [done..|]. destruct r as [i|]; [|done].
  destruct H5 as (x & Hx & Hs'). pose proof (aget_bound _ _ _ Hx).
  exists x, (created x i (clamp_priority prio)). rewrite Hs'.
  destruct (Hregs _ _ Hx) as [Hk Hu].
  split_and!; [done|by apply aget_insert_eq|done|done|done| | |].
  - simpl. apply list_lookup_insert_eq. rewrite length_insert, Hu. lia.
  - simpl. apply list_lookup_insert_eq. rewrite length_insert, Hk. lia.
  - intros p Hp. by apply aget_insert_ne; lia.
Qed.

Lemma demo_regs p x : aget (pcb demo_state) p = Ok x → regs_ok x.
Proof.
  intros [_ Hx]%aget_Ok. apply list_elem_of_lookup_2 in Hx. rewrite list_elem_of_In in Hx.
  simpl in Hx. repeat (destruct Hx as [<-|Hx]; [done|]). done.
Qed.

(** ** Spawning *)

Section spawn_spec.
Context (exit_addr : Z).

Lemma fill_entry_spec s task x :
  regs_ok x →
  ∃ y, fill_entry exit_addr s task x = Ok y ∧ priority y = priority x ∧
    waiting_desc y = waiting_desc x ∧ (status y = status x ∧ p_pid y = p_pid x) ∧
    cp0_epc (user_context y) = task_entry_point task ∧
    entry_point y = task_entry_point task ∧ name y = task_name task ∧
    regs (kernel_context y) !! 31%nat = Some exit_addr ∧
    regs (user_context y) = regs (user_context x) ∧ user_stack_top y = user_stack_top x.
Proof.
  intros [Hk Hu]. unfold fill_entry. rewrite aset_total, bind_Ok by (rewrite Hk; lia).
  eexists. split; [done|]. simpl. split_and!; [done..| |done|done].
  apply list_lookup_insert_eq. by rewrite Hk; lia.
Qed.

Lemma spawn_spec s Q task prio :
  sched_wf s Q → 0 ≤ prio < MAX_PRIORITY_NUM →
  (∀ p x, aget (pcb s) p = Ok x → regs_ok x) →
  (∀ i, first_free s NUM_MAX_TASK (Some i) → unqueued Q i) →
  ∃ r s', do_spawn_with_priority exit_addr s task prio = Ok s' ∧
    first_free s NUM_MAX_TASK r ∧ current_running s' = current_running s ∧
    match r with
    | None => sched_wf s' Q ∧ pcb s' = pcb s
    | Some p =>
        sched_wf s' (qset Q (QReady prio) (Q (QReady prio) ++ [p])) ∧
        (∀ j, j ≠ p → aget (pcb s') j = aget (pcb s) j) ∧
        ∃ y, aget (pcb s') p = Ok y ∧ status y = TASK_READY ∧ priority y = prio ∧
          p_pid y = p ∧ cp0_epc (user_context y) = task_entry_point task ∧
          entry_point y = task_entry_point task ∧ name y = task_name task ∧
          regs (kernel_context y) !! 31%nat = Some exit_addr ∧
          regs (user_context y) !! 29%nat = Some (user_stack_top y)
    end.
Proof.
  intros Hwf Hprio Hregs Hfree. unfold do_spawn_with_priority. unfold MAX_PRIORITY_NUM in Hprio.
  destruct (create_proc_spec s Q prio Hwf) as (r & s1 & -> & Hwf1 & Hr & Hl & Hq & Hc & Hp);
    [lia|done|]. rewrite bind_Ok. destruct r as [p|].
  2:{ exists None, s1. done. }
  destruct Hp as (x & Hx & Hp). pose proof (Hfree p Hr) as Hun.
  pose proof (aget_bound _ _ _ Hx) as Hb.
  rewrite ready_q_ok, bind_Ok by (unfold MAX_PRIORITY_NUM; lia).
  destruct (k_push_spec s1 Q (QReady prio) p) as (s2 & Hk & Hq2 & Hs2);
    [apply Hwf1|by apply (aget_pcb_ok s Q p x)|done|]. rewrite Hk, bind_Ok.
  assert (sched_wf s2 (qset Q (QReady prio) (Q (QReady prio) ++ [p]))) as Hwf2.
  { eapply sched_wf_queues; [done|done|done|]. intros y. by rewrite qset_ne. }
  set (x1 := created x p (clamp_priority prio)) in *.
  assert (aget (pcb s2) p = Ok x1) as Hx1.
  { rewrite Hs2. simpl. rewrite Hp. by apply aget_insert_eq. }
  assert (regs_ok x1) as Hrx1 by (apply rewound_regs; destruct (Hregs _ _ Hx); by split).
  assert (clamp_priority prio = prio) as Hcl.
  { unfold clamp_priority, MAX_PRIORITY_NUM. destruct (Z.leb_spec 5 prio); lia. }
  destruct (fill_entry_spec s2 task x1 Hrx1) as (y & Hy & Hy1 & Hy2 & Hy3 & Hy4 & Hy5 & Hy6 & Hy7 & Hy8 & Hy9).
  destruct (upd_proc_m_spec s2 _ p x1 (fill_entry exit_addr s2 task) y Hwf2 Hx1 Hy)
    as (s3 & -> & Hwf3 & Hs3 & Hx3).
  { rewrite Hy1. simpl. rewrite Hcl. unfold MAX_PRIORITY_NUM. lia. }
  { done. }
  eexists (Some p), s3. split; [done|]. split; [done|]. split; [by rewrite Hs3, Hs2|].
  split; [done|]. split.
  - intros j Hj. rewrite Hs3, Hs2. simpl. rewrite Hp, !aget_insert_ne by lia. done.
  - assert (Hst : regs (user_context x1) !! 29%nat = Some (user_stack_top x1)).
    { destruct (Hregs _ _ Hx) as [_ Hu]. simpl. apply list_lookup_insert_eq.
      rewrite length_insert, Hu. lia. }
    exists y. rewrite Hy1. split; [done|]. rewrite Hy8, Hy9. simpl. rewrite Hcl. naive_solver.
Qed.

(** C30.  Spawning a task: the first free entry of the table becomes a ready
    process with the task's name and entry point, which it will reach through
    the exit of the exception handler, and it is the last of the ready queue
    of its priority; all other processes are untouched.  The entry must not
    still be in a queue. *)
Theorem spawn_correct s Q task :
  sched_wf s Q → (∀ p x, aget (pcb s) p = Ok x → regs_ok x) →
  (∀ i, first_free s NUM_MAX_TASK (Some i) → unqueued Q i) →
  ∃ r s', do_spawn exit_addr s task = Ok s' ∧
    first_free s NUM_MAX_TASK r ∧ current_running s' = current_running s ∧
    match r with
    | None => sched_wf s' Q ∧ pcb s' = pcb s
    | Some p =>
        sched_wf s' (qset Q (QReady 1) (Q (QReady 1) ++ [p])) ∧
        (∀ j, j ≠ p → aget (pcb s') j = aget (pcb s) j) ∧
        ∃ y, aget (pcb s') p = Ok y ∧ status y = TASK_READY ∧ priority y = 1 ∧
          p_pid y = p ∧ cp0_epc (user_context y) = task_entry_point task ∧
          entry_point y = task_entry_point task ∧ name y = task_name task ∧
          regs (kernel_context y) !! 31%nat = Some exit_addr
    end.
Proof.
  intros Hwf Hregs Hfree.
  destruct (spawn_spec s Q task 1 Hwf ltac:(done) Hregs Hfree) as (r & s' & H1 & H2 & H3 & H4).
  exists r, s'. split_and!; try done. destruct r; [|done]. naive_solver.
Qed.
End spawn_spec.

Lemma demo_first_free i : first_free demo_state NUM_MAX_TASK (Some i) → unqueued demo_queues i.
Proof.
  intros (Hi & (x & Hx & Hf) & _). assert (4 ≤ i) as H4.
  { destruct (decide (i = 0 ∨ i = 1 ∨ i = 2 ∨ i = 3)) as [H|]; [|lia].
    destruct H as [->|[->|[->| ->]]]; vm_compute in Hx; injection Hx as <-; by destruct Hf. }
  intros q. unfold demo_queues. repeat case_decide; rewrite ?elem_of_cons, ?elem_of_nil; lia.
Qed.

Lemma spawn_correct_witness :
  sched_wf demo_state demo_queues ∧
  ∃ s', do_spawn 4096 demo_state (TaskInfo (str "fs") 8192 USER_PROCESS) = Ok s' ∧
    current_running s' = Some 0.
Proof.
  split; [apply demo_wf|].
  destruct (spawn_correct 4096 demo_state demo_queues (TaskInfo (str "fs") 8192 USER_PROCESS)
    demo_wf demo_regs demo_first_free) as (r & s' & Hs & _ & Hc & _). by exists s'.
Defined.

(** ** Termination of a process *)

Definition unlocked (s : kstate) (a : addr) : Prop :=
  ∃ m, mutexes s !! a = Some m ∧ m_status m = UNLOCKED.

Lemma replace_first_at ls (i : nat) a :
  (∀ j, (j < i)%nat → ls !! j = Some None) → ls !! i = Some (Some a) →
  replace_first ls (Some a) None = <[i := None]> ls.
Proof.
  revert i. induction ls as [|l ls IH]; intros i Hlt Hi; [done|]. simpl.
  destruct i as [|i].
  - injection Hi as ->. by rewrite decide_True.
  - assert (l = None) as -> by (specialize (Hlt 0%nat ltac:(lia)); by injection Hlt).
    rewrite decide_False by done. simpl. f_equal. apply IH; [|done].
    intros j Hj. apply (Hlt (S j)). lia.
Qed.

Section exit.
Context (c : pid) (s0 : kstate) (Q0 : queue_map) (x0 : pcb_t) (Hwf0 : sched_wf s0 Q0) (Hun0 : unqueued Q0 c).

(** What the loop that releases the locks maintains before round [i]. *)
Record releasing (i : Z) (s : kstate) (Q : queue_map) (x : pcb_t) : Prop := {
  re_wf : sched_wf s Q;
  re_current : current_running s = Some c;
  re_entry : aget (pcb s) c = Ok x;
  re_unqueued : unqueued Q c;
  re_status : status x = TASK_EXITED ∧ priority x = 1;
  re_length : length (locks x) = 8%nat;
  re_done j : (j < Z.to_nat i)%nat → locks x !! j = Some None;
  re_todo j : (Z.to_nat i ≤ j)%nat → locks x !! j = locks x0 !! j;
  re_unlocked j a : (j < Z.to_nat i)%nat → locks x0 !! j = Some (Some a) → unlocked s a;
  re_exists a : is_Some (mutexes s0 !! a) → is_Some (mutexes s !! a);
  re_waiters p : Q (QProc p) = Q0 (QProc p);
  re_exited y : y ≠ c → exited s y → exited s0 y;
  re_moved : live_queues s0 Q0 → moved (Some c) s0 Q0 s Q;
}.

Lemma woken_exited s Q p s' Q' y : woken s Q p s' Q' → exited s' y → y ≠ p ∧ exited s y.
Proof.
  intros (x & x' & Hx & -> & _ & Hp & _) (z & Hz & Hst). pose proof (aget_bound _ _ _ Hx).
  rewrite Hp in Hz. destruct (decide (y = p)) as [->|].
  - rewrite aget_insert_eq in Hz by done. by injection Hz as <-.
  - rewrite aget_insert_ne in Hz by lia. split; [done|by exists z].
Qed.

(** Releasing one lock of the process. *)
Lemma releasing_release i s Q x a :
  0 ≤ i < 8 → releasing i s Q x → locks x !! Z.to_nat i = Some (Some a) →
  (∃ m, mutexes s !! a = Some m) →
  ∃ s' Q' x', do_mutex_lock_release s a = Ok s' ∧ releasing (i + 1) s' Q' x'.
Proof.
  intros Hi [Hwf Hcur Hx Hun Hst Hlen Hdone Htodo Hunl Hex Hwait Hexit Hmv] Hl [m Hm].
  destruct (release_spec s Q a m c x Hwf Hcur Hx Hm)
    as (s1 & s' & Q' & r & rest & Hrel & Hwf' & Hcur' & Hm' & Hx1 & Hoth & Hfl & Hr).
  change (x <| locks ::= λ ls, replace_first ls (Some a) None |>)
    with (x <| locks ::= λ _, replace_first (locks x) (Some a) None |>) in Hx1.
  rewrite (replace_first_at _ (Z.to_nat i) a Hdone Hl) in Hx1.
  set (x1 := x <| locks ::= λ _, <[Z.to_nat i := None]> (locks x) |>) in *.
  assert (aget (pcb s') c = Ok x1 ∧ unqueued Q' c ∧ (∀ p, Q' (QProc p) = Q (QProc p)) ∧
    (∀ y, y ≠ c → exited s' y → exited s y)) as (Hx' & Hun' & Hwait' & Hexit').
  { destruct r as [p|].
    - destruct (first_live_valid _ _ _ _ _ Hwf Hfl) as (Hp & Hin & _ & _ & Hrest & _).
      assert (c ≠ p) as Hcp by (intros ->; by apply (Hun (QLock a))).
      destruct (woken_queues _ _ _ _ _ Hr) as (_ & Hq & Hq').
      split; [by rewrite (woken_others _ _ _ _ _ _ Hr)|]. split; [|split].
      + intros q [Hcq|?]%Hq; [|done]. unfold qset in Hcq.
        case_decide; [apply (Hun (QLock a)); by apply Hrest|by apply (Hun q)].
      + intros p'. by rewrite Hq', qset_ne.
      + intros y Hy Hexy. destruct (woken_exited _ _ _ _ _ _ Hr Hexy) as [_ (z & Hz & Hzs)].
        exists z. by rewrite <- Hoth.
    - destruct Hr as [Hq Hp]. rewrite Hp. split; [done|]. split; [|split].
      + intros q. rewrite Hq. unfold qset. case_decide; [set_solver|apply Hun].
      + intros p'. by rewrite Hq, qset_ne.
      + intros y Hy (z & Hz & Hzs). exists z. rewrite Hp in Hz. by rewrite <- Hoth. }
  exists s', Q', x1. split; [done|]. pose proof (Z2Nat.inj_add i 1 ltac:(lia) ltac:(lia)) as Hi1.
  change (Z.to_nat 1) with 1%nat in Hi1. rewrite Nat.add_1_r in Hi1.
  split; try done; rewrite ?Hi1.
  - simpl. by rewrite length_insert.
  - intros j Hj. simpl. destruct (decide (j = Z.to_nat i)) as [->|].
    + apply list_lookup_insert_eq. lia.
    + rewrite list_lookup_insert_ne by done. apply Hdone. lia.
  - intros j Hj. simpl. rewrite list_lookup_insert_ne by lia. apply Htodo. lia.
  - intros j b Hj Hb. unfold unlocked. rewrite Hm'. destruct (decide (b = a)) as [->|].
    + rewrite lookup_insert_eq. by eexists.
    + rewrite lookup_insert_ne by done. apply (Hunl j); [|done].
      destruct (decide (j = Z.to_nat i)) as [->|]; [|lia].
      rewrite <- Htodo, Hl in Hb by done. congruence.
  - intros b Hb. rewrite Hm'. destruct (decide (b = a)) as [->|].
    + rewrite lookup_insert_eq. eauto.
    + rewrite lookup_insert_ne by done. by apply Hex.
  - intros p. by rewrite Hwait'.
  - intros y Hy Hexy. by apply Hexit, Hexit'.
  - intros Hl0. eapply moved_trans; [by apply Hmv|]. apply (unblocked_moved _ s s1 Q (QLock a) r rest); [|done|done| |done].
    + eapply moved_live; [apply Hwf0|done| |by apply Hmv]. intros c' [= <-]. apply Hun0.
    + intros p y Hp Hy. exists y. rewrite Hoth by congruence. done.
Qed.

(** A slot that is empty, or has been released, is set to null. *)
Lemma releasing_clear i s Q x s' x' :
  releasing i s Q x → sched_wf s' Q → same_sched (s <| pcb := pcb s' |>) s' →
  mutexes s' = mutexes s → aget (pcb s') c = Ok x' →
  (∀ p, p ≠ c → aget (pcb s') p = aget (pcb s) p) →
  status x' = status x ∧ priority x' = priority x → locks x' = locks x →
  releasing i s' Q x'.
Proof.
  intros [Hwf Hcur Hx Hun Hst Hlen Hdone Htodo Hunl Hex Hwait Hexit Hmv] Hwf' Hs Hm Hx' Hoth [H1 H2] Hl.
  split; rewrite ?Hl, ?H1, ?H2, ?Hm; try done.
  - destruct Hs as (_ & _ & _ & _ & _ & _ & _ & ->). done.
  - intros j a Hj Ha. destruct (Hunl j a Hj Ha) as (m & Hma & ?). exists m. by rewrite Hm.
  - intros y Hy (z & Hz & Hzs). apply Hexit; [done|]. exists z. by rewrite <- Hoth.
  - intros Hl0. eapply moved_trans; [by apply Hmv|]. apply same_status_moved.
    intros p y Hp Hy. exists y. rewrite Hoth by congruence. done.
Qed.

Lemma releasing_skip i s Q x :
  0 ≤ i → releasing i s Q x → locks x !! Z.to_nat i = Some None → releasing (i + 1) s Q x.
Proof.
  intros Hi [Hwf Hcur Hx Hun Hst Hlen Hdone Htodo Hunl Hex Hwait Hexit Hmv] Hl.
  assert (Z.to_nat (i + 1) = S (Z.to_nat i)) as Hi1 by lia.
  split; try done; rewrite ?Hi1.
  - intros j Hj. destruct (decide (j = Z.to_nat i)) as [->|]; [done|]. apply Hdone. lia.
  - intros j Hj. apply Htodo. lia.
  - intros j a Hj Ha. destruct (decide (j = Z.to_nat i)) as [->|].
    + rewrite <- Htodo, Hl in Ha by done. congruence.
    + apply (Hunl j); [lia|done].
Qed.

Lemma release_locks_spec s Q x :
  releasing 0 s Q x → (∀ a, Some a ∈ locks x0 → is_Some (mutexes s0 !! a)) →
  ∃ s' Q' x', release_locks s (Some c) = Ok s' ∧ releasing 8 s' Q' x'.
Proof.
  intros H0 Hm.
  destruct (for_range_inv (λ i s, ∃ Q x, releasing i s Q x) 0 MAX_LOCK_NUM_FOR_A_PROC
    (λ i s, x ← get_pcb s (Some c); l ← aget (locks x) i;
       match l with
       | None => Ok s
       | Some lock =>
           s ← do_mutex_lock_release s lock;
           upd_proc_m s (Some c) (λ x, ls ← aset (locks x) i None; Ok (x <| locks := ls |>))
       end) s) as (s' & Hs & Q' & x' & H'); [done|by exists Q, x| |by exists s', Q', x'].
  clear dependent s Q x. intros i s Hi (Q & x & Hre).
  unfold MAX_LOCK_NUM_FOR_A_PROC in Hi. pose proof Hre as [Hwf Hcur Hx _ _ Hlen _ Htodo _ Hex _ _ _].
  unfold get_pcb. simpl. rewrite Hx, bind_Ok.
  destruct (aget_total (locks x) i) as [l Hl]; [lia|]. rewrite Hl, bind_Ok.
  apply aget_Ok in Hl as [_ Hl]. destruct l as [a|].
  - destruct (releasing_release i s Q x a) as (s1 & Q1 & x1 & -> & Hre1);
      [lia|done|done| |].
    { apply Hex, Hm. rewrite Htodo in Hl by done. by eapply list_elem_of_lookup_2. }
    rewrite bind_Ok. pose proof Hre1 as [Hwf1 Hcur1 Hx1 _ _ Hlen1 Hdone1 _ _ _ _ _ _].
    assert (<[Z.to_nat i := None]> (locks x1) = locks x1) as Hid.
    { apply list_insert_id, Hdone1. lia. }
    destruct (upd_proc_m_spec s1 Q1 c x1 (λ x, ls ← aset (locks x) i None; Ok (x <| locks := ls |>))
      (x1 <| locks := locks x1 |>) Hwf1 Hx1) as (s2 & -> & Hwf2 & Hs2 & Hx2).
    { rewrite aset_total, bind_Ok by lia. by rewrite Hid. }
    { exact (wf_priority _ _ Hwf1 c x1 Hx1). } { done. }
    exists s2. split; [done|]. exists Q1, (x1 <| locks := locks x1 |>).
    pose proof (aget_bound _ _ _ Hx1).
    apply (releasing_clear (i + 1) s1 Q1 x1); try done; rewrite Hs2; [done|done|].
    intros p Hp. simpl. by rewrite aget_insert_ne by lia.
  - exists s. split; [done|]. exists Q, x. apply releasing_skip; [lia|done|done].
Qed.
End exit.

(** Dropping an exited waiter. *)
Lemma all_woken_drop s Q q y rest s1 s' Q' :
  Q q = y :: rest → exited s y → pcb s1 = pcb s → current_running s1 = current_running s →
  all_woken s1 (qset Q q rest) q s' Q' → all_woken s Q q s' Q'.
Proof.
  intros Hq Hy Hp Hc [H1 H2 H3 H4 H5 H6 H7]. rewrite qset_eq in *.
  assert (∀ z, exited s1 z ↔ exited s z) as Hex by (intros z; unfold exited; by rewrite Hp).
  split; [done|congruence|..].
  - intros z. rewrite Hq. intros [->|Hz]%elem_of_cons Hnz; [done|]. apply H3; [done|]. by rewrite Hex.
  - intros q' z Hq' Hz. apply H4; [done|]. by rewrite qset_ne.
  - intros q' z [Hz|Hz]%H5; [|right; rewrite Hq; set_solver]. unfold qset in Hz.
    case_decide; [right; rewrite Hq; set_solver|by left].
  - intros z Hz. rewrite H6, Hp; [done|]. rewrite Hq in Hz. set_solver.
  - intros z x. rewrite <- Hp. apply H7.
Qed.

Lemma all_woken_nil s Q q s' Q' :
  Q q = [] → Q' = qset Q q [] → pcb s' = pcb s → current_running s' = current_running s →
  all_woken s Q q s' Q'.
Proof.
  intros Hq -> Hp Hc. split; rewrite ?Hq; try done; [apply qset_eq|set_solver| | |by rewrite Hp|rewrite Hp; eauto].
  - intros q' z Hq' Hz. by rewrite qset_ne.
  - intros q' z. unfold qset. case_decide; [set_solver|by left].
Qed.

(** One waiter that is alive, set running and then woken. *)
Lemma wake_one s Q p x :
  sched_wf s Q → aget (pcb s) p = Ok x → unqueued Q p →
  ∃ s' Q', (s ← upd_proc s (Some p) (λ x, x <| status := TASK_RUNNING |>);
            invoke_blocked_proc s (Some p)) = Ok s' ∧ sched_wf s' Q' ∧ woken s Q p s' Q'.
Proof.
  intros Hwf Hx Hun. pose proof (aget_pcb_ok _ _ _ _ Hwf Hx) as Hp.
  destruct (upd_proc_keeps s Q p (λ x, x <| status := TASK_RUNNING |>) Hwf Hp)
    as (y & s1 & Hy & -> & Hwf1 & Hs1 & Hy1); [done|]. rewrite bind_Ok.
  rewrite Hx in Hy. injection Hy as <-.
  destruct (invoke_blocked_proc_spec s1 Q p Hwf1 Hp Hun) as (s2 & Q2 & -> & Hwf2 & Hw).
  exists s2, Q2. split; [done|]. split; [done|].
  destruct Hw as (z & z' & Hz & Hz' & HQ & Hpcb & H).
  rewrite Hy1 in Hz. injection Hz as <-.
  exists x, z'. rewrite Hs1 in Hpcb, H. simpl in *. rewrite list_insert_insert_eq in Hpcb.
  by rewrite Hz' in *.
Qed.

(** The loop that wakes the waiters, against [all_woken]. *)
Lemma wake_waiters_spec fuel s Q p :
  sched_wf s Q → (length (Q (QProc p)) < fuel)%nat →
  ∃ s' Q', wake_waiters fuel s p = Ok s' ∧ sched_wf s' Q' ∧ all_woken s Q (QProc p) s' Q'.
Proof.
  revert s Q. induction fuel as [|fuel IH]; intros s Q Hwf Hf; [lia|]. simpl.
  destruct (k_dequeue_spec s Q (QProc p)) as (s1 & -> & Hq1 & Hs1); [apply Hwf|]. rewrite bind_Ok.
  assert (pcb s1 = pcb s ∧ current_running s1 = current_running s) as [Hp1 Hc1]
    by by rewrite Hs1.
  assert (sched_wf s1 (qset Q (QProc p) (drop 1 (Q (QProc p))))) as Hwf1
    by (by eapply sched_wf_queues; [done|done|done|]; intros z; rewrite qset_ne).
  destruct (Q (QProc p)) as [|y rest] eqn:Hq; simpl in *.
  { exists s1, (qset Q (QProc p) []). split; [done|]. split; [done|]. by apply all_woken_nil. }
  rewrite drop_0 in Hwf1.
  assert (pid_ok y) as Hy by (apply (queues_wf_valid s Q (QProc p)); [apply Hwf|rewrite Hq; set_solver]).
  destruct (get_pcb_spec s1 _ y Hwf1 Hy) as (x & -> & Hx & _). rewrite bind_Ok.
  destruct (decide (status x = TASK_EXITED)) as [Hst|Hst].
  - rewrite bind_Ok. destruct (IH s1 (qset Q (QProc p) rest) Hwf1) as (s' & Q' & -> & Hwf' & Haw);
      [rewrite qset_eq; lia|].
    exists s', Q'. split; [done|]. split; [done|]. apply (all_woken_drop s Q (QProc p) y rest s1);
      try done. exists x. by rewrite <- Hp1.
  - destruct (wake_one s1 _ y x Hwf1 Hx) as (s2 & Q2 & Hw & Hwf2 & Hwk);
      [by eapply head_unqueued|]. rewrite Hw, bind_Ok.
    destruct (woken_queues _ _ _ _ _ Hwk) as (_ & _ & Hq3).
    destruct (IH s2 Q2 Hwf2) as (s' & Q' & -> & Hwf' & Haw); [rewrite Hq3, qset_eq by done; lia|].
    exists s', Q'. split; [done|]. split; [done|].
    apply (all_woken_step s Q (QProc p) y rest s2 Q2); try done.
    + exists []. split; [done|]. rewrite Hq. split; [done|]. intros (z & Hz & Hzs).
      rewrite Hp1 in Hx. congruence.
    + destruct Hwk as (z & z' & Hz & H). exists z, z'. rewrite Hs1 in Hz, H. naive_solver.
    + destruct Hwk as (z & z' & _ & _ & _ & _ & -> & _). done.
Qed.

Lemma wake_waiters_frame fuel s p s' : wake_waiters fuel s p = Ok s' → sched_frame s s'.
Proof.
  revert s. induction fuel as [|fuel IH]; intros s H; simpl in H; [done|]. sync_frame.
Qed.

(** The entry after [clear_entry]. *)
Lemma clear_entry_spec x :
  ∃ y, clear_entry x = Ok y ∧ status y = TASK_EXITED ∧ priority y = 1 ∧ locks y = locks x ∧
    entry_point y = 0 ∧ waiting_desc y = waiting_desc x.
Proof.
  unfold clear_entry. rewrite rewind_stacks_spec by done. rewrite bind_Ok.
  by eexists.
Qed.

(** What a process has released when it terminates. *)
Record terminated (s : kstate) (Q : queue_map) (c : pid) (s' : kstate) (Q' : queue_map)
    (x' : pcb_t) : Prop := {
  te_wf : sched_wf s' Q';
  te_current : current_running s' = Some c;
  te_entry : aget (pcb s') c = Ok x';
  te_status : status x' = TASK_EXITED;
  te_unqueued : unqueued Q' c;
  te_locks : locks x' = replicate 8 None;
  te_unlocked x a : aget (pcb s) c = Ok x → Some a ∈ locks x → unlocked s' a;
  te_empty : Q' (QProc c) = [];
  te_waiters y : y ∈ Q (QProc c) → ¬ exited s y →
    ∃ z, aget (pcb s') y = Ok z ∧ status z = TASK_RUNNING ∧ y ∈ Q' (QReady (priority z));
  te_moved : live_queues s Q → moved (Some c) s Q s' Q';
}.

Lemma terminate_spec s Q c x :
  sched_wf s Q → current_running s = Some c → aget (pcb s) c = Ok x → unqueued Q c →
  length (locks x) = 8%nat → (∀ a, Some a ∈ locks x → is_Some (mutexes s !! a)) →
  ∃ s' Q' x', terminate s (Some c) = Ok s' ∧ terminated s Q c s' Q' x'.
Proof.
  intros Hwf Hc Hx Hun Hlen Hm. pose proof (aget_bound _ _ _ Hx) as Hb. unfold terminate.
  destruct (clear_entry_spec x) as (y & Hy & Hst & Hpr & Hlk & _ & Hwd).
  destruct (upd_proc_m_spec s Q c x clear_entry y Hwf Hx Hy) as (s1 & -> & Hwf1 & Hs1 & Hy1);
    [rewrite Hpr; unfold MAX_PRIORITY_NUM; lia|done|]. rewrite bind_Ok.
  assert (∀ z, z ≠ c → exited s1 z → exited s z) as Hex1.
  { intros z Hz (w & Hw & Hws). exists w. rewrite Hs1 in Hw. simpl in Hw.
    by rewrite aget_insert_ne in Hw by lia. }
  destruct (release_locks_spec c s Q x Hwf Hun s1 Q y) as (s2 & Q2 & x2 & -> & Hre).
  { split; try done; rewrite ?Hlk; try done; [by rewrite Hs1|intros; simpl in *; lia|intros; simpl in *; lia| |].
    - intros a. by rewrite Hs1.
    - intros _. apply same_status_moved.
      apply (same_status_upd (Some c) s s1 c x y Hx); [by rewrite Hs1|by left]. }
  { done. }
  rewrite bind_Ok. change (deref (Some c)) with (Ok c). rewrite bind_Ok.
  destruct Hre as [Hwf2 Hc2 Hx2 Hun2 [Hst2 Hpr2] Hlen2 Hdone2 _ Hunl2 _ Hw2 Hex2 Hmv2].
  destruct (wake_waiters_spec (queue_fuel s2) s2 Q2 c Hwf2) as (s3 & Q3 & Hwk & Hwf3 & Haw).
  { unfold queue_fuel. pose proof (queue_rep_length _ _ _ (wf_queue _ _ (wf_queues _ _ Hwf2) (QProc c))).
    lia. }
  pose proof (wake_waiters_frame _ _ _ _ Hwk) as Hsy. rewrite Hwk, bind_Ok. unfold get_pcb. simpl.
  rewrite (aw_pcb _ _ _ _ _ Haw) by apply Hun2. rewrite Hx2, bind_Ok, Hpr2.
  destruct (decrease_spec s3 Q3 1 Hwf3) as (t & -> & Hwf4); [lia|]. rewrite bind_Ok.
  eexists _, Q3, x2. split; [done|]. split; try done.
  - destruct Hwf4 as [[H1 H2 H3] H4 H5 H6 H7 H8 H9]. split; [by split|done..].
  - simpl. by rewrite (aw_current _ _ _ _ _ Haw).
  - simpl. rewrite (aw_pcb _ _ _ _ _ Haw); [done|apply Hun2].
  - intros q [Hq|Hq]%(aw_new _ _ _ _ _ Haw); [by apply (Hun2 q)|by apply (Hun2 (QProc c))].
  - apply list_eq. intros j. destruct (decide (j < 8)%nat).
    + rewrite Hdone2 by (simpl; lia). by rewrite lookup_replicate_2 by lia.
    + rewrite !lookup_ge_None_2; [done|by rewrite length_replicate; lia|by rewrite Hlen2; lia].
  - intros x0 a Hx0 [j Hj]%list_elem_of_lookup. rewrite Hx in Hx0. injection Hx0 as <-.
    destruct (Hunl2 j a) as (m & Hma & Hms); [apply lookup_lt_Some in Hj; simpl; lia|done|].
    exists m. split; [|done]. simpl. by rewrite (sy_mutexes _ _ Hsy).
  - apply (aw_empty _ _ _ _ _ Haw).
  - intros z Hz Hnz. apply (aw_woken _ _ _ _ _ Haw); [by rewrite Hw2|].
    intros Hez. apply Hnz, Hex2; [|done]. intros ->. by apply (Hun (QProc c)).
  - intros Hl. eapply moved_trans; [by apply Hmv2|].
    eapply moved_trans; [apply (all_woken_moved _ s2 Q2 (QProc c)); [|done|exact Haw]|by apply same_status_moved, same_status_pcb].
    eapply moved_live; [exact Hwf|done| |by apply Hmv2]. by intros c' [= <-].
Qed.

(** [do_exit] up to the switch, and after it. *)
Lemma do_exit_spec s Q c x :
  sched_wf s Q → current_running s = Some c → aget (pcb s) c = Ok x → unqueued Q c →
  length (locks x) = 8%nat → (∀ a, Some a ∈ locks x → is_Some (mutexes s !! a)) →
  ∃ s1 Q1 x1 s' Q', terminated s Q c s1 Q1 x1 ∧
    scheduler s1 = Ok s' ∧ do_exit s = Ok s' ∧ sched_wf s' Q' ∧ unqueued Q' c.
Proof.
  intros Hwf Hc Hx Hun Hlen Hm.
  destruct (terminate_spec s Q c x Hwf Hc Hx Hun Hlen Hm) as (s1 & Q1 & x1 & Ht & Hterm).
  pose proof Hterm as [Hwf1 Hc1 Hx1 Hst1 Hun1 _ _ _ _ _].
  destruct (scheduler_spec s1 Q1 c x1 Hwf1) as (s' & Q' & i & r & rest & Hs & Hwf' & _ & _ & Hl & Hr).
  { split_and!; [done|done| |done]. intros i. apply Hun1. }
  exists s1, Q1, x1, s', Q'. split; [done|]. split; [done|].
  split; [unfold do_exit; by rewrite Hc, Ht, bind_Ok|]. split; [done|].
  destruct r as [p|].
  - destruct Hr as (_ & _ & _ & Hq). apply unqueued_queued. rewrite Hq. intros [[q Hcq]|[_ [_ Hne]]]; [|done].
    unfold qset in Hcq. case_decide; [|by apply (Hun1 q)].
    destruct Hl as (dr & _ & Hl & _). apply (Hun1 (QReady i)). rewrite Hl. set_solver.
  - destruct Hr as (_ & _ & Hq). intros q. rewrite Hq. unfold qset.
    case_decide; [set_solver|apply Hun1].
Qed.

(** C29.  [do_exit]: before the switch the process is marked exited, is in no
    queue, has no lock in its table, every lock it held is free, and every live
    process that waited for it is runnable.  After the switch it still is in no
    queue, so it is never selected again. *)
Theorem do_exit_correct s Q c x :
  sched_wf s Q → current_running s = Some c → aget (pcb s) c = Ok x → unqueued Q c →
  length (locks x) = 8%nat → (∀ a, Some a ∈ locks x → is_Some (mutexes s !! a)) →
  ∃ s1 Q1 x1 s' Q', terminated s Q c s1 Q1 x1 ∧
    scheduler s1 = Ok s' ∧ do_exit s = Ok s' ∧ sched_wf s' Q' ∧ unqueued Q' c.
Proof. apply do_exit_spec. Qed.

(** Process 0 runs and holds the mutex at 16; processes 3 and 1, 2 as in
    [demo_state]. *)
Definition holder_state : kstate :=
  demo_locks LOCKED <| pcb ::= alter (λ x, x <| locks := Some 16 :: replicate 7 None |>) 0%nat |>.

Lemma holder_wf : sched_wf holder_state demo_queues.
Proof.
  destruct (upd_proc_spec (demo_locks LOCKED) demo_queues 0
    (λ x, x <| locks := Some 16 :: replicate 7 None |>)) as (x & s' & Hx & Hu & Hwf & Hs);
    [apply demo_locks_wf|done|done|].
  assert (s' = holder_state) as <-; [|done]. rewrite Hs.
  vm_compute in Hx. injection Hx as <-. done.
Qed.

Lemma do_exit_correct_witness :
  sched_wf holder_state demo_queues ∧
  ∃ s1 s', unlocked s1 16 ∧ scheduler s1 = Ok s' ∧ do_exit holder_state = Ok s'.
Proof.
  split; [apply holder_wf|].
  destruct (do_exit_correct holder_state demo_queues 0
    (no_pcb 0 <| status := TASK_RUNNING |> <| locks := Some 16 :: replicate 7 None |>))
    as (s1 & Q1 & x1 & s' & Q' & Ht & Hs & Hx & _);
    [apply holder_wf|done|done|by apply demo_current|done| |].
  - intros a Ha. change (Some a ∈ Some 16 :: replicate 7 None) in Ha.
    apply elem_of_cons in Ha as [[= ->]|[Ha _]%elem_of_replicate]; [by eexists|done].
  - exists s1, s'. split; [|exact (conj Hs Hx)]. apply (te_unlocked _ _ _ _ _ _ Ht
      (no_pcb 0 <| status := TASK_RUNNING |> <| locks := Some 16 :: replicate 7 None |>)); [done|].
    change (Some 16 ∈ Some 16 :: replicate 7 None). by apply elem_of_cons; left.
Defined.

(** ** Killing a process that is in a queue *)

(** A process without locks, for which nobody waits, is killed: it is marked
    exited and stays in the queues it is in. *)
Lemma terminate_plain s Q v x :
  sched_wf s Q → aget (pcb s) v = Ok x → locks x = replicate 8 None → Q (QProc v) = [] →
  ∃ s' y, terminate s (Some v) = Ok s' ∧ sched_wf s' Q ∧ clear_entry x = Ok y ∧
    pcb s' = <[Z.to_nat v := y]> (pcb s) ∧ current_running s' = current_running s.
Proof.
  intros Hwf Hx Hlocks Hwait. pose proof (aget_bound _ _ _ Hx) as Hb.
  destruct (clear_entry_spec x) as (y & Hy & Hst & Hpr & Hlk & _ & Hwd). unfold terminate.
  destruct (upd_proc_m_spec s Q v x clear_entry y Hwf Hx Hy) as (s1 & -> & Hwf1 & Hs1 & Hy1);
    [rewrite Hpr; unfold MAX_PRIORITY_NUM; lia|done|]. rewrite bind_Ok.
  assert (release_locks s1 (Some v) = Ok s1) as ->.
  { unfold release_locks. match goal with |- for_range _ _ ?f _ = _ =>
      destruct (for_range_inv (λ _ s, s = s1) 0 MAX_LOCK_NUM_FOR_A_PROC f s1) as (s2 & -> & ->) end;
      [done|done| |done].
    intros i s2 Hi ->. exists s1. split; [|done]. unfold get_pcb. cbn [deref].
    rewrite bind_Ok, Hy1, bind_Ok, Hlk, Hlocks.
    rewrite (proj2 (aget_Ok _ i None)); [done|]. split; [unfold MAX_LOCK_NUM_FOR_A_PROC in Hi; lia|].
    apply lookup_replicate_2. unfold MAX_LOCK_NUM_FOR_A_PROC in Hi. lia. }
  rewrite bind_Ok. cbn [deref]. rewrite bind_Ok.
  assert (wake_waiters (queue_fuel s1) s1 v = Ok (s1 <| queues ::= <[QProc v := get_queue s1 (QProc v)]> |>)) as ->.
  { unfold queue_fuel. cbn [wake_waiters]. unfold k_dequeue.
    rewrite (queue_dequeue_nil _ _ _ (wf_queue _ _ (wf_queues _ _ Hwf1) (QProc v)) Hwait). cbn.
    reflexivity. }
  rewrite bind_Ok. set (s2 := s1 <| queues ::= _ |>).
  assert (Hq2 : ∀ q, get_queue s2 q = get_queue s1 q).
  { intros q. change (get_queue s2 q) with
      (default queue_init (<[QProc v := get_queue s1 (QProc v)]> (queues s1) !! q)).
    destruct (decide (q = QProc v)) as [->|]; [by rewrite lookup_insert_eq|by rewrite lookup_insert_ne]. }
  assert (Hwf2 : sched_wf s2 Q).
  { destruct Hwf1 as [[Q1 Q2 Q3] W1 W2 W3 W4 W5 W6]. split; [|done..]. split; [done| |done].
    intros q. rewrite Hq2. apply Q2. }
  unfold get_pcb. cbn [deref]. rewrite bind_Ok. change (pcb s2) with (pcb s1). rewrite Hy1, bind_Ok, Hpr.
  destruct (decrease_spec s2 Q 1 Hwf2) as (t & -> & Hwf3); [lia|]. rewrite bind_Ok.
  eexists _, y. split; [done|]. split.
  { destruct Hwf3 as [[H1 H2 H3] H4 H5 H6 H7 H8 H9]. split; [by split|done..]. }
  split; [done|]. split; [|change (current_running s1 = current_running s); by rewrite Hs1]. change (pcb s1 = <[Z.to_nat v := y]> (pcb s)). by rewrite Hs1.
Qed.

Lemma clear_entry_regs x y : clear_entry x = Ok y → regs_ok y ∧ status y = TASK_EXITED ∧ locks y = locks x.
Proof.
  unfold clear_entry. rewrite rewind_stacks_spec by done. rewrite bind_Ok. intros [= <-].
  split; [|done]. split; cbn -[replicate]; by rewrite !length_insert, length_replicate.
Qed.

Section kill_spec.
Context (exit_addr : Z).

(** Spawning when the first free entry is still in the ready queue. *)
Lemma spawn_linked s Q task v l1 l2 :
  sched_wf s Q → (∀ p x, aget (pcb s) p = Ok x → regs_ok x) →
  first_free s NUM_MAX_TASK (Some v) → Q (QReady 1) = l1 ++ v :: l2 → l2 ≠ [] →
  ∃ s' y, do_spawn exit_addr s task = Ok s' ∧ aget (pcb s') v = Ok y ∧ status y = TASK_READY ∧
    entry_point y = task_entry_point task ∧ (∀ j, j ≠ v → aget (pcb s') j = aget (pcb s) j) ∧
    current_running s' = current_running s ∧
    ∀ q, leads (plinks s') (head (get_queue s' q)) (if decide (q = QReady 1) then l1 ++ [v] else Q q).
Proof.
  intros Hwf Hregs Hv HQ H2. unfold do_spawn, do_spawn_with_priority.
  destruct (create_proc_spec s Q 1 Hwf ltac:(done) Hregs) as (r & s1 & -> & Hwf1 & Hr & Hl & Hqs & Hc & Hp).
  destruct Hv as (Hvr & (x & Hx & Hfree) & Hmin).
  pose proof (first_free_at s v r x Hvr Hx Hfree Hmin Hr). subst r.
  rewrite bind_Ok, ready_q_ok, bind_Ok by done. destruct Hp as (x' & Hx' & Hp).
  assert (x' = x) as -> by congruence. pose proof (aget_bound _ _ _ Hx) as Hb.
  destruct (queue_push_linked _ _ _ (wf_queue _ _ (wf_queues _ _ Hwf1) (QReady 1)) l1 v l2 HQ H2)
    as (lk & qq & Hpush & Hleads & Hsame).
  unfold k_push. rewrite Hpush, bind_Ok. cbn [mret]. rewrite bind_Ok.
  set (x1 := created x v (clamp_priority 1)) in *. set (s2 := s1 <| plinks := lk |> <| queues ::= _ |>).
  assert (aget (pcb s2) v = Ok x1) as Hx1.
  { change (pcb s2) with (pcb s1). rewrite Hp. by apply aget_insert_eq. }
  assert (regs_ok x1) as Hrx1 by (apply rewound_regs; destruct (Hregs _ _ Hx); by split).
  destruct (fill_entry_spec exit_addr s2 task x1 Hrx1) as (y & Hy & _ & _ & [Hst _] & _ & Hent & _).
  unfold upd_proc_m. cbn [deref]. rewrite bind_Ok, Hx1, bind_Ok, Hy, bind_Ok.
  rewrite aset_total, bind_Ok by (by apply (aget_bound _ _ _ Hx1)).
  eexists _, y. split; [done|]. split; [apply aget_insert_eq, (aget_bound _ _ _ Hx1)|].
  split; [by rewrite Hst|]. split; [done|]. split; [|split; [done|]].
  - intros j Hj. change (aget (<[Z.to_nat v := y]> (pcb s1)) j = aget (pcb s) j).
    rewrite Hp, !aget_insert_ne by lia. done.
  - intros q. change (leads lk (head (default queue_init (<[QReady 1 := qq]> (queues s1) !! q)))
      (if decide (q = QReady 1) then l1 ++ [v] else Q q)).
    case_decide as Hq; [by rewrite Hq, lookup_insert_eq|]. rewrite lookup_insert_ne by done.
    apply queue_rep_leads. apply (queue_rep_frame (plinks s1)); [apply (wf_queue _ _ (wf_queues _ _ Hwf1))|].
    destruct Hsame as [Hlen Hsame]. split; [done|]. intros z Hz. apply Hsame. intros Hz'.
    apply Hq. by apply (wf_disjoint _ _ (wf_queues _ _ Hwf1) q (QReady 1) z).
Qed.

(** C40.  [do_kill] of a process [v] in the ready queue of priority 1, which holds
    no lock and for which nobody waits, marks it exited but leaves it linked in the
    queue.  When no entry of the table before it is free, the next spawn reuses its
    entry and pushes it again, which cuts the queue behind it: afterwards the
    pointers lead through the processes before [v] to the new process and end there.
    The processes that were ready behind it keep their entries, so they are as
    alive as before, but no queue leads to them. *)
Theorem kill_then_spawn_loses_process s Q v l1 l2 x task :
  sched_wf s Q → (∀ p y, aget (pcb s) p = Ok y → regs_ok y) →
  Q (QReady 1) = l1 ++ v :: l2 → l2 ≠ [] →
  aget (pcb s) v = Ok x → status x = TASK_READY ∨ status x = TASK_RUNNING → type x ≠ KERNEL_PROCESS →
  locks x = replicate 8 None → Q (QProc v) = [] →
  (∀ j y, 0 ≤ j < v → aget (pcb s) j = Ok y → ¬ free_status y) →
  ∃ s1 s2 x1 x2, do_kill s v = Ok s1 ∧ do_spawn exit_addr s1 task = Ok s2 ∧
    sched_wf s1 Q ∧ aget (pcb s1) v = Ok x1 ∧ status x1 = TASK_EXITED ∧
    aget (pcb s2) v = Ok x2 ∧ status x2 = TASK_READY ∧ entry_point x2 = task_entry_point task ∧
    current_running s2 = current_running s ∧
    let left q := if decide (q = QReady 1) then l1 ++ [v] else Q q in
    (∀ q, leads (plinks s2) (head (get_queue s2 q)) (left q)) ∧
    ∀ w, w ∈ l2 → aget (pcb s2) w = aget (pcb s) w ∧ ∀ q, w ∉ left q.
Proof.
  intros Hwf Hregs HQ H2 Hx Hst Htype Hlocks Hwait Hbefore.
  pose proof (aget_pcb_ok _ _ _ _ Hwf Hx) as Hv. pose proof (aget_bound _ _ _ Hx) as Hb.
  set (s0 := say s (Printks kill_format [ArgStr (name x ++ [0]); ArgInt (p_pid x)])).
  assert (sched_wf s0 Q) as Hwf0.
  { destruct Hwf as [[H1 H2' H3] H4 H5 H6 H7 H8 H9]. split; [by split|done..]. }
  destruct (terminate_plain s0 Q v x Hwf0 Hx Hlocks Hwait) as (s1 & x1 & Hterm & Hwf1 & Hy & Hp1 & Hc1).
  destruct (clear_entry_regs _ _ Hy) as (Hr1 & Hst1 & _).
  assert (aget (pcb s1) v = Ok x1) as Hx1 by (rewrite Hp1; by apply aget_insert_eq).
  assert (Hother : ∀ j, j ≠ v → aget (pcb s1) j = aget (pcb s) j).
  { intros j Hj. rewrite Hp1. apply aget_insert_ne; lia. }
  destruct (spawn_linked s1 Q task v l1 l2 Hwf1) as (s2 & x2 & Hspawn & Hx2 & Hst2 & Hent & Hsame & Hc2 & Hleads);
    [| |exact HQ|exact H2|].
  { intros p y Hp. destruct (decide (p = v)) as [->|Hne]; [by assert (y = x1) as -> by congruence|].
    rewrite Hother in Hp by done. by apply (Hregs p). }
  { split; [exact Hv|]. split; [exists x1; split; [done|by right]|].
    intros j y Hj Hyj. rewrite Hother in Hyj by lia. by apply (Hbefore j). }
  exists s1, s2, x1, x2. split.
  { unfold do_kill, get_proc_by_pid. unfold pid_ok in Hv.
    rewrite (proj2 (Z.ltb_ge v 0)), (proj2 (Z.leb_gt NUM_MAX_TASK v)) by lia. cbn [orb].
    rewrite Hx, bind_Ok, decide_True by tauto. rewrite bind_Ok. unfold get_pcb. cbn [deref].
    rewrite bind_Ok, Hx, bind_Ok, decide_False by done. exact Hterm. }
  split; [done|]. split; [done|]. split; [done|]. split; [done|]. split; [done|]. split; [done|].
  split; [done|]. split; [by rewrite Hc2, Hc1|]. split; [done|].
  intros w Hw.
  assert (w ∈ Q (QReady 1)) as Hin by (rewrite HQ; apply elem_of_app; right; by right).
  pose proof (rep_NoDup _ _ _ (wf_queue _ _ (wf_queues _ _ Hwf) (QReady 1))) as Hnd. rewrite HQ in Hnd.
  apply NoDup_app in Hnd as (_ & Hd & Hnd). apply NoDup_cons in Hnd as [Hvl _].
  assert (w ≠ v) as Hwv by (by intros ->). split; [by rewrite Hsame, Hother|].
  intros q. cbv beta zeta. case_decide as Hq.
  - intros [Hw1|Hw1]%elem_of_app; [|by apply list_elem_of_singleton in Hw1]. apply (Hd w Hw1). by right.
  - intros Hwq. apply Hq. by apply (wf_disjoint _ _ (wf_queues _ _ Hwf) q (QReady 1) w).
Qed.
End kill_spec.

Definition three_ready : kstate :=
  push_or (push_or (push_or (idle_state <| pcb ::= map (λ x, x <| type := USER_PROCESS |>) |>)
    (QReady 1) 1) (QReady 1) 2) (QReady 1) 3.

Definition three_queues : queue_map := λ q, if decide (q = QReady 1) then [1; 2; 3] else [].

Lemma three_wf : sched_wf three_ready three_queues.
Proof.
  set (s0 := idle_state <| pcb ::= map (λ x, x <| type := USER_PROCESS |>) |>).
  assert (sched_wf s0 (λ _, [])) as H0.
  { destruct idle_wf as [[Q1 Q2 Q3] W1 W2 W3 W4 W5 W6].
    split; [by split|exact eq_refl|done|done|done| |by intros ?? ?%elem_of_nil].
    intros p x [Hp Hx]%aget_Ok. change (pcb s0) with (map (λ x, x <| type := USER_PROCESS |>) (pcb idle_state)) in Hx.
    rewrite list_lookup_fmap in Hx. destruct (pcb idle_state !! Z.to_nat p) as [y|] eqn:Hy; [|done].
    injection Hx as <-. apply (W5 p y). by apply aget_Ok. }
  destruct (push_or_wf s0 (λ _, []) (QReady 1) 1) as [H1 _]; [done|done|by intros ? ?%elem_of_nil|done|].
  destruct (push_or_wf _ _ (QReady 1) 2 H1) as [H2 _]; [done| |done|].
  { intros q. unfold qset. case_decide; set_solver. }
  destruct (push_or_wf _ _ (QReady 1) 3 H2) as [H3 _]; [done| |done|].
  { intros q. unfold qset. repeat case_decide; set_solver. }
  eapply sched_wf_ext; [exact H3|]. intros q. unfold qset, three_queues.
  repeat case_decide; simplify_eq; try done.
Qed.

Lemma three_entry p x : aget (pcb three_ready) p = Ok x →
  regs_ok x ∧ (0 ≤ p < 4 → ¬ free_status x).
Proof.
  intros [Hp Hx]%aget_Ok.
  assert (forallb (λ p, match pcb three_ready !! Z.to_nat p with
    | Some x => bool_decide (regs_ok x ∧ (p < 4 → ¬ free_status x)) | None => true end) (seqZ 0 16) = true)
    as Hall by (vm_compute; reflexivity).
  rewrite forallb_forall in Hall. specialize (Hall p).
  rewrite Hx in Hall. assert (bool_decide (regs_ok x ∧ (p < 4 → ¬ free_status x)) = true) as Hd.
  { apply Hall. apply list_elem_of_In, elem_of_seqZ. apply lookup_lt_Some in Hx.
    change (length (pcb three_ready)) with 16%nat in Hx. lia. }
  apply bool_decide_eq_true_1 in Hd as [H1 H2]. split; [done|]. intros [_ ?]. by apply H2.
Qed.

(** With 1, 2 and 3 ready, killing 2 and spawning a task loses 3. *)
Lemma kill_then_spawn_loses_process_witness :
  ∃ s1 s2, do_kill three_ready 2 = Ok s1 ∧
    do_spawn 4096 s1 (TaskInfo (str "fs") 8192 USER_PROCESS) = Ok s2 ∧
    leads (plinks s2) (head (get_queue s2 (QReady 1))) [1; 2] ∧
    aget (pcb s2) 3 = aget (pcb three_ready) 3.
Proof.
  destruct (aget (pcb three_ready) 2) as [x| |] eqn:Hx; [|vm_compute in Hx; discriminate Hx..].
  destruct (kill_then_spawn_loses_process 4096 three_ready three_queues 2 [1] [3] x
    (TaskInfo (str "fs") 8192 USER_PROCESS)) as (s1 & s2 & x1 & x2 & Hk & Hs & _ & _ & _ & _ & _ & _ & _ & Hl & Hw).
  - exact three_wf.
  - intros p y Hy. apply (three_entry p y Hy).
  - reflexivity.
  - intros [=].
  - exact Hx.
  - vm_compute in Hx. injection Hx as <-. by right.
  - vm_compute in Hx. injection Hx as <-. intros [=].
  - vm_compute in Hx. injection Hx as <-. reflexivity.
  - reflexivity.
  - intros j y Hj Hy. apply (three_entry j y Hy). lia.
  - exists s1, s2. split; [exact Hk|]. split; [exact Hs|]. split; [exact (Hl (QReady 1))|].
    refine (proj1 (Hw 3 _)). left.
Defined.

(** [do_waitpid] and [do_kill] on a pid that names no live process (or a
    kernel process) change nothing but the log; otherwise [do_waitpid] puts the
    caller, blocked, in the queue of the process it waits for. *)
Theorem waitpid_kill_guards s Q c x p :
  sched_wf s Q → current_running s = Some c → aget (pcb s) c = Ok x → unqueued Q c →
  ∃ r, get_proc_by_pid s p = Ok r ∧
  (r = Some p ↔ pid_ok p ∧ ∃ y, aget (pcb s) p = Ok y ∧ status y ≠ TASK_EXITED ∧
     status y ≠ TASK_CREATE) ∧ (r = None ∨ r = Some p) ∧
  (r = None ∨ p = 0 → do_waitpid s p = Ok s) ∧
  (r = None → ∃ m, do_kill s p = Ok (say s m)) ∧
  (∀ y, r = Some p → aget (pcb s) p = Ok y → type y = KERNEL_PROCESS →
     ∃ m, do_kill s p = Ok (say s m)) ∧
  (r = Some p → p ≠ 0 → ∃ s1 s', do_waitpid s p = Ok s' ∧ scheduler s1 = Ok s' ∧
     sched_wf s1 (qset Q (QProc p) (Q (QProc p) ++ [c])) ∧
     current_ok s1 (qset Q (QProc p) (Q (QProc p) ++ [c])) c (x <| status := TASK_BLOCKED |>)).
Proof.
  intros Hwf Hc Hx Hun.
  assert (∃ r, get_proc_by_pid s p = Ok r ∧ (r = None ∨ r = Some p) ∧
    (r = Some p ↔ pid_ok p ∧ ∃ y, aget (pcb s) p = Ok y ∧ status y ≠ TASK_EXITED ∧
     status y ≠ TASK_CREATE)) as (r & Hr & Hrp & Hiff).
  { unfold get_proc_by_pid, pid_ok. destruct ((p <? 0) || (NUM_MAX_TASK <=? p)) eqn:Hp.
    - exists None. split; [done|]. split; [by left|]. split; [done|]. lia.
    - destruct (aget_total (pcb s) p) as [y Hy]; [rewrite (wf_pcb _ _ Hwf); lia|].
      rewrite Hy, bind_Ok. case_decide as Hst.
      + exists (Some p). split; [done|]. split; [by right|]. split; [|done]. intros _.
        split; [lia|]. exists y. split; [done|]. by destruct Hst as [->|[->| ->]].
      + exists None. split; [done|]. split; [by left|]. split; [done|].
        intros (_ & z & [= <-] & H1 & H2). exfalso. apply Hst. destruct (status y); auto; done. }
  exists r. split; [done|]. split; [done|]. split; [done|].
  assert (do_waitpid s p = if (p <=? 0) || (NUM_MAX_TASK <? p) then Ok s else
    match r with None => Ok s | Some i => do_block s (QProc i) end) as Hwait.
  { unfold do_waitpid. by rewrite Hr. }
  split_and!.
  - intros [-> | ->]; rewrite Hwait; [by case_match|done].
  - intros ->. unfold do_kill. rewrite Hr, bind_Ok. by eexists.
  - intros y -> Hy Hk. unfold do_kill, get_pcb. rewrite Hr, bind_Ok. simpl. rewrite Hy, bind_Ok.
    rewrite decide_True by done. by eexists.
  - intros -> Hp0. destruct (proj1 Hiff eq_refl) as [Hp _]. unfold pid_ok, NUM_MAX_TASK in Hp.
    rewrite Hwait. destruct ((p <=? 0) || (NUM_MAX_TASK <? p)) eqn:Hg;
      [unfold NUM_MAX_TASK in Hg; lia|].
    destruct (do_block_lemma s Q (QProc p) c x Hwf Hc Hx) as (s1 & -> & Hwf1 & Hc1);
      [by intros q ?%Hun|done|done|]. rewrite joined_notin in * by apply Hun.
    destruct (scheduler_spec s1 _ c _ Hwf1 Hc1) as (s' & _ & _ & _ & _ & Hs & _). by exists s1, s'.
Qed.

Lemma waitpid_kill_guards_witness :
  sched_wf demo_state demo_queues ∧ do_waitpid demo_state 9 = Ok demo_state ∧
  ∃ m, do_kill demo_state 0 = Ok (say demo_state m).
Proof.
  split; [apply demo_wf|].
  assert (current_running demo_state = Some 0 ∧ aget (pcb demo_state) 0 =
    Ok (no_pcb 0 <| status := TASK_RUNNING |>) ∧ unqueued demo_queues 0) as (Hc & Hx & Hun).
  { split_and!; [done|done|by apply demo_current]. }
  split.
  - destruct (waitpid_kill_guards demo_state demo_queues 0 _ 9 demo_wf Hc Hx Hun)
      as (r & Hr & _ & _ & Hw & _). apply Hw. left. vm_compute in Hr. congruence.
  - destruct (waitpid_kill_guards demo_state demo_queues 0 _ 0 demo_wf Hc Hx Hun)
      as (r & Hr & _ & _ & _ & _ & Hk & _). eapply Hk; [vm_compute in Hr; congruence|done|done].
Defined.

(** [latency] returns at the first reading that is [time] or more after the
    first, across an overflow of the clock too, and never if there is none. *)
Theorem latency_correct clock time :
  (∀ n, (0 < n)%nat → time ≤ u32 (clock n - clock O) →
     (∀ i, (0 < i < n)%nat → u32 (clock i - clock O) < time) →
     ∀ fuel, (n ≤ fuel)%nat → latency fuel clock time = Ok (S n)) ∧
  ((∀ i, (0 < i)%nat → u32 (clock i - clock O) < time) →
     ∀ fuel, latency fuel clock time = OutOfFuel).
Proof.
  assert (Hloop : ∀ n fuel i, (n ≤ fuel)%nat → (0 < i)%nat →
    (∀ j, (i ≤ j < i + n)%nat → u32 (clock j - clock O) < time) →
    latency_loop fuel clock (clock O) time i = latency_loop (fuel - n) clock (clock O) time (i + n)).
  { induction n as [|n IH]; intros fuel i Hle Hi H.
    - by rewrite Nat.add_0_r, Nat.sub_0_r.
    - destruct fuel as [|fuel]; [lia|]. cbn [latency_loop].
      rewrite (proj2 (Z.ltb_lt _ _)) by (apply H; lia). rewrite IH; [|lia..|intros; apply H; lia].
      by rewrite Nat.add_succ_comm. }
  unfold latency. split.
  - intros n Hn Hreach Hbefore fuel Hf.
    rewrite (Hloop (n - 1)%nat) by (lia || intros; apply Hbefore; lia).
    replace (1 + (n - 1))%nat with n by lia. destruct (fuel - (n - 1))%nat eqn:E; [lia|].
    cbn [latency_loop]. by rewrite (proj2 (Z.ltb_ge _ _)).
  - intros H fuel. rewrite (Hloop fuel) by (lia || intros; apply H; lia). by rewrite Nat.sub_diag.
Qed.
