(* ===== verification/Life.v ===== *)
(** * The life of processes: calls and clock interrupts, in any order

    [kinv] is the invariant of the process table, the queues and the running
    process; [settled] adds that the process that runs is not blocked.  A [world]
    is a state of the kernel with what each process that stopped inside the kernel
    will do there when it is selected again: the rest of [irq_timer], or of a
    handler that blocked it.  [kernel_run] runs any sequence of clock interrupts, of
    the calls of [kcall] and of such continuations: no operation faults, and no
    process is ever lost.  The kernel process runs the loop of [_start] and calls
    nothing.  Left out are killing, which breaks the invariant
    ([kill_then_spawn_loses_process]), listing, releasing several locks, the calls
    that block and wake on a queue of the caller's, waiting for packages, and the
    initialisation of locks and the like, which exist from the beginning. *)

From S2P Require Import Prelude CString Printk Queue Kstate Sched Moves Lock Process.

(** ** What the table holds *)

(** The registers and the locks of an entry. *)
Definition file_ok (s : kstate) (x : pcb_t) : Prop :=
  regs_ok x ∧ length (locks x) = 8%nat ∧ ∀ a, Some a ∈ locks x → is_Some (mutexes s !! a).

Definition files_ok (s : kstate) : Prop := ∀ p x, aget (pcb s) p = Ok x → file_ok s x.

Lemma file_ok_same s s' x x' :
  same_files x x' → (∀ a, is_Some (mutexes s !! a) → is_Some (mutexes s' !! a)) →
  file_ok s x → file_ok s' x'.
Proof.
  intros (El & Ek & Eu) Hm ([Hr1 Hr2] & Hl & Ha). unfold file_ok, regs_ok. rewrite El, Ek, Eu. auto.
Qed.

(** A state with the same table and at least the mutexes. *)
Lemma files_ok_mutexes s s' :
  pcb s' = pcb s → (∀ a, is_Some (mutexes s !! a) → is_Some (mutexes s' !! a)) →
  files_ok s → files_ok s'.
Proof. intros Hp Hm Hf p x. rewrite Hp. intros Hx. by eapply file_ok_same, Hf. Qed.

Lemma files_ok_frame s s' : sched_frame s s' → files_ok s → files_ok s'.
Proof.
  intros [Hs He] Hf p x' (x & Hx & Hxx)%He. eapply file_ok_same; [done| |by eapply Hf].
  by rewrite (sy_mutexes _ _ Hs).
Qed.

Lemma files_ok_insert s s' p x y :
  aget (pcb s) p = Ok x → pcb s' = <[Z.to_nat p := y]> (pcb s) → mutexes s' = mutexes s →
  (file_ok s x → file_ok s y) → files_ok s → files_ok s'.
Proof.
  intros Hx Hp Hm Hy Hf p' z. pose proof (aget_bound _ _ _ Hx). rewrite Hp.
  unfold file_ok. rewrite Hm. destruct (decide (p' = p)) as [->|].
  - rewrite aget_insert_eq by done. intros [= <-]. eapply Hy, Hf, Hx.
  - rewrite aget_insert_ne by lia. apply Hf.
Qed.

Lemma upd_proc_m_files s p f s' :
  upd_proc_m s p f = Ok s' → (∀ x y, f x = Ok y → file_ok s x → file_ok s y) → files_ok s → files_ok s'.
Proof.
  unfold upd_proc_m. intros H Hf Hs. apply bind_Ok_inv in H as (i & _ & H).
  apply bind_Ok_inv in H as (x & Hx & H). apply bind_Ok_inv in H as (y & Hy & H).
  apply bind_Ok_inv in H as (l & [_ ->]%aset_Ok & [= <-]).
  by apply (files_ok_insert s _ i x y Hx); [..|eapply Hf|].
Qed.

Lemma upd_proc_files s p f s' :
  upd_proc s p f = Ok s' → (∀ x, file_ok s x → file_ok s (f x)) → files_ok s → files_ok s'.
Proof.
  unfold upd_proc. intros H Hf Hs. apply bind_Ok_inv in H as (i & _ & H).
  apply bind_Ok_inv in H as (x & Hx & H). apply bind_Ok_inv in H as (l & [_ ->]%aset_Ok & [= <-]).
  by apply (files_ok_insert s _ i x (f x) Hx); [..|apply Hf|].
Qed.

Lemma elem_of_replace_first ls o n l : l ∈ replace_first ls o n → l ∈ ls ∨ l = n.
Proof.
  induction ls as [|y ls IH]; cbn; [by left|]. case_decide; set_solver.
Qed.

Lemma replace_lock_ok s x o n :
  (∀ a, n = Some a → is_Some (mutexes s !! a)) → file_ok s x →
  file_ok s (x <| locks ::= λ ls, replace_first ls o n |>).
Proof.
  intros Hn (Hr & Hl & Ha). split; [done|]. split; [by cbn; rewrite replace_first_length|].
  intros a [Hin|Hin]%elem_of_replace_first; [by apply Ha|by apply Hn].
Qed.

Lemma set_mutex_files s a m : files_ok s → files_ok (set_mutex s a m).
Proof.
  apply files_ok_mutexes; [done|]. intros b Hb. cbn. destruct (decide (b = a)) as [->|].
  - rewrite lookup_insert_eq. by eexists.
  - by rewrite lookup_insert_ne.
Qed.

Lemma release_files s a s' : do_mutex_lock_release s a = Ok s' → files_ok s → files_ok s'.
Proof.
  unfold do_mutex_lock_release, forget_lock. intros H Hf.
  apply bind_Ok_inv in H as (m & _ & H). apply bind_Ok_inv in H as (s1 & H1 & H2%do_unblock_one_frame).
  eapply files_ok_frame; [done|]. eapply upd_proc_files; [done| |by apply set_mutex_files].
  intros x. by apply replace_lock_ok.
Qed.

Lemma rewind_stacks_ok s x y : rewind_stacks x = Ok y → regs_ok x → file_ok s x → file_ok s y.
Proof.
  intros Hy Hr (_ & Hl & Ha). rewrite rewind_stacks_spec in Hy by done. injection Hy as <-.
  split; [by apply rewound_regs|]. by split.
Qed.

Lemma terminate_files s p s' : terminate s p = Ok s' → files_ok s → files_ok s'.
Proof.
  unfold terminate, release_locks. intros H Hf.
  apply bind_Ok_inv in H as (s1 & H1 & H). apply bind_Ok_inv in H as (s2 & H2 & H).
  apply bind_Ok_inv in H as (i & _ & H). apply bind_Ok_inv in H as (s3 & H3%wake_waiters_frame & H).
  apply bind_Ok_inv in H as (x & _ & H). apply bind_Ok_inv in H as (s4 & H4%decrease_frame & [= <-]).
  apply (files_ok_frame s3); [etrans; [done|apply say_frame]|]. apply (files_ok_frame s2); [done|].
  eapply (for_range_keeps (λ _, files_ok)); [| | |exact H2]; [done| |].
  - eapply upd_proc_m_files; [exact H1| |done]. unfold clear_entry. intros y z Hz (Hr & Hl & Ha).
    apply bind_Ok_inv in Hz as (w & Hw & [= <-]). eapply rewind_stacks_ok in Hw; [exact Hw|done|by split_and!].
  - clear. intros i s s' _ Hf H. apply bind_Ok_inv in H as (x & _ & H). apply bind_Ok_inv in H as (l & Hl & H).
    destruct l as [a|]; [|by injection H as <-]. apply bind_Ok_inv in H as (s1 & H1 & H).
    eapply upd_proc_m_files; [exact H| |by eapply release_files]. intros y z Hz (Hr & Hy & Ha).
    apply bind_Ok_inv in Hz as (ls & Hls & [= <-]). split; [done|]. cbn. split.
    + by rewrite (aset_length _ _ _ _ Hls).
    + apply aset_Ok in Hls as [_ ->]. intros b [j Hj]%list_elem_of_lookup.
      apply list_lookup_insert_Some in Hj as [(_ & [=] & _)|[_ Hj]]. by eapply Ha, list_elem_of_lookup_2.
Qed.

Lemma find_free_files s prio r s' :
  create_proc_with_priority s prio = Ok (r, s') → files_ok s → files_ok s'.
Proof.
  unfold create_proc_with_priority. intros H Hf. apply bind_Ok_inv in H as (o & _ & H).
  apply bind_Ok_inv in H as (s1 & H1 & H). apply bind_Ok_inv in H as (s2 & H2%increase_frame & [= <- <-]).
  eapply files_ok_frame; [done|]. destruct o as [i|]; [|by injection H1 as <-].
  eapply upd_proc_m_files; [exact H1| |done]. intros x y Hy (Hr & Hl & Ha).
  eapply rewind_stacks_ok in Hy; [exact Hy|exact Hr|]. split; [exact Hr|by split].
Qed.

Lemma spawn_files exit_addr s task prio s' :
  do_spawn_with_priority exit_addr s task prio = Ok s' → files_ok s → files_ok s'.
Proof.
  unfold do_spawn_with_priority. intros H Hf.
  apply bind_Ok_inv in H as ([[p|] s1] & H1 & H); [|injection H as <-; by eapply find_free_files].
  apply bind_Ok_inv in H as (q & _ & H). apply bind_Ok_inv in H as (s2 & H2%k_push_frame & H).
  eapply upd_proc_m_files; [exact H| |].
  - unfold fill_entry. intros x y Hy ((Hr1 & Hr2) & Hl & Ha). apply bind_Ok_inv in Hy as (l & Hls & [= <-]).
    split; [split; cbn; [by rewrite (aset_length _ _ _ _ Hls)|done]|by split].
  - eapply files_ok_frame; [done|]. by eapply find_free_files.
Qed.

(** ** The invariant *)

(** The kernel process, which runs the endless loop of [_start]. *)
Definition kernel_pid : pid := 0.

(** The running process is in no queue; before a switch it can be blocked, or
    have exited. *)
Definition current_state (Q : queue_map) (c : pid) (x : pcb_t) : Prop :=
  match status x with
  | TASK_RUNNING | TASK_READY => unqueued Q c
  | TASK_EXITED => unqueued Q c ∧ c ≠ kernel_pid
  | TASK_BLOCKED => queued Q c ∧ (∀ i, c ∉ Q (QReady i)) ∧ c ≠ kernel_pid
  | TASK_CREATE => False
  end.

(** Every live process is queued or runs; in no two queues, by [sched_wf].  The
    kernel process runs, or waits in the ready queue from which the scheduler
    takes a process when it finds no other. *)
Record kinv (s : kstate) (Q : queue_map) : Prop := {
  ki_wf : sched_wf s Q;
  ki_files : files_ok s;
  ki_queued p x : queued Q p → aget (pcb s) p = Ok x → ¬ free_status x;
  ki_lost p x : aget (pcb s) p = Ok x → ¬ free_status x → queued Q p ∨ current_running s = Some p;
  ki_current : ∃ c x, current_running s = Some c ∧ aget (pcb s) c = Ok x ∧ current_state Q c x;
  ki_idle : ∃ x, aget (pcb s) kernel_pid = Ok x ∧ priority x = 0 ∧
    (current_running s = Some kernel_pid ∨ kernel_pid ∈ Q (QReady 0));
}.

Definition running_status (x : pcb_t) : Prop := status x = TASK_RUNNING ∨ status x = TASK_READY.

Lemma kinv_live s Q : kinv s Q → live_queues s Q.
Proof. intros [_ _ Hq _ _ _] p Hp (x & Hx & Hst). apply (Hq p x Hp Hx). by right. Qed.

Lemma running_runnable x : running_status x → runnable x.
Proof. unfold running_status, runnable. intros [-> | ->]; done. Qed.

Lemma running_not_free x : running_status x → ¬ free_status x.
Proof. unfold running_status, free_status. intros [-> | ->]; naive_solver. Qed.

Lemma current_runnable Q c x : current_state Q c x → runnable x → running_status x ∧ unqueued Q c.
Proof. unfold current_state, runnable, running_status. destruct (status x); naive_solver. Qed.

Lemma running_state Q c x : running_status x → current_state Q c x ↔ unqueued Q c.
Proof. unfold current_state, running_status. by intros [-> | ->]. Qed.

Lemma current_state_ok s Q c x :
  current_running s = Some c → aget (pcb s) c = Ok x → current_state Q c x → current_ok s Q c x.
Proof.
  intros Hc Hx Hs. split_and!; [done|done| |intros Hr; by eapply current_runnable].
  intros i Hi. unfold current_state in Hs.
  destruct (status x); try done; try (by apply (Hs (QReady i))); try (by apply (proj1 Hs (QReady i))).
  by apply (proj1 (proj2 Hs) i).
Qed.

(** A process that exists after an operation existed before. *)
Lemma entry_before s Q s' Q' p x' :
  sched_wf s Q → sched_wf s' Q' → aget (pcb s') p = Ok x' → ∃ x, aget (pcb s) p = Ok x.
Proof.
  intros H1 H2 Hx. apply aget_total. pose proof (aget_bound _ _ _ Hx).
  pose proof (wf_pcb _ _ H1). pose proof (wf_pcb _ _ H2). lia.
Qed.

Lemma kept_not_free x x' (P : Prop) : status x' = status x ∨ status x' = TASK_RUNNING ∧ P → ¬ free_status x → ¬ free_status x'.
Proof. unfold free_status. intros [->|[-> _]]; naive_solver. Qed.

(** Between two calls the process that runs is not blocked and has not exited. *)
Record settled (s : kstate) (Q : queue_map) : Prop := {
  se_kinv : kinv s Q;
  se_running : ∃ c x, current_running s = Some c ∧ aget (pcb s) c = Ok x ∧ running_status x;
}.

(** Where the kernel process does not run, a process is found. *)
Lemma ready_found s Q i r rest :
  kinv s Q → (i ≠ 0 → Q (QReady i) ≠ []) → first_live s (Q (QReady i)) r rest →
  r = None → current_running s = Some kernel_pid.
Proof.
  intros Hk Hi Hl ->. apply first_live_head in Hl; [|by apply kinv_live].
  destruct (ki_idle s Q Hk) as (x & _ & _ & [Hc|Hin]); [done|].
  destruct (decide (i = 0)) as [->|Hne]; [rewrite Hl in Hin; by apply elem_of_nil in Hin|by apply Hi in Hne].
Qed.

(** The scheduler, whatever the state of the process that ran. *)
Lemma kinv_scheduler s Q : kinv s Q → ∃ s' Q', scheduler s = Ok s' ∧ settled s' Q'.
Proof.
  intros Hk. pose proof Hk as [Hwf Hf Hq Hlost (c & x & Hc & Hx & Hst) (xk & Hxk & Hpk & Hidle)].
  pose proof (current_state_ok s Q c x Hc Hx Hst) as Hok.
  destruct (scheduler_full s Q c x Hwf Hok)
    as (s' & Q' & i & r & rest & Hrun & Hwf' & _ & Hi & Hl & Hr & Hfr & Hrk).
  exists s', Q'. split; [done|].
  pose proof (ready_found s Q i r rest Hk Hi Hl) as Hfound.
  pose proof (first_live_head _ _ _ _ _ (kinv_live s Q Hk) Hl) as Hhead.
  assert (∀ y, queued Q' y → queued Q y ∨ y = c ∧ runnable x) as Hback.
  { intros y. destruct r as [p|].
    - destruct Hr as (_ & _ & _ & Hiff). rewrite Hiff. intros [Hy|]; [left|by right].
      eapply queued_head; [exact Hhead|by left].
    - destruct Hr as (_ & _ & HQ). intros [q Hy]. left. exists q. rewrite HQ, qset_nil in Hy; done. }
  assert (∀ y, queued Q y ∨ y = c ∧ runnable x → queued Q' y ∨ current_running s' = Some y) as Hforth.
  { intros y Hy. destruct r as [p|].
    - destruct Hr as (-> & _ & _ & Hiff). rewrite Hiff.
      destruct Hy as [Hy|]; [|by left; right]. eapply queued_head in Hy; [|exact Hhead].
      destruct Hy as [|<-]; [by left; left|by right].
    - destruct Hr as (-> & _ & HQ). destruct Hy as [[q Hy]|[-> _]]; [|by right].
      left. exists q. by rewrite HQ, qset_nil. }
  assert (∀ y, y = c → ¬ free_status x → queued Q y ∨ y = c ∧ runnable x) as Hcur.
  { intros y -> Hnf. unfold current_state in Hst. unfold runnable, free_status in *.
    destruct (status x); naive_solver. }
  assert (runnable x → ¬ free_status x) as Hrf.
  { intros Hr'. apply running_not_free. by eapply current_runnable. }
  assert (∃ c x, current_running s' = Some c ∧ aget (pcb s') c = Ok x ∧ running_status x ∧ unqueued Q' c)
    as (c' & x' & Hc' & Hx' & Hr' & Hu').
  { destruct r as [p|].
    - destruct Hr as (Hp & Hun & (x' & Hx' & Hs') & _). exists p, x'. split_and!; [done|done|by left|done].
    - destruct Hr as (Hp & Hx' & HQ). exists c, x. rewrite Hc in Hfound.
      assert (running_status x ∧ unqueued Q c) as [Hrs Hun].
      { injection (Hfound eq_refl) as ->. unfold running_status, current_state in *.
        destruct (status x); naive_solver. }
      split_and!; [done|done|done|]. intros q. rewrite HQ, qset_nil by done. apply Hun. }
  split; [|by exists c', x'].
  split.
  - done.
  - by eapply files_ok_frame, Hf; apply scheduler_frame.
  - intros y w Hy Hw. destruct (entry_before _ _ _ _ _ _ Hwf Hwf' Hw) as [z Hz].
    destruct (Hfr y z Hz) as (z' & Hz' & _ & Hzs). rewrite Hw in Hz'. injection Hz' as <-.
    eapply kept_not_free; [exact Hzs|]. apply Hback in Hy as [Hy|[-> Hrx]]; [by eapply Hq|].
    rewrite Hx in Hz. injection Hz as <-. by apply Hrf.
  - intros y w Hw Hnf. destruct (entry_before _ _ _ _ _ _ Hwf Hwf' Hw) as [z Hz].
    destruct (Hfr y z Hz) as (z' & Hz' & _ & Hzs). rewrite Hw in Hz'. injection Hz' as <-.
    apply Hforth. destruct Hzs as [Hzs|[_ Hy]]; [|done].
    assert (¬ free_status z) as Hnz by (unfold free_status; by rewrite <- Hzs).
    destruct (Hlost y z Hz Hnz) as [|Hyc]; [by left|]. apply Hcur; [congruence|].
    assert (y = c) as -> by congruence. rewrite Hx in Hz. by injection Hz as <-.
  - exists c', x'. split_and!; [done|done|]. by apply running_state.
  - destruct (Hfr _ _ Hxk) as (yk & Hyk & Hpy & _). exists yk. split; [done|]. split; [congruence|].
    destruct r as [p|].
    + destruct (Hrk ltac:(by eexists)) as [Hr1 Hr2]. destruct Hidle as [Hkc|Hin].
      * right. assert (c = kernel_pid) as -> by congruence. assert (x = xk) as -> by congruence.
        rewrite <- Hpk. apply Hr2. unfold runnable, current_state in *. destruct (status xk); naive_solver.
      * apply Hr1; [|done]. apply (kinv_live s Q Hk). by exists (QReady 0).
    + left. destruct Hr as (-> & _). rewrite <- Hc. by apply Hfound.
Qed.

(** ** Operations of a process that runs *)

(** What a call may change without the scheduler: processes are woken, and the
    caller keeps its state. *)
Lemma kinv_moved s Q s' Q' c x :
  kinv s Q → current_running s = Some c → aget (pcb s) c = Ok x → running_status x →
  sched_wf s' Q' → files_ok s' → current_running s' = Some c → moved None s Q s' Q' → kinv s' Q'.
Proof.
  intros [Hwf Hf Hq Hlost (c0 & x0 & Hc0 & Hx0 & Hst) (xk & Hxk & Hpk & Hidle)] Hc Hx Hr Hwf' Hf' Hc' [Hmq Hmr Hms].
  assert (c0 = c) as -> by congruence. assert (x0 = x) as -> by congruence.
  apply running_state in Hst; [|done].
  assert (∀ p x', aget (pcb s') p = Ok x' → ∃ z, aget (pcb s) p = Ok z ∧
    (status x' = status z ∨ status x' = TASK_RUNNING ∧ queued Q p)) as Hb.
  { intros p x' Hx'. destruct (entry_before _ _ _ _ _ _ Hwf Hwf' Hx') as [z Hz].
    destruct (Hms p z) as (z' & Hz' & _ & Hzs); [done|done|]. exists z. split; [done|congruence]. }
  split; [done|done|..].
  - intros p x' Hp%Hmq Hx'. destruct (Hb p x' Hx') as (z & Hz & Hzs).
    eapply kept_not_free; [exact Hzs|]. by eapply Hq.
  - intros p x' Hx' Hnf. destruct (Hb p x' Hx') as (z & Hz & [Hzs|[_ Hp]]); [|left; by apply Hmq].
    rewrite Hmq, Hc', <- Hc. apply (Hlost p z Hz). unfold free_status. by rewrite <- Hzs.
  - destruct (Hms c x) as (x' & Hx' & _ & Hxs); [done|done|]. exists c, x'. split_and!; [done|done|].
    apply running_state; [unfold running_status; destruct Hxs as [->|[-> _]]; [done|by left]|].
    apply unqueued_queued. rewrite Hmq. by apply unqueued_queued.
  - destruct (Hms _ _ ltac:(done) Hxk) as (yk & Hyk & Hpy & _). exists yk.
    split; [done|]. split; [congruence|]. rewrite Hc', <- Hc. destruct Hidle; auto.
Qed.

(** Other variables of the kernel. *)
Lemma kinv_same_sched s Q s' : same_sched s s' → files_ok s' → kinv s Q → kinv s' Q.
Proof.
  intros Hs Hf' [Hwf Hf Hq Hl Hc Hi]. pose proof (same_sched_wf _ _ _ Hs Hwf) as Hwf'.
  destruct Hs as (Hp & _ & _ & _ & _ & _ & _ & Hcur).
  split; rewrite ?Hp, ?Hcur; done.
Qed.

Lemma queued_joined Q q c y :
  queued (qset Q q (joined (Q q) c)) y ↔ queued Q y ∨ y = c.
Proof.
  unfold joined. case_decide as Hc; [|apply queued_qset_snoc].
  assert (∀ q', qset Q q (Q q) q' = Q q') as HQ by (intros; unfold qset; case_decide; congruence).
  rewrite (queued_ext Q _ y HQ). split; [by left|]. intros [| ->]; [done|by exists q].
Qed.

(** The queues in which a process can wait: [recv_block_queue] belongs to the
    network driver. *)
Definition wait_queue (q : qid) : bool := match q with QReady _ | QRecv => false | _ => true end.

Lemma wait_queue_spec q : wait_queue q = true → (∀ i, q ≠ QReady i) ∧ q ≠ QRecv.
Proof. destruct q; done. Qed.

(** The caller, blocked, at the end of a queue, before the switch. *)
Lemma kinv_blocked s Q c x q s1 :
  kinv s Q → current_running s = Some c → aget (pcb s) c = Ok x → ¬ free_status x →
  c ≠ kernel_pid → wait_queue q = true → (∀ q', c ∈ Q q' → q' = q) →
  sched_wf s1 (qset Q q (joined (Q q) c)) → current_running s1 = Some c →
  pcb s1 = <[Z.to_nat c := x <| status := TASK_BLOCKED |>]> (pcb s) → mutexes s1 = mutexes s →
  kinv s1 (qset Q q (joined (Q q) c)).
Proof.
  intros [Hwf Hf Hq Hlost _ (xk & Hxk & Hpk & Hidle)] Hc Hx Hnf Hck [Hnr _]%wait_queue_spec Hun Hwf1 Hc1 Hp1 Hm1.
  pose proof (aget_bound _ _ _ Hx) as Hb.
  assert (∀ p z, aget (pcb s1) p = Ok z → p = c ∨ p ≠ c ∧ aget (pcb s) p = Ok z) as Hback.
  { intros p z. rewrite Hp1. destruct (decide (p = c)) as [->|Hne]; [by left|].
    rewrite aget_insert_ne by lia. by right. }
  assert (aget (pcb s1) c = Ok (x <| status := TASK_BLOCKED |>)) as Hx1
    by (rewrite Hp1; by apply aget_insert_eq).
  split; [done| | | | |].
  - by eapply files_ok_insert; [exact Hx|exact Hp1|done| |].
  - intros p z Hp Hz. destruct (Hback p z Hz) as [->|[Hne Hz0]].
    + rewrite Hx1 in Hz. injection Hz as <-. by intros [?|?].
    + apply queued_joined in Hp as [Hp|]; [by eapply Hq|done].
  - intros p z Hz Hnz. rewrite queued_joined, Hc1. destruct (Hback p z Hz) as [->|[Hne Hz0]]; [by right|].
    destruct (Hlost p z Hz0 Hnz) as [|Hpc]; [by left; left|]. by rewrite Hc in Hpc; right.
  - exists c, (x <| status := TASK_BLOCKED |>). split; [done|]. split; [done|]. split_and!; [| |done].
    + apply queued_joined. by right.
    + intros i. rewrite qset_ne by (intros E; by apply (Hnr i)). intros Hi%Hun. by apply (Hnr i).
  - exists xk. rewrite Hp1, aget_insert_ne by (unfold kernel_pid in *; lia).
    split; [done|]. split; [done|]. right. rewrite qset_ne by (intros E; by apply (Hnr 0)).
    destruct Hidle as [|]; [congruence|done].
Qed.

(** The process that runs, at a system call: not the kernel process. *)
Record calling (s : kstate) (Q : queue_map) (c : pid) (x : pcb_t) : Prop := {
  ca_kinv : kinv s Q;
  ca_user : c ≠ kernel_pid;
  ca_current : current_running s = Some c;
  ca_entry : aget (pcb s) c = Ok x;
  ca_running : running_status x;
  ca_unqueued : unqueued Q c;
}.

Lemma calling_intro s Q c x :
  kinv s Q → c ≠ kernel_pid → current_running s = Some c → aget (pcb s) c = Ok x → running_status x →
  calling s Q c x.
Proof.
  intros Hk Hn Hc Hx Hr. split; try done. destruct Hk as [_ _ _ _ (c0 & x0 & Hc0 & Hx0 & Hst) _].
  assert (c0 = c) as -> by congruence. assert (x0 = x) as -> by congruence.
  by apply (running_state Q c x).
Qed.

Lemma calling_update s Q c x s' : same_sched s s' → files_ok s' → calling s Q c x → calling s' Q c x.
Proof.
  intros Hs Hf [Hk Hn Hc Hx Hr Hu]. pose proof (kinv_same_sched _ _ _ Hs Hf Hk).
  destruct Hs as (Hp & _ & _ & _ & _ & _ & _ & Hcur). split; rewrite ?Hp, ?Hcur; done.
Qed.

Lemma calling_settled s Q c x : calling s Q c x → settled s Q.
Proof. intros [Hk Hn Hc Hx Hr Hu]. split; [done|]. by exists c, x. Qed.

Lemma calling_blocked s Q c x q s1 :
  calling s Q c x → wait_queue q = true →
  sched_wf s1 (qset Q q (joined (Q q) c)) → current_running s1 = Some c →
  pcb s1 = <[Z.to_nat c := x <| status := TASK_BLOCKED |>]> (pcb s) → mutexes s1 = mutexes s →
  ∃ s' Q', scheduler s1 = Ok s' ∧ settled s' Q'.
Proof.
  intros [Hk Hn Hc Hx Hr Hu] Hw Hwf1 Hc1 Hp1 Hm1. eapply kinv_scheduler.
  eapply kinv_blocked; [exact Hk|done|exact Hx|by apply running_not_free|done|done|by intros q' ?%Hu|done..].
Qed.

Lemma calling_block s Q c x q :
  calling s Q c x → wait_queue q = true → ∃ s' Q', do_block s q = Ok s' ∧ settled s' Q'.
Proof.
  intros H Hw. pose proof H as [Hk Hn Hc Hx Hr Hu]. destruct (wait_queue_spec q Hw) as [Hnr Hrecv].
  destruct (do_block_full s Q q c x (ki_wf _ _ Hk) Hc Hx) as (s1 & -> & Hwf1 & Hc1 & Hp1 & Hm1);
    [by intros q' ?%Hu|done|done|]. eapply calling_blocked; [done|done|exact Hwf1|apply Hc1|done|done].
Qed.

Lemma calling_moved s Q c x s' Q' :
  calling s Q c x → sched_wf s' Q' → files_ok s' → current_running s' = Some c →
  moved None s Q s' Q' → ∃ x', calling s' Q' c x'.
Proof.
  intros [Hk Hn Hc Hx Hr Hu] Hwf' Hf' Hc' Hm.
  destruct (mv_status _ _ _ _ _ Hm c x) as (x' & Hx' & _ & Hxs); [done|done|].
  exists x'. apply calling_intro; [by eapply kinv_moved|done|done|done|].
  destruct Hxs as [Hxs|[Hxs _]]; [unfold running_status; by rewrite Hxs|by left].
Qed.

Lemma calling_wake_one s Q c x q :
  calling s Q c x → wait_queue q = true → ∃ s' Q' x', do_unblock_one s q = Ok s' ∧ calling s' Q' c x'.
Proof.
  intros Hca [Hnr _]%wait_queue_spec. pose proof Hca as [Hk Hn Hc Hx Hr Hu].
  destruct (do_unblock_one_lemma s Q q (ki_wf _ _ Hk)) as (s' & Q' & r & rest & Hrun & Hwf' & Hl & Hc' & Hw).
  destruct (calling_moved s Q c x s' Q') as [x' Hca']; [done|done| |congruence| |by exists s', Q', x'].
  - eapply files_ok_frame; [by eapply do_unblock_one_frame|]. apply Hk.
  - apply (unblocked_moved None s s Q q r rest); [by apply kinv_live|done|done|by apply same_status_pcb|done].
Qed.

Lemma calling_wake_all s Q c x q :
  calling s Q c x → wait_queue q = true → ∃ s' Q' x', do_unblock_all s q = Ok s' ∧ calling s' Q' c x'.
Proof.
  intros Hca [Hnr _]%wait_queue_spec. pose proof Hca as [Hk Hn Hc Hx Hr Hu].
  destruct (unblock_loop_spec (queue_fuel s) s Q q (ki_wf _ _ Hk) Hnr) as (s' & Q' & Hrun & Hwf' & Haw).
  { unfold queue_fuel. pose proof (queue_rep_length _ _ _ (wf_queue _ _ (wf_queues _ _ (ki_wf _ _ Hk)) q)). lia. }
  destruct (calling_moved s Q c x s' Q') as [x' Hca']; [done|done| | | |by exists s', Q', x'].
  - apply (files_ok_frame s); [exact (do_unblock_all_frame s q s' Hrun)|apply Hk].
  - rewrite (aw_current _ _ _ _ _ Haw). done.
  - apply (all_woken_moved None s Q q); [by apply kinv_live|done|done].
Qed.

(** ** Mutexes *)

Lemma set_mutex_calling s Q c x a m : calling s Q c x → calling (set_mutex s a m) Q c x.
Proof.
  intros H. apply (calling_update s); [done| |done].
  apply set_mutex_files, (ki_files _ _ (ca_kinv _ _ _ _ H)).
Qed.

Lemma calling_acquire s Q c x a m :
  calling s Q c x → mutexes s !! a = Some m →
  ∃ r s' Q', do_mutex_lock_acquire s a = Ok (r, s') ∧ settled s' Q'.
Proof.
  intros Hca Hm. pose proof Hca as [Hk Hn Hc Hx Hr Hu]. destruct (m_status m) eqn:Hst.
  - destruct (acquire_free s Q a m c x (ki_wf _ _ Hk) Hc Hx Hu Hm Hst)
      as (s' & Hrun & Hwf' & Hc' & Hm' & Hx' & Hp').
    exists Done, s', Q. split; [done|]. set (s0 := set_mutex s a (m <| m_status := LOCKED |>)).
    assert (files_ok s') as Hf.
    { apply (files_ok_insert s0 s' c x _ Hx Hp' Hm'); [|by apply set_mutex_files, Hk].
      apply replace_lock_ok. intros b [= <-]. cbn. rewrite lookup_insert_eq. by eexists. }
    destruct (calling_moved s Q c x s' Q Hca Hwf' Hf Hc') as [x' H'%calling_settled]; [|done].
    apply same_status_moved. eapply same_status_upd; [exact Hx|exact Hp'|by right].
  - destruct (acquire_busy s Q a m c x (ki_wf _ _ Hk) Hc Hx) as (s1 & s' & Hrun & Hs & Hwf1 & Hc1 & _ & Hp1 & Hm1);
      [by intros q ?%Hu|done|done|].
    destruct (calling_blocked s Q c x (QLock a) s1) as (s2 & Q2 & Hs2 & Hk2); [done..|apply Hc1|done|done|].
    exists (InAcquire a), s', Q2. split; [done|]. by assert (s' = s2) as -> by congruence.
Qed.

Lemma calling_release s Q c x a m :
  calling s Q c x → mutexes s !! a = Some m →
  ∃ s' Q' x', do_mutex_lock_release s a = Ok s' ∧ calling s' Q' c x'.
Proof.
  intros Hca Hm. pose proof Hca as [Hk Hn Hc Hx Hr Hu].
  destruct (release_spec s Q a m c x (ki_wf _ _ Hk) Hc Hx Hm)
    as (s1 & s' & Q' & r & rest & Hrun & Hwf' & Hc' & _ & Hx1 & Hoth & Hl & Hw).
  destruct (calling_moved s Q c x s' Q') as [x' Hca']; [done|done| |done| |by exists s', Q', x'].
  - eapply release_files; [done|apply Hk].
  - apply (unblocked_moved None s s1 Q (QLock a) r rest); [by apply kinv_live|done|done| |done].
    intros p y _ Hy. destruct (decide (p = c)) as [->|Hne].
    + eexists. split; [exact Hx1|]. cbn. split; congruence.
    + exists y. by rewrite Hoth.
Qed.


(** ** Semaphores, conditions and barriers *)

Lemma set_sem_calling s Q c x a v : calling s Q c x → calling (set_sem s a v) Q c x.
Proof.
  intros H. apply (calling_update s); [done| |done].
  apply (files_ok_mutexes s); [done|done|apply (ki_files _ _ (ca_kinv _ _ _ _ H))].
Qed.

Lemma set_barrier_calling s Q c x a v : calling s Q c x → calling (set_barrier s a v) Q c x.
Proof.
  intros H. apply (calling_update s); [done| |done].
  apply (files_ok_mutexes s); [done|done|apply (ki_files _ _ (ca_kinv _ _ _ _ H))].
Qed.

(** A call that has returned, or switched, keeps the invariant. *)
Definition keeps (r : outcome kstate) : Prop := ∃ s' Q', r = Ok s' ∧ settled s' Q'.

Lemma keeps_calling s Q c x : calling s Q c x → keeps (Ok s).
Proof. intros H. exists s, Q. split; [done|by eapply calling_settled]. Qed.

Lemma keeps_block s Q c x q : calling s Q c x → wait_queue q = true → keeps (do_block s q).
Proof. intros H Hq. apply (calling_block s Q c x q H Hq). Qed.

Lemma keeps_wake_one s Q c x q : calling s Q c x → wait_queue q = true → keeps (do_unblock_one s q).
Proof.
  intros H Hq. destruct (calling_wake_one s Q c x q H Hq) as (s' & Q' & x' & -> & H'). by eapply keeps_calling.
Qed.

Lemma keeps_wake_all s Q c x q : calling s Q c x → wait_queue q = true → keeps (do_unblock_all s q).
Proof.
  intros H Hq. destruct (calling_wake_all s Q c x q H Hq) as (s' & Q' & x' & -> & H'). by eapply keeps_calling.
Qed.

Lemma keeps_up s Q c x a v :
  calling s Q c x → semaphores s !! a = Some v → keeps (do_semaphore_up s a).
Proof.
  intros H Hv. unfold do_semaphore_up, get_sem. rewrite Hv, bind_Ok.
  case_match; [eapply keeps_wake_one; [|done]|eapply keeps_calling]; by apply set_sem_calling.
Qed.

(** The control point of a handler that can block does not matter here. *)
Definition state_of (r : outcome (control * kstate)) : outcome kstate := '(_, s) ← r; Ok s.

Lemma state_of_bind r c : state_of (s ← r; Ok (c, s)) = r.
Proof. by destruct r. Qed.

Lemma keeps_semaphore_wait s Q c x a v :
  calling s Q c x → semaphores s !! a = Some v → keeps (state_of (semaphore_wait s a)).
Proof.
  intros H Hv. unfold semaphore_wait, get_sem. rewrite Hv, bind_Ok.
  case_match; [|by eapply keeps_calling]. rewrite state_of_bind. by eapply keeps_block.
Qed.

Lemma keeps_down s Q c x a v :
  calling s Q c x → semaphores s !! a = Some v → keeps (state_of (do_semaphore_down s a)).
Proof.
  intros H Hv. unfold do_semaphore_down, get_sem. rewrite Hv, bind_Ok.
  eapply keeps_semaphore_wait; [by apply set_sem_calling|apply lookup_insert_eq].
Qed.

Lemma keeps_acquire s Q c x a m :
  calling s Q c x → mutexes s !! a = Some m → keeps (state_of (do_mutex_lock_acquire s a)).
Proof.
  intros H Hm. destruct (calling_acquire s Q c x a m H Hm) as (r & s' & Q' & -> & Hk). by exists s', Q'.
Qed.

Lemma keeps_condition_wait s Q c x l a m :
  calling s Q c x → mutexes s !! l = Some m → keeps (state_of (do_condition_wait s l a)).
Proof.
  intros H Hm. unfold do_condition_wait.
  destruct (calling_release s Q c x l m H Hm) as (s1 & Q1 & x1 & -> & H1).
  rewrite bind_Ok, state_of_bind. by eapply keeps_block.
Qed.

Lemma keeps_barrier_wait s Q c x a b :
  calling s Q c x → barriers s !! a = Some b → keeps (state_of (do_barrier_wait s a)).
Proof.
  intros H Hb. unfold do_barrier_wait, get_barrier. rewrite Hb, bind_Ok.
  case_match; rewrite state_of_bind; [eapply keeps_block|eapply keeps_wake_all]; try done;
    repeat apply set_barrier_calling; done.
Qed.

(** ** Sleeping, waiting, creating and ending *)

Lemma keeps_sleep s Q c x t : calling s Q c x → keeps (do_sleep s t).
Proof.
  intros H. pose proof H as [Hk Hn Hc Hx Hr Hu]. unfold do_sleep. rewrite Hc.
  set (w := u32 (i32 (u32 (t + time_elapsed s)))).
  destruct (upd_proc_keeps s Q c (λ x, x <| awake_time := w |>) (ki_wf _ _ Hk))
    as (y & s1 & Hy & Hup & Hwf1 & Hs1 & _); [by eapply aget_pcb_ok; [apply Hk|]|done|].
  rewrite Hup, bind_Ok. destruct (calling_moved s Q c x s1 Q H Hwf1) as [x1 H1].
  - eapply upd_proc_files; [exact Hup|by intros z|apply Hk].
  - by rewrite Hs1.
  - apply same_status_moved. eapply same_status_upd; [exact Hy|by rewrite Hs1|by right].
  - by eapply keeps_block.
Qed.

Lemma keeps_waitpid s Q c x p : calling s Q c x → keeps (do_waitpid s p).
Proof.
  intros H. pose proof H as [Hk Hn Hc Hx Hr Hu]. unfold do_waitpid.
  case_match; [by eapply keeps_calling|].
  assert (∃ r, get_proc_by_pid s p = Ok r) as [[i|] ->].
  { unfold get_proc_by_pid. destruct ((p <? 0) || (NUM_MAX_TASK <=? p)) eqn:Hp; [by eexists|].
    destruct (aget_total (pcb s) p) as [y ->]; [rewrite (wf_pcb _ _ (ki_wf _ _ Hk)); lia|].
    rewrite bind_Ok. case_decide; by eexists. }
  - rewrite bind_Ok. by eapply keeps_block.
  - by eapply keeps_calling.
Qed.

Lemma keeps_spawn exit_addr s Q c x task prio :
  0 ≤ prio < MAX_PRIORITY_NUM → calling s Q c x → keeps (do_spawn_with_priority exit_addr s task prio).
Proof.
  intros Hprio H. pose proof H as [Hk Hn Hc Hx Hr Hu]. pose proof Hk as [Hwf Hf Hq Hl _ (xk & Hxk & Hpk & Hidle)].
  destruct (spawn_spec exit_addr s Q task prio Hwf Hprio) as (r & s' & Hrun & Hfree & Hc' & Hs).
  { intros p y Hy. apply (Hf p y Hy). }
  { intros i (_ & (y & Hy & Hyf) & _). apply unqueued_queued. intros Hi. by apply (Hq i y Hi Hy). }
  rewrite Hrun.
  pose proof (spawn_files _ _ _ _ _ Hrun Hf) as Hf'. destruct r as [p|].
  - destruct Hs as (Hwf' & Hoth & y & Hy & Hst & _). destruct Hfree as (_ & (z & Hz & Hzf) & _).
    assert (p ≠ c) as Hpc.
    { intros ->. rewrite Hx in Hz. injection Hz as <-. by apply (running_not_free x Hr). }
    assert (¬ free_status y) as Hnf by (unfold free_status; rewrite Hst; by intros [|]).
    exists s', (qset Q (QReady prio) (Q (QReady prio) ++ [p])). split; [done|].
    assert (aget (pcb s') c = Ok x) as Hx' by (by rewrite Hoth).
    split; [|by exists c, x; rewrite Hc']. split; [done|done|..].
    + intros j w Hj Hw. destruct (decide (j = p)) as [->|]; [congruence|]. rewrite Hoth in Hw by done.
      apply queued_qset_snoc in Hj as [Hj|]; [by eapply Hq|done].
    + intros j w Hw Hnw. rewrite queued_qset_snoc, Hc'.
      destruct (decide (j = p)) as [->|]; [by left; right|]. rewrite Hoth in Hw by done.
      destruct (Hl j w Hw Hnw); [by left; left|by right].
    + exists c, x. split; [congruence|]. split; [done|].
      apply running_state; [done|]. apply unqueued_queued.
      intros [Hcq| ->]%queued_qset_snoc; [by apply unqueued_queued in Hcq|done].
    + exists xk. destruct Hidle as [|Hin]; [congruence|]. rewrite Hoth.
      2: { intros <-. rewrite Hxk in Hz. injection Hz as <-. apply (Hq _ _ ltac:(by exists (QReady 0)) Hxk Hzf). }
      split; [done|]. split; [done|]. right. by apply ready_kept_snoc.
  - destruct Hs as [Hwf' Hp']. exists s', Q. split; [done|].
    destruct (calling_moved s Q c x s' Q H Hwf' Hf') as [x' H'%calling_settled]; [congruence| |done].
    by apply same_status_moved, same_status_pcb.
Qed.

(** After its end the process is free, and in no queue. *)
Lemma keeps_exit s Q c x : calling s Q c x → keeps (do_exit s).
Proof.
  intros H. pose proof H as [Hk Hn Hc Hx Hr Hu]. pose proof Hk as [Hwf Hf Hq Hl _ (xk & Hxk & Hpk & Hidle)].
  destruct (Hf c x Hx) as (_ & Hlen & Hlk).
  destruct (terminate_spec s Q c x Hwf Hc Hx Hu Hlen Hlk) as (s1 & Q1 & x1 & Ht & Hte).
  unfold do_exit. rewrite Hc, Ht, bind_Ok. apply (kinv_scheduler s1 Q1).
  destruct (te_moved _ _ _ _ _ _ Hte (kinv_live s Q Hk)) as [Hmq Hmr Hms].
  destruct Hte as [Hwf1 Hc1 Hx1 Hst1 Hu1 _ _ _ _ _].
  assert (∀ p y, p ≠ c → aget (pcb s1) p = Ok y → ∃ z, aget (pcb s) p = Ok z ∧
    (status y = status z ∨ status y = TASK_RUNNING ∧ queued Q p)) as Hb.
  { intros p y Hp Hy. destruct (entry_before _ _ _ _ _ _ Hwf Hwf1 Hy) as [z Hz].
    destruct (Hms p z) as (y' & Hy' & _ & Hys); [congruence|done|]. exists z. split; [done|congruence]. }
  split; [done|by eapply terminate_files|..].
  - intros p y Hp Hy. assert (p ≠ c) as Hpc by (intros ->; by apply unqueued_queued in Hp).
    destruct (Hb p y Hpc Hy) as (z & Hz & Hzs). eapply kept_not_free; [exact Hzs|].
    apply Hmq in Hp. by eapply Hq.
  - intros p y Hy Hnf. destruct (decide (p = c)) as [->|Hpc].
    { exfalso. apply Hnf. right. rewrite Hx1 in Hy. by injection Hy as <-. }
    destruct (Hb p y Hpc Hy) as (z & Hz & [Hzs|[_ Hp]]); [|left; by apply Hmq].
    rewrite Hmq, Hc1, <- Hc. apply (Hl p z Hz). unfold free_status. by rewrite <- Hzs.
  - exists c, x1. split_and!; [done|done|]. unfold current_state. by rewrite Hst1.
  - destruct (Hms kernel_pid xk) as (yk & Hyk & Hpy & _); [congruence|done|].
    exists yk. split; [done|]. split; [congruence|]. right. apply Hmr.
    destruct Hidle as [|]; [congruence|done].
Qed.

Lemma keeps_exec exit_addr tasks s Q c x id : calling s Q c x → keeps (do_exec exit_addr tasks s id).
Proof.
  intros H. unfold do_exec. destruct (_ || _) eqn:Hid; [by eapply keeps_calling|].
  apply orb_false_iff in Hid as [?%Z.ltb_ge ?%Z.leb_gt].
  destruct (aget_total tasks id) as [task ->]; [lia|]. rewrite bind_Ok.
  by apply (keeps_spawn exit_addr s Q c x).
Qed.

(** The clock interrupt, up to the switch and after it. *)
Lemma kinv_tick s Q : kinv s Q → keeps (irq_timer s).
Proof.
  intros Hk. unfold irq_timer.
  assert (kinv (say s Screen_reflush) Q) as H1.
  { apply (kinv_same_sched s); [done| |done]. by apply (files_ok_mutexes s), Hk. }
  destruct (kinv_scheduler _ _ H1) as (s2 & Q2 & Hs2 & H2).
  unfold do_scheduler. rewrite Hs2. by exists s2, Q2.
Qed.

Lemma settled_same s Q s' : same_sched s s' → mutexes s' = mutexes s → settled s Q → settled s' Q.
Proof.
  intros Hs Hm [Hk Hr]. pose proof Hs as (Hp & _ & _ & _ & _ & _ & _ & Hc). split.
  - apply (kinv_same_sched s); [done| |done]. apply (files_ok_mutexes s); [done|by rewrite Hm|apply Hk].
  - by rewrite Hp, Hc.
Qed.

(** ** The objects of the continuations *)

(** Locks and semaphores do not disappear. *)
Record objects_kept (s s' : kstate) : Prop := {
  ok_mutexes a : is_Some (mutexes s !! a) → is_Some (mutexes s' !! a);
  ok_semaphores a : is_Some (semaphores s !! a) → is_Some (semaphores s' !! a);
}.

#[export] Instance objects_kept_preorder : PreOrder objects_kept.
Proof.
  split; [by intros s|]. intros s1 s2 s3 [H1 H2] [H3 H4]. split; auto.
Qed.

Lemma sync_kept s s' : sync_eq s s' → objects_kept s s'.
Proof. intros H. split; intros a; by rewrite ?(sy_mutexes _ _ H), ?(sy_semaphores _ _ H). Qed.

Lemma frame_kept s s' : sched_frame s s' → objects_kept s s'.
Proof. intros [H _]. by apply sync_kept. Qed.

Lemma set_mutex_kept s a m : objects_kept s (set_mutex s a m).
Proof.
  split; [|done]. intros b Hb. cbn. destruct (decide (b = a)) as [->|].
  - rewrite lookup_insert_eq. by eexists.
  - by rewrite lookup_insert_ne.
Qed.

Lemma set_sem_kept s a v : objects_kept s (set_sem s a v).
Proof.
  split; [done|]. intros b Hb. cbn. destruct (decide (b = a)) as [->|].
  - rewrite lookup_insert_eq. by eexists.
  - by rewrite lookup_insert_ne.
Qed.

Lemma set_barrier_kept s a v : objects_kept s (set_barrier s a v).
Proof. done. Qed.

(** What a process will use when it goes on. *)
Definition control_ok (s : kstate) (r : control) : Prop :=
  match r with
  | InAcquire a | InWait _ a => is_Some (mutexes s !! a)
  | InDown a => is_Some (semaphores s !! a)
  | Done | InBarrier _ => True
  end.

Lemma control_ok_kept s s' r : objects_kept s s' → control_ok s r → control_ok s' r.
Proof. intros [H1 H2]. destruct r; cbn; auto. Qed.

(** A handler keeps the objects, and stops where it can go on. *)
Definition stops_ok (s : kstate) (m : outcome (control * kstate)) : Prop :=
  ∀ r s', m = Ok (r, s') → objects_kept s s' ∧ control_ok s' r.

Definition returns (m : outcome kstate) : outcome (control * kstate) := s ← m; Ok (Done, s).

Lemma returns_ok s m : (∀ s', m = Ok s' → objects_kept s s') → stops_ok s (returns m).
Proof. intros H r s' (s1 & H1 & [= <- <-])%bind_Ok_inv. by split; [apply H|]. Qed.

Lemma upd_proc_kept s p f s' : upd_proc s p f = Ok s' → objects_kept s s'.
Proof. intros H. by eapply sync_kept, upd_proc_sync. Qed.

Lemma upd_proc_m_kept s p f s' : upd_proc_m s p f = Ok s' → objects_kept s s'.
Proof. unfold upd_proc_m. intros H. outcome_inv H. by subst. Qed.

Lemma acquire_stops s a : stops_ok s (do_mutex_lock_acquire s a).
Proof.
  intros r s'. unfold do_mutex_lock_acquire, get_mutex.
  destruct (mutexes s !! a) as [m|] eqn:Hm; [|done]. rewrite bind_Ok. case_decide.
  - intros (c & _ & (s1 & H1%k_push_if_frame & (s2 & H2%do_block_frame & [= <- <-])%bind_Ok_inv)%bind_Ok_inv)%bind_Ok_inv.
    assert (objects_kept s s2) as Hk by (etrans; by apply frame_kept). split; [done|].
    apply (ok_mutexes _ _ Hk). by eexists.
  - intros (s1 & H1%upd_proc_kept & Hrun)%bind_Ok_inv.
    assert (objects_kept s s1) as Hk by (etrans; [apply set_mutex_kept|done]).
    case_decide; [|by injection Hrun as <- <-].
    apply bind_Ok_inv in Hrun as ([p s2] & H2%k_dequeue_frame & [= <- <-]).
    split; [|done]. etrans; [done|by apply frame_kept].
Qed.

Lemma release_kept s a s' : do_mutex_lock_release s a = Ok s' → objects_kept s s'.
Proof.
  unfold do_mutex_lock_release. intros (m & _ & (s1 & H1%upd_proc_kept & H2%do_unblock_one_frame)%bind_Ok_inv)%bind_Ok_inv.
  etrans; [apply set_mutex_kept|]. etrans; [done|by apply frame_kept].
Qed.

Lemma up_kept s a s' : do_semaphore_up s a = Ok s' → objects_kept s s'.
Proof.
  unfold do_semaphore_up. intros (x & _ & H)%bind_Ok_inv. case_match; [|injection H as <-; apply set_sem_kept].
  etrans; [apply set_sem_kept|]. by eapply frame_kept, do_unblock_one_frame.
Qed.

Lemma semaphore_wait_stops s a : stops_ok s (semaphore_wait s a).
Proof.
  intros r s'. unfold semaphore_wait, get_sem. destruct (semaphores s !! a) as [v|] eqn:Hv; [|done].
  rewrite bind_Ok. case_match; [|by intros [= <- <-]].
  intros (s1 & H1%do_block_frame%frame_kept & [= <- <-])%bind_Ok_inv. split; [done|].
  apply (ok_semaphores _ _ H1). by eexists.
Qed.

Lemma down_stops s a : stops_ok s (do_semaphore_down s a).
Proof.
  intros r s'. unfold do_semaphore_down. intros (x & _ & [Hk Hc]%semaphore_wait_stops)%bind_Ok_inv.
  split; [|done]. etrans; [apply set_sem_kept|done].
Qed.

Lemma condition_wait_stops s l a : stops_ok s (do_condition_wait s l a).
Proof.
  intros r s'. unfold do_condition_wait.
  intros (s1 & H1 & (s2 & H2%do_block_frame%frame_kept & [= <- <-])%bind_Ok_inv)%bind_Ok_inv.
  assert (is_Some (mutexes s !! l)) as Hm.
  { unfold do_mutex_lock_release, get_mutex in H1. destruct (mutexes s !! l); [by eexists|done]. }
  assert (objects_kept s s2) as Hk by (etrans; [by eapply release_kept|done]). split; [done|].
  by apply (ok_mutexes _ _ Hk).
Qed.

Lemma barrier_wait_stops s a : stops_ok s (do_barrier_wait s a).
Proof.
  intros r s'. unfold do_barrier_wait. intros (x & _ & H)%bind_Ok_inv.
  case_match; apply bind_Ok_inv in H as (s1 & H1 & [= <- <-]); (split; [|done]).
  - etrans; [apply (set_barrier_kept s)|]. by eapply frame_kept, do_block_frame.
  - etrans; [apply (set_barrier_kept s)|]. etrans; [apply set_barrier_kept|].
    by eapply frame_kept, do_unblock_all_frame.
Qed.

Lemma continue_stops s r : control_ok s r → stops_ok s (continue s r).
Proof.
  intros _. destruct r; cbn [continue]; [|apply acquire_stops|apply semaphore_wait_stops|apply acquire_stops|];
    by intros r s' [= <- <-].
Qed.

Lemma sleep_kept s t s' : do_sleep s t = Ok s' → objects_kept s s'.
Proof.
  unfold do_sleep. intros (s1 & H1%upd_proc_kept & H2%do_block_frame%frame_kept)%bind_Ok_inv. by etrans.
Qed.

Lemma waitpid_kept s p s' : do_waitpid s p = Ok s' → objects_kept s s'.
Proof.
  unfold do_waitpid. case_match; [by intros [= <-]|]. intros ([i|] & _ & Hrun)%bind_Ok_inv; [|by injection Hrun as <-].
  by eapply frame_kept, do_block_frame.
Qed.

Lemma spawn_kept exit_addr s task prio s' :
  do_spawn_with_priority exit_addr s task prio = Ok s' → objects_kept s s'.
Proof.
  unfold do_spawn_with_priority. intros ([o s1] & H1 & H)%bind_Ok_inv.
  assert (objects_kept s s1) as Hk.
  { unfold create_proc_with_priority in H1. apply bind_Ok_inv in H1 as (r & _ & H1).
    apply bind_Ok_inv in H1 as (s2 & H2 & H1). apply bind_Ok_inv in H1 as (s3 & H3%increase_frame & [= <- <-]).
    etrans; [|by apply frame_kept]. destruct r; [by eapply upd_proc_m_kept|by injection H2 as <-]. }
  etrans; [exact Hk|]. destruct o; [|by injection H as <-].
  apply bind_Ok_inv in H as (q & _ & H). apply bind_Ok_inv in H as (s2 & H2%k_push_frame & H).
  etrans; [by apply frame_kept|by eapply upd_proc_m_kept].
Qed.

Lemma exec_kept exit_addr tasks s id s' : do_exec exit_addr tasks s id = Ok s' → objects_kept s s'.
Proof.
  unfold do_exec. case_match; [by intros [= <-]|]. intros (task & _ & Hrun)%bind_Ok_inv. by eapply spawn_kept.
Qed.

Lemma terminate_kept s p s' : terminate s p = Ok s' → objects_kept s s'.
Proof.
  unfold terminate, release_locks. intros H.
  apply bind_Ok_inv in H as (s1 & H1%upd_proc_m_kept & H). apply bind_Ok_inv in H as (s2 & H2 & H).
  apply bind_Ok_inv in H as (i & _ & H). apply bind_Ok_inv in H as (s3 & H3%wake_waiters_frame & H).
  apply bind_Ok_inv in H as (x & _ & H). apply bind_Ok_inv in H as (s4 & H4%decrease_frame & [= <-]).
  etrans; [|apply (frame_kept s3); etrans; [done|apply say_frame]].
  etrans; [|by apply (frame_kept s2)].
  eapply (for_range_keeps (λ _, objects_kept s)); [| | |exact H2]; [done|exact H1|].
  clear. intros i s0 s' _ Hk H. etrans; [exact Hk|]. apply bind_Ok_inv in H as (x & _ & H).
  apply bind_Ok_inv in H as (l & Hl & H). destruct l as [a|]; [|by injection H as <-].
  apply bind_Ok_inv in H as (s1 & H1%release_kept & H2%upd_proc_m_kept). by etrans.
Qed.

Lemma exit_kept s s' : do_exit s = Ok s' → objects_kept s s'.
Proof.
  unfold do_exit. intros (s1 & H1%terminate_kept & H2%scheduler_frame%frame_kept)%bind_Ok_inv. by etrans.
Qed.

(** ** Any sequence of operations *)

(** The system calls of a running process. *)
Inductive kcall :=
  | Sleep (time : Z)
  | Waitpid (p : Z)
  | Spawn (task : task_info_t)
  | Spawn_with_priority (task : task_info_t) (prio : Z)
  | Exec (task_id : Z)
  | Exit
  | Lock_acquire (a : addr)
  | Lock_release (a : addr)
  | Sem_up (a : addr)
  | Sem_down (a : addr)
  | Cond_wait (l a : addr)
  | Cond_signal (a : addr)
  | Cond_broadcast (a : addr)
  | Barrier_wait (a : addr).

(** Where a process stopped in the kernel: in [irq_timer], or in a handler. *)
Inductive stopped := InTimer | InCall (r : control).

(** What the running process does: it is interrupted by the clock, calls the
    kernel, or goes on where it had stopped in the kernel ([count] is the clock's
    register then). *)
Inductive kop := Tick | Call (call : kcall) | Goes_on (count : Z).

Record world := World { w_kernel : kstate; w_stopped : gmap pid stopped }.

Section run.
(** The address of [exception_handler_exit], and the table of [test/test.c]. *)
Context (exit_addr : Z) (test_tasks : list task_info_t).

Definition perform (s : kstate) (call : kcall) : outcome (control * kstate) :=
  match call with
  | Sleep time => returns (do_sleep s time)
  | Waitpid p => returns (do_waitpid s p)
  | Spawn task => returns (do_spawn exit_addr s task)
  | Spawn_with_priority task prio => returns (do_spawn_with_priority exit_addr s task prio)
  | Exec id => returns (do_exec exit_addr test_tasks s id)
  | Exit => returns (do_exit s)
  | Lock_acquire a => do_mutex_lock_acquire s a
  | Lock_release a => returns (do_mutex_lock_release s a)
  | Sem_up a => returns (do_semaphore_up s a)
  | Sem_down a => do_semaphore_down s a
  | Cond_wait l a => do_condition_wait s l a
  | Cond_signal a => returns (do_condition_signal s a)
  | Cond_broadcast a => returns (do_condition_broadcast s a)
  | Barrier_wait a => do_barrier_wait s a
  end.

(** Process [c] has run up to [r].  A process that has slept, waited or ended has
    nothing left to do in the kernel. *)
Definition stop (c : pid) (r : control) (m : gmap pid stopped) : gmap pid stopped :=
  match r with Done => delete c m | _ => <[c := InCall r]> m end.

Definition kernel_step (m : world) (op : kop) : outcome world :=
  let s := w_kernel m in
  c ← deref (current_running s);
  match op with
  | Tick => s ← irq_timer s; Ok (World s (<[c := InTimer]> (w_stopped m)))
  | Call call => '(r, s) ← perform s call; Ok (World s (stop c r (w_stopped m)))
  | Goes_on count =>
      match w_stopped m !! c with
      | None => Ok m
      | Some InTimer => Ok (World (irq_timer_rest s count) (delete c (w_stopped m)))
      | Some (InCall r) => '(r, s) ← continue s r; Ok (World s (stop c r (w_stopped m)))
      end
  end.

Definition exists_in {A} (m : gmap addr A) (a : addr) : bool :=
  match m !! a with Some _ => true | None => false end.

(** The pointers a running process passes are those of objects, and a priority is
    one of the kernel's. *)
Definition arguments_ok (s : kstate) (call : kcall) : bool :=
  match call with
  | Lock_acquire a | Lock_release a | Cond_wait a _ => exists_in (mutexes s) a
  | Sem_up a | Sem_down a => exists_in (semaphores s) a
  | Barrier_wait a => exists_in (barriers s) a
  | Spawn_with_priority _ prio => (0 <=? prio) && (prio <? MAX_PRIORITY_NUM)
  | _ => true
  end.

(** A process that is selected first goes on where it stopped; interrupts are off
    in the kernel.  The kernel process makes no call. *)
Definition enabled (m : world) (op : kop) : bool :=
  match current_running (w_kernel m) with
  | None => false
  | Some c =>
      match op, w_stopped m !! c with
      | Goes_on _, Some _ => true
      | Tick, None => true
      | Call call, None => negb (c =? kernel_pid) && arguments_ok (w_kernel m) call
      | _, _ => false
      end
  end.

(** The operations that are enabled when their turn comes. *)
Fixpoint kernel_run (m : world) (ops : list kop) : outcome world :=
  match ops with
  | [] => Ok m
  | op :: ops => if enabled m op then m ← kernel_step m op; kernel_run m ops else kernel_run m ops
  end.

Lemma exists_in_spec {A} (m : gmap addr A) a : exists_in m a = true → ∃ v, m !! a = Some v.
Proof. unfold exists_in. destruct (m !! a); [eauto|done]. Qed.

(** A call of a running process. *)
Lemma keeps_call s Q c x call :
  calling s Q c x → arguments_ok s call = true → keeps (state_of (perform s call)).
Proof.
  intros H Hob. destruct call as [t|p|task|task prio|id| |a|a|a|a|l a|a|a|a]; simpl in *;
    unfold returns; rewrite ?state_of_bind; try apply exists_in_spec in Hob as [v Hv].
  - by eapply keeps_sleep.
  - by eapply keeps_waitpid.
  - by apply (keeps_spawn exit_addr s Q c x).
  - apply andb_prop in Hob as [?%Z.leb_le ?%Z.ltb_lt]. by apply (keeps_spawn exit_addr s Q c x).
  - by eapply keeps_exec.
  - by eapply keeps_exit.
  - by eapply keeps_acquire.
  - destruct (calling_release s Q c x a v H Hv) as (s' & Q' & x' & -> & H'). by eapply keeps_calling.
  - by eapply keeps_up.
  - by eapply keeps_down.
  - by eapply keeps_condition_wait.
  - by eapply keeps_wake_one.
  - by eapply keeps_wake_all.
  - by eapply keeps_barrier_wait.
Qed.

Lemma perform_stops s call : stops_ok s (perform s call).
Proof.
  destruct call; cbn [perform].
  all: try (apply returns_ok; intros s').
  - apply sleep_kept.
  - apply waitpid_kept.
  - apply spawn_kept.
  - apply spawn_kept.
  - apply exec_kept.
  - apply exit_kept.
  - apply acquire_stops.
  - apply release_kept.
  - apply up_kept.
  - apply down_stops.
  - apply condition_wait_stops.
  - intros H. by eapply frame_kept, do_unblock_one_frame.
  - intros H. by eapply frame_kept, do_unblock_all_frame.
  - apply barrier_wait_stops.
Qed.

(** A process that goes on in a handler. *)
Lemma keeps_continue s Q c x r :
  calling s Q c x → control_ok s r → keeps (state_of (continue s r)).
Proof.
  intros H Hr. destruct r as [|a|a|a l|a]; cbn [continue control_ok] in *.
  - by eapply keeps_calling.
  - destruct Hr. by eapply keeps_acquire.
  - destruct Hr. by eapply keeps_semaphore_wait.
  - destruct Hr. by eapply keeps_acquire.
  - by eapply keeps_calling.
Qed.

(** The kernel's state is settled, and what stopped in a handler can go on. *)
Record world_ok (m : world) (Q : queue_map) : Prop := {
  wo_settled : settled (w_kernel m) Q;
  wo_stopped p r : w_stopped m !! p = Some (InCall r) → p ≠ kernel_pid ∧ control_ok (w_kernel m) r;
}.

(** No process has stopped in the kernel. *)
Lemma world_start s Q : settled s Q → world_ok (World s ∅) Q.
Proof. intros H. split; [done|]. cbn [w_stopped]. intros p r Hp. by rewrite lookup_empty in Hp. Qed.

(** The step of a handler of process [c]. *)
Lemma handler_step m Q c f :
  world_ok m Q → c ≠ kernel_pid → stops_ok (w_kernel m) f → keeps (state_of f) →
  ∃ m' Q', ('(r, s) ← f; Ok (World s (stop c r (w_stopped m)))) = Ok m' ∧ world_ok m' Q'.
Proof.
  intros [Hs Hm] Hc Hf (s' & Q' & Hrun & Hs'). destruct f as [[r s]| |]; [|discriminate Hrun..].
  injection Hrun as ->. destruct (Hf r s' eq_refl) as [Hk Hr].
  eexists _, Q'. split; [reflexivity|]. split; [exact Hs'|]. cbn [w_stopped w_kernel]. intros p r'.
  assert (w_stopped m !! p = Some (InCall r') → p ≠ kernel_pid ∧ control_ok s' r') as Hold.
  { intros [Hp Hr']%Hm. split; [done|]. by eapply control_ok_kept. }
  unfold stop. destruct r; [rewrite lookup_delete_Some; naive_solver|..];
    rewrite lookup_insert_Some; intros [[<- [= <-]]|[_ ?]]; auto.
Qed.

Lemma kernel_step_ok m Q op : world_ok m Q → enabled m op = true → ∃ m' Q', kernel_step m op = Ok m' ∧ world_ok m' Q'.
Proof.
  intros Hmo He. pose proof Hmo as [Hs Hm]. pose proof Hs as [Hk (c & x & Hc & Hx & Hr)].
  unfold enabled in He. rewrite Hc in He. unfold kernel_step. rewrite Hc. cbn [deref]. rewrite bind_Ok.
  destruct op as [|call|count].
  - destruct (kinv_tick _ _ Hk) as (s' & Q' & Ht & Hs'). rewrite Ht, bind_Ok. eexists _, Q'. split; [done|].
    split; [done|]. cbn. intros p r [[_ [=]]|[_ Hp]]%lookup_insert_Some. destruct (Hm p r Hp). split; [done|].
    eapply control_ok_kept; [|done]. unfold irq_timer in Ht.
    apply frame_kept. etrans; [apply say_frame|by apply scheduler_frame].
  - destruct (w_stopped m !! c); [done|]. apply andb_prop in He as [Hn%negb_true_iff%Z.eqb_neq Ha].
    eapply handler_step; [done|done|apply perform_stops|].
    by apply (keeps_call (w_kernel m) Q c x); [apply calling_intro|].
  - destruct (w_stopped m !! c) as [[|r]|] eqn:Hst; [| |done].
    + eexists _, Q. split; [done|]. split; [by apply (settled_same (w_kernel m))|].
      cbn [w_stopped w_kernel]. intros p r' [_ Hp]%lookup_delete_Some. by destruct (Hm p r' Hp).
    + destruct (Hm c r Hst) as [Hn Hro]. eapply handler_step; [done|done|by apply continue_stops|].
      by apply (keeps_continue (w_kernel m) Q c x); [apply calling_intro|].
Qed.

Lemma settled_places s Q p :
  settled s Q → pid_ok p → ∃ x, aget (pcb s) p = Ok x ∧
    (free_status x → unqueued Q p ∧ current_running s ≠ Some p) ∧
    (¬ free_status x → (current_running s = Some p ∧ unqueued Q p) ∨
       current_running s ≠ Some p ∧ ∃ q, p ∈ Q q ∧ ∀ q', p ∈ Q q' → q' = q).
Proof.
  intros [Hk (c & y & Hc & Hy & Hr)] Hp.
  destruct (get_pcb_spec s Q p (ki_wf _ _ Hk) Hp) as (x & _ & Hx & _). exists x. split; [done|]. split.
  - intros Hf. split.
    + apply unqueued_queued. intros Hq. by apply (ki_queued _ _ Hk p x Hq Hx).
    + intros Hpc. assert (y = x) as -> by congruence. by apply (running_not_free x).
  - intros Hf. destruct (ki_current _ _ Hk) as (c' & y' & Hc' & Hy' & Hst).
    assert (c' = c) as -> by congruence. assert (y' = y) as -> by congruence.
    apply running_state in Hst; [|done]. destruct (ki_lost _ _ Hk p x Hx Hf) as [[q Hq]|Hpc].
    + right. split; [intros E; assert (p = c) as -> by congruence; by apply (Hst q)|].
      exists q. split; [done|]. intros q' Hq'. by eapply (wf_disjoint s Q); [apply Hk|..].
    + left. assert (p = c) as -> by congruence. done.
Qed.

Lemma kernel_run_ok ops m Q :
  world_ok m Q → ∃ m' Q', kernel_run m ops = Ok m' ∧ world_ok m' Q'.
Proof.
  revert m Q. induction ops as [|op ops IH]; intros m Q Hk; simpl; [by exists m, Q|].
  destruct (enabled m op) eqn:He; [|by eapply IH].
  destruct (kernel_step_ok m Q op Hk He) as (m1 & Q1 & -> & H1). rewrite bind_Ok. by eapply IH.
Qed.

(** C2.  No process is ever lost.  It starts in a settled state with no process
    stopped in the kernel: the invariant of the table and the queues holds, with
    [last_sel_index] at least 0 (the state that [init_pcb] leaves has -1, with which
    the first selection faults), and the running process is neither blocked nor
    ended.  Then clock interrupts, the calls of [kcall] (sleeping, waiting for a
    process, spawning, executing, ending, and the operations on existing locks,
    semaphores, conditions and barriers), and what processes that stopped in the
    kernel do when they are selected again follow each other in any order that
    [enabled] allows, for however long: no operation faults; the process that runs
    then is neither blocked nor ended; every other live process is in exactly one
    queue; and no queue holds an entry that a spawn could take. *)
Theorem no_process_lost ops s Q :
  settled s Q → ∃ m' Q', kernel_run (World s ∅) ops = Ok m' ∧ world_ok m' Q' ∧
    let s' := w_kernel m' in
    ∀ p, pid_ok p → ∃ x, aget (pcb s') p = Ok x ∧
      (free_status x → unqueued Q' p ∧ current_running s' ≠ Some p) ∧
      (¬ free_status x → (current_running s' = Some p ∧ unqueued Q' p) ∨
         current_running s' ≠ Some p ∧ ∃ q, p ∈ Q' q ∧ ∀ q', p ∈ Q' q' → q' = q).
Proof.
  intros Hk. destruct (kernel_run_ok ops _ _ (world_start _ _ Hk)) as (m' & Q' & Hrun & Hs).
  exists m', Q'. split; [done|]. split; [done|]. intros s' p. by apply settled_places, Hs.
Qed.
End run.

(** The kernel process runs; 1 and 2 are ready, and 3 waits for the mutex at 16. *)
Definition kernel_state : kstate := demo_locks LOCKED <| pcb ::= alter (λ x, x <| priority := 0 |>) 0%nat |>.

Definition running_pcb (p : pid) : pcb_t := no_pcb p <| status := TASK_RUNNING |>.

Lemma kernel_entries p x :
  aget (pcb kernel_state) p = Ok x →
  p = 0 ∧ x = running_pcb 0 <| priority := 0 |> ∨ (p = 1 ∨ p = 2 ∨ p = 3) ∧ x = running_pcb p ∨
  4 ≤ p ∧ x = no_pcb p.
Proof.
  intros Hx. pose proof (aget_bound _ _ _ Hx) as Hp.
  change (Z.of_nat (length (pcb kernel_state))) with 16 in Hp.
  assert (p ∈ seqZ 0 16) as Hin by (apply elem_of_seqZ; lia). rewrite list_elem_of_In in Hin.
  vm_compute in Hin. repeat (destruct Hin as [<-|Hin];
    [vm_compute in Hx; injection Hx as <-; first [by left|by right; left; auto|by right; right]|]). done.
Qed.

Lemma kernel_state_settled : settled kernel_state demo_queues.
Proof.
  assert (sched_wf kernel_state demo_queues) as Hwf.
  { destruct (upd_proc_m_spec (demo_locks LOCKED) demo_queues 0 (running_pcb 0)
      (λ x, Ok (x <| priority := 0 |>)) (running_pcb 0 <| priority := 0 |>)) as (s' & _ & Hwf & Hs & _);
      [apply demo_locks_wf|done..|]. by assert (s' = kernel_state) as <- by (by rewrite Hs). }
  assert (current_running kernel_state = Some kernel_pid) as Hc by done.
  assert (aget (pcb kernel_state) 0 = Ok (running_pcb 0 <| priority := 0 |>)) as H0 by done.
  assert (∀ p, p = 1 ∨ p = 2 ∨ p = 3 → queued demo_queues p) as Hq.
  { intros p [->|[->| ->]]; [exists (QReady 1)..|exists (QLock 16)]; by apply (bool_decide_unpack _). }
  assert (∀ p, queued demo_queues p → p = 1 ∨ p = 2 ∨ p = 3) as Hq'.
  { clear. intros p [q Hp]. unfold demo_queues in Hp.
    destruct (decide (q = QReady 1)); [|destruct (decide (q = QLock 16))];
      rewrite ?elem_of_cons, ?elem_of_nil in Hp; lia. }
  assert (unqueued demo_queues 0) as Hun by (apply unqueued_queued; intros Hz%Hq'; lia).
  split; [split|]; [exact Hwf|..].
  - intros p x Hx. apply kernel_entries in Hx as Hx'.
    assert (regs_ok x ∧ locks x = replicate 8 None) as [Hr Hl]
      by (destruct Hx' as [[_ ->]|[[_ ->]|[_ ->]]]; done).
    split; [exact Hr|]. rewrite Hl. split; [done|]. intros a [Ha _]%elem_of_replicate. done.
  - intros p x Hp%Hq' [[-> ->]|[[_ ->]|[Hp4 ->]]]%kernel_entries; [by intros [|]|by intros [|]|lia].
  - intros p x [[-> ->]|[[Hp ->]|[_ ->]]]%kernel_entries Hnf; [by right|left; by apply Hq|].
    exfalso. apply Hnf. by right.
  - exists 0, (running_pcb 0 <| priority := 0 |>). done.
  - exists (running_pcb 0 <| priority := 0 |>). split_and!; [exact H0|done|by left].
  - exists 0, (running_pcb 0 <| priority := 0 |>). split_and!; [done|exact H0|by left].
Qed.

(** 1 is selected, spawns 4 and blocks, since the lock is held; 2 releases it twice,
    which wakes 3 and 1; the clock interrupts 2, 4 and 3; the kernel process goes on
    and is interrupted again; 1 goes on where it had stopped, takes the lock and
    ends. *)
Definition demo_ops : list kop :=
  [Tick; Call (Spawn (TaskInfo (str "fs") 8192 USER_PROCESS)); Call (Lock_acquire 16);
   Call (Lock_release 16); Call (Lock_release 16); Tick; Tick; Tick; Goes_on 0; Tick; Goes_on 0; Call Exit].

Lemma no_process_lost_witness :
  settled kernel_state demo_queues ∧
  ∃ m' Q', kernel_run 4096 [] (World kernel_state ∅) demo_ops = Ok m' ∧ world_ok m' Q'.
Proof.
  split; [apply kernel_state_settled|].
  destruct (no_process_lost 4096 [] demo_ops kernel_state demo_queues kernel_state_settled)
    as (m' & Q' & Hrun & Hs & _).
  exists m', Q'. exact (conj Hrun Hs).
Defined.
