(* ===== verification/FsLayout.v ===== *)
(** * The data of the file system: [include/os/fs.h]

    The structures of [fs.h], their images on the disk (the target is
    little-endian), the block device below the file system, and the layout of
    the disk.  [sdread] and [sdwrite] come from a library of which there is no
    source: they are the operations of a type class, whose laws say that a read
    returns the bytes that were last written. *)

From S2P Require Import Prelude CString Printk.

(** ** Constants *)

Definition MAGIC_NUMER : Z := 0x666.
Definition BLOCK_SIZE : Z := 4096.
Definition MAX_NAME_LEN : Z := 24.
Definition FS_START : Z := 128 * 1024 * 1024.
Definition BLK_BIT_MAP_START : Z := FS_START + 512.
Definition INODE_BIT_MAP_SIZE : Z := 1024.
Definition INODE_MAX_NUMBER : Z := 8 * INODE_BIT_MAP_SIZE.
Definition DATA_BLOCK_BIT_MAP_SIZE : Z := 32 * 1024.
Definition DATA_BLOCK_MAX_NUMBER : Z := 8 * DATA_BLOCK_BIT_MAP_SIZE.
Definition INODE_SIZE : Z := 128.      (* sizeof(inode_t) *)
Definition DENTRY_SIZE : Z := 32.      (* sizeof(dentry_t) *)
Definition O_RD : Z := 2.
Definition O_WR : Z := 1.
Definition SOFT_LINK : Z := 0.
Definition HARD_LINK : Z := 3.

(** Arithmetic with the constants above. *)
Ltac flia :=
  unfold INODE_MAX_NUMBER, DATA_BLOCK_MAX_NUMBER, INODE_BIT_MAP_SIZE, DATA_BLOCK_BIT_MAP_SIZE,
    BLOCK_SIZE, INODE_SIZE, DENTRY_SIZE, BLK_BIT_MAP_START, FS_START, MAX_NAME_LEN in *; lia.

(** [enum entry_type] *)
Definition notype : Z := 0.
Definition file : Z := 1.
Definition dir : Z := 2.
Definition soft_link : Z := 3.

(** ** The block device *)

Class BlockDev (D : Type) := {
  sdread : D → Z → Z → bytes;     (* offset and size *)
  sdwrite : D → Z → bytes → D;
}.

Class BlockDevLaws (D : Type) `{BlockDev D} := {
  byte_at : D → Z → Z;
  sdread_bytes d o n : sdread d o n = map (byte_at d) (seqZ o n);
  sdwrite_bytes d o bs a :
    byte_at (sdwrite d o bs) a =
      if decide (o ≤ a < o + Z.of_nat (length bs))
      then default 0 (bs !! Z.to_nat (a - o)) else byte_at d a;
}.

(** A device whose content is a function of the address. *)
Definition memdisk : Type := Z → Z.

#[export] Instance memdisk_dev : BlockDev memdisk := {
  sdread d o n := map d (seqZ o n);
  sdwrite d o bs := λ a,
    if decide (o ≤ a < o + Z.of_nat (length bs)) then default 0 (bs !! Z.to_nat (a - o)) else d a;
}.

#[export] Instance memdisk_laws : BlockDevLaws memdisk := {
  byte_at d a := d a;
  sdread_bytes d o n := eq_refl;
  sdwrite_bytes d o bs a := eq_refl;
}.

(** ** Words *)

Definition le32 (x : Z) : bytes :=
  [x mod 256; x / 256 mod 256; x / 65536 mod 256; x / 16777216 mod 256].

Definition word (b : bytes) : Z := foldr (λ c x, c + 256 * x) 0 b.

(** The word at a byte offset. *)
Definition get32 (b : bytes) (o : Z) : outcome Z := w ← slice b o 4; Ok (word w).
Definition put32 (b : bytes) (o x : Z) : outcome bytes := put b o (le32 x).

Fixpoint words (n : nat) (b : bytes) : list Z :=
  match n with O => [] | S n => word (take 4 b) :: words n (drop 4 b) end.

(** ** Inodes *)

Record inode_t := Inode {
  entry_num : Z;
  type : Z;
  size : Z;
  link_cnt : Z;
  link_to : Z;
  direct : list Z;        (* 16 offsets on the disk *)
  indirect : Z;
  double_indrect : Z;
  triple_indrect : Z;
  owner : bytes;          (* [info], 16 bytes each *)
  hash : bytes;
}.

Definition inode_eta (x : inode_t) : inode_t :=
  Inode (entry_num x) (type x) (size x) (link_cnt x) (link_to x) (direct x) (indirect x)
    (double_indrect x) (triple_indrect x) (owner x) (hash x).
#[export] Instance upd_entry_num : Update entry_num := ltac:(derive_update inode_eta entry_num).
#[export] Instance upd_type : Update type := ltac:(derive_update inode_eta type).
#[export] Instance upd_size : Update size := ltac:(derive_update inode_eta size).
#[export] Instance upd_link_cnt : Update link_cnt := ltac:(derive_update inode_eta link_cnt).
#[export] Instance upd_link_to : Update link_to := ltac:(derive_update inode_eta link_to).
#[export] Instance upd_direct : Update direct := ltac:(derive_update inode_eta direct).
#[export] Instance upd_indirect : Update indirect := ltac:(derive_update inode_eta indirect).
#[export] Instance upd_double_indrect : Update double_indrect :=
  ltac:(derive_update inode_eta double_indrect).
#[export] Instance upd_triple_indrect : Update triple_indrect :=
  ltac:(derive_update inode_eta triple_indrect).
#[export] Instance upd_hash : Update hash := ltac:(derive_update inode_eta hash).

Definition inode_words (x : inode_t) : list Z :=
  [entry_num x; type x; size x; link_cnt x; link_to x] ++ direct x ++
  [indirect x; double_indrect x; triple_indrect x].

(** The 128 bytes of an inode in memory and on the disk. *)
Definition encode_inode (x : inode_t) : bytes :=
  concat (map le32 (inode_words x)) ++ owner x ++ hash x.

Definition decode_inode (b : bytes) : inode_t :=
  let w := words 24 b in
  let at_ i := nth i w 0 in
  Inode (at_ 0%nat) (at_ 1%nat) (at_ 2%nat) (at_ 3%nat) (at_ 4%nat) (take 16 (drop 5 w))
    (at_ 21%nat) (at_ 22%nat) (at_ 23%nat) (take 16 (drop 96 b)) (drop 112 b).

Definition zero_inode : inode_t :=
  Inode 0 0 0 0 0 (replicate 16 0) 0 0 0 (replicate 16 0) (replicate 16 0).

(** ** The super block *)

Record super_block_t := SuperBlock {
  magic : Z;
  data_block_num : Z;
  data_block_size : Z;
  inode_num : Z;
  inode_size : Z;
  blk_bit_map_start : Z;
  ind_bit_map_start : Z;
  ind_start : Z;
  data_start : Z;
}.

Definition encode_super (x : super_block_t) : bytes :=
  concat (map le32 [magic x; data_block_num x; data_block_size x; inode_num x; inode_size x;
    blk_bit_map_start x; ind_bit_map_start x; ind_start x; data_start x]).

Definition decode_super (b : bytes) : super_block_t :=
  let w := words 9 b in
  let at_ i := nth i w 0 in
  SuperBlock (at_ 0%nat) (at_ 1%nat) (at_ 2%nat) (at_ 3%nat) (at_ 4%nat) (at_ 5%nat)
    (at_ 6%nat) (at_ 7%nat) (at_ 8%nat).

(** What [do_mkfs] stores in [super_block]. *)
Definition new_super : super_block_t :=
  let ind_bit_map_start := BLK_BIT_MAP_START + DATA_BLOCK_BIT_MAP_SIZE in
  let ind_start := ind_bit_map_start + INODE_BIT_MAP_SIZE in
  SuperBlock MAGIC_NUMER DATA_BLOCK_MAX_NUMBER BLOCK_SIZE INODE_MAX_NUMBER INODE_SIZE
    BLK_BIT_MAP_START ind_bit_map_start ind_start (ind_start + INODE_SIZE * INODE_MAX_NUMBER).

(** ** Directory entries *)

(** [dentry_buf[i]] of a block: its two words and the pointer to its name. *)
Definition dentry_type (buf : bytes) (i : Z) : outcome Z := get32 buf (DENTRY_SIZE * i).
Definition dentry_inode (buf : bytes) (i : Z) : outcome Z := get32 buf (DENTRY_SIZE * i + 4).

Definition dentry_name (buf : bytes) (i : Z) : outcome bytes :=
  if decide (0 ≤ i ∧ DENTRY_SIZE * i + 8 ≤ Z.of_nat (length buf))
  then Ok (drop (Z.to_nat (DENTRY_SIZE * i + 8)) buf) else Fault OutOfBounds.

Definition set_dentry_type (buf : bytes) (i t : Z) : outcome bytes := put32 buf (DENTRY_SIZE * i) t.
Definition set_dentry_inode (buf : bytes) (i n : Z) : outcome bytes :=
  put32 buf (DENTRY_SIZE * i + 4) n.

(** [strcpy(dentry_buf[i].name, name)]: the next entry is not protected. *)
Definition set_dentry_name (buf : bytes) (i : Z) (nm : bytes) : outcome bytes :=
  strcpy buf (DENTRY_SIZE * i + 8) nm.

(** ** Words and their bytes *)

Lemma word_le32 x : 0 ≤ x < 2 ^ 32 → word (le32 x) = x.
Proof.
  intros. unfold word, le32. simpl. change (2 ^ 32) with 4294967296 in *.
  Z.to_euclidean_division_equations. lia.
Qed.

Lemma le32_word b : length b = 4%nat → all_bytes b → le32 (word b) = b.
Proof.
  destruct b as [|a [|b [|c [|d [|]]]]]; try done. intros _ Hb. decompose_Forall_hyps.
  unfold le32, word, is_byte in *. simpl.
  repeat f_equal; Z.to_euclidean_division_equations; lia.
Qed.

Lemma le32_bytes x : all_bytes (le32 x).
Proof. unfold le32. repeat constructor; apply Z.mod_pos_bound; lia. Qed.

Lemma word_range b : all_bytes b → 0 ≤ word b < 256 ^ Z.of_nat (length b).
Proof.
  induction 1 as [|c b Hc _ IH]; [done|]. rewrite length_cons, Nat2Z.inj_succ, Z.pow_succ_r by lia.
  simpl. unfold is_byte in Hc. lia.
Qed.

Lemma get32_put32_eq b o x b' :
  put32 b o x = Ok b' → 0 ≤ x < 2 ^ 32 → get32 b' o = Ok x.
Proof.
  unfold put32, get32. intros Hp Hx. change 4 with (Z.of_nat (length (le32 x))).
  rewrite (put_slice_eq _ _ _ _ Hp), bind_Ok. by rewrite word_le32.
Qed.

Lemma get32_put_ne b o xs b' o' :
  put b o xs = Ok b' → o' + 4 ≤ o ∨ o + Z.of_nat (length xs) ≤ o' → get32 b' o' = get32 b o'.
Proof. intros Hp Ho. unfold get32. by rewrite (put_slice_ne _ _ _ _ _ _ Hp). Qed.

Lemma words_length n b : length (words n b) = n.
Proof. revert b. induction n; intros b; simpl; by rewrite ?IHn. Qed.

Lemma words_le32 ws rest :
  Forall (λ x, 0 ≤ x < 2 ^ 32) ws → words (length ws) (concat (map le32 ws) ++ rest) = ws.
Proof.
  induction 1 as [|x ws Hx _ IH]; [done|]. cbn [length words map concat].
  rewrite <- (assoc_L (++)). rewrite take_app_length', drop_app_length' by done.
  by rewrite word_le32, IH.
Qed.

Lemma le32_words n b :
  length b = (4 * n)%nat → all_bytes b → concat (map le32 (words n b)) = b.
Proof.
  revert b. induction n as [|n IH]; intros b Hl Hb.
  { destruct b; [done|simpl in Hl; lia]. }
  cbn [words map concat]. rewrite le32_word, IH.
  - apply take_drop.
  - rewrite length_drop. lia.
  - by apply Forall_drop.
  - rewrite length_take. lia.
  - by apply Forall_take.
Qed.

Lemma length_le32s ws : length (concat (map le32 ws)) = (4 * length ws)%nat.
Proof. induction ws as [|w ws IH]; [done|]. cbn [map concat length]. rewrite length_app, IH. simpl. lia. Qed.

(** ** Inodes and their images *)

Definition is_word (x : Z) : Prop := 0 ≤ x < 2 ^ 32.

#[export] Instance is_word_dec x : Decision (is_word x).
Proof. unfold is_word. apply _. Defined.

(** A well-formed inode: every field has its width. *)
Record inode_ok (x : inode_t) : Prop := {
  io_words : Forall is_word (inode_words x);
  io_direct : length (direct x) = 16%nat;
  io_owner : length (owner x) = 16%nat ∧ all_bytes (owner x);
  io_hash : length (hash x) = 16%nat ∧ all_bytes (hash x);
}.

Lemma inode_words_length x : length (direct x) = 16%nat → length (inode_words x) = 24%nat.
Proof. intros H. unfold inode_words. rewrite !length_app, H. done. Qed.

Lemma encode_inode_length x : inode_ok x → length (encode_inode x) = 128%nat.
Proof.
  intros [_ Hd [Ho _] [Hh _]]. unfold encode_inode.
  by rewrite !length_app, length_le32s, inode_words_length, Ho, Hh.
Qed.

Lemma decode_encode_inode x : inode_ok x → decode_inode (encode_inode x) = x.
Proof.
  intros [Hw Hd [Ho _] [Hh _]]. unfold decode_inode, encode_inode.
  pose proof (inode_words_length x Hd) as Hl.
  assert (words 24 (concat (map le32 (inode_words x)) ++ owner x ++ hash x) = inode_words x)
    as -> by (pose proof (words_le32 (inode_words x) (owner x ++ hash x) Hw) as H; by rewrite Hl in H).
  rewrite (drop_app_ge _ _ 96), (drop_app_ge _ _ 112) by (rewrite length_le32s; lia).
  rewrite length_le32s, Hl. change (96 - 4 * 24)%nat with 0%nat. change (112 - 4 * 24)%nat with 16%nat.
  rewrite drop_0, (take_app_length' (owner x)), (drop_app_length' (owner x)) by done.
  destruct x as [e t sz lc lt ds i1 i2 i3 ow ha]. simpl in *.
  do 16 (destruct ds as [|? ds]; [done|]). by destruct ds.
Qed.

Lemma words_word b n : all_bytes b → length b = (4 * n)%nat → Forall is_word (words n b).
Proof.
  revert b. induction n as [|n IH]; intros b Hb Hl; [constructor|]. cbn [words]. constructor.
  - pose proof (word_range (take 4 b) (Forall_take _ _ _ Hb)) as H.
    rewrite length_take, Nat.min_l in H by lia. done.
  - apply IH; [by apply Forall_drop|]. rewrite length_drop. lia.
Qed.

Lemma decode_inode_words b :
  inode_words (decode_inode b) = words 24 b.
Proof.
  unfold inode_words, decode_inode. pose proof (words_length 24 b) as Hl.
  destruct (words 24 b) as [|w0 ws]; [done|].
  do 23 (destruct ws as [|? ws]; [done|]). by destruct ws.
Qed.

Lemma words_app n b rest : length b = (4 * n)%nat → words n (b ++ rest) = words n b.
Proof.
  revert b. induction n as [|n IH]; intros b Hl; [done|]. cbn [words].
  rewrite take_app_le, drop_app_le by lia. rewrite IH; [done|]. rewrite length_drop. lia.
Qed.

Lemma decode_inode_ok b : length b = 128%nat → all_bytes b → inode_ok (decode_inode b).
Proof.
  intros Hl Hb. split.
  - rewrite decode_inode_words. rewrite <- (take_drop 96 b).
    rewrite words_app by (rewrite length_take; lia).
    apply words_word; [by apply Forall_take|rewrite length_take; lia].
  - change (length (take 16 (drop 5 (words 24 b))) = 16%nat).
    by rewrite length_take, length_drop, words_length.
  - change (length (take 16 (drop 96 b)) = 16%nat ∧ all_bytes (take 16 (drop 96 b))).
    rewrite length_take, length_drop. split; [lia|]. by apply Forall_take, Forall_drop.
  - change (length (drop 112 b) = 16%nat ∧ all_bytes (drop 112 b)).
    rewrite length_drop. split; [lia|]. by apply Forall_drop.
Qed.

Lemma encode_decode_inode b :
  length b = 128%nat → all_bytes b → encode_inode (decode_inode b) = b.
Proof.
  intros Hl Hb. unfold encode_inode. rewrite decode_inode_words.
  change (owner (decode_inode b)) with (take 16 (drop 96 b)).
  change (hash (decode_inode b)) with (drop 112 b).
  rewrite <- (take_drop 96 b) at 1. rewrite words_app by (rewrite length_take; lia).
  rewrite le32_words; [|rewrite length_take; lia|by apply Forall_take].
  rewrite <- (take_drop 96 b) at 4. f_equal.
  replace (drop 112 b) with (drop 16 (drop 96 b)) by (by rewrite drop_drop). apply take_drop.
Qed.

(** The image of an inode has 128 bytes and determines it: decoding what
    was encoded gives the inode back, and encoding what was decoded gives the
    bytes back. *)
Theorem inode_image x b :
  inode_ok x → length b = 128%nat → all_bytes b →
  length (encode_inode x) = Z.to_nat INODE_SIZE ∧ decode_inode (encode_inode x) = x ∧
  inode_ok (decode_inode b) ∧ encode_inode (decode_inode b) = b.
Proof.
  intros Hx Hl Hb. split_and!.
  - by apply encode_inode_length.
  - by apply decode_encode_inode.
  - by apply decode_inode_ok.
  - by apply encode_decode_inode.
Qed.

Lemma zero_inode_ok : inode_ok zero_inode.
Proof. split; [by apply (bool_decide_unpack _)|done|split; [done|by apply (bool_decide_unpack _)]..]. Qed.

Lemma inode_image_witness :
  inode_ok zero_inode ∧ decode_inode (encode_inode zero_inode) = zero_inode.
Proof.
  split; [apply zero_inode_ok|].
  apply (inode_image zero_inode (replicate 128 7)); [apply zero_inode_ok|done|].
  by apply (bool_decide_unpack _).
Defined.

(** ** The super block and the layout *)

Definition super_words (x : super_block_t) : list Z :=
  [magic x; data_block_num x; data_block_size x; inode_num x; inode_size x;
   blk_bit_map_start x; ind_bit_map_start x; ind_start x; data_start x].

Lemma decode_encode_super x rest :
  Forall is_word (super_words x) → decode_super (encode_super x ++ rest) = x.
Proof.
  intros Hw. unfold decode_super, encode_super. fold (super_words x).
  change 9%nat with (length (super_words x)). rewrite words_le32 by done. by destruct x.
Qed.

(** The layout that [do_mkfs] writes: the super block's sector, the block
    bit map, the inode bit map, the inodes and the data blocks follow each other
    without overlap; each bit map has a bit per object; the data area starts
    and all its blocks end on a block boundary of the area and below 2^32, so
    no offset of a data block wraps; and the super block is read back from its
    image. *)
Theorem layout_disjoint :
  let sb := new_super in
  FS_START + 512 = blk_bit_map_start sb ∧
  blk_bit_map_start sb + DATA_BLOCK_BIT_MAP_SIZE = ind_bit_map_start sb ∧
  ind_bit_map_start sb + INODE_BIT_MAP_SIZE = ind_start sb ∧
  ind_start sb + INODE_SIZE * inode_num sb = data_start sb ∧
  8 * DATA_BLOCK_BIT_MAP_SIZE = data_block_num sb ∧ 8 * INODE_BIT_MAP_SIZE = inode_num sb ∧
  data_start sb + BLOCK_SIZE * data_block_num sb < 2 ^ 32 ∧
  (∀ rest, decode_super (encode_super sb ++ rest) = sb).
Proof.
  cbv zeta. split_and!; [done..|]. intros rest. apply decode_encode_super.
  by apply (bool_decide_unpack _).
Qed.
