(* ===== verification/Fs.v ===== *)
(** * The file system: [kernel/fs/fs.c]

    One definition per function; [inode_t *] is the index of the inode in
    [nodes], a local buffer starts with whatever its memory holds ([junk]), and
    an argument string is the memory it points to, so that a function that
    shortens it in place returns the new content. *)

From S2P Require Import Prelude CString Printk FsLayout.

(** ** State *)

Record file_desc_t := FileDesc { pos : Z; ifile : option Z; file_access : Z }.

Definition file_desc_eta (x : file_desc_t) := FileDesc (pos x) (ifile x) (file_access x).
#[export] Instance upd_pos : Update pos := ltac:(derive_update file_desc_eta pos).
#[export] Instance upd_file_access : Update file_access :=
  ltac:(derive_update file_desc_eta file_access).

Record fs {D : Type} := Fs {
  disk : D;
  block_bit_map : bytes;
  inode_bit_map : bytes;
  nodes : list inode_t;
  inode_dirty : list Z;
  cwd : Z;
  root : Z;
  cwd_str : bytes;
  super_block : super_block_t;
  fd : list file_desc_t;      (* [current_running->fd], one entry *)
  now : Z;                    (* [get_timer()] *)
  out : list message;
}.
Arguments fs : clear implicits.

Section fs.
Context {D : Type} `{BlockDev D}.
Implicit Types (s : fs D).

Definition fs_eta (s : fs D) : fs D :=
  Fs D (disk s) (block_bit_map s) (inode_bit_map s) (nodes s) (inode_dirty s) (cwd s) (root s)
    (cwd_str s) (super_block s) (fd s) (now s) (out s).
#[export] Instance upd_disk : Update (@disk D) := ltac:(derive_update fs_eta (@disk D)).
#[export] Instance upd_block_bit_map : Update (@block_bit_map D) :=
  ltac:(derive_update fs_eta (@block_bit_map D)).
#[export] Instance upd_inode_bit_map : Update (@inode_bit_map D) :=
  ltac:(derive_update fs_eta (@inode_bit_map D)).
#[export] Instance upd_nodes : Update (@nodes D) := ltac:(derive_update fs_eta (@nodes D)).
#[export] Instance upd_inode_dirty : Update (@inode_dirty D) :=
  ltac:(derive_update fs_eta (@inode_dirty D)).
#[export] Instance upd_cwd : Update (@cwd D) := ltac:(derive_update fs_eta (@cwd D)).
#[export] Instance upd_root : Update (@root D) := ltac:(derive_update fs_eta (@root D)).
#[export] Instance upd_cwd_str : Update (@cwd_str D) := ltac:(derive_update fs_eta (@cwd_str D)).
#[export] Instance upd_super_block : Update (@super_block D) :=
  ltac:(derive_update fs_eta (@super_block D)).
#[export] Instance upd_fd : Update (@fd D) := ltac:(derive_update fs_eta (@fd D)).
#[export] Instance upd_out : Update (@out D) := ltac:(derive_update fs_eta (@out D)).

Definition printks s (fmt : bytes) (args : list arg) : fs D :=
  s <| out ::= (.++ [Printks fmt args]) |>.

(** A string constant printed without arguments. *)
Definition print s (msg : string) : fs D := printks s (str msg ++ [10; 0]) [].

(** [*ind] *)
Definition get_node s (ind : option Z) : outcome inode_t :=
  i ← deref ind; aget (nodes s) i.

(** [ind->field = ...] *)
Definition upd_node s (ind : option Z) (f : inode_t → inode_t) : outcome (fs D) :=
  i ← deref ind;
  x ← aget (nodes s) i;
  t ← aset (nodes s) i (f x);
  Ok (s <| nodes := t |>).

(** ** The disk *)

Definition do_fs_write s (offset : Z) (wbuf : bytes) (sz : Z) : outcome (fs D) :=
  b ← slice wbuf 0 sz;
  Ok (s <| disk ::= λ d, sdwrite d offset b |>).

Definition do_fs_read s (offset : Z) (rbuf : bytes) (sz : Z) : outcome bytes :=
  put rbuf 0 (sdread (disk s) offset sz).

(** [do_fs_read(x->direct[0], buf, BLOCK_SIZE)] *)
Definition read_block s (x : inode_t) (buf : bytes) : outcome bytes :=
  o ← aget (direct x) 0; do_fs_read s o buf BLOCK_SIZE.

Definition write_block s (x : inode_t) (buf : bytes) : outcome (fs D) :=
  o ← aget (direct x) 0; do_fs_write s o buf BLOCK_SIZE.

(** A file is known by its number in the model; the code computes it from the
    pointer, given the address of [nodes]. *)
Definition get_inode_number (nodes_addr ind : Z) : Z := u32 (u32 ind - u32 nodes_addr) / INODE_SIZE.

Definition node_num_per_block : Z := (BLOCK_SIZE + 16) / INODE_SIZE.

Definition mark_inode_dirty s (inode_number : Z) : outcome (fs D) :=
  t ← aset (inode_dirty s) (inode_number / node_num_per_block) 1;
  Ok (s <| inode_dirty := t |>).

(** The bytes of the [nodes] array from inode [i] to the end of its block. *)
Definition node_bytes s (i : Z) : bytes :=
  concat (map encode_inode (take (Z.to_nat node_num_per_block) (drop (Z.to_nat i) (nodes s)))).

Definition update_inode s : outcome (fs D) :=
  for_range 0 (INODE_MAX_NUMBER / (BLOCK_SIZE / INODE_SIZE)) (λ i s,
    d ← aget (inode_dirty s) i;
    if negb (d =? 0) then
      t ← aset (inode_dirty s) i 0;
      let s := s <| inode_dirty := t |> in
      let media_offset := u32 (ind_start (super_block s) + INODE_SIZE * i * node_num_per_block) in
      do_fs_write s media_offset (node_bytes s (i * node_num_per_block)) BLOCK_SIZE
    else Ok s) s.

Definition update_bit_map s : outcome (fs D) :=
  s ← do_fs_write s (ind_bit_map_start (super_block s)) (inode_bit_map s) INODE_BIT_MAP_SIZE;
  do_fs_write s (blk_bit_map_start (super_block s)) (block_bit_map s) DATA_BLOCK_BIT_MAP_SIZE.

(** ** Bit maps *)

(** [buf[k >> 3] & (1 << (k & 0b111))] *)
Definition test_bit (buf : bytes) (k : Z) : outcome bool :=
  c ← aget buf (Z.shiftr k 3);
  Ok (negb (Z.land c (Z.shiftl 1 (Z.land k 7)) =? 0)).

Definition set_bit (buf : bytes) (k : Z) : outcome bytes :=
  c ← aget buf (Z.shiftr k 3);
  aset buf (Z.shiftr k 3) (u8 (Z.lor c (Z.shiftl 1 (Z.land k 7)))).

Definition clear_bit (buf : bytes) (k : Z) : outcome bytes :=
  c ← aget buf (Z.shiftr k 3);
  aset buf (Z.shiftr k 3) (u8 (Z.land c (Z.lnot (Z.shiftl 1 (Z.land k 7))))).

(** It returns no value when no bit is clear. *)
Definition find_first_zero_bit (buf : bytes) (byte_sz : Z) : outcome Z :=
  r ← find_range 0 (8 * byte_sz) (λ i, b ← test_bit buf i; Ok (negb b));
  match r with Some i => Ok i | None => Fault NoReturnValue end.

(** The sixteen bytes of [info.hash]: the time, four times. *)
Definition time_hash s : bytes := concat (replicate 4 (le32 (now s))).

Definition allocate_inode s (inode_number : Z) : outcome (option Z * fs D) :=
  if INODE_MAX_NUMBER <=? inode_number then Ok (None, s)
  else
    occupied ← test_bit (inode_bit_map s) inode_number;
    if (occupied : bool) then Ok (None, s)
    else
      m ← set_bit (inode_bit_map s) inode_number;
      s ← upd_node (s <| inode_bit_map := m |>) (Some inode_number)
            (λ x, x <| hash := time_hash s |>);
      Ok (Some inode_number, s).

(** [true]: the buffer it was given; [false]: the null pointer. *)
Definition allocate_data_block s (data_block_number : Z) : outcome (bool * fs D) :=
  if DATA_BLOCK_MAX_NUMBER <=? data_block_number then Ok (false, s)
  else
    occupied ← test_bit (block_bit_map s) data_block_number;
    if (occupied : bool) then Ok (false, s)
    else
      m ← set_bit (block_bit_map s) data_block_number;
      Ok (true, s <| block_bit_map := m |>).

Definition get_data_block_offset s (data_block_number : Z) : Z :=
  u32 (data_start (super_block s) + data_block_number * BLOCK_SIZE).

Definition get_data_block_number s (data_block_offset : Z) : Z :=
  u32 (data_block_offset - data_start (super_block s)) / BLOCK_SIZE.

Definition free_inode s (ind : option Z) : outcome (fs D) :=
  inode_num ← deref ind;
  s ← mark_inode_dirty s inode_num;
  s ← upd_node s ind (λ x,
        x <| entry_num := 0 |> <| size := 0 |> <| link_cnt := 0 |> <| type := notype |>
          <| indirect := 0 |> <| double_indrect := 0 |> <| triple_indrect := 0 |>
          <| direct := replicate 16 0 |> <| hash := replicate 16 0 |>);
  m ← clear_bit (inode_bit_map s) inode_num;
  Ok (s <| inode_bit_map := m |>).

(** ** Paths *)

(** A trailing slash is removed in place; the empty string is read at -1. *)
Definition name_str_standrize (name : bytes) : outcome bytes :=
  len ← strlen name;
  c ← aget name (len - 1);
  if c =? 47 then aset name (len - 1) 0 else Ok name.

(** The loop that ends a component: its length, whether the path ends with it,
    and the path with the separator overwritten. *)
Fixpoint name_scan (nm : bytes) : outcome (nat * bool * bytes) :=
  match nm with
  | [] => Fault OutOfBounds
  | c :: nm =>
      if c =? 0 then Ok (0%nat, true, c :: nm)
      else if c =? 47 then Ok (0%nat, false, 0 :: nm)
      else '(len, stop, nm) ← name_scan nm; Ok (S len, stop, c :: nm)
  end.

(** The first entry of the directory with this name. *)
Definition find_dentry (buf nm : bytes) (lo up : Z) : outcome (option Z) :=
  find_range lo up (λ i, d ← dentry_name buf i; r ← strcmp nm d; Ok (r =? 0)).

(** One round per component; [nm] is [_name]. *)
Fixpoint name_loop (fuel : nat) s (target : option Z) (nm buf : bytes) :
    outcome (option Z * bytes) :=
  match fuel with
  | O => OutOfFuel
  | S fuel =>
      x ← get_node s target;
      buf ← read_block s x buf;
      '(len, stop, nm) ← name_scan nm;
      found ← find_dentry buf nm 0 (entry_num x);
      match found with
      | None => Ok (None, buf)
      | Some i =>
          n ← dentry_inode buf i;
          if (stop : bool) then Ok (Some n, buf)
          else name_loop fuel s (Some n) (drop (len + 1) nm) buf
      end
  end.

(** The last part of [name_parse]: a soft link is followed if the hash it
    keeps is that of its target. *)
Definition follow_link s (target : option Z) : outcome (option Z * fs D) :=
  match target with
  | None => Ok (None, s)
  | Some _ =>
      x ← get_node s target;
      if type x =? soft_link then
        y ← get_node s (Some (link_to x));
        differs ← find_range 0 16 (λ i,
          a ← aget (hash y) i; b ← aget (hash x) i; Ok (negb (a =? b)));
        match differs with
        | None => Ok (Some (link_to x), s)
        | Some _ => Ok (None, print s "Invalid soft link!")
        end
      else Ok (target, s)
  end.

(** [__name], 240 bytes. *)
Definition path_buffer : bytes := replicate (10 * 24) 0.

Definition name_parse s (name : option bytes) (buf : bytes) :
    outcome (option Z * bytes * fs D) :=
  '(target, buf) ←
    (match name with
     | None => Ok (Some (cwd s), buf)
     | Some name =>
         _name ← strcpy path_buffer 0 name;
         c ← aget _name 0;
         let '(target, _name) :=
           if c =? 47 then (root s, drop 1 _name) else (cwd s, _name) in
         name_loop (S (length _name)) s (Some target) _name buf
     end);
  '(target, s) ← follow_link s target;
  Ok (target, buf, s).

(** ** Making and mounting a file system *)

Definition do_print_fs_info s : outcome (fs D) :=
  let s := print s "Reading FS meta data..." in
  buf ← do_fs_read s FS_START (replicate 512 0) 512;
  let spblk := decode_super buf in
  if negb (magic spblk =? MAGIC_NUMER) then Ok (print s "No valid FS here.")
  else
    let line s label v := printks s ([9] ++ str label ++ str ": 0x%x" ++ [10; 0]) [ArgInt v] in
    let s := line s "Magic number"%string (magic spblk) in
    let s := line s "Data block number"%string (data_block_num spblk) in
    let s := line s "Data block size"%string (data_block_size spblk) in
    let s := line s "Inode number"%string (inode_num spblk) in
    Ok (line s "Inode size"%string (inode_size spblk)).

(** The two first entries of a directory: itself and its parent. *)
Definition init_dentries (buf : bytes) (self parent : Z) : outcome bytes :=
  buf ← set_dentry_type buf 0 dir;
  buf ← set_dentry_inode buf 0 self;
  buf ← set_dentry_name buf 0 (cstr ".");
  buf ← set_dentry_type buf 1 dir;
  buf ← set_dentry_inode buf 1 parent;
  set_dentry_name buf 1 (cstr "..").

(** [junk] is the content of the local buffer of 4096 bytes. *)
Definition do_mkfs s (junk : bytes) : outcome (fs D) :=
  let s := s <| super_block := new_super |> in
  buf ← memcpy junk (encode_super (super_block s)) 36;
  s ← do_fs_write s FS_START buf 512;
  bb ← memset (block_bit_map s) 0 DATA_BLOCK_BIT_MAP_SIZE;
  ib ← memset (inode_bit_map s) 0 INODE_BIT_MAP_SIZE;
  let s := s <| block_bit_map := bb |> <| inode_bit_map := ib |> in
  buf ← memset buf 0 BLOCK_SIZE;
  root_inode_num ← find_first_zero_bit (inode_bit_map s) INODE_BIT_MAP_SIZE;
  '(rt, s) ← allocate_inode s root_inode_num;
  s ← upd_node s rt (λ x, x <| entry_num := 2 |>);
  s ← upd_node s rt (λ x, x <| link_cnt := 1 |>);
  root_data_block_number ← find_first_zero_bit (block_bit_map s) DATA_BLOCK_BIT_MAP_SIZE;
  '(got, s) ← allocate_data_block s root_data_block_number;
  s ← upd_node s rt (λ x, x <| direct ::= λ l,
        <[0%nat := get_data_block_offset s root_data_block_number]> l |>);
  if negb got then Fault NullPointer
  else
    buf ← init_dentries buf root_inode_num root_inode_num;
    x ← get_node s rt;
    s ← write_block s x buf;
    s ← update_bit_map s;
    s ← mark_inode_dirty s root_inode_num;
    s ← update_inode s;
    c ← strcpy (cwd_str s) 0 (cstr "/");
    do_print_fs_info (s <| root := 0 |> <| cwd := 0 |> <| cwd_str := c |>).

(** The [nodes] array from its bytes. *)
Fixpoint decode_nodes (n : nat) (b : bytes) : list inode_t :=
  match n with
  | O => []
  | S n => decode_inode (take 128 b) :: decode_nodes n (drop 128 b)
  end.

(** After [do_mkfs] it still uses the sector it read before. *)
Definition mount_fs s (junk : bytes) : outcome (fs D) :=
  let s := print s "Reading FS meta data..." in
  buf ← do_fs_read s FS_START (replicate 512 0) 512;
  let spblk := decode_super buf in
  s ← (if negb (magic spblk =? MAGIC_NUMER) then
         do_mkfs (s <| out ::= (.++ [Printk (str "No valid FS." ++ [10; 0]) []]) |>) junk
       else Ok s);
  let s := s <| super_block := spblk |> in
  ib ← do_fs_read s (ind_bit_map_start spblk) (inode_bit_map s) INODE_BIT_MAP_SIZE;
  bb ← do_fs_read s (blk_bit_map_start spblk) (block_bit_map s) DATA_BLOCK_BIT_MAP_SIZE;
  let nb := sdread (disk s) (ind_start spblk) (INODE_SIZE * INODE_MAX_NUMBER) in
  let ns := decode_nodes (length (nodes s)) nb in
  c ← strcpy (cwd_str s) 0 (cstr "/");
  Ok (s <| inode_bit_map := ib |> <| block_bit_map := bb |> <| nodes := ns |>
        <| root := 0 |> <| cwd := 0 |> <| cwd_str := c |>).

(** ** Creating entries *)

(** The new entry at the end of the current directory. *)
Definition add_dentry (buf : bytes) (cnt ty num : Z) (name : bytes) : outcome bytes :=
  buf ← set_dentry_type buf cnt ty;
  buf ← set_dentry_inode buf cnt num;
  set_dentry_name buf cnt name.

(** [junk1] and [junk2] are the contents of its two local buffers. *)
Definition do_mkdir s (name : option bytes) (junk1 junk2 : bytes) : outcome (fs D) :=
  match name with
  | None => Ok (print s "[ERROR] Invalid directory name.")
  | Some name =>
      name ← name_str_standrize name;
      c ← get_node s (Some (cwd s));
      buf ← read_block s c junk1;
      let cnt := entry_num c in
      s ← upd_node s (Some (cwd s)) (λ x, x <| entry_num := u32 (entry_num x + 1) |>);
      num ← find_first_zero_bit (inode_bit_map s) INODE_BIT_MAP_SIZE;
      '(new, s) ← allocate_inode s num;
      buf ← add_dentry buf cnt dir num name;
      s ← write_block s c buf;
      blk ← find_first_zero_bit (block_bit_map s) DATA_BLOCK_BIT_MAP_SIZE;
      '(got, s) ← allocate_data_block s blk;
      if negb got then Fault NullPointer
      else
        nbuf ← init_dentries junk2 num (cwd s);
        s ← upd_node s new (λ x, x <| entry_num := 2 |> <| type := dir |>
              <| direct ::= λ l,
                   <[0%nat := u32 (data_start (super_block s) + blk * BLOCK_SIZE)]> l |>
              <| link_cnt := 1 |>);
        x ← get_node s new;
        s ← write_block s x nbuf;
        s ← update_bit_map s;
        s ← mark_inode_dirty s (cwd s);
        s ← mark_inode_dirty s num;
        update_inode s
  end.

(** Whether a string has a slash. *)
Fixpoint has_slash (name : bytes) : outcome bool :=
  match name with
  | [] => Fault OutOfBounds
  | c :: name => if c =? 0 then Ok false else if c =? 47 then Ok true else has_slash name
  end.

(** It also returns the name, shortened in place. *)
Definition touch_name s (name junk : bytes) : outcome (bytes * fs D) :=
  name ← name_str_standrize name;
  slash ← has_slash name;
  if (slash : bool) then
    Ok (name, printks s (str "Command " ++ [34] ++ str "touch" ++ [34] ++
                         str " only supports relative path" ++ [10; 0]) [])
  else
    num ← find_first_zero_bit (inode_bit_map s) INODE_BIT_MAP_SIZE;
    '(new, s) ← allocate_inode s num;
    s ← mark_inode_dirty s num;
    s ← upd_node s new (λ x, x <| size := 0 |> <| type := file |> <| link_cnt := 1 |>);
    c ← get_node s (Some (cwd s));
    buf ← read_block s c junk;
    buf ← set_dentry_inode buf (entry_num c) num;
    buf ← set_dentry_type buf (entry_num c) file;
    buf ← set_dentry_name buf (entry_num c) name;
    s ← upd_node s (Some (cwd s)) (λ x, x <| entry_num := u32 (entry_num x + 1) |>);
    s ← mark_inode_dirty s (cwd s);
    s ← write_block s c buf;
    s ← update_inode s;
    s ← update_bit_map s;
    Ok (name, s).

Definition do_touch s (name : option bytes) (junk : bytes) : outcome (fs D) :=
  match name with
  | None => Ok (print s "[ERROR] No file name provided")
  | Some name => '(_, s) ← touch_name s name junk; Ok s
  end.

(** ** Listing *)

(** One entry: twelve characters of the name, the type and the size. *)
Definition ls_entry s (buf : bytes) (i : Z) : outcome (fs D) :=
  nm ← dentry_name buf i;
  '(_, s) ← for_range 0 12 (λ j '(met_zero, s),
     c ← aget nm j;
     let met_zero := (met_zero : bool) || (c =? 0) in
     Ok (met_zero, printks s (cstr "%c") [ArgInt (if met_zero then 32 else i8 c)])) (false, s);
  t ← dentry_type buf i;
  if t =? file then
    let s := printks s (cstr "file        ") [] in
    n ← dentry_inode buf i;
    x ← get_node s (Some n);
    Ok (printks s (str "%d" ++ [10; 0]) [ArgInt (size x)])
  else if t =? dir then
    Ok (printks (printks s (cstr "directory   ") []) [10; 0] [])
  else if t =? soft_link then
    Ok (printks (printks s (cstr "soft link   ") []) [10; 0] [])
  else Ok s.

(** [for (i = 0; dentry_buf[i].type != notype && i < _up; ++i)] *)
Fixpoint ls_loop (fuel : nat) s (buf : bytes) (i up : Z) : outcome (fs D) :=
  match fuel with
  | O => OutOfFuel
  | S fuel =>
      t ← dentry_type buf i;
      if negb (t =? notype) && (i <? up) then
        s ← ls_entry s buf i; ls_loop fuel s buf (i + 1) up
      else Ok s
  end.

(** An in-place update of an optional argument. *)
Definition standrize_opt (name : option bytes) : outcome (option bytes) :=
  match name with
  | None => Ok None
  | Some name => name ← name_str_standrize name; Ok (Some name)
  end.

(** [%s] with a pointer that may be null. *)
Definition arg_str (name : option bytes) : outcome arg := p ← deref name; Ok (ArgStr p).

(** At most 128 entries fit in a block. *)
Definition do_ls s (name : option bytes) (junk : bytes) : outcome (fs D) :=
  name ← standrize_opt name;
  '(target, buf, s) ← name_parse s name junk;
  match target with
  | None => a ← arg_str name; Ok (printks s (str "No directory named %s" ++ [10; 0]) [a])
  | Some _ =>
      x ← get_node s target;
      buf ← read_block s x buf;
      let s := print s "Name        Type        Size" in
      ls_loop 130 s buf 0 (entry_num x)
  end.

(** ** Changing the directory *)

(** Going up: the last component of [cwd_str] is dropped. *)
Fixpoint back_to_slash (fuel : nat) (str_ : bytes) (len : Z) : outcome Z :=
  match fuel with
  | O => OutOfFuel
  | S fuel =>
      c ← aget str_ len;
      if negb (c =? 47) then back_to_slash fuel str_ (len - 1) else Ok len
  end.

Definition cwd_str_step (c nm : bytes) (len : Z) : outcome (bytes * Z) :=
  dot ← strcmp nm (cstr ".");
  if dot =? 0 then Ok (c, len)
  else
    dotdot ← strcmp nm (cstr "..");
    if dotdot =? 0 then
      c ← aset c (len - 1) 0;
      len ← back_to_slash (S (length c)) c len;
      c ← aset c len 47;
      c ← aset c (len + 1) 0;
      Ok (c, len + 1)
    else
      c ← strcpy c len nm;
      delta ← strlen nm;
      c ← aset c (len + delta) 47;
      c ← aset c (len + delta + 1) 0;
      Ok (c, len + delta + 1).

Fixpoint cwd_str_loop (fuel : nat) s (target : option Z) (nm buf c : bytes) (len : Z) :
    outcome bytes :=
  match fuel with
  | O => OutOfFuel
  | S fuel =>
      x ← get_node s target;
      buf ← read_block s x buf;
      '(n, stop, nm) ← name_scan nm;
      found ← find_dentry buf nm 0 (entry_num x);
      match found with
      | None => Ok c
      | Some i =>
          '(c, len) ← cwd_str_step c nm len;
          k ← dentry_inode buf i;
          if (stop : bool) then Ok c
          else cwd_str_loop fuel s (Some k) (drop (n + 1) nm) buf c len
      end
  end.

Definition update_cwd_str s (name : option bytes) (buf : bytes) : outcome (fs D) :=
  len ← strlen (cwd_str s);
  match name with
  | None => Ok (printks s (cstr "[ERROR] invalid directory name.") [])
  | Some name =>
      _name ← strcpy path_buffer 0 name;
      c0 ← aget _name 0;
      if c0 =? 47 then
        c ← strcpy (cwd_str s) 0 _name;
        len ← strlen c;
        c ← aset c len 47;
        c ← aset c (len + 1) 0;
        Ok (s <| cwd_str := c |>)
      else
        c ← cwd_str_loop (S (length _name)) s (Some (cwd s)) _name buf (cwd_str s) len;
        Ok (s <| cwd_str := c |>)
  end.

Definition do_cd s (name : option bytes) (junk : bytes) : outcome (fs D) :=
  name ← standrize_opt name;
  '(target, buf, s) ← name_parse s name junk;
  match target with
  | None => a ← arg_str name; Ok (printks s (str "No directory named %s" ++ [10; 0]) [a])
  | Some t =>
      s ← update_cwd_str s name buf;
      Ok (s <| cwd := t |>)
  end.

(** ** Removing *)

(** [clear_bit] on the block bit map. *)
Definition release_block s (offset : Z) : outcome (fs D) :=
  m ← clear_bit (block_bit_map s) (get_data_block_number s offset);
  Ok (s <| block_bit_map := m |>).

(** [junk] is the buffer of a call; the recursion has one round per level. *)
Fixpoint rm_recurse (fuel : nat) s (ind : option Z) (junk : bytes) : outcome (fs D) :=
  match fuel with
  | O => OutOfFuel
  | S fuel =>
      s ← upd_node s ind (λ x, x <| link_cnt := u32 (link_cnt x - 1) |>);
      x ← get_node s ind;
      if 0 <? link_cnt x then upd_node s ind (λ x, x <| hash := time_hash s |>)
      else
        s ← (if type x =? dir then
               buf ← read_block s x junk;
               s ← for_range 2 (entry_num x) (λ i s,
                     n ← dentry_inode buf i; rm_recurse fuel s (Some n) junk) s;
               x ← get_node s ind;
               o ← aget (direct x) 0;
               release_block s o
             else if type x =? file then
               for_range 0 16 (λ i s,
                 x ← get_node s ind; o ← aget (direct x) i; release_block s o) s
             else Ok s);
        free_inode s ind
  end.

(** The number of slashes in a string. *)
Fixpoint count_slashes (name : bytes) : outcome Z :=
  match name with
  | [] => Fault OutOfBounds
  | c :: name =>
      if c =? 0 then Ok 0
      else n ← count_slashes name; Ok (if c =? 47 then n + 1 else n)
  end.

(** [dentry_buf[i - 1] = dentry_buf[i]] *)
Definition shift_dentry (i : Z) (buf : bytes) : outcome bytes :=
  e ← slice buf (DENTRY_SIZE * i) DENTRY_SIZE;
  put buf (DENTRY_SIZE * (i - 1)) e.

(** The inode to remove: lines 601-622, with the search in the current
    directory for a name that does not resolve. *)
Definition rm_target s (name junk : bytes) : outcome (option Z * bytes * fs D) :=
  '(to_remove, buf, s) ← name_parse s (Some name) junk;
  match to_remove with
  | Some _ => Ok (to_remove, buf, s)
  | None =>
      let s := print s "Only can remove a broken soft link in current working directory" in
      c ← get_node s (Some (cwd s));
      buf ← read_block s c buf;
      found ← find_dentry buf name 2 (entry_num c);
      match found with
      | None => Ok (None, buf, s)
      | Some i => n ← dentry_inode buf i; Ok (Some n, buf, s)
      end
  end.

(** The directory that holds it, and its name there: lines 625-656. *)
Definition rm_parent s (name buf : bytes) : outcome (option Z * bytes * bytes * fs D) :=
  slashes ← count_slashes name;
  c0 ← aget name 0;
  let multi := if slashes =? 1 then c0 =? 47 else negb (slashes =? 0) in
  if negb multi then Ok (Some (cwd s), name, buf, s)
  else
    len ← strlen name;
    len ← back_to_slash (S (length name)) name len;
    name ← aset name len 0;
    '(parent, buf, s) ← name_parse s (Some name) buf;
    Ok (parent, drop (Z.to_nat (len + 1)) name, buf, s).

Definition do_rm (fuel : nat) s (name junk : bytes) : outcome (fs D) :=
  name ← name_str_standrize name;
  '(to_remove, buf, s) ← rm_target s name junk;
  match to_remove with
  | None => Ok (printks s (str "No file or directory named %s" ++ [10; 0]) [ArgStr name])
  | Some _ =>
      s ← rm_recurse fuel s to_remove junk;
      '(parent, nm, buf, s) ← rm_parent s name buf;
      p ← get_node s parent;
      buf ← read_block s p buf;
      found ← find_dentry buf nm 2 (entry_num p);
      let th := default 1000000 found in
      buf ← for_range (th + 1) (entry_num p) shift_dentry buf;
      s ← upd_node s parent (λ x, x <| entry_num := u32 (entry_num x - 1) |>);
      s ← write_block s p buf;
      s ← update_bit_map s;
      update_inode s
  end.

(** ** Files *)

Definition do_cat s (name : option bytes) (junk : bytes) : outcome (fs D) :=
  match name with
  | None => Ok (print s "[ERROR] No file name provided")
  | Some name =>
      name ← name_str_standrize name;
      '(target, buf, s) ← name_parse s (Some name) junk;
      match target with
      | None => Ok (printks s (str "No file named %s" ++ [10; 0]) [ArgStr name])
      | Some _ =>
          x ← get_node s target;
          if type x =? dir then Ok (print s "Please specify a file name")
          else if type x =? file then
            if size x =? 0 then Ok s
            else
              buf ← read_block s x buf;
              s ← for_range 0 (size x `min` BLOCK_SIZE) (λ i s,
                    c ← aget buf i; Ok (printks s (cstr "%c") [ArgInt (i8 c)])) s;
              Ok (printks s [10; 0] [])
          else Ok s
      end
  end.

(** [current_running->fd[0] = ...] *)
Definition set_fd s (i : Z) (d : file_desc_t) : outcome (fs D) :=
  l ← aset (fd s) i d; Ok (s <| fd := l |>).

(** [junk] serves both calls of [name_parse] and the one of [do_touch]. *)
Definition do_fopen s (name : option bytes) (access : Z) (junk : bytes) : outcome (fs D) :=
  match name with
  | None => Ok (print s "[ERROR] No file name provided")
  | Some name =>
      name ← name_str_standrize name;
      '(target, buf, s) ← name_parse s (Some name) junk;
      '(target, s) ←
        (match target with
         | Some _ => Ok (target, s)
         | None =>
             '(name, s) ← touch_name s name junk;
             '(target, _, s) ← name_parse s (Some name) buf;
             Ok (target, s)
         end);
      x ← get_node s target;
      if type x =? dir then Ok (print s "[ERROR] Cannot open a directory as file")
      else if type x =? file then set_fd s 0 (FileDesc 0 target access)
      else Ok s
  end.

Definition blocks_of (n : Z) : Z := u32 (n + BLOCK_SIZE - 1) / BLOCK_SIZE.

(** Blocks are allocated below sixteen only.  [mark_inode_dirty] is called
    with the pointer in place of the inode's number: [nodes_addr] is the
    address of the array [nodes]. *)
Definition do_resize (nodes_addr : Z) s (f : option Z) (sz : Z) : outcome (fs D) :=
  x ← get_node s f;
  let used_blk := blocks_of (size x) in
  let all_blk := blocks_of sz in
  if used_blk <? all_blk then
    s ← upd_node s f (λ x, x <| size := sz |>);
    s ← (if all_blk <? 16 then
           for_range used_blk all_blk (λ i s,
             blk_num ← find_first_zero_bit (block_bit_map s) DATA_BLOCK_BIT_MAP_SIZE;
             '(_, s) ← allocate_data_block s blk_num;
             x ← get_node s f;
             l ← aset (direct x) i (get_data_block_offset s blk_num);
             upd_node s f (λ x, x <| direct := l |>)) s
         else Ok s);
    s ← update_bit_map s;
    i ← deref f;
    s ← mark_inode_dirty s (u32 (nodes_addr + INODE_SIZE * i));
    update_inode s
  else Ok s.

(** The offset of the block that holds a position; uninitialised for the
    positions that need an indirect block. *)
Definition blk_offset (x : inode_t) (p : Z) : outcome Z :=
  if p <? 16 * BLOCK_SIZE then aget (direct x) (p / BLOCK_SIZE) else Fault Uninitialised.

(** The last part of [do_fwrite], within a block. *)
Definition fwrite_block s (i : Z) (d : file_desc_t) (buf : bytes) (sz : Z) (resized : bool) :
    outcome (fs D) :=
  x ← get_node s (ifile d);
  o ← blk_offset x (pos d);
  wbuf ← do_fs_read s o (replicate (Z.to_nat BLOCK_SIZE) 0) BLOCK_SIZE;
  let r := Z.land (pos d) (BLOCK_SIZE - 1) in
  wbuf ← for_range 0 (sz `min` (BLOCK_SIZE - r)) (λ i wbuf,
           c ← aget buf i; aset wbuf (i + r) c) wbuf;
  s ← set_fd s i (d <| pos := u32 (pos d + sz) |>);
  s ← (if negb resized then upd_node s (ifile d) (λ x, x <| size := u32 (size x + sz) |>)
       else Ok s);
  s ← do_fs_write s o wbuf BLOCK_SIZE;
  n ← deref (ifile d);
  s ← mark_inode_dirty s n;
  s ← update_bit_map s;
  update_inode s.

(** [desc->file_access & O_WR == 0] is [desc->file_access & (O_WR == 0)]. *)
Fixpoint do_fwrite (fuel : nat) (nodes_addr : Z) s (i : Z) (buf : bytes) (sz : Z) :
    outcome (fs D) :=
  match fuel with
  | O => OutOfFuel
  | S fuel =>
      d ← aget (fd s) i;
      x ← get_node s (ifile d);
      let grow := blocks_of (size x) <? blocks_of (u32 (pos d + sz)) in
      s ← (if grow then do_resize nodes_addr s (ifile d) (u32 (pos d + sz)) else Ok s);
      if negb (Z.land (file_access d) (if O_WR =? 0 then 1 else 0) =? 0) then
        Ok (print s "No write permission")
      else if BLOCK_SIZE <? sz then
        for_range 0 ((sz + BLOCK_SIZE - 1) / BLOCK_SIZE) (λ k s,
          let st := k * BLOCK_SIZE in
          do_fwrite fuel nodes_addr s i (drop (Z.to_nat st) buf) (BLOCK_SIZE `min` (sz - st))) s
      else if negb (pos d / BLOCK_SIZE =? u32 (pos d + sz) / BLOCK_SIZE) then
        let fst_sz := BLOCK_SIZE - Z.land (pos d) (BLOCK_SIZE - 1) in
        s ← do_fwrite fuel nodes_addr s i buf fst_sz;
        do_fwrite fuel nodes_addr s i (drop (Z.to_nat fst_sz) buf) (u32 (sz - fst_sz))
      else fwrite_block s i d buf sz grow
  end.

(** The last part of [do_fread]; both of its loops copy from [rbuf + r]. *)
Definition fread_block s (i : Z) (d : file_desc_t) (buf : bytes) (sz : Z) :
    outcome (bytes * fs D) :=
  x ← get_node s (ifile d);
  o ← blk_offset x (pos d);
  rbuf ← do_fs_read s o (replicate (Z.to_nat BLOCK_SIZE) 0) BLOCK_SIZE;
  let r := Z.land (pos d) (BLOCK_SIZE - 1) in
  buf ← for_range 0 (sz `min` (BLOCK_SIZE - r)) (λ i buf,
          c ← aget rbuf (i + r); aset buf i c) buf;
  s ← set_fd s i (d <| pos := u32 (pos d + sz) |>);
  Ok (buf, s).

(** Reading into the memory [buf] at index [o]. *)
Definition at_offset {A} (buf : bytes) (o : Z) (f : bytes → outcome (bytes * A)) :
    outcome (bytes * A) :=
  '(b, a) ← f (drop (Z.to_nat o) buf);
  Ok (take (Z.to_nat o) buf ++ b, a).

Fixpoint do_fread (fuel : nat) s (i : Z) (buf : bytes) (sz : Z) : outcome (bytes * fs D) :=
  match fuel with
  | O => OutOfFuel
  | S fuel =>
      d ← aget (fd s) i;
      x ← get_node s (ifile d);
      if size x <? u32 (pos d + sz) then Ok (buf, print s "[ERROR] Access violation")
      else if BLOCK_SIZE <? sz then
        for_range 0 ((sz + BLOCK_SIZE - 1) / BLOCK_SIZE) (λ k '(buf, s),
          let st := k * BLOCK_SIZE in
          at_offset buf st (λ b, do_fread fuel s i b (BLOCK_SIZE `min` (sz - st)))) (buf, s)
      else if negb (pos d / BLOCK_SIZE =? u32 (pos d + sz) / BLOCK_SIZE) then
        let fst_sz := BLOCK_SIZE - Z.land (pos d) (BLOCK_SIZE - 1) in
        '(buf, s) ← do_fread fuel s i buf fst_sz;
        at_offset buf fst_sz (λ b, do_fread fuel s i b (u32 (sz - fst_sz)))
      else fread_block s i d buf sz
  end.

(** The file pointer stays. *)
Definition do_fclose s (i : Z) : outcome (fs D) :=
  d ← aget (fd s) i;
  set_fd s i (d <| pos := 0 |> <| file_access := 0 |>).

Definition do_fseek s (i p : Z) : outcome (fs D) :=
  d ← aget (fd s) i;
  set_fd s i (d <| pos := p |>).

(** ** Links, search and renaming *)

(** [info.hash[i] = master->info.hash[i]] for the sixteen bytes. *)
Definition copy_hash (m x : inode_t) : inode_t := x <| hash := hash m |>.

Definition do_link s (master servant : bytes) (link_type : Z) (junk : bytes) :
    outcome (fs D) :=
  master ← name_str_standrize master;
  servant ← name_str_standrize servant;
  '(m, buf, s) ← name_parse s (Some master) junk;
  slash ← has_slash servant;
  if (slash : bool) then Ok (print s "Only can make link in cwd")
  else if link_type =? HARD_LINK then
    x ← get_node s m;
    n ← deref m;
    c ← get_node s (Some (cwd s));
    buf ← read_block s c buf;
    buf ← add_dentry buf (entry_num c) (type x) n servant;
    s ← upd_node s (Some (cwd s)) (λ x, x <| entry_num := u32 (entry_num x + 1) |>);
    s ← upd_node s m (λ x, x <| link_cnt := u32 (link_cnt x + 1) |>);
    s ← mark_inode_dirty s n;
    c ← get_node s (Some (cwd s));
    s ← write_block s c buf;
    update_inode s
  else if link_type =? SOFT_LINK then
    x ← get_node s m;
    n ← deref m;
    if type x =? soft_link then Ok (print s "Cannot create a softlink of a softlink")
    else
      num ← find_first_zero_bit (inode_bit_map s) INODE_BIT_MAP_SIZE;
      '(new, s) ← allocate_inode s num;
      s ← upd_node s new (λ y, y <| type := soft_link |> <| link_to := n |>);
      x ← get_node s m;
      s ← upd_node s new (copy_hash x);
      c ← get_node s (Some (cwd s));
      buf ← read_block s c buf;
      buf ← add_dentry buf (entry_num c) soft_link num servant;
      s ← upd_node s (Some (cwd s)) (λ x, x <| entry_num := u32 (entry_num x + 1) |>);
      s ← mark_inode_dirty s n;
      c ← get_node s (Some (cwd s));
      s ← write_block s c buf;
      update_inode s
  else Ok s.

(** The names from a directory up to the root, the innermost first: the loop of
    [print_absolute_path].  A directory that its parent does not list repeats
    the loop without end. *)
Fixpoint path_names (fuel : nat) s (buf : bytes) (cur : Z) (acc : list bytes) :
    outcome (list bytes) :=
  match fuel with
  | O => OutOfFuel
  | S fuel =>
      parent ← dentry_inode buf 1;
      if parent =? cur then Ok acc
      else
        p ← get_node s (Some parent);
        buf ← read_block s p buf;
        found ← find_range 0 (entry_num p) (λ i, n ← dentry_inode buf i; Ok (n =? cur));
        match found with
        | None => path_names fuel s buf cur acc
        | Some i =>
            nm ← dentry_name buf i;
            if Z.of_nat (length acc) <? 10 then
              nm ← strcpy (replicate 24 0) 0 nm;
              path_names fuel s buf parent (acc ++ [nm])
            else Fault OutOfBounds
        end
  end.

(** It prints the path of the directory on one line. *)
Definition print_absolute_path (fuel : nat) s (ind : option Z) (junk : bytes) :
    outcome (fs D) :=
  n ← deref ind;
  x ← get_node s ind;
  buf ← read_block s x junk;
  names ← path_names fuel s buf n [];
  let s := printks s (cstr "/") [] in
  Ok (printks (fold_right (λ nm s, printks s (cstr "%s/") [ArgStr nm]) s names) [10; 0] []).

(** The subdirectories are collected first, at most 100 of them; [buf] is
    shared by all calls. *)
Fixpoint find_recurse (fuel : nat) s (path : option Z) (name buf junk : bytes) :
    outcome (bytes * fs D) :=
  match fuel with
  | O => OutOfFuel
  | S fuel =>
      x ← get_node s path;
      buf ← read_block s x buf;
      '(subs, s) ← for_range 2 (entry_num x) (λ i '(subs, s),
         t ← dentry_type buf i;
         n ← dentry_inode buf i;
         if t =? dir then
           if Z.of_nat (length subs) <? 100 then Ok (subs ++ [n], s) else Fault OutOfBounds
         else if t =? file then
           nm ← dentry_name buf i;
           r ← strcmp nm name;
           if r =? 0 then s ← print_absolute_path fuel s path junk; Ok (subs, s) else Ok (subs, s)
         else Ok (subs, s)) ([], s);
      for_range 0 (Z.of_nat (length subs)) (λ i '(buf, s),
        n ← aget subs i; find_recurse fuel s (Some n) name buf junk) (buf, s)
  end.

Definition do_find (fuel : nat) s (path : option bytes) (name junk : bytes) : outcome (fs D) :=
  path ← standrize_opt path;
  '(d, buf, s) ← name_parse s path junk;
  x ← get_node s d;
  if type x =? file then Ok (print s "Please specify a directory name")
  else '(_, s) ← find_recurse fuel s d name buf junk; Ok s.

Definition do_rename s (old new junk : bytes) : outcome (fs D) :=
  old ← name_str_standrize old;
  new ← name_str_standrize new;
  c ← get_node s (Some (cwd s));
  buf ← read_block s c junk;
  found ← find_range 2 (entry_num c) (λ i,
    nm ← dentry_name buf i; r ← strcmp nm old; Ok (r =? 0));
  buf ← (match found with
         | None => Ok buf
         | Some i => set_dentry_name buf i new
         end);
  write_block s c buf.

End fs.
