(* ===== verification/FsDisk.v ===== *)
(** * Disk accesses and bit maps of the file system

    Reads after writes, the bit operations against [Z.testbit], and what
    [update_inode] and [update_bit_map] leave on the disk: after a sync the
    inode area is the image of the inodes, and mounting it gives them back. *)

From S2P Require Import Prelude CString Printk FsLayout Fs.

Section disk.
Context {D : Type} `{BlockDevLaws D}.
Implicit Types (s : fs D) (d : D) (m : bytes).

(** ** Reads and writes *)

Lemma sdread_length d o n : length (sdread d o n) = Z.to_nat n.
Proof. by rewrite sdread_bytes, length_map, length_seqZ. Qed.

Lemma sdread_lookup d o n (i : nat) :
  sdread d o n !! i = if decide (Z.of_nat i < n) then Some (byte_at d (o + Z.of_nat i)) else None.
Proof.
  rewrite sdread_bytes. case_decide.
  - change (map ?f ?l) with (f <$> l). rewrite list_lookup_fmap, lookup_seqZ_lt by lia. done.
  - apply lookup_ge_None. rewrite length_map, length_seqZ. lia.
Qed.

Lemma sdread_write_eq d o bs : sdread (sdwrite d o bs) o (Z.of_nat (length bs)) = bs.
Proof.
  apply list_eq. intros i. rewrite sdread_lookup. case_decide.
  - rewrite sdwrite_bytes, decide_True by lia. replace (Z.to_nat (o + Z.of_nat i - o)) with i by lia.
    destruct (lookup_lt_is_Some_2 bs i) as [x Hx]; [lia|]. by rewrite Hx.
  - symmetry. apply lookup_ge_None. lia.
Qed.

Lemma sdread_write_ne d o bs o' n :
  o' + n ≤ o ∨ o + Z.of_nat (length bs) ≤ o' → sdread (sdwrite d o bs) o' n = sdread d o' n.
Proof.
  intros Ho. apply list_eq. intros i. rewrite !sdread_lookup. case_decide; [|done].
  rewrite sdwrite_bytes, decide_False by lia. done.
Qed.

(** Any part of a range that was read. *)
Lemma sdread_sub d o n o' n' :
  o ≤ o' → 0 ≤ n' → o' + n' ≤ o + n →
  take (Z.to_nat n') (drop (Z.to_nat (o' - o)) (sdread d o n)) = sdread d o' n'.
Proof.
  intros. apply list_eq. intros i. rewrite sdread_lookup. case_decide.
  - rewrite lookup_take_lt by lia. rewrite lookup_drop, sdread_lookup, decide_True by lia.
    do 2 f_equal. lia.
  - rewrite lookup_take_ge by lia. done.
Qed.

Lemma do_fs_read_spec s o buf n :
  0 ≤ n → n = Z.of_nat (length buf) → do_fs_read s o buf n = Ok (sdread (disk s) o n).
Proof.
  intros Hn ->. unfold do_fs_read, put. rewrite decide_True by (rewrite sdread_length; lia).
  f_equal. unfold splice. rewrite sdread_length. change (Z.to_nat 0) with 0%nat.
  rewrite take_0, drop_ge by lia. by rewrite app_nil_r.
Qed.

Lemma do_fs_write_spec s o buf n :
  n = Z.of_nat (length buf) → do_fs_write s o buf n = Ok (s <| disk ::= λ d, sdwrite d o buf |>).
Proof.
  intros ->. unfold do_fs_write, slice. rewrite decide_True by lia. rewrite bind_Ok.
  change (Z.to_nat 0) with 0%nat. by rewrite drop_0, firstn_all2 by lia.
Qed.

(** The block that holds the entries of a directory, or the first data. *)
Definition first_block s (x : inode_t) : bytes := sdread (disk s) (nth 0 (direct x) 0) BLOCK_SIZE.

Lemma first_block_length s x : Z.of_nat (length (first_block s x)) = BLOCK_SIZE.
Proof. unfold first_block. by rewrite sdread_length. Qed.

Lemma aget_direct0 x : direct x ≠ [] → aget (direct x) 0 = Ok (nth 0 (direct x) 0).
Proof. by destruct (direct x). Qed.

Lemma read_block_spec s x buf :
  direct x ≠ [] → Z.of_nat (length buf) = BLOCK_SIZE → read_block s x buf = Ok (first_block s x).
Proof.
  intros Hd Hl. unfold read_block. rewrite aget_direct0, bind_Ok by done.
  by apply do_fs_read_spec.
Qed.

Lemma write_block_spec s x buf :
  direct x ≠ [] → Z.of_nat (length buf) = BLOCK_SIZE →
  write_block s x buf = Ok (s <| disk ::= λ d, sdwrite d (nth 0 (direct x) 0) buf |>).
Proof.
  intros Hd Hl. unfold write_block. rewrite aget_direct0, bind_Ok by done.
  by apply do_fs_write_spec.
Qed.

(** ** Bit maps *)

(** Bit [k] of a bit map. *)
Definition bit (m : bytes) (k : Z) : bool := Z.testbit (nth (Z.to_nat (k / 8)) m 0) (k mod 8).

Lemma land_7 k : Z.land k 7 = k mod 8.
Proof. change 7 with (Z.ones 3). by rewrite Z.land_ones by lia. Qed.

Lemma land_bit c r : 0 ≤ r → negb (Z.land c (Z.shiftl 1 r) =? 0) = Z.testbit c r.
Proof.
  intros. rewrite Z.shiftl_1_l. destruct (Z.testbit c r) eqn:Hb.
  - destruct (Z.eqb_spec (Z.land c (2 ^ r)) 0) as [He|]; [|done].
    assert (Z.testbit (Z.land c (2 ^ r)) r = true) as Ht
      by (rewrite Z.land_spec, Hb, Z.pow2_bits_true by lia; done).
    by rewrite He, Z.bits_0 in Ht.
  - assert (Z.land c (2 ^ r) = 0) as ->; [|done]. apply Z.bits_inj'. intros n Hn.
    rewrite Z.land_spec, Z.bits_0, Z.pow2_bits_eqb by lia.
    destruct (Z.eqb_spec r n) as [->|]; [by rewrite Hb|apply andb_false_r].
Qed.

Lemma test_bit_spec m k :
  0 ≤ k < 8 * Z.of_nat (length m) → test_bit m k = Ok (bit m k).
Proof.
  intros Hk. unfold test_bit, bit. rewrite Z.shiftr_div_pow2 by lia. change (2 ^ 3) with 8.
  assert (0 ≤ k / 8 < Z.of_nat (length m)) as Hb
    by (split; [apply Z.div_pos; lia|apply Z.div_lt_upper_bound; lia]).
  destruct (lookup_lt_is_Some_2 m (Z.to_nat (k / 8))) as [c Hc]; [lia|].
  assert (aget m (k / 8) = Ok c) as -> by (apply aget_Ok; split; [lia|done]).
  rewrite bind_Ok, land_7, land_bit by (apply Z.mod_pos_bound; lia).
  by rewrite (nth_lookup_Some m _ 0 c Hc).
Qed.

(** Changing the byte of bit [k] with a function on its bits. *)
Lemma bit_update m k c f (g : bool → bool) :
  0 ≤ k < 8 * Z.of_nat (length m) → all_bytes m → m !! Z.to_nat (k / 8) = Some c →
  (∀ n, 0 ≤ n < 8 → Z.testbit f n = if n =? k mod 8 then g (Z.testbit c n) else Z.testbit c n) →
  let m' := <[Z.to_nat (k / 8) := u8 f]> m in
  all_bytes m' ∧ ∀ j, 0 ≤ j → bit m' j = if j =? k then g (bit m j) else bit m j.
Proof.
  intros Hk Hm Hc Hf m'. assert (is_byte (u8 f)) as Hu by (apply Z.mod_pos_bound; lia).
  pose proof (lookup_lt_Some _ _ _ Hc) as Hlt. split.
  - subst m'. apply Forall_insert; done.
  - intros j Hj. unfold bit. subst m'.
    pose proof (Z.mod_pos_bound j 8 ltac:(lia)) as Hjm.
    destruct (decide (j / 8 = k / 8)) as [He|Hne].
    + rewrite He, (nth_lookup_Some (<[Z.to_nat (k / 8) := u8 f]> m) _ 0 (u8 f))
        by (by apply list_lookup_insert_eq).
      rewrite (nth_lookup_Some m _ 0 c) by done.
      unfold u8. rewrite Z.mod_pow2_bits_low, Hf by lia.
      destruct (Z.eqb_spec (j mod 8) (k mod 8)), (Z.eqb_spec j k); try done.
      * pose proof (Z_div_mod_eq_full j 8). pose proof (Z_div_mod_eq_full k 8). lia.
      * by subst.
    + destruct (Z.eqb_spec j k); [by subst|].
      assert (Z.to_nat (k / 8) ≠ Z.to_nat (j / 8)) as Hn.
      { assert (0 ≤ j / 8 ∧ 0 ≤ k / 8) by (split; apply Z.div_pos; lia). lia. }
      rewrite !nth_lookup. by rewrite list_lookup_insert_ne by done.
Qed.

Lemma bit_byte m k :
  0 ≤ k < 8 * Z.of_nat (length m) → ∃ c, aget m (Z.shiftr k 3) = Ok c ∧
    m !! Z.to_nat (k / 8) = Some c ∧ Z.shiftr k 3 = k / 8 ∧ 0 ≤ k / 8 < Z.of_nat (length m).
Proof.
  intros Hk. rewrite Z.shiftr_div_pow2 by lia. change (2 ^ 3) with 8.
  assert (0 ≤ k / 8 < Z.of_nat (length m)) as Hb
    by (split; [apply Z.div_pos; lia|apply Z.div_lt_upper_bound; lia]).
  destruct (lookup_lt_is_Some_2 m (Z.to_nat (k / 8))) as [c Hc]; [lia|].
  exists c. split_and!; [apply aget_Ok; split; [lia|done]|done..|lia|lia].
Qed.

Lemma set_bit_spec m k :
  0 ≤ k < 8 * Z.of_nat (length m) → all_bytes m →
  ∃ m', set_bit m k = Ok m' ∧ length m' = length m ∧ all_bytes m' ∧
    ∀ j, 0 ≤ j → bit m' j = if j =? k then true else bit m j.
Proof.
  intros Hk Hm. unfold set_bit. destruct (bit_byte m k Hk) as (c & -> & Hc & -> & Hb).
  rewrite bind_Ok, aset_total, land_7 by done. eexists. split; [done|].
  split; [apply length_insert|].
  apply (bit_update m k c _ (λ _, true)); [done|done|done|]. intros n Hn.
  rewrite Z.lor_spec, Z.shiftl_1_l, Z.pow2_bits_eqb by (apply Z.mod_pos_bound; lia).
  rewrite Z.eqb_sym. destruct (n =? k mod 8); [apply orb_true_r|apply orb_false_r].
Qed.

Lemma clear_bit_spec m k :
  0 ≤ k < 8 * Z.of_nat (length m) → all_bytes m →
  ∃ m', clear_bit m k = Ok m' ∧ length m' = length m ∧ all_bytes m' ∧
    ∀ j, 0 ≤ j → bit m' j = if j =? k then false else bit m j.
Proof.
  intros Hk Hm. unfold clear_bit. destruct (bit_byte m k Hk) as (c & -> & Hc & -> & Hb).
  rewrite bind_Ok, aset_total, land_7 by done. eexists. split; [done|].
  split; [apply length_insert|].
  apply (bit_update m k c _ (λ _, false)); [done|done|done|]. intros n Hn.
  rewrite Z.land_spec, Z.lnot_spec, Z.shiftl_1_l, Z.pow2_bits_eqb
    by (lia || apply Z.mod_pos_bound; lia).
  rewrite Z.eqb_sym. destruct (n =? k mod 8); [apply andb_false_r|apply andb_true_r].
Qed.

Lemma find_first_zero_bit_spec m :
  ∃ r, find_first_zero_bit m (Z.of_nat (length m)) =
      match r with Some i => Ok i | None => Fault NoReturnValue end ∧
    match r with
    | Some i => 0 ≤ i < 8 * Z.of_nat (length m) ∧ bit m i = false ∧ ∀ j, 0 ≤ j < i → bit m j = true
    | None => ∀ j, 0 ≤ j < 8 * Z.of_nat (length m) → bit m j = true
    end.
Proof.
  unfold find_first_zero_bit.
  destruct (find_range_spec 0 (8 * Z.of_nat (length m))
    (λ i, b ← test_bit m i; Ok (negb b)) (λ i, negb (bit m i))) as (r & -> & Hr).
  { intros i Hi. by rewrite test_bit_spec by lia. }
  exists r. split; [by destruct r|]. destruct r as [i|].
  - destruct Hr as (Hi & Hb & Hj). split_and!; [lia|lia|by apply negb_true_iff|].
    intros j Hj'. by apply negb_false_iff, Hj.
  - intros j Hj. by apply negb_false_iff, Hr.
Qed.
(** ** Well-formed states *)

Record fs_ok s : Prop := {
  ok_nodes : Z.of_nat (length (nodes s)) = INODE_MAX_NUMBER;
  ok_inode : Forall inode_ok (nodes s);
  ok_dirty : Z.of_nat (length (inode_dirty s)) = 256;
  ok_super : super_block s = new_super;
  ok_block_map : Z.of_nat (length (block_bit_map s)) = DATA_BLOCK_BIT_MAP_SIZE ∧ all_bytes (block_bit_map s);
  ok_inode_map : Z.of_nat (length (inode_bit_map s)) = INODE_BIT_MAP_SIZE ∧ all_bytes (inode_bit_map s);
}.

(** Where inode [k] is on the disk. *)
Definition inode_offset (k : Z) : Z := ind_start new_super + INODE_SIZE * k.

Definition node s (k : Z) : inode_t := nth (Z.to_nat k) (nodes s) zero_inode.

Lemma node_ok s k : fs_ok s → inode_ok (node s k).
Proof.
  intros Hs. unfold node. rewrite nth_lookup.
  destruct (nodes s !! Z.to_nat k) as [x|] eqn:Hx; [|apply zero_inode_ok].
  simpl. by eapply Forall_lookup_1; [apply Hs|].
Qed.

Lemma aget_node s k : fs_ok s → 0 ≤ k < INODE_MAX_NUMBER → aget (nodes s) k = Ok (node s k).
Proof.
  intros Hs Hk. destruct (aget_total (nodes s) k) as [x Hx]; [by rewrite (ok_nodes _ Hs)|].
  rewrite Hx. apply aget_Ok in Hx as [_ Hx]. unfold node. by rewrite nth_lookup, Hx.
Qed.

(** ** Images of runs of inodes *)

Lemma concat_chunk {A} (l : list (list A)) (n i : nat) x :
  Forall (λ c, length c = n) l → l !! i = Some x → take n (drop (n * i) (concat l)) = x.
Proof.
  intros Hl. revert i. induction Hl as [|c l Hc Hl IH]; intros i Hx; [done|].
  cbn [concat]. destruct i as [|i].
  - injection Hx as ->. rewrite Nat.mul_0_r, drop_0. by rewrite take_app_length'.
  - rewrite drop_app_ge by lia. replace (n * S i - length c)%nat with (n * i)%nat by lia.
    by apply IH.
Qed.

Lemma concat_length {A} (l : list (list A)) (n : nat) :
  Forall (λ c, length c = n) l → length (concat l) = (n * length l)%nat.
Proof.
  induction 1 as [|c l Hc _ IH]; [simpl; lia|]. cbn [concat length]. rewrite length_app, IH. lia.
Qed.

Lemma encode_nodes_length s :
  fs_ok s → Forall (λ c, length c = 128%nat) (map encode_inode (nodes s)).
Proof.
  intros Hs. apply Forall_map. eapply Forall_impl; [apply Hs|]. apply encode_inode_length.
Qed.

Lemma node_bytes_length s g :
  fs_ok s → 0 ≤ g < 256 → Z.of_nat (length (node_bytes s (32 * g))) = BLOCK_SIZE.
Proof.
  intros Hs Hg. unfold node_bytes. change (Z.to_nat node_num_per_block) with 32%nat.
  rewrite (concat_length _ 128).
  - rewrite length_map, length_take, length_drop. pose proof (ok_nodes _ Hs) as Hn.
    unfold INODE_MAX_NUMBER, INODE_BIT_MAP_SIZE, BLOCK_SIZE in *. lia.
  - apply Forall_map, Forall_take, Forall_drop. eapply Forall_impl; [apply Hs|].
    apply encode_inode_length.
Qed.

(** Inode [k] in the image of its block. *)
Lemma node_bytes_chunk s k :
  fs_ok s → 0 ≤ k < INODE_MAX_NUMBER →
  take 128 (drop (128 * Z.to_nat (k mod 32)) (node_bytes s (32 * (k / 32)))) =
    encode_inode (node s k).
Proof.
  intros Hs Hk. unfold node_bytes. change (Z.to_nat node_num_per_block) with 32%nat.
  pose proof (Z.mod_pos_bound k 32 ltac:(lia)). pose proof (Z_div_mod_eq_full k 32).
  assert (0 ≤ k / 32) by (apply Z.div_pos; lia).
  apply (concat_chunk _ 128).
  - apply Forall_map, Forall_take, Forall_drop. eapply Forall_impl; [apply Hs|].
    apply encode_inode_length.
  - change (map ?f ?l) with (f <$> l). rewrite list_lookup_fmap, lookup_take_lt, lookup_drop by lia.
    replace (Z.to_nat (32 * (k / 32)) + Z.to_nat (k mod 32))%nat with (Z.to_nat k) by lia.
    destruct (lookup_lt_is_Some_2 (nodes s) (Z.to_nat k)) as [x Hx];
      [pose proof (ok_nodes _ Hs); lia|].
    unfold node. by rewrite nth_lookup, Hx.
Qed.

(** Reading one inode from the image of its block. *)
Lemma inode_of_block (d d' : D) s k :
  fs_ok s → 0 ≤ k < INODE_MAX_NUMBER →
  sdread d (inode_offset (32 * (k / 32))) BLOCK_SIZE = node_bytes s (32 * (k / 32)) →
  sdread d (inode_offset k) 128 = encode_inode (node s k).
Proof.
  intros Hs Hk Hb. rewrite <- (node_bytes_chunk s k Hs Hk), <- Hb.
  pose proof (Z.mod_pos_bound k 32 ltac:(lia)). pose proof (Z_div_mod_eq_full k 32).
  symmetry. rewrite <- (sdread_sub d (inode_offset (32 * (k / 32))) BLOCK_SIZE (inode_offset k) 128)
    by (unfold inode_offset, INODE_SIZE, BLOCK_SIZE; lia).
  change (Z.to_nat 128) with 128%nat. do 2 f_equal. unfold inode_offset, INODE_SIZE. lia.
Qed.

(** ** [update_inode] *)

(** After rounds [0..i-1]: those blocks are written and no longer dirty. *)
Definition updating s (i : Z) (s' : fs D) : Prop :=
  ∃ d t, s' = s <| disk := d |> <| inode_dirty := t |> ∧ Z.of_nat (length t) = 256 ∧
    (∀ g, (g < Z.to_nat i)%nat → t !! g = Some 0) ∧
    (∀ g, (Z.to_nat i ≤ g)%nat → t !! g = inode_dirty s !! g) ∧
    (∀ g, 0 ≤ g < i → sdread d (inode_offset (32 * g)) BLOCK_SIZE =
       if nth (Z.to_nat g) (inode_dirty s) 0 =? 0
       then sdread (disk s) (inode_offset (32 * g)) BLOCK_SIZE else node_bytes s (32 * g)) ∧
    (∀ o n, o + n ≤ inode_offset 0 ∨ inode_offset (32 * i) ≤ o →
       sdread d o n = sdread (disk s) o n).

Lemma updating_step s i s' :
  fs_ok s → 0 ≤ i < 256 → updating s i s' →
  ∃ s'', (d ← aget (inode_dirty s') i;
    if negb (d =? 0) then
      t ← aset (inode_dirty s') i 0;
      let s := s' <| inode_dirty := t |> in
      let media_offset := u32 (ind_start (super_block s) + INODE_SIZE * i * node_num_per_block) in
      do_fs_write s media_offset (node_bytes s (i * node_num_per_block)) BLOCK_SIZE
    else Ok s') = Ok s'' ∧ updating s (i + 1) s''.
Proof.
  intros Hs Hi (d & t & -> & Hlen & Hdone & Htodo & Hwritten & Hother). cbv zeta. simpl.
  destruct (aget_total t i) as [v Hv]; [lia|]. rewrite Hv, bind_Ok.
  apply aget_Ok in Hv as [_ Hv].
  assert (nth (Z.to_nat i) (inode_dirty s) 0 = v) as Hnv.
  { rewrite Htodo in Hv by done. by rewrite nth_lookup, Hv. }
  assert (Z.to_nat (i + 1) = S (Z.to_nat i)) as Hi1 by lia.
  destruct (Z.eqb_spec v 0) as [->|Hne]; simpl.
  - eexists. split; [done|]. exists d, t. split; [done|]. split; [done|]. rewrite Hi1. split_and!.
    + intros g Hg. destruct (decide (g = Z.to_nat i)) as [->|]; [done|]. apply Hdone. lia.
    + intros g Hg. apply Htodo. lia.
    + intros g Hg. destruct (decide (g = i)) as [->|]; [|apply Hwritten; lia].
      rewrite Hnv. simpl. apply Hother. unfold inode_offset, INODE_SIZE. lia.
    + intros o n Ho. apply Hother. unfold inode_offset, INODE_SIZE in *. lia.
  - rewrite aset_total, bind_Ok by lia.
    rewrite (ok_super _ Hs). change node_num_per_block with 32.
    assert (u32 (ind_start new_super + INODE_SIZE * i * 32) = inode_offset (32 * i)) as ->.
    { unfold inode_offset. rewrite u32_small; [lia|]. simpl. unfold INODE_SIZE.
      unfold BLK_BIT_MAP_START, FS_START, DATA_BLOCK_BIT_MAP_SIZE, INODE_BIT_MAP_SIZE. lia. }
    replace (i * 32) with (32 * i) by lia.
    pose proof (node_bytes_length s i Hs Hi) as Hnl.
    rewrite do_fs_write_spec by (change (node_bytes _ (32 * i)) with (node_bytes s (32 * i));
      by rewrite Hnl).
    eexists. split; [done|].
    exists (sdwrite d (inode_offset (32 * i)) (node_bytes s (32 * i))), (<[Z.to_nat i := 0]> t).
    split; [done|]. rewrite length_insert, Hi1. split; [done|]. split_and!.
    + intros g Hg. destruct (decide (g = Z.to_nat i)) as [->|].
      * apply list_lookup_insert_eq. lia.
      * rewrite list_lookup_insert_ne by done. apply Hdone. lia.
    + intros g Hg. rewrite list_lookup_insert_ne by lia. apply Htodo. lia.
    + intros g Hg. destruct (decide (g = i)) as [->|].
      * rewrite Hnv. destruct (Z.eqb_spec v 0); [done|].
        rewrite <- Hnl. apply sdread_write_eq.
      * rewrite sdread_write_ne by (rewrite Hnl; unfold inode_offset, INODE_SIZE, BLOCK_SIZE; lia).
        apply Hwritten. lia.
    + intros o n Ho. rewrite sdread_write_ne.
      * apply Hother. unfold inode_offset, INODE_SIZE in *. lia.
      * rewrite Hnl. unfold inode_offset, INODE_SIZE, BLOCK_SIZE in *. lia.
Qed.

Lemma update_inode_spec s :
  fs_ok s → ∃ d, update_inode s = Ok (s <| disk := d |> <| inode_dirty := replicate 256 0 |>) ∧
    (∀ k, 0 ≤ k < INODE_MAX_NUMBER → sdread d (inode_offset k) 128 =
       if nth (Z.to_nat (k / 32)) (inode_dirty s) 0 =? 0
       then sdread (disk s) (inode_offset k) 128 else encode_inode (node s k)) ∧
    (∀ o n, o + n ≤ ind_start new_super ∨ data_start new_super ≤ o →
       sdread d o n = sdread (disk s) o n).
Proof.
  intros Hs. unfold update_inode.
  destruct (for_range_inv (updating s) 0 256 (λ i s,
    d ← aget (inode_dirty s) i;
    if negb (d =? 0) then
      t ← aset (inode_dirty s) i 0;
      let s := s <| inode_dirty := t |> in
      let media_offset := u32 (ind_start (super_block s) + INODE_SIZE * i * node_num_per_block) in
      do_fs_write s media_offset (node_bytes s (i * node_num_per_block)) BLOCK_SIZE
    else Ok s) s) as (s' & Hrun & d & t & -> & Hlen & Hdone & _ & Hw & Ho); [done| | |].
  - exists (disk s), (inode_dirty s). split; [by destruct s|]. split; [apply Hs|].
    split_and!; [intros; simpl in *; lia|done|intros; lia|done].
  - intros i s' Hi. by apply updating_step.
  - change (INODE_MAX_NUMBER / (BLOCK_SIZE / INODE_SIZE)) with 256. exists d.
    assert (t = replicate 256 0) as ->.
    { apply list_eq. intros g. destruct (decide (g < 256)%nat).
      - rewrite Hdone by (simpl; lia). by rewrite lookup_replicate_2 by lia.
      - rewrite !lookup_ge_None_2; [done|by rewrite length_replicate; lia|lia]. }
    split; [exact Hrun|]. split.
    + intros k Hk. pose proof (Z.mod_pos_bound k 32 ltac:(lia)). pose proof (Z_div_mod_eq_full k 32).
      specialize (Hw (k / 32) ltac:(flia)).
      destruct (nth (Z.to_nat (k / 32)) (inode_dirty s) 0 =? 0); [|by apply (inode_of_block d d)].
      rewrite <- !(sdread_sub _ (inode_offset (32 * (k / 32))) BLOCK_SIZE (inode_offset k) 128)
        by (unfold inode_offset, INODE_SIZE, BLOCK_SIZE; lia). by rewrite Hw.
    + intros o n Hon. apply Ho. unfold inode_offset. rewrite Z.mul_0_r, Z.add_0_r. exact Hon.
Qed.
(** ** [update_bit_map] *)

Lemma update_bit_map_spec s :
  fs_ok s → ∃ d, update_bit_map s = Ok (s <| disk := d |>) ∧
    sdread d (ind_bit_map_start new_super) INODE_BIT_MAP_SIZE = inode_bit_map s ∧
    sdread d (blk_bit_map_start new_super) DATA_BLOCK_BIT_MAP_SIZE = block_bit_map s ∧
    (∀ o n, o + n ≤ BLK_BIT_MAP_START ∨ ind_start new_super ≤ o →
       sdread d o n = sdread (disk s) o n).
Proof.
  intros Hs. destruct (ok_inode_map _ Hs) as [Hi _], (ok_block_map _ Hs) as [Hb _].
  unfold update_bit_map. rewrite (ok_super _ Hs).
  rewrite do_fs_write_spec, bind_Ok by done. simpl super_block. rewrite (ok_super _ Hs).
  rewrite do_fs_write_spec by done. eexists. split; [done|].
  simpl disk. simpl block_bit_map. split_and!.
  - rewrite sdread_write_ne by (rewrite Hb; simpl; flia). rewrite <- Hi. apply sdread_write_eq.
  - rewrite <- Hb. apply sdread_write_eq.
  - intros o n Ho. simpl in Ho. rewrite !sdread_write_ne; [done|rewrite Hi; simpl; flia|].
    rewrite Hb. simpl. flia.
Qed.

(** ** Syncing and mounting *)

Definition inode_saved s (k : Z) : Prop := sdread (disk s) (inode_offset k) 128 = encode_inode (node s k).

(** The super block of the layout is in its sector. *)
Definition super_saved s : Prop := decode_super (sdread (disk s) FS_START 512) = new_super.

(** The inodes of the blocks that are not dirty are on the disk. *)
Definition clean_saved s : Prop :=
  ∀ k, 0 ≤ k < INODE_MAX_NUMBER → nth (Z.to_nat (k / 32)) (inode_dirty s) 0 = 0 → inode_saved s k.

(** The disk holds the whole state. *)
Record saved s : Prop := {
  sv_super : super_saved s;
  sv_inode_map : sdread (disk s) (ind_bit_map_start new_super) INODE_BIT_MAP_SIZE = inode_bit_map s;
  sv_block_map : sdread (disk s) (blk_bit_map_start new_super) DATA_BLOCK_BIT_MAP_SIZE =
    block_bit_map s;
  sv_inodes k : 0 ≤ k < INODE_MAX_NUMBER → inode_saved s k;
}.

Lemma fs_ok_disk s d : fs_ok s → fs_ok (s <| disk := d |>).
Proof. intros [H1 H2 H3 H4 H5 H6]. by split. Qed.

(** The bit maps first, then the inodes of the blocks marked in [t]. *)
Lemma sync_marked s t :
  fs_ok s → Z.of_nat (length t) = 256 → super_saved s → clean_saved (s <| inode_dirty := t |>) →
  ∃ d1 d, update_bit_map s = Ok (s <| disk := d1 |>) ∧
    update_inode (s <| disk := d1 |> <| inode_dirty := t |>) =
      Ok (s <| disk := d |> <| inode_dirty := replicate 256 0 |>) ∧
    saved (s <| disk := d |> <| inode_dirty := replicate 256 0 |>) ∧
    (∀ o n, data_start new_super ≤ o → sdread d o n = sdread (disk s) o n).
Proof.
  intros Hs Ht Hsuper Hclean.
  destruct (update_bit_map_spec s Hs) as (d1 & Hub & Hi & Hb & Ho1).
  destruct (update_inode_spec (s <| disk := d1 |> <| inode_dirty := t |>)) as (d & Hui & Hn & Ho).
  { destruct Hs as [E1 E2 E3 E4 E5 E6]. by split. }
  exists d1, d. split; [done|]. split; [done|]. split; [split|].
  - unfold super_saved. simpl disk. rewrite Ho by (simpl; flia). simpl disk.
    rewrite Ho1 by (simpl; flia). done.
  - simpl disk. rewrite Ho by (simpl; flia). done.
  - simpl disk. rewrite Ho by (simpl; flia). done.
  - intros k Hk. unfold inode_saved. simpl disk. rewrite Hn by done. simpl.
    destruct (Z.eqb_spec (nth (Z.to_nat (k / 32)) t 0) 0) as [He|]; [|done].
    rewrite Ho1 by (unfold inode_offset; simpl; flia). by apply Hclean.
  - intros o n Hon. simpl disk. rewrite Ho by (by right). simpl.
    apply Ho1. simpl in *. flia.
Qed.

Lemma sync_spec s :
  fs_ok s → super_saved s → clean_saved s →
  ∃ d, (s ← update_bit_map s; update_inode s) =
      Ok (s <| disk := d |> <| inode_dirty := replicate 256 0 |>) ∧
    saved (s <| disk := d |> <| inode_dirty := replicate 256 0 |>) ∧
    (∀ o n, data_start new_super ≤ o → sdread d o n = sdread (disk s) o n).
Proof.
  intros Hs Hsuper Hclean.
  destruct (sync_marked s (inode_dirty s)) as (d1 & d & -> & Hu & H1 & H2);
    [done|apply Hs|done|by destruct s|]. exists d. rewrite bind_Ok.
  replace (s <| disk := d1 |>) with (s <| disk := d1 |> <| inode_dirty := inode_dirty s |>)
    by (by destruct s). done.
Qed.

Lemma decode_nodes_spec (d : D) (ns : list inode_t) o :
  Forall inode_ok ns →
  (∀ (k : nat) x, ns !! k = Some x → sdread d (o + 128 * Z.of_nat k) 128 = encode_inode x) →
  decode_nodes (length ns) (sdread d o (128 * Z.of_nat (length ns))) = ns.
Proof.
  intros Hok. revert o. induction Hok as [|x ns Hx Hok IH]; intros o Hd; [done|].
  cbn [length decode_nodes].
  pose proof (sdread_sub d o (128 * Z.of_nat (S (length ns))) o 128 ltac:(lia) ltac:(lia) ltac:(lia))
    as H1. rewrite Z.sub_diag in H1. change (Z.to_nat 0) with 0%nat in H1. rewrite drop_0 in H1.
  change (Z.to_nat 128) with 128%nat in H1. rewrite H1.
  pose proof (sdread_sub d o (128 * Z.of_nat (S (length ns))) (o + 128)
    (128 * Z.of_nat (length ns)) ltac:(lia) ltac:(lia) ltac:(lia)) as H2.
  replace (Z.to_nat (o + 128 - o)) with 128%nat in H2 by lia.
  rewrite firstn_all2 in H2 by (rewrite length_drop, sdread_length; lia). rewrite H2.
  f_equal.
  - specialize (Hd 0%nat x eq_refl). rewrite Z.mul_0_r, Z.add_0_r in Hd. rewrite Hd.
    by apply decode_encode_inode.
  - apply IH. intros k y Hy. rewrite <- (Hd (S k) y Hy). f_equal. lia.
Qed.

Lemma mount_spec s s0 junk :
  fs_ok s → saved s → disk s0 = disk s →
  length (nodes s0) = length (nodes s) →
  Z.of_nat (length (inode_bit_map s0)) = INODE_BIT_MAP_SIZE →
  Z.of_nat (length (block_bit_map s0)) = DATA_BLOCK_BIT_MAP_SIZE →
  (2 ≤ length (cwd_str s0))%nat →
  ∃ s', mount_fs s0 junk = Ok s' ∧ nodes s' = nodes s ∧ inode_bit_map s' = inode_bit_map s ∧
    block_bit_map s' = block_bit_map s ∧ super_block s' = super_block s ∧ disk s' = disk s ∧
    root s' = 0 ∧ cwd s' = 0 ∧ inode_dirty s' = inode_dirty s0.
Proof.
  intros Hs [Hsuper Him Hbm Hin] Hd Hn Hi Hb Hc. unfold mount_fs.
  rewrite do_fs_read_spec, bind_Ok by (done || by rewrite length_replicate).
  change (disk (print s0 "Reading FS meta data...")) with (disk s0). rewrite Hd, Hsuper.
  change (negb (magic new_super =? MAGIC_NUMER)) with false. cbv iota. rewrite bind_Ok.
  simpl inode_bit_map. simpl block_bit_map.
  rewrite (do_fs_read_spec _ _ _ INODE_BIT_MAP_SIZE), bind_Ok by done.
  rewrite (do_fs_read_spec _ _ _ DATA_BLOCK_BIT_MAP_SIZE), bind_Ok by done.
  simpl disk. simpl nodes. simpl cwd_str. rewrite Hd, Him, Hbm, Hn.
  rewrite (strcpy_string _ 0 _ (str "/")), bind_Ok;
    [|apply string_at_app; vm_compute; set_solver|lia|simpl; lia].
  eexists. split; [done|]. simpl. split_and!; try done; [|by rewrite (ok_super _ Hs)].
  replace (INODE_SIZE * INODE_MAX_NUMBER) with (128 * Z.of_nat (length (nodes s)))
    by (rewrite (ok_nodes _ Hs); flia).
  apply decode_nodes_spec; [apply Hs|]. intros k x Hx.
  pose proof (lookup_lt_Some _ _ _ Hx). pose proof (ok_nodes _ Hs).
  assert (inode_saved s (Z.of_nat k)) as Hk by (apply Hin; lia).
  unfold inode_saved, node in Hk. rewrite Nat2Z.id, nth_lookup, Hx in Hk. exact Hk.
Qed.
End disk.
