(* ===== verification/FsPath.v ===== *)
(** * Directories and paths

    A directory block as a list of entries, and path resolution: the loop of
    [name_parse] against the relation [resolves], which walks the components of
    a path through the entries of the directories. *)

From S2P Require Import Prelude CString Printk FsLayout Fs FsDisk.

(** ** Directory blocks *)

Record dentry := Dentry { d_type : Z; d_inode : Z; d_name : bytes }.

Record entry_ok (e : dentry) : Prop := {
  eo_words : is_word (d_type e) ∧ is_word (d_inode e);
  eo_string : 0 ∉ d_name e ∧ all_bytes (d_name e);
  eo_length : Z.of_nat (length (d_name e)) < MAX_NAME_LEN;
}.

(** The block starts with these entries. *)
Record holds (b : bytes) (es : list dentry) : Prop := {
  ho_block : Z.of_nat (length b) = BLOCK_SIZE;
  ho_entries : DENTRY_SIZE * Z.of_nat (length es) ≤ BLOCK_SIZE;
  ho_type (i : nat) e : es !! i = Some e → get32 b (DENTRY_SIZE * Z.of_nat i) = Ok (d_type e);
  ho_inode (i : nat) e : es !! i = Some e →
    get32 b (DENTRY_SIZE * Z.of_nat i + 4) = Ok (d_inode e);
  ho_name (i : nat) e : es !! i = Some e →
    string_at (drop (Z.to_nat (DENTRY_SIZE * Z.of_nat i + 8)) b) (d_name e);
  ho_ok : Forall entry_ok es;
}.

(** The first entry with a name. *)
Definition lookup_name (es : list dentry) (nm : bytes) : option (nat * dentry) :=
  list_find (λ e, d_name e = nm) es.

Lemma lookup_name_Some es nm i e :
  lookup_name es nm = Some (i, e) ↔
  es !! i = Some e ∧ d_name e = nm ∧ ∀ j e', es !! j = Some e' → (j < i)%nat → d_name e' ≠ nm.
Proof. exact (list_find_Some (λ e, d_name e = nm) es i e). Qed.

Lemma lookup_name_None es nm : lookup_name es nm = None ↔ ∀ e, e ∈ es → d_name e ≠ nm.
Proof. unfold lookup_name. rewrite list_find_None, Forall_forall. done. Qed.

Lemma lookup_name_snoc es e nm :
  lookup_name (es ++ [e]) nm =
    match lookup_name es nm with
    | Some r => Some r
    | None => if decide (d_name e = nm) then Some (length es, e) else None
    end.
Proof.
  unfold lookup_name. destruct (list_find (λ e, d_name e = nm) es) as [[i x]|] eqn:Hf.
  - by apply list_find_app_l.
  - rewrite list_find_app_r by done. simpl. by case_decide.
Qed.

Section holds.
Context (b : bytes) (es : list dentry) (Hb : holds b es).

Lemma dentry_name_spec (i : nat) e :
  es !! i = Some e →
  ∃ p, dentry_name b (Z.of_nat i) = Ok p ∧ string_at p (d_name e).
Proof.
  intros He. exists (drop (Z.to_nat (DENTRY_SIZE * Z.of_nat i + 8)) b).
  split; [|by apply (ho_name _ _ Hb)]. unfold dentry_name. rewrite decide_True; [done|].
  pose proof (ho_block _ _ Hb). pose proof (ho_entries _ _ Hb).
  apply lookup_lt_Some in He. flia.
Qed.

Lemma dentry_inode_spec (i : nat) e :
  es !! i = Some e → dentry_inode b (Z.of_nat i) = Ok (d_inode e).
Proof. apply (ho_inode _ _ Hb). Qed.

Lemma dentry_type_spec (i : nat) e :
  es !! i = Some e → dentry_type b (Z.of_nat i) = Ok (d_type e).
Proof. apply (ho_type _ _ Hb). Qed.

Lemma entry_of (i : nat) e : es !! i = Some e → entry_ok e.
Proof. apply (Forall_lookup_1 _ _ _ _ (ho_ok _ _ Hb)). Qed.

(** The search loop finds the first entry with the name from [lo] on. *)
Lemma find_dentry_spec (lo : nat) p nm :
  (lo ≤ length es)%nat → string_at p nm → all_bytes nm →
  find_dentry b p (Z.of_nat lo) (Z.of_nat (length es)) =
    Ok ((λ r, Z.of_nat (lo + fst r)) <$> lookup_name (drop lo es) nm).
Proof.
  intros Hlo Hp Hnm. unfold find_dentry.
  assert (∀ (i : nat) e, es !! i = Some e →
    (d ← dentry_name b (Z.of_nat i); r ← strcmp p d; Ok (r =? 0)) =
      Ok (bool_decide (d_name e = nm))) as Htest.
  { intros i e He. destruct (dentry_name_spec i e He) as (q & -> & Hq). rewrite bind_Ok.
    destruct (entry_of i e He) as [_ [_ Hby] _].
    destruct (strcmp_spec p q nm (d_name e) Hp Hq Hnm Hby) as (r & -> & _ & Hr). rewrite bind_Ok.
    f_equal. destruct (Z.eqb_spec r 0) as [H0|H0]; case_bool_decide as Hd; naive_solver. }
  set (t := λ i, match es !! Z.to_nat i with Some e => bool_decide (d_name e = nm) | None => false end).
  assert (∀ i, Z.of_nat lo ≤ i < Z.of_nat (length es) →
    (d ← dentry_name b i; r ← strcmp p d; Ok (r =? 0)) = Ok (t i)) as Hall.
  { intros i Hi. destruct (lookup_lt_is_Some_2 es (Z.to_nat i)) as [e He]; [lia|].
    rewrite <- (Z2Nat.id i) at 1 by lia. rewrite (Htest _ e He). unfold t. by rewrite He. }
  destruct (lookup_name (drop lo es) nm) as [[i e]|] eqn:Hl; simpl.
  - apply lookup_name_Some in Hl as (He & Hen & Hbefore). rewrite lookup_drop in He.
    apply find_range_first with (q := t); [done| | |].
    + apply lookup_lt_Some in He. lia.
    + unfold t. rewrite Nat2Z.id, He. by apply bool_decide_eq_true.
    + intros j Hj. unfold t. destruct (es !! Z.to_nat j) as [e'|] eqn:He'; [|done].
      apply bool_decide_eq_false. apply (Hbefore (Z.to_nat j - lo)%nat); [|lia].
      rewrite lookup_drop. by replace (lo + (Z.to_nat j - lo))%nat with (Z.to_nat j) by lia.
  - destruct (find_range_spec _ _ _ t Hall) as (r & -> & Hr). destruct r as [j|]; [|done].
    destruct Hr as (Hj & Ht & _). unfold t in Ht.
    destruct (es !! Z.to_nat j) as [e'|] eqn:He'; [|done]. apply bool_decide_eq_true in Ht.
    exfalso. apply (proj1 (lookup_name_None _ _) Hl e'); [|done].
    apply list_elem_of_lookup. exists (Z.to_nat j - lo)%nat. rewrite lookup_drop.
    by replace (lo + (Z.to_nat j - lo))%nat with (Z.to_nat j) by lia.
Qed.
End holds.

(** ** Paths *)

(** The components of a path: the pieces between the slashes. *)
Fixpoint split_path (p : bytes) : list bytes :=
  match p with
  | [] => [[]]
  | c :: p =>
      if decide (c = 47) then [] :: split_path p
      else match split_path p with comp :: comps => (c :: comp) :: comps | [] => [[c]] end
  end.

Lemma split_path_cons p : ∃ comp comps, split_path p = comp :: comps.
Proof.
  induction p as [|c p (comp & comps & IH)]; simpl; [eauto|].
  case_decide; [eauto|]. rewrite IH. eauto.
Qed.

(** The string of the components after the first. *)
Fixpoint after_slash (p : bytes) : bytes :=
  match p with [] => [] | c :: p => if decide (c = 47) then p else after_slash p end.

Lemma split_after p comp c comps :
  split_path p = comp :: c :: comps → split_path (after_slash p) = c :: comps.
Proof.
  revert comp. induction p as [|x p IH]; intros comp; simpl; [done|].
  case_decide; [by intros [= _ ?]|].
  destruct (split_path_cons p) as (d & ds & Hd). rewrite Hd. intros [= _ ->]. by apply (IH d).
Qed.

(** [name_scan] on a string: the first component, in place. *)
Lemma name_scan_spec p rest :
  0 ∉ p → ∃ comp comps, split_path p = comp :: comps ∧ 0 ∉ comp ∧
    (all_bytes p → all_bytes comp) ∧
    match comps with
    | [] => comp = p ∧ name_scan (p ++ 0 :: rest) = Ok (length comp, true, p ++ 0 :: rest)
    | _ => name_scan (p ++ 0 :: rest) =
        Ok (length comp, false, comp ++ 0 :: after_slash p ++ 0 :: rest)
    end.
Proof.
  induction p as [|x p IH]; intros H0.
  - exists [], []. done.
  - destruct IH as (comp & comps & Hs & Hc & Hby & Hscan); [set_solver|].
    assert (x ≠ 0) as Hx by set_solver. simpl. destruct (Z.eqb_spec x 0); [done|].
    case_decide as Hsl.
    + subst x. exists [], (split_path p). split; [done|]. split; [set_solver|].
      split; [constructor|]. rewrite Hs. done.
    + destruct (Z.eqb_spec x 47); [done|]. exists (x :: comp), comps. rewrite Hs.
      split; [done|]. split; [set_solver|].
      split; [intros Hb; decompose_Forall_hyps; constructor; auto|].
      destruct comps as [|c comps].
      * destruct Hscan as [-> ->]. done.
      * by rewrite Hscan.
Qed.

Section paths.
Context {D : Type} `{BlockDevLaws D}.
Implicit Types (s : fs D).

(** Inode [k] is a directory with these entries. *)
Record dir_of s (k : Z) (es : list dentry) : Prop := {
  di_node : 0 ≤ k < INODE_MAX_NUMBER;
  di_num : entry_num (node s k) = Z.of_nat (length es);
  di_holds : holds (first_block s (node s k)) es;
}.

(** Walking a path; [None]: a component is not there. *)
Inductive resolves s : Z → list bytes → option Z → Prop :=
  | res_missing k es c comps :
      dir_of s k es → lookup_name es c = None → resolves s k (c :: comps) None
  | res_last k es c i e :
      dir_of s k es → lookup_name es c = Some (i, e) → resolves s k [c] (Some (d_inode e))
  | res_step k es c c' comps i e r :
      dir_of s k es → lookup_name es c = Some (i, e) →
      resolves s (d_inode e) (c' :: comps) r → resolves s k (c :: c' :: comps) r.

Lemma node_direct s k : fs_ok s → direct (node s k) ≠ [].
Proof. intros Hs Hd. pose proof (io_direct _ (node_ok s k Hs)) as Hl. by rewrite Hd in Hl. Qed.

Lemma get_node_spec s k :
  fs_ok s → 0 ≤ k < INODE_MAX_NUMBER → get_node s (Some k) = Ok (node s k).
Proof. intros. unfold get_node. simpl. by apply aget_node. Qed.

(** One round of the loop, up to the test of the result. *)
Lemma name_round s k es p rest buf comp comps :
  fs_ok s → dir_of s k es → 0 ∉ p → all_bytes p → Z.of_nat (length buf) = BLOCK_SIZE →
  split_path p = comp :: comps →
  ∃ nm, read_block s (node s k) buf = Ok (first_block s (node s k)) ∧
    name_scan (p ++ 0 :: rest) = Ok (length comp, bool_decide (comps = []), nm) ∧
    find_dentry (first_block s (node s k)) nm 0 (entry_num (node s k)) =
      Ok (Z.of_nat ∘ fst <$> lookup_name es comp) ∧
    (comps ≠ [] → drop (length comp + 1) nm = after_slash p ++ 0 :: rest).
Proof.
  intros Hs [Hk Hnum Hh] Hp Hby Hl Hsp.
  destruct (name_scan_spec p rest Hp) as (comp' & comps' & Hsp' & Hc & Hcb & Hscan).
  rewrite Hsp in Hsp'. injection Hsp' as <- <-.
  assert (∃ nm rest', name_scan (p ++ 0 :: rest) = Ok (length comp, bool_decide (comps = []), nm) ∧
    nm = comp ++ 0 :: rest' ∧ (comps ≠ [] → rest' = after_slash p ++ 0 :: rest))
    as (nm & rest' & Hs1 & Hnm & Hr).
  { destruct comps as [|c cs].
    - destruct Hscan as [-> ->]. by exists (p ++ 0 :: rest), rest.
    - rewrite Hscan. by eexists _, (after_slash p ++ 0 :: rest). }
  exists nm. split; [apply read_block_spec; [by apply node_direct|done]|].
  split; [done|]. split.
  - rewrite Hnum. change 0 with (Z.of_nat 0).
    rewrite (find_dentry_spec _ _ Hh 0 nm comp); [by rewrite drop_0|lia| |by apply Hcb].
    rewrite Hnm. by apply string_at_app.
  - intros Hcs. rewrite Hnm, <- (Hr Hcs). rewrite drop_app_ge by lia.
    by replace (length comp + 1 - length comp)%nat with 1%nat by lia.
Qed.

Lemma name_loop_spec s k comps r p rest buf fuel :
  fs_ok s → resolves s k comps r → split_path p = comps → 0 ∉ p → all_bytes p →
  Z.of_nat (length buf) = BLOCK_SIZE → (length comps ≤ fuel)%nat →
  ∃ buf', name_loop fuel s (Some k) (p ++ 0 :: rest) buf = Ok (r, buf') ∧
    Z.of_nat (length buf') = BLOCK_SIZE.
Proof.
  intros Hs Hres. revert p buf fuel.
  induction Hres as [k es c comps Hdir Hl|k es c i e Hdir Hl|k es c c' comps i e r Hdir Hl Hres IH];
    intros p buf fuel Hsp Hp Hby Hbuf Hf; (destruct fuel as [|fuel]; [simpl in Hf; lia|]);
    destruct (name_round s k es p rest buf _ _ Hs Hdir Hp Hby Hbuf Hsp)
      as (nm & Hread & Hscan & Hfind & Hnext);
    pose proof (first_block_length s (node s k)); pose proof (di_holds _ _ _ Hdir) as Hh;
    cbn [name_loop]; (rewrite get_node_spec by (done || apply Hdir)); rewrite bind_Ok, Hread, bind_Ok, Hscan, bind_Ok, Hfind, Hl, bind_Ok;
    simpl.
  - by eexists.
  - apply lookup_name_Some in Hl as [He _]. rewrite (dentry_inode_spec _ _ Hh i e He), bind_Ok.
    by eexists.
  - apply lookup_name_Some in Hl as [He _]. rewrite (dentry_inode_spec _ _ Hh i e He), bind_Ok.
    rewrite Hnext by done. apply IH; [by eapply split_after| | |done|simpl in *; lia].
    + clear -Hp. induction p as [|x p IHp]; simpl; [done|]. case_decide; [set_solver|].
      apply IHp. set_solver.
    + clear -Hby. induction Hby as [|x p Hx Hp IHp]; simpl; [done|]. by case_decide.
Qed.
(** ** Soft links *)

(** Where a resolved path leads: a soft link to its target, if the hash it
    keeps still is the hash of the target. *)
Definition followed s (r : option Z) : option Z :=
  match r with
  | None => None
  | Some k =>
      let x := node s k in
      if type x =? soft_link then
        if decide (hash (node s (link_to x)) = hash x) then Some (link_to x) else None
      else Some k
  end.

Lemma hash_compare (x y : inode_t) :
  inode_ok x → inode_ok y →
  ∃ r, find_range 0 16 (λ i, a ← aget (hash y) i; b ← aget (hash x) i; Ok (negb (a =? b))) = Ok r ∧
    (r = None ↔ hash y = hash x).
Proof.
  intros [_ _ _ [Hx _]] [_ _ _ [Hy _]].
  set (t := λ i, negb (nth (Z.to_nat i) (hash y) 0 =? nth (Z.to_nat i) (hash x) 0)).
  destruct (find_range_spec 0 16 (λ i, a ← aget (hash y) i; b ← aget (hash x) i; Ok (negb (a =? b))) t)
    as (r & Hr & Hspec).
  { intros i Hi. destruct (aget_total (hash y) i) as [a Ha]; [lia|].
    destruct (aget_total (hash x) i) as [b Hb]; [lia|]. rewrite Ha, bind_Ok, Hb, bind_Ok.
    apply aget_Ok in Ha as [_ Ha], Hb as [_ Hb]. unfold t. by rewrite !nth_lookup, Ha, Hb. }
  exists r. split; [done|]. destruct r as [i|].
  - destruct Hspec as (_ & Ht & _). split; [done|]. intros He. unfold t in Ht.
    rewrite He, Z.eqb_refl in Ht. done.
  - split; [|done]. intros _. apply list_eq. intros i. destruct (decide (i < 16)%nat).
    + specialize (Hspec (Z.of_nat i) ltac:(lia)). unfold t in Hspec.
      rewrite Nat2Z.id in Hspec. apply negb_false_iff, Z.eqb_eq in Hspec.
      rewrite !nth_lookup in Hspec.
      destruct (lookup_lt_is_Some_2 (hash y) i) as [a Ha]; [lia|].
      destruct (lookup_lt_is_Some_2 (hash x) i) as [b' Hb]; [lia|].
      rewrite Ha, Hb in *. simpl in Hspec. by f_equal.
    + rewrite !lookup_ge_None_2; [done|lia..].
Qed.

(** Only a message can have been printed. *)
Definition same_but_out s s' : Prop := ∃ l, s' = s <| out ::= (.++ l) |>.

Lemma same_but_out_refl s : same_but_out s s.
Proof. exists []. destruct s as []. unfold update, upd_out. simpl. by rewrite app_nil_r. Qed.

Definition valid_target s (r : option Z) : Prop :=
  ∀ k, r = Some k → 0 ≤ k < INODE_MAX_NUMBER ∧
    (type (node s k) = soft_link → 0 ≤ link_to (node s k) < INODE_MAX_NUMBER).

Lemma follow_link_spec s r :
  fs_ok s → valid_target s r →
  ∃ s', follow_link s r = Ok (followed s r, s') ∧ same_but_out s s' ∧
    (followed s r = r → s' = s ∨ r = None).
Proof.
  intros Hs Hv. destruct r as [k|]; [|exists s; by split_and!; [|apply same_but_out_refl|left]].
  destruct (Hv k eq_refl) as [Hk Hlink]. unfold follow_link, followed.
  rewrite get_node_spec, bind_Ok by done.
  destruct (Z.eqb_spec (type (node s k)) soft_link) as [Ht|Ht].
  - rewrite get_node_spec, bind_Ok by auto.
    destruct (hash_compare (node s k) (node s (link_to (node s k)))) as (r & -> & Hr);
      [by apply node_ok..|]. rewrite bind_Ok. destruct r as [i|].
    + rewrite decide_False; [|by intros ?%Hr]. eexists. split; [done|]. split; [|done].
      by eexists.
    + rewrite decide_True by (by apply Hr). exists s.
      split_and!; [done|apply same_but_out_refl|by left].
  - exists s. split_and!; [done|apply same_but_out_refl|by left].
Qed.

(** ** [name_parse] *)

Definition path_start s (p : bytes) : Z :=
  match p with c :: _ => if c =? 47 then root s else cwd s | [] => cwd s end.

Definition path_comps (p : bytes) : list bytes :=
  match p with c :: q => if c =? 47 then split_path q else split_path p | [] => split_path [] end.

Lemma split_path_length p : (length (split_path p) ≤ S (length p))%nat.
Proof.
  induction p as [|c p IH]; simpl; [lia|]. case_decide; simpl; [lia|].
  destruct (split_path p); simpl in *; lia.
Qed.

Lemma strcpy_path p rest :
  0 ∉ p → Z.of_nat (length p) < 240 →
  strcpy path_buffer 0 (p ++ 0 :: rest) = Ok (p ++ 0 :: replicate (239 - length p) 0).
Proof.
  intros Hp Hl. rewrite (strcpy_string _ _ _ p); [|by apply string_at_app|lia|].
  - f_equal. unfold splice, path_buffer. change (Z.to_nat 0) with 0%nat.
    rewrite take_0, app_nil_l, Nat.add_0_l, drop_replicate, length_app, <- (assoc_L (++)).
    f_equal. change (length [0]) with 1%nat.
    by replace (10 * 24 - (length p + 1))%nat with (239 - length p)%nat by lia.
  - unfold path_buffer. rewrite length_replicate. lia.
Qed.

Lemma strcpy_long p rest :
  0 ∉ p → 10 * MAX_NAME_LEN ≤ Z.of_nat (length p) → strcpy path_buffer 0 (p ++ 0 :: rest) = Fault OutOfBounds.
Proof.
  intros Hp Hl. apply (strcpy_overflow _ _ _ p); [by apply string_at_app|done|].
  unfold path_buffer. rewrite length_replicate. unfold MAX_NAME_LEN in Hl. lia.
Qed.

Lemma name_parse_spec s p rest buf r :
  fs_ok s → 0 ∉ p → all_bytes p → Z.of_nat (length p) < 240 →
  resolves s (path_start s p) (path_comps p) r → valid_target s r →
  Z.of_nat (length buf) = BLOCK_SIZE →
  ∃ buf' s', name_parse s (Some (p ++ 0 :: rest)) buf = Ok (followed s r, buf', s') ∧
    Z.of_nat (length buf') = BLOCK_SIZE ∧ same_but_out s s' ∧
    (followed s r = r → s' = s ∨ r = None).
Proof.
  intros Hs Hp Hby Hl Hres Hv Hbuf. unfold name_parse.
  rewrite strcpy_path, bind_Ok by done. set (pad := replicate (239 - length p) 0).
  destruct (follow_link_spec s r Hs Hv) as (s' & Hf & Hsame & Hq).
  pose proof (split_path_length p) as Hsl.
  destruct p as [|c q].
  - destruct (name_loop_spec s (cwd s) [[]] r [] pad buf (S (length (0 :: pad))))
      as (buf' & Hn & Hb); [done|done|done|done|done|done|simpl; lia|].
    rewrite app_nil_l in *. change (aget (0 :: pad) 0) with (@Ok Z 0). rewrite bind_Ok.
    change (0 =? 47) with false. cbv iota. rewrite Hn, bind_Ok, Hf. by exists buf', s'.
  - change (aget ((c :: q) ++ 0 :: pad) 0) with (Ok c). rewrite bind_Ok. simpl in Hres.
    destruct (c =? 47).
    + assert (0 ∉ q ∧ all_bytes q) as [Hq0 Hqb] by (split; [set_solver|by decompose_Forall_hyps]).
      destruct (name_loop_spec s (root s) (split_path q) r q pad buf
        (S (length (drop 1 ((c :: q) ++ 0 :: pad))))) as (buf' & Hn & Hb); try done.
      { pose proof (split_path_length q). change (drop 1 ((c :: q) ++ 0 :: pad)) with (q ++ 0 :: pad).
        rewrite length_app. simpl. lia. }
      change (drop 1 ((c :: q) ++ 0 :: pad)) with (q ++ 0 :: pad) in Hn.
      change (drop 1 ((c :: q) ++ 0 :: pad)) with (q ++ 0 :: pad).
      rewrite Hn, bind_Ok, Hf. by exists buf', s'.
    + destruct (name_loop_spec s (cwd s) (split_path (c :: q)) r (c :: q) pad buf
        (S (length ((c :: q) ++ 0 :: pad)))) as (buf' & Hn & Hb); try done.
      { rewrite length_app. simpl length in *. lia. }
      rewrite Hn, bind_Ok, Hf. by exists buf', s'.
Qed.

(** C14.  [name_parse] on a path of fewer than 240 characters that [resolves],
    which means that the inodes on the way are directories whose entries name
    inodes: the components between the slashes are looked up one after the other,
    from the root if the path starts with a slash and from the current directory
    otherwise; a component that is missing gives the null pointer.  If the result
    is a soft link it is followed when its hash matches and is null otherwise.  The
    call then terminates, stays inside its buffers, and changes nothing but the
    messages printed.  A path of 240 characters or more, which the shell accepts,
    is copied past the end of [__name]: the call has no defined result, whatever
    the directories are. *)
Theorem name_parse_resolves s p rest buf :
  0 ∉ p →
  (10 * MAX_NAME_LEN ≤ Z.of_nat (length p) → name_parse s (Some (p ++ 0 :: rest)) buf = Fault OutOfBounds) ∧
  ∀ r, fs_ok s → all_bytes p → Z.of_nat (length p) < 10 * MAX_NAME_LEN →
    resolves s (path_start s p) (path_comps p) r → valid_target s r →
    Z.of_nat (length buf) = BLOCK_SIZE →
    ∃ buf' s', name_parse s (Some (p ++ 0 :: rest)) buf = Ok (followed s r, buf', s') ∧
      Z.of_nat (length buf') = BLOCK_SIZE ∧ same_but_out s s'.
Proof.
  intros Hp. split.
  - intros Hl. unfold name_parse. by rewrite (strcpy_long p).
  - intros r Hs Hby Hl Hres Hv Hbuf.
    destruct (name_parse_spec s p rest buf r Hs Hp Hby Hl Hres Hv Hbuf)
      as (buf' & s' & H1 & H2 & H3 & _). by exists buf', s'.
Qed.

(** [update_cwd_str] has a buffer of the same size. *)
Theorem update_cwd_str_overflow s p rest buf len :
  0 ∉ p → strlen (cwd_str s) = Ok len → 10 * MAX_NAME_LEN ≤ Z.of_nat (length p) →
  update_cwd_str s (Some (p ++ 0 :: rest)) buf = Fault OutOfBounds.
Proof. intros Hp Hlen Hl. unfold update_cwd_str. by rewrite Hlen, bind_Ok, (strcpy_long p). Qed.
End paths.

(** ** Building directory blocks *)

Definition pad_name (nm : bytes) : bytes := nm ++ replicate (24 - length nm) 0.

Definition dentry_bytes (e : dentry) : bytes :=
  le32 (d_type e) ++ le32 (d_inode e) ++ pad_name (d_name e).

Definition dir_block (es : list dentry) : bytes :=
  concat (map dentry_bytes es) ++ replicate (Z.to_nat BLOCK_SIZE - 32 * length es) 0.

Lemma dentry_bytes_length e : entry_ok e → length (dentry_bytes e) = 32%nat.
Proof.
  intros [_ _ Hl]. unfold dentry_bytes, pad_name. rewrite !length_app, length_replicate.
  unfold MAX_NAME_LEN in Hl. simpl. lia.
Qed.

Lemma dir_block_at es (i : nat) e :
  Forall entry_ok es → es !! i = Some e →
  ∃ rest, drop (32 * i) (dir_block es) = dentry_bytes e ++ rest.
Proof.
  intros Hok He. unfold dir_block.
  assert (Forall (λ c, length c = 32%nat) (map dentry_bytes es)) as Hl.
  { apply Forall_map. eapply Forall_impl; [done|]. apply dentry_bytes_length. }
  pose proof (lookup_lt_Some _ _ _ He). pose proof (concat_length _ _ Hl) as Hcl.
  rewrite length_map in Hcl. rewrite drop_app_le by lia.
  assert (take 32 (drop (32 * i) (concat (map dentry_bytes es))) = dentry_bytes e) as Hc.
  { apply (concat_chunk _ 32); [done|]. change (map ?f ?l) with (f <$> l).
    by rewrite list_lookup_fmap, He. }
  rewrite <- (take_drop 32 (drop (32 * i) (concat (map dentry_bytes es)))), Hc.
  rewrite <- (assoc_L (++)). by eexists.
Qed.

Lemma dir_block_holds es :
  Forall entry_ok es → DENTRY_SIZE * Z.of_nat (length es) ≤ BLOCK_SIZE → holds (dir_block es) es.
Proof.
  intros Hok Hlen.
  assert (Z.of_nat (length (dir_block es)) = BLOCK_SIZE) as Hb.
  { unfold dir_block. rewrite length_app, length_replicate, (concat_length _ 32), length_map.
    - flia.
    - apply Forall_map. eapply Forall_impl; [done|]. apply dentry_bytes_length. }
  assert (∀ (i : nat) e, es !! i = Some e → entry_ok e ∧ 32 * Z.of_nat i + 32 ≤ BLOCK_SIZE ∧
    ∃ rest, drop (32 * i) (dir_block es) = le32 (d_type e) ++ le32 (d_inode e) ++ pad_name (d_name e) ++ rest)
    as Hat.
  { intros i e He. split; [by eapply Forall_lookup_1|]. pose proof (lookup_lt_Some _ _ _ He).
    split; [flia|]. destruct (dir_block_at es i e Hok He) as [rest ->]. exists rest.
    unfold dentry_bytes. by rewrite <- !(assoc_L (++)). }
  assert (∀ (i k : nat), drop (Z.to_nat (32 * Z.of_nat i + Z.of_nat k)) (dir_block es) =
    drop k (drop (32 * i) (dir_block es))) as Hdrop.
  { intros i k. rewrite drop_drop. f_equal. lia. }
  assert (∀ (i k : nat) rest w, (k ≤ 4)%nat → 32 * Z.of_nat i + 32 ≤ BLOCK_SIZE →
    drop k (drop (32 * i) (dir_block es)) = le32 w ++ rest → is_word w →
    get32 (dir_block es) (32 * Z.of_nat i + Z.of_nat k) = Ok w) as Hget.
  { intros i k rest w Hk Hi Hd Hw. unfold get32, slice.
    rewrite decide_True by (rewrite Hb; lia). rewrite bind_Ok, Hdrop, Hd.
    change (Z.to_nat 4) with (length (le32 w)). rewrite take_app_length. by rewrite word_le32. }
  split; [done|done| | | |done]; intros i e He; destruct (Hat i e He) as ([[Ht Hi] [H0 Hby] Hl] & Hle & rest & Hd);
    unfold DENTRY_SIZE.
  - replace (32 * Z.of_nat i) with (32 * Z.of_nat i + Z.of_nat 0) by lia.
    eapply Hget; [lia|lia| |done]. rewrite drop_0. exact Hd.
  - change 4 with (Z.of_nat 4). eapply Hget; [lia|lia| |done]. rewrite Hd. reflexivity.
  - change 8 with (Z.of_nat 8). rewrite Hdrop, Hd.
    change (drop 8 (le32 (d_type e) ++ le32 (d_inode e) ++ pad_name (d_name e) ++ rest))
      with (pad_name (d_name e) ++ rest).
    unfold pad_name. unfold MAX_NAME_LEN in Hl. rewrite <- (assoc_L (++)).
    replace (24 - length (d_name e))%nat with (S (23 - length (d_name e))) by lia.
    simpl. by apply string_at_app.
Qed.

(** ** A small file system *)

(** The root is inode 0, with a subdirectory [a] (inode 1) that is empty. *)
Definition demo_root : list dentry :=
  [Dentry dir 0 (str "."); Dentry dir 0 (str ".."); Dentry dir 1 (str "a")].
Definition demo_sub : list dentry := [Dentry dir 1 (str "."); Dentry dir 0 (str "..")].

Definition dir_inode (n blk : Z) : inode_t :=
  zero_inode <| entry_num := n |> <| type := dir |> <| link_cnt := 1 |>
    <| direct := (data_start new_super + BLOCK_SIZE * blk) :: replicate 15 0 |>.

Definition demo_disk : memdisk :=
  sdwrite (sdwrite (λ _, 0) (data_start new_super) (dir_block demo_root))
    (data_start new_super + BLOCK_SIZE) (dir_block demo_sub).

Definition demo_fs : fs memdisk :=
  Fs memdisk demo_disk (3 :: fill (DATA_BLOCK_BIT_MAP_SIZE - 1) 0)
    (3 :: fill (INODE_BIT_MAP_SIZE - 1) 0)
    (dir_inode 3 0 :: dir_inode 2 1 :: fill (INODE_MAX_NUMBER - 2) zero_inode)
    (fill 256 0) 0 0 (str "/" ++ fill 239 0) new_super [FileDesc 0 None 0] 100 [].

Lemma dir_inode_ok n blk : 0 ≤ n < 2 ^ 32 → 0 ≤ blk < DATA_BLOCK_MAX_NUMBER → inode_ok (dir_inode n blk).
Proof.
  intros Hn Hb. split; [|done|split; [done|by apply (bool_decide_unpack _)]..].
  repeat constructor; try done; try lia.
  all: simpl; flia.
Qed.

Lemma fill_bytes n : all_bytes (fill n 0).
Proof. apply Forall_fill. unfold is_byte. lia. Qed.

Lemma demo_fs_ok : fs_ok demo_fs.
Proof.
  split; unfold demo_fs; cbn [nodes inode_dirty super_block block_bit_map inode_bit_map].
  - rewrite !length_cons, !Nat2Z.inj_succ, length_fill by flia. flia.
  - constructor; [apply dir_inode_ok; flia|]. constructor; [apply dir_inode_ok; flia|].
    apply Forall_fill, zero_inode_ok.
  - by apply length_fill.
  - done.
  - rewrite length_cons, Nat2Z.inj_succ, length_fill by flia. split; [flia|].
    constructor; [done|apply fill_bytes].
  - rewrite length_cons, Nat2Z.inj_succ, length_fill by flia. split; [flia|].
    constructor; [done|apply fill_bytes].
Qed.

Lemma small_entry t n nm :
  is_word t → is_word n → bool_decide (0 ∉ str nm) → bool_decide (all_bytes (str nm)) →
  Z.of_nat (length (str nm)) < 24 → entry_ok (Dentry t n (str nm)).
Proof.
  intros Ht Hn H0%bool_decide_unpack Hb%bool_decide_unpack Hl. by split.
Qed.

Lemma demo_holds :
  holds (dir_block demo_root) demo_root ∧ holds (dir_block demo_sub) demo_sub.
Proof.
  split; (apply dir_block_holds; [|done]);
    repeat (apply Forall_cons; split; [by apply small_entry|]); by apply Forall_nil.
Qed.

Lemma demo_dirs : dir_of demo_fs 0 demo_root ∧ dir_of demo_fs 1 demo_sub.
Proof.
  destruct demo_holds as [Hr Hs].
  assert (first_block demo_fs (node demo_fs 0) = dir_block demo_root) as H0.
  { unfold first_block. change (nth 0 (direct (node demo_fs 0)) 0) with (data_start new_super + BLOCK_SIZE * 0).
    rewrite Z.mul_0_r, Z.add_0_r. simpl disk. unfold demo_disk.
    rewrite sdread_write_ne by (left; lia). rewrite <- (ho_block _ _ Hr). apply sdread_write_eq. }
  assert (first_block demo_fs (node demo_fs 1) = dir_block demo_sub) as H1.
  { unfold first_block. change (nth 0 (direct (node demo_fs 1)) 0) with (data_start new_super + BLOCK_SIZE * 1).
    rewrite Z.mul_1_r. simpl disk. unfold demo_disk.
    rewrite <- (ho_block _ _ Hs) at 3. apply sdread_write_eq. }
  split; split; [flia|reflexivity|rewrite H0; exact Hr|flia|reflexivity|rewrite H1; exact Hs].
Qed.

Lemma name_parse_resolves_witness :
  resolves demo_fs 0 (split_path (str "a/..")) (Some 0) ∧
  ∃ buf' s', name_parse demo_fs (Some (str "/a/.." ++ [0])) (fill BLOCK_SIZE 0) =
    Ok (Some 0, buf', s') ∧
  name_parse demo_fs (Some (replicate 240 97 ++ [0])) (fill BLOCK_SIZE 0) = Fault OutOfBounds.
Proof.
  destruct demo_dirs as [Hr Hs].
  assert (resolves demo_fs 0 (split_path (str "a/..")) (Some 0)) as Hres.
  { apply (res_step _ 0 demo_root (str "a") (str "..") [] 2 (Dentry dir 1 (str "a")));
      [done|done|].
    apply (res_last _ 1 demo_sub (str "..") 1 (Dentry dir 0 (str ".."))); done. }
  split; [done|].
  destruct (name_parse_resolves demo_fs (str "/a/..") [] (fill BLOCK_SIZE 0)) as [_ H];
    [by apply (bool_decide_unpack _)|].
  destruct (H (Some 0)) as (buf' & s' & Hn & _).
  - apply demo_fs_ok.
  - by apply (bool_decide_unpack _).
  - done.
  - exact Hres.
  - intros k [= <-]. split; [flia|done].
  - by apply length_fill.
  - exists buf', s'. split; [exact Hn|].
    destruct (name_parse_resolves demo_fs (replicate 240 97) [] (fill BLOCK_SIZE 0)) as [Hlong _].
    + intros [Hz _]%elem_of_replicate. discriminate Hz.
    + apply Hlong. rewrite length_replicate. apply Z.leb_le. reflexivity.
Defined.
