(* ===== verification/FsOps.v ===== *)
(** * Operations that create entries: [do_mkfs], [do_mkdir] and [do_touch]

    The directories of a file system as a map from inodes to lists of entries.
    [fs_inv] ties the map to the inodes, the bit maps and the disk: what is in
    memory is also on the disk, the directories form a tree with their "." and
    ".." entries, and no two share a block.  The operations refine updates of
    the map. *)

From S2P Require Import Prelude CString Printk FsLayout Fs FsDisk FsPath.

(** ** Adding an entry to a block *)

Lemma string_at_prefix (p q : bytes) nm n :
  string_at p nm → take n p = take n q → (length nm < n)%nat → string_at q nm.
Proof.
  intros [H0 [r ->]] Ht Hn. split; [done|].
  assert (take (S (length nm)) (nm ++ 0 :: r) = take (S (length nm)) q) as H1.
  { rewrite <- (Nat.min_l (S (length nm)) n) by lia. by rewrite <- !take_take, Ht. }
  rewrite firstn_app, firstn_all2 in H1 by lia.
  replace (S (length nm) - length nm)%nat with 1%nat in H1 by lia. simpl in H1.
  exists (drop (S (length nm)) q). rewrite <- (take_drop (S (length nm)) q) at 1.
  by rewrite <- H1, <- (assoc_L (++)).
Qed.

Lemma take_splice (n : nat) (b : bytes) o xs :
  Z.of_nat n ≤ o → o ≤ Z.of_nat (length b) → take n (splice b o xs) = take n b.
Proof.
  intros. unfold splice. rewrite take_app_le by (rewrite length_take; lia).
  rewrite take_take. by rewrite Nat.min_l by lia.
Qed.

Lemma put_take (b : bytes) o xs b' (n : nat) :
  put b o xs = Ok b' → Z.of_nat n ≤ o → take n b' = take n b.
Proof. intros (? & ? & ->)%put_Ok ?. apply take_splice; lia. Qed.

Lemma get32_prefix b b' o (n : nat) :
  take n b' = take n b → length b' = length b → o + 4 ≤ Z.of_nat n → get32 b' o = get32 b o.
Proof.
  intros Ht Hl Ho. unfold get32, slice. rewrite Hl. case_decide as Hc; [|done].
  rewrite !bind_Ok. do 2 f_equal.
  assert (∀ c : bytes, take (Z.to_nat 4) (drop (Z.to_nat o) c) =
    drop (Z.to_nat o) (take (Z.to_nat o + Z.to_nat 4) c)) as Hsub by (intros; apply take_drop_commute).
  rewrite !Hsub, <- (Nat.min_l (Z.to_nat o + Z.to_nat 4) n) by lia. by rewrite <- !take_take, Ht.
Qed.

(** A block that agrees with [b] on its entries and has one more. *)
Lemma holds_snoc b es e b' :
  holds b es → entry_ok e → DENTRY_SIZE * (Z.of_nat (length es) + 1) ≤ BLOCK_SIZE →
  length b' = length b →
  take (32 * length es) b' = take (32 * length es) b →
  get32 b' (DENTRY_SIZE * Z.of_nat (length es)) = Ok (d_type e) →
  get32 b' (DENTRY_SIZE * Z.of_nat (length es) + 4) = Ok (d_inode e) →
  string_at (drop (Z.to_nat (DENTRY_SIZE * Z.of_nat (length es) + 8)) b') (d_name e) →
  holds b' (es ++ [e]).
Proof.
  intros [Hb Hes Ht Hi Hn Hok] He Hle Hl Hp Het Hei Hen.
  assert (∀ (i : nat) e', (es ++ [e]) !! i = Some e' →
    (es !! i = Some e' ∧ (i < length es)%nat) ∨ (i = length es ∧ e' = e)) as Hcases.
  { intros i e' [H|[H1 H2]]%lookup_app_Some.
    - left. split; [done|]. by apply lookup_lt_Some in H.
    - apply list_lookup_singleton_Some in H2 as [H2 ->]. right. split; [lia|done]. }
  split.
  - by rewrite Hl.
  - rewrite length_app. simpl. flia.
  - intros i e' [[H Hlt]|[-> ->]]%Hcases; [|done].
    rewrite <- (Ht i e' H). apply (get32_prefix _ _ _ (32 * length es)); [done|done|flia].
  - intros i e' [[H Hlt]|[-> ->]]%Hcases; [|done].
    rewrite <- (Hi i e' H). apply (get32_prefix _ _ _ (32 * length es)); [done|done|flia].
  - intros i e' [[H Hlt]|[-> ->]]%Hcases; [|done].
    pose proof (eo_length _ (Forall_lookup_1 _ _ _ _ Hok H)).
    apply (string_at_prefix (drop (Z.to_nat (DENTRY_SIZE * Z.of_nat i + 8)) b) _ _ 24);
      [by apply Hn| |flia].
    rewrite !take_drop_commute.
    rewrite <- (Nat.min_l (Z.to_nat (DENTRY_SIZE * Z.of_nat i + 8) + 24) (32 * length es)) by flia.
    by rewrite <- !take_take, Hp.
  - by apply Forall_app_2, Forall_singleton.
Qed.

(** Writing the fields of entry [i], in any order. *)
Lemma set_dentry_type_spec b (i : nat) t :
  DENTRY_SIZE * (Z.of_nat i + 1) ≤ Z.of_nat (length b) → is_word t →
  ∃ b', set_dentry_type b (Z.of_nat i) t = Ok b' ∧ length b' = length b ∧
    take (32 * i) b' = take (32 * i) b ∧
    get32 b' (DENTRY_SIZE * Z.of_nat i) = Ok t ∧
    (∀ o n, DENTRY_SIZE * Z.of_nat i + 4 ≤ o → slice b' o n = slice b o n).
Proof.
  intros Hb Ht. unfold set_dentry_type, put32.
  assert (put b (DENTRY_SIZE * Z.of_nat i) (le32 t) =
    Ok (splice b (DENTRY_SIZE * Z.of_nat i) (le32 t))) as Hp.
  { apply put_Ok. change (length (le32 t)) with 4%nat. split_and!; [flia|flia|done]. }
  eexists. split; [exact Hp|]. split; [by eapply put_length|].
  split; [apply (put_take _ _ _ _ _ Hp); flia|].
  split; [by apply (get32_put32_eq _ _ _ _ Hp)|].
  intros o n Ho. apply (put_slice_ne _ _ _ _ _ _ Hp). right. simpl. lia.
Qed.

Lemma set_dentry_inode_spec b (i : nat) t :
  DENTRY_SIZE * (Z.of_nat i + 1) ≤ Z.of_nat (length b) → is_word t →
  ∃ b', set_dentry_inode b (Z.of_nat i) t = Ok b' ∧ length b' = length b ∧
    take (32 * i) b' = take (32 * i) b ∧
    get32 b' (DENTRY_SIZE * Z.of_nat i + 4) = Ok t ∧
    get32 b' (DENTRY_SIZE * Z.of_nat i) = get32 b (DENTRY_SIZE * Z.of_nat i).
Proof.
  intros Hb Ht. unfold set_dentry_inode, put32.
  assert (put b (DENTRY_SIZE * Z.of_nat i + 4) (le32 t) =
    Ok (splice b (DENTRY_SIZE * Z.of_nat i + 4) (le32 t))) as Hp.
  { apply put_Ok. change (length (le32 t)) with 4%nat. split_and!; [flia|flia|done]. }
  eexists. split; [exact Hp|]. split; [by eapply put_length|].
  split; [apply (put_take _ _ _ _ _ Hp); flia|].
  split; [by apply (get32_put32_eq _ _ _ _ Hp)|].
  apply (get32_put_ne _ _ _ _ _ Hp). left. lia.
Qed.

Lemma set_dentry_name_spec b (i : nat) p nm :
  DENTRY_SIZE * (Z.of_nat i + 1) ≤ Z.of_nat (length b) → string_at p nm →
  Z.of_nat (length nm) < MAX_NAME_LEN →
  ∃ b', set_dentry_name b (Z.of_nat i) p = Ok b' ∧ length b' = length b ∧
    take (32 * i + 8) b' = take (32 * i + 8) b ∧
    string_at (drop (Z.to_nat (DENTRY_SIZE * Z.of_nat i + 8)) b') nm.
Proof.
  intros Hb Hp Hl. unfold set_dentry_name.
  rewrite (strcpy_string _ _ _ nm) by (done || flia). eexists. split; [done|].
  split; [apply length_splice; rewrite ?length_app; simpl; flia|].
  split; [apply take_splice; flia|]. split; [apply Hp|].
  exists (drop (Z.to_nat (DENTRY_SIZE * Z.of_nat i + 8) + (length nm + 1)) b). unfold splice.
  rewrite drop_app_length' by (rewrite length_take; flia).
  rewrite length_app, <- (assoc_L (++)). done.
Qed.

Lemma take_take_le {A} (l l' : list A) (n m : nat) :
  take m l' = take m l → (n ≤ m)%nat → take n l' = take n l.
Proof. intros Ht Hn. rewrite <- (Nat.min_l n m) by lia. by rewrite <- !take_take, Ht. Qed.

(** The three writes of [do_mkdir] and [do_link]. *)
Lemma add_dentry_spec b es p e :
  holds b es → entry_ok e → string_at p (d_name e) →
  DENTRY_SIZE * (Z.of_nat (length es) + 1) ≤ BLOCK_SIZE →
  ∃ b', add_dentry b (Z.of_nat (length es)) (d_type e) (d_inode e) p = Ok b' ∧
    holds b' (es ++ [e]).
Proof.
  intros Hb He Hp Hle. pose proof (ho_block _ _ Hb) as Hl. destruct He as [[Ht Hi] Hs Hn].
  unfold add_dentry.
  destruct (set_dentry_type_spec b (length es) (d_type e)) as (b1 & -> & L1 & T1 & G1 & _);
    [by rewrite Hl|done|]. rewrite bind_Ok.
  destruct (set_dentry_inode_spec b1 (length es) (d_inode e)) as (b2 & -> & L2 & T2 & G2 & G2');
    [by rewrite L1, Hl|done|]. rewrite bind_Ok.
  destruct (set_dentry_name_spec b2 (length es) p (d_name e)) as (b3 & -> & L3 & T3 & S3);
    [by rewrite L2, L1, Hl|done|done|].
  exists b3. split; [done|]. apply (holds_snoc b); [done|by split|done|congruence| | | |done].
  - rewrite (take_take_le b2 b3 _ (32 * length es + 8)) by (done || lia). by rewrite T2.
  - rewrite (get32_prefix b2 b3 _ (32 * length es + 8)) by (done || flia). by rewrite G2'.
  - by rewrite (get32_prefix b2 b3 _ (32 * length es + 8)) by (done || flia).
Qed.

(** The three writes of [do_touch]. *)
Lemma touch_dentry_spec b es p e :
  holds b es → entry_ok e → string_at p (d_name e) →
  DENTRY_SIZE * (Z.of_nat (length es) + 1) ≤ BLOCK_SIZE →
  ∃ b', (buf ← set_dentry_inode b (Z.of_nat (length es)) (d_inode e);
         buf ← set_dentry_type buf (Z.of_nat (length es)) (d_type e);
         set_dentry_name buf (Z.of_nat (length es)) p) = Ok b' ∧
    holds b' (es ++ [e]).
Proof.
  intros Hb He Hp Hle. pose proof (ho_block _ _ Hb) as Hl. destruct He as [[Ht Hi] Hs Hn].
  destruct (set_dentry_inode_spec b (length es) (d_inode e)) as (b1 & -> & L1 & T1 & G1 & _);
    [by rewrite Hl|done|]. rewrite bind_Ok.
  destruct (set_dentry_type_spec b1 (length es) (d_type e)) as (b2 & -> & L2 & T2 & G2 & S2);
    [by rewrite L1, Hl|done|]. rewrite bind_Ok.
  destruct (set_dentry_name_spec b2 (length es) p (d_name e)) as (b3 & -> & L3 & T3 & S3);
    [by rewrite L2, L1, Hl|done|done|].
  exists b3. split; [done|]. apply (holds_snoc b); [done|by split|done|congruence| | | |done].
  - rewrite (take_take_le b2 b3 _ (32 * length es + 8)) by (done || lia). by rewrite T2.
  - by rewrite (get32_prefix b2 b3 _ (32 * length es + 8)) by (done || flia).
  - rewrite (get32_prefix b2 b3 _ (32 * length es + 8)) by (done || flia).
    unfold get32 in *. rewrite S2 by lia. done.
Qed.

(** ** Inodes with updated fields *)

Lemma inode_ok_words x :
  inode_ok x → (is_word (entry_num x) ∧ is_word (type x) ∧ is_word (size x) ∧
    is_word (link_cnt x) ∧ is_word (link_to x)) ∧ Forall is_word (direct x).
Proof.
  intros [Hw _ _ _]. unfold inode_words in Hw. rewrite !Forall_app in Hw.
  destruct Hw as (Hh & Hd & _). split; [|done]. by decompose_Forall_hyps.
Qed.

Lemma inode_ok_upd x e t sz lc lt ds :
  inode_ok x → is_word e → is_word t → is_word sz → is_word lc → is_word lt →
  Forall is_word ds → length ds = 16%nat →
  inode_ok (Inode e t sz lc lt ds (indirect x) (double_indrect x) (triple_indrect x)
              (owner x) (hash x)).
Proof.
  intros [Hw Hd Ho Hh] He Ht Hs Hc Hl Hds Hdl. unfold inode_words in Hw.
  rewrite !Forall_app in Hw. destruct Hw as (_ & _ & Hi).
  split; [|done..]. unfold inode_words. rewrite !Forall_app. split_and!; [|done|done].
  do 5 (apply Forall_cons; split; [done|]). by apply Forall_nil.
Qed.

(** ** State updates *)

Section ops.
Context {D : Type} {dev : BlockDev D} {laws : BlockDevLaws D}.
Implicit Types (s : fs D).

Definition with_node s (k : Z) (x : inode_t) : fs D :=
  s <| nodes := <[Z.to_nat k := x]> (nodes s) |>.

Lemma with_node_ok s k x : fs_ok s → inode_ok x → fs_ok (with_node s k x).
Proof.
  intros [H1 H2 H3 H4 H5 H6] Hx. split; simpl; [by rewrite length_insert| |done..].
  by apply Forall_insert.
Qed.

Lemma node_with_node s k x j :
  fs_ok s → 0 ≤ k < INODE_MAX_NUMBER → 0 ≤ j →
  node (with_node s k x) j = if decide (j = k) then x else node s j.
Proof.
  intros Hs Hk Hj. unfold node. simpl. pose proof (ok_nodes _ Hs).
  rewrite !nth_lookup. case_decide as He.
  - subst j. by rewrite list_lookup_insert_eq by lia.
  - by rewrite list_lookup_insert_ne by lia.
Qed.

Lemma upd_node_spec s k f :
  fs_ok s → 0 ≤ k < INODE_MAX_NUMBER → upd_node s (Some k) f = Ok (with_node s k (f (node s k))).
Proof.
  intros Hs Hk. unfold upd_node. simpl. rewrite aget_node, bind_Ok by done.
  by rewrite aset_total by (by rewrite (ok_nodes _ Hs)).
Qed.

Lemma node_with_node_eq s k x :
  fs_ok s → 0 ≤ k < INODE_MAX_NUMBER → node (with_node s k x) k = x.
Proof. intros Hs Hk. rewrite node_with_node by (done || lia). by rewrite decide_True. Qed.

Lemma with_node_twice s k x y : with_node (with_node s k x) k y = with_node s k y.
Proof. unfold with_node, update, upd_nodes. cbn. by rewrite list_insert_insert_eq. Qed.

(** Two updates of the same inode in a row. *)
Lemma upd_node_again s k x f :
  fs_ok s → 0 ≤ k < INODE_MAX_NUMBER → inode_ok x →
  upd_node (with_node s k x) (Some k) f = Ok (with_node s k (f x)).
Proof.
  intros Hs Hk Hx. rewrite upd_node_spec by (done || by apply with_node_ok).
  by rewrite node_with_node_eq, with_node_twice.
Qed.

Lemma mark_inode_dirty_spec s k :
  fs_ok s → 0 ≤ k < INODE_MAX_NUMBER →
  mark_inode_dirty s k = Ok (s <| inode_dirty := <[Z.to_nat (k / 32) := 1]> (inode_dirty s) |>) ∧
  fs_ok (s <| inode_dirty := <[Z.to_nat (k / 32) := 1]> (inode_dirty s) |>).
Proof.
  intros Hs Hk. unfold mark_inode_dirty. change node_num_per_block with 32. split.
  - rewrite aset_total; [done|]. rewrite (ok_dirty _ Hs).
    split; [apply Z.div_pos; lia|apply Z.div_lt_upper_bound; flia].
  - destruct Hs as [E1 E2 E3 E4 E5 E6]. split; simpl; [done|done|by rewrite length_insert|done..].
Qed.

Lemma time_hash_ok s : length (time_hash s) = 16%nat ∧ all_bytes (time_hash s).
Proof.
  split; [done|]. unfold time_hash. pose proof (le32_bytes (now s)) as Hb.
  cbn [replicate concat]. repeat (apply Forall_app_2; [done|]). by apply Forall_nil.
Qed.

Lemma hash_inode_ok x h :
  inode_ok x → length h = 16%nat → all_bytes h → inode_ok (x <| hash := h |>).
Proof. intros [E1 E2 E3 E4] Hl Hh. by split. Qed.

(** An inode that the bit map shows free is taken. *)
Lemma allocate_inode_spec s num :
  fs_ok s → 0 ≤ num < INODE_MAX_NUMBER → bit (inode_bit_map s) num = false →
  ∃ m, allocate_inode s num =
      Ok (Some num, with_node (s <| inode_bit_map := m |>) num (node s num <| hash := time_hash s |>)) ∧
    fs_ok (s <| inode_bit_map := m |>) ∧
    ∀ j, 0 ≤ j → bit m j = if j =? num then true else bit (inode_bit_map s) j.
Proof.
  intros Hs Hn Hfree. destruct (ok_inode_map _ Hs) as [Hl Hby]. unfold allocate_inode.
  destruct (Z.leb_spec INODE_MAX_NUMBER num); [lia|].
  rewrite test_bit_spec, bind_Ok, Hfree by (rewrite Hl; flia).
  destruct (set_bit_spec (inode_bit_map s) num) as (m & -> & Hml & Hmb & Hm);
    [rewrite Hl; flia|done|]. rewrite bind_Ok.
  assert (fs_ok (s <| inode_bit_map := m |>)) as Hs'.
  { destruct Hs as [E1 E2 E3 E4 E5 E6]. split; simpl; [done..|]. by rewrite Hml. }
  rewrite upd_node_spec, bind_Ok by done. by exists m.
Qed.

Lemma allocate_data_block_spec s b :
  fs_ok s → 0 ≤ b < DATA_BLOCK_MAX_NUMBER → bit (block_bit_map s) b = false →
  ∃ m, allocate_data_block s b = Ok (true, s <| block_bit_map := m |>) ∧
    fs_ok (s <| block_bit_map := m |>) ∧
    ∀ j, 0 ≤ j → bit m j = if j =? b then true else bit (block_bit_map s) j.
Proof.
  intros Hs Hn Hfree. destruct (ok_block_map _ Hs) as [Hl Hby]. unfold allocate_data_block.
  destruct (Z.leb_spec DATA_BLOCK_MAX_NUMBER b); [lia|].
  rewrite test_bit_spec, bind_Ok, Hfree by (rewrite Hl; flia).
  destruct (set_bit_spec (block_bit_map s) b) as (m & -> & Hml & Hmb & Hm);
    [rewrite Hl; flia|done|]. rewrite bind_Ok. exists m. split; [done|]. split; [|done].
  destruct Hs as [E1 E2 E3 E4 E5 E6]. split; simpl; [done..| |done]. by rewrite Hml.
Qed.

(** The first free inode, if there is one. *)
Lemma first_free_inode s num :
  fs_ok s → find_first_zero_bit (inode_bit_map s) INODE_BIT_MAP_SIZE = Ok num →
  0 ≤ num < INODE_MAX_NUMBER ∧ bit (inode_bit_map s) num = false.
Proof.
  intros Hs. rewrite <- (proj1 (ok_inode_map _ Hs)).
  destruct (find_first_zero_bit_spec (inode_bit_map s)) as (r & -> & Hr).
  destruct r as [i|]; [|done]. intros [= <-]. rewrite (proj1 (ok_inode_map _ Hs)) in Hr.
  split; [flia|apply Hr].
Qed.

Lemma first_free_block s b :
  fs_ok s → find_first_zero_bit (block_bit_map s) DATA_BLOCK_BIT_MAP_SIZE = Ok b →
  0 ≤ b < DATA_BLOCK_MAX_NUMBER ∧ bit (block_bit_map s) b = false.
Proof.
  intros Hs. rewrite <- (proj1 (ok_block_map _ Hs)).
  destruct (find_first_zero_bit_spec (block_bit_map s)) as (r & -> & Hr).
  destruct r as [i|]; [|done]. intros [= <-]. rewrite (proj1 (ok_block_map _ Hs)) in Hr.
  split; [flia|apply Hr].
Qed.

(** ** The invariant *)

Definition block_addr (b : Z) : Z := data_start new_super + BLOCK_SIZE * b.

(** Inode [k] is a directory with these entries, its own block [b] allocated. *)
Record dir_at s (k b : Z) (es : list dentry) : Prop := {
  da_dir : dir_of s k es;
  da_used : bit (inode_bit_map s) k = true;
  da_range : 0 ≤ b < DATA_BLOCK_MAX_NUMBER;
  da_block : nth 0 (direct (node s k)) 0 = block_addr b;
  da_alloc : bit (block_bit_map s) b = true;
}.

(** The entries of a directory: itself, its parent, and others that designate
    inodes in use, the directories among them being in the map. *)
Definition entries_ok s (T : gmap Z (list dentry)) (k : Z) (es : list dentry) : Prop :=
  (∃ par es', es = Dentry dir k (str ".") :: Dentry dir par (str "..") :: es') ∧
  ∀ e, e ∈ es → 0 ≤ d_inode e < INODE_MAX_NUMBER ∧ bit (inode_bit_map s) (d_inode e) = true ∧
    (d_type e = dir → is_Some (T !! d_inode e)).

Record fs_inv s (T : gmap Z (list dentry)) (blk : Z → Z) : Prop := {
  fi_ok : fs_ok s;
  fi_saved : saved s;
  fi_clean : inode_dirty s = replicate 256 0;
  fi_dirs k es : T !! k = Some es → dir_at s k (blk k) es;
  fi_blocks k k' es es' : T !! k = Some es → T !! k' = Some es' → blk k = blk k' → k = k';
  fi_entries k es : T !! k = Some es → entries_ok s T k es;
  fi_root : root s = 0 ∧ is_Some (T !! 0);
  fi_cwd : is_Some (T !! cwd s);
}.

Lemma block_addr_range b :
  0 ≤ b < DATA_BLOCK_MAX_NUMBER → data_start new_super ≤ block_addr b < 2 ^ 32 - BLOCK_SIZE.
Proof. unfold block_addr. simpl. flia. Qed.

Lemma block_addr_ne b b' :
  b ≠ b' → block_addr b + BLOCK_SIZE ≤ block_addr b' ∨ block_addr b' + BLOCK_SIZE ≤ block_addr b.
Proof. unfold block_addr. flia. Qed.

(** A directory stays what it is while its inode, its block and its bits do. *)
Lemma dir_at_keep s s' k b es :
  dir_at s k b es → node s' k = node s k →
  (bit (inode_bit_map s) k = true → bit (inode_bit_map s') k = true) →
  (bit (block_bit_map s) b = true → bit (block_bit_map s') b = true) →
  sdread (disk s') (block_addr b) BLOCK_SIZE = sdread (disk s) (block_addr b) BLOCK_SIZE →
  dir_at s' k b es.
Proof.
  intros [[Hk Hnum Hh] Hu Hr Hb Ha] Hn Hi Hbm Hd. split; [split| | | |].
  - done.
  - by rewrite Hn.
  - unfold first_block in *. rewrite Hn, Hb, Hd, <- Hb. done.
  - by apply Hi.
  - done.
  - by rewrite Hn.
  - by apply Hbm.
Qed.

(** The two orders in which the code syncs. *)
Lemma sync_spec' s :
  fs_ok s → super_saved s → clean_saved s →
  ∃ d, (s ← update_inode s; update_bit_map s) =
      Ok (s <| disk := d |> <| inode_dirty := replicate 256 0 |>) ∧
    saved (s <| disk := d |> <| inode_dirty := replicate 256 0 |>) ∧
    (∀ o n, data_start new_super ≤ o → sdread d o n = sdread (disk s) o n).
Proof.
  intros Hs Hsuper Hclean.
  destruct (update_inode_spec s Hs) as (d1 & -> & Hn & Ho1). rewrite bind_Ok.
  destruct (update_bit_map_spec (s <| disk := d1 |> <| inode_dirty := replicate 256 0 |>))
    as (d & -> & Hi & Hb & Ho).
  { destruct Hs as [E1 E2 E3 E4 E5 E6]. by split. }
  exists d. split; [done|]. split; [split|].
  - unfold super_saved. simpl disk. rewrite Ho by (simpl; flia). simpl disk.
    rewrite Ho1 by (simpl; flia). done.
  - exact Hi.
  - exact Hb.
  - intros k Hk. unfold inode_saved. simpl disk. rewrite Ho by (unfold inode_offset; simpl; flia).
    simpl disk. rewrite Hn by done.
    destruct (Z.eqb_spec (nth (Z.to_nat (k / 32)) (inode_dirty s) 0) 0) as [He|]; [|done].
    by apply Hclean.
  - intros o n Hon. simpl disk. rewrite Ho by (right; simpl in *; flia). simpl disk.
    by rewrite Ho1 by (by right).
Qed.

(** ** Preparing a sync *)

(** Only inodes of dirty blocks and the data area have changed. *)
Lemma clean_saved_upd s s' :
  saved s → (∀ o n, o + n ≤ data_start new_super → sdread (disk s') o n = sdread (disk s) o n) →
  (∀ k, 0 ≤ k < INODE_MAX_NUMBER → nth (Z.to_nat (k / 32)) (inode_dirty s') 0 = 0 →
     node s' k = node s k) →
  super_saved s' ∧ clean_saved s'.
Proof.
  intros Hs Hd Hn. split.
  - unfold super_saved. rewrite Hd by (simpl; flia). apply Hs.
  - intros k Hk Hc. unfold inode_saved. rewrite Hd, Hn by (done || unfold inode_offset; simpl; flia).
    by apply (sv_inodes _ Hs).
Qed.

Lemma sync_steps s :
  fs_ok s → super_saved s → clean_saved s →
  ∃ s1 d, update_inode s = Ok s1 ∧
    update_bit_map s1 = Ok (s <| disk := d |> <| inode_dirty := replicate 256 0 |>) ∧
    saved (s <| disk := d |> <| inode_dirty := replicate 256 0 |>) ∧
    (∀ o n, data_start new_super ≤ o → sdread d o n = sdread (disk s) o n).
Proof.
  intros Hs H1 H2. destruct (sync_spec' s Hs H1 H2) as (d & Hrun & Hsaved & Hd).
  apply bind_Ok_inv in Hrun as (s1 & Hr1 & Hr2). by exists s1, d.
Qed.

(** ** Names *)

Record name_ok (nm : bytes) : Prop := {
  nk_nonempty : nm ≠ [];
  nk_string : 0 ∉ nm ∧ all_bytes nm;
  nk_noslash : 47 ∉ nm;
  nk_length : Z.of_nat (length nm) < MAX_NAME_LEN;
}.

Lemma standrize_spec nm rest :
  0 ∉ nm → (∀ c, last nm = Some c → c ≠ 47) → nm ≠ [] →
  name_str_standrize (nm ++ 0 :: rest) = Ok (nm ++ 0 :: rest).
Proof.
  intros H0 Hl Hne. unfold name_str_standrize.
  rewrite (strlen_string _ nm), bind_Ok by (by apply string_at_app).
  destruct (exists_last Hne) as (l & c & ->).
  assert (aget ((l ++ [c]) ++ 0 :: rest) (Z.of_nat (length (l ++ [c])) - 1) = Ok c) as ->.
  { apply aget_Ok. rewrite length_app. simpl. split; [lia|].
    replace (Z.to_nat (Z.of_nat (length l + 1) - 1)) with (length l) by lia.
    rewrite <- (assoc_L (++)). by rewrite lookup_app_r, Nat.sub_diag by lia. }
  rewrite bind_Ok. destruct (Z.eqb_spec c 47); [|done].
  exfalso. apply (Hl c); [by rewrite last_snoc|done].
Qed.

Lemma has_slash_spec nm rest :
  0 ∉ nm → 47 ∉ nm → has_slash (nm ++ 0 :: rest) = Ok false.
Proof.
  induction nm as [|c nm IH]; intros H0 H1; [done|]. simpl.
  destruct (Z.eqb_spec c 0); [set_solver|]. destruct (Z.eqb_spec c 47); [set_solver|].
  apply IH; set_solver.
Qed.

Lemma name_standrize nm rest :
  name_ok nm → name_str_standrize (nm ++ 0 :: rest) = Ok (nm ++ 0 :: rest).
Proof.
  intros [Hne [H0 _] Hs _]. apply standrize_spec; [done| |done].
  intros c Hc ->. apply Hs. by apply last_Some_elem_of.
Qed.

Lemma name_entry_ok nm t n :
  name_ok nm → is_word t → is_word n → entry_ok (Dentry t n nm).
Proof. intros [_ H0 _ Hl] Ht Hn. by split. Qed.

Lemma inode_word k : 0 ≤ k < INODE_MAX_NUMBER → is_word k.
Proof. unfold is_word. flia. Qed.

(** ** [do_touch] *)

Lemma nth_dirty (l : list Z) (i g : nat) :
  (i < length l)%nat → nth g (<[i := 1]> l) 0 = 0 → g ≠ i ∧ nth g l 0 = 0.
Proof.
  intros Hi. destruct (decide (g = i)) as [->|Hne].
  - by rewrite nth_lookup, list_lookup_insert_eq by done.
  - by rewrite !nth_lookup, list_lookup_insert_ne by done.
Qed.

(** What [do_touch] and the first half of [do_mkdir] prepare: the entry is in
    the block of the current directory. *)
Record entry_added s (c num : Z) (es : list dentry) (e : dentry) (bc : Z) s' : Prop := {
  ea_ok : fs_ok s';
  ea_map j : 0 ≤ j → bit (inode_bit_map s') j = if j =? num then true else bit (inode_bit_map s) j;
  ea_blocks j : 0 ≤ j → bit (block_bit_map s) j = true → bit (block_bit_map s') j = true;
  ea_node k : 0 ≤ k → k ≠ num → k ≠ c → node s' k = node s k;
  ea_num : entry_num (node s' c) = Z.of_nat (length es) + 1;
  ea_direct : direct (node s' c) = direct (node s c);
  ea_block : holds (sdread (disk s') (block_addr bc) BLOCK_SIZE) (es ++ [e]);
  ea_disk b : 0 ≤ b → b ≠ bc → bit (block_bit_map s) b = true →
    sdread (disk s') (block_addr b) BLOCK_SIZE = sdread (disk s) (block_addr b) BLOCK_SIZE;
  ea_cwd : cwd s' = cwd s ∧ root s' = root s;
  ea_kept : type (node s' c) = type (node s c) ∧ cwd_str s' = cwd_str s ∧ fd s' = fd s;
}.

(** The directories after it. *)
Lemma entry_added_dirs s T blk num es e s' :
  fs_inv s T blk → T !! cwd s = Some es → bit (inode_bit_map s) num = false →
  entry_added s (cwd s) num es e (blk (cwd s)) s' →
  ∀ k es', <[cwd s := es ++ [e]]> T !! k = Some es' → dir_at s' k (blk k) es'.
Proof.
  intros Hinv Hc Hfree Ha k es' Hk. pose proof (fi_dirs _ _ _ Hinv _ _ Hc) as Hdc.
  destruct (decide (k = cwd s)) as [->|Hne].
  - rewrite lookup_insert_eq in Hk. injection Hk as <-.
    destruct Hdc as [[Hr Hnum Hh] Hu Hb Hblk Hal].
    assert (nth 0 (direct (node s' (cwd s))) 0 = block_addr (blk (cwd s))) as Hd
      by (by rewrite (ea_direct _ _ _ _ _ _ _ Ha)).
    split; [split| | | |].
    + done.
    + rewrite (ea_num _ _ _ _ _ _ _ Ha), length_app. simpl. lia.
    + unfold first_block. rewrite Hd. by apply Ha.
    + rewrite (ea_map _ _ _ _ _ _ _ Ha) by lia. by destruct (cwd s =? num).
    + done.
    + done.
    + apply (ea_blocks _ _ _ _ _ _ _ Ha); [lia|done].
  - rewrite lookup_insert_ne in Hk by done. pose proof (fi_dirs _ _ _ Hinv _ _ Hk) as Hdk.
    pose proof (di_node _ _ _ (da_dir _ _ _ _ Hdk)). pose proof (da_range _ _ _ _ Hdk).
    apply (dir_at_keep s); [done| | | |].
    + apply (ea_node _ _ _ _ _ _ _ Ha); [lia| |done].
      intros ->. by rewrite (da_used _ _ _ _ Hdk) in Hfree.
    + intros Hu. rewrite (ea_map _ _ _ _ _ _ _ Ha) by lia. by destruct (k =? num).
    + apply (ea_blocks _ _ _ _ _ _ _ Ha). lia.
    + apply (ea_disk _ _ _ _ _ _ _ Ha); [lia| |by apply Hdk].
      intros He. by apply Hne, (fi_blocks _ _ _ Hinv _ _ _ _ Hk Hc).
Qed.

(** The entries stay well-formed in a larger map. *)
Lemma entries_ok_grow s s' T T' k es :
  entries_ok s T k es →
  (∀ j, 0 ≤ j → bit (inode_bit_map s) j = true → bit (inode_bit_map s') j = true) →
  (∀ j, is_Some (T !! j) → is_Some (T' !! j)) → entries_ok s' T' k es.
Proof.
  intros [Hd He] Hb HT. split; [done|]. intros e Hin. destruct (He e Hin) as (H1 & H2 & H3).
  split; [done|]. split; [apply Hb; [lia|done]|]. intros Ht. by apply HT, H3.
Qed.

Lemma entries_ok_snoc s T k es e :
  entries_ok s T k es → 0 ≤ d_inode e < INODE_MAX_NUMBER →
  bit (inode_bit_map s) (d_inode e) = true → (d_type e = dir → is_Some (T !! d_inode e)) →
  entries_ok s T k (es ++ [e]).
Proof.
  intros [(par & es' & ->) He] H1 H2 H3. split.
  - by exists par, (es' ++ [e]).
  - intros x [Hx| ->%list_elem_of_singleton]%elem_of_app; [by apply He|done].
Qed.

Lemma entry_added_final s c num es e bc s' d :
  0 ≤ bc → entry_added s c num es e bc s' →
  (∀ o n, data_start new_super ≤ o → sdread d o n = sdread (disk s') o n) →
  entry_added s c num es e bc (s' <| disk := d |> <| inode_dirty := replicate 256 0 |>).
Proof.
  intros Hbc [E1 E2 E3 E4 E5 E6 E7 E8 E9 E10] Hd.
  split; [by destruct E1 as [F1 F2 F3 F4 F5 F6]|done|done|done|done|done| | |done|done];
    simpl disk.
  - rewrite Hd; [done|]. unfold block_addr. flia.
  - intros b Hb Hne Ha. rewrite Hd; [by apply E8|]. unfold block_addr. flia.
Qed.

(** The state in which [do_touch] syncs. *)
Lemma touch_prepares s T blk nm rest junk num es :
  fs_inv s T blk → T !! cwd s = Some es → name_ok nm →
  DENTRY_SIZE * (Z.of_nat (length es) + 1) ≤ BLOCK_SIZE →
  Z.of_nat (length junk) = BLOCK_SIZE →
  find_first_zero_bit (inode_bit_map s) INODE_BIT_MAP_SIZE = Ok num →
  ∃ s', touch_name s (nm ++ 0 :: rest) junk =
      (s ← update_inode s'; s ← update_bit_map s; Ok (nm ++ 0 :: rest, s)) ∧
    entry_added s (cwd s) num es (Dentry file num nm) (blk (cwd s)) s' ∧
    super_saved s' ∧ clean_saved s' ∧ block_bit_map s' = block_bit_map s ∧
    node s' num = node s num <| hash := time_hash s |>
      <| size := 0 |> <| type := file |> <| link_cnt := 1 |>.
Proof.
  intros Hinv Hc Hnm Hle Hl Hnum. pose proof (fi_ok _ _ _ Hinv) as Hok.
  destruct (first_free_inode s num Hok Hnum) as [Hn Hfree].
  destruct (fi_dirs _ _ _ Hinv _ _ Hc) as [[Hcr Hcn Hch] Hcu Hcb Hcblk Hca].
  assert (num ≠ cwd s) as Hne by (intros ->; congruence).
  unfold touch_name. rewrite name_standrize, bind_Ok by done.
  rewrite has_slash_spec, bind_Ok by apply Hnm. cbv iota. rewrite Hnum, bind_Ok.
  destruct (allocate_inode_spec s num Hok Hn Hfree) as (m & -> & Hok1 & Hm). rewrite bind_Ok.
  set (x1 := node s num <| hash := time_hash s |>).
  assert (inode_ok x1) as Hx1 by (apply hash_inode_ok; [by apply node_ok|apply time_hash_ok..]).
  set (s1 := with_node (s <| inode_bit_map := m |>) num x1).
  assert (fs_ok s1) as Hok2 by (by apply with_node_ok).
  destruct (mark_inode_dirty_spec s1 num Hok2 Hn) as [-> Hok3]. rewrite bind_Ok.
  set (s2 := s1 <| inode_dirty := _ |>) in *. rewrite upd_node_spec, bind_Ok by done.
  assert (∀ k, 0 ≤ k → node s2 k = if decide (k = num) then x1 else node s k) as Hn2.
  { intros k Hk. exact (node_with_node (s <| inode_bit_map := m |>) num x1 k Hok1 Hn Hk). }
  rewrite (Hn2 num), decide_True by (done || lia).
  set (x2 := x1 <| size := 0 |> <| type := file |> <| link_cnt := 1 |>).
  assert (inode_ok x2) as Hx2.
  { destruct (inode_ok_words x1 Hx1) as [(W1 & W2 & W3 & W4 & W5) Wd].
    by apply (inode_ok_upd x1 _ file 0 1); [..|apply Hx1]. }
  set (s3 := with_node s2 num x2). assert (fs_ok s3) as Hok4 by (by apply with_node_ok).
  assert (∀ k, 0 ≤ k → node s3 k = if decide (k = num) then x2 else node s k) as Hn3.
  { intros k Hk. unfold s3. rewrite (node_with_node s2 num x2 k Hok3 Hn Hk).
    case_decide; [done|]. by rewrite Hn2, decide_False by (done || lia). }
  change (cwd s3) with (cwd s).
  rewrite get_node_spec, bind_Ok by done. rewrite Hn3, decide_False by (done || lia).
  rewrite read_block_spec, bind_Ok by (done || by apply node_direct).
  change (first_block s3 (node s (cwd s))) with (first_block s (node s (cwd s))).
  rewrite !Hcn.
  destruct (touch_dentry_spec _ _ (nm ++ 0 :: rest) (Dentry file num nm) Hch) as (b & Hb & Hholds);
    [apply name_entry_ok; [done|done|by apply inode_word]|by apply string_at_app, Hnm|done|].
  cbn [d_inode d_type] in Hb. apply bind_Ok_inv in Hb as (b1 & -> & Hb). rewrite bind_Ok.
  apply bind_Ok_inv in Hb as (b2 & -> & Hb). rewrite bind_Ok, Hb, bind_Ok.
  rewrite upd_node_spec, bind_Ok by done. rewrite Hn3, decide_False by (done || lia).
  set (xc := node s (cwd s) <| entry_num := u32 (entry_num (node s (cwd s)) + 1) |>).
  assert (entry_num xc = Z.of_nat (length es) + 1) as Hxc
    by (unfold xc; simpl; rewrite Hcn, u32_small by flia; done).
  assert (inode_ok xc) as Hxok.
  { destruct (inode_ok_words _ (node_ok s (cwd s) Hok)) as [(W1 & W2 & W3 & W4 & W5) Wd].
    apply (inode_ok_upd _ (entry_num xc) _ _ _ _ _ (node_ok s (cwd s) Hok));
      [unfold is_word; flia|done..|apply (io_direct _ (node_ok s (cwd s) Hok))]. }
  set (s4 := with_node s3 (cwd s) xc). assert (fs_ok s4) as Hok5 by (by apply with_node_ok).
  assert (∀ k, 0 ≤ k → node s4 k =
    if decide (k = cwd s) then xc else if decide (k = num) then x2 else node s k) as Hn4.
  { intros k Hk. unfold s4. rewrite (node_with_node s3 (cwd s) xc k Hok4 Hcr Hk).
    case_decide; [done|]. by apply Hn3. }
  change (cwd s4) with (cwd s).
  destruct (mark_inode_dirty_spec s4 (cwd s) Hok5 Hcr) as [-> Hok6]. rewrite bind_Ok.
  rewrite write_block_spec, bind_Ok by (by apply node_direct || by rewrite (ho_block _ _ Hholds)).
  rewrite Hcblk. set (s5 := _ <| disk ::= _ |>).
  pose proof (ho_block _ _ Hholds) as Hbl.
  assert (sdread (disk s5) (block_addr (blk (cwd s))) BLOCK_SIZE = b) as Hrd
    by (rewrite <- Hbl; apply sdread_write_eq).
  exists s5. split; [done|].
  assert (∀ k, 0 ≤ k → k ≠ num → k ≠ cwd s → node s5 k = node s k) as Hnode.
  { intros k Hk Hk1 Hk2. change (node s5 k) with (node s4 k). rewrite Hn4 by done.
    by rewrite !decide_False by done. }
  assert (node s5 (cwd s) = xc) as Hnc
    by (change (node s4 (cwd s) = xc); rewrite Hn4 by lia; by rewrite decide_True).
  assert (fs_ok s5) as Hok7 by (by apply (fs_ok_disk (s4 <| inode_dirty := _ |>))).
  assert (super_saved s5 ∧ clean_saved s5) as [Hss Hcs].
  { apply (clean_saved_upd s); [apply Hinv| |].
    - intros o n Ho. change (disk s5) with (sdwrite (disk s) (block_addr (blk (cwd s))) b).
      rewrite sdread_write_ne; [done|]. left. unfold block_addr. flia.
    - intros k Hk Hd. change (inode_dirty s5) with
        (<[Z.to_nat (cwd s / 32) := 1]> (<[Z.to_nat (num / 32) := 1]> (inode_dirty s))) in Hd.
      pose proof (ok_dirty _ Hok) as Hdl.
      assert (0 ≤ cwd s / 32 < 256 ∧ 0 ≤ num / 32 < 256) as [Hr1 Hr2]
        by (split; split; first [apply Z.div_pos; lia|apply Z.div_lt_upper_bound; flia]).
      apply nth_dirty in Hd as [Hd1 Hd]; [|rewrite length_insert; lia].
      apply nth_dirty in Hd as [Hd2 _]; [|lia].
      apply Hnode; [lia|by intros ->..]. }
  split_and!; [|done|done|done|].
  - split; [done| |by intros|done| | | | |done|by rewrite Hnc].
    + intros j Hj. by apply Hm.
    + by rewrite Hnc.
    + by rewrite Hnc.
    + by rewrite Hrd.
    + intros j Hj Hjne _. change (disk s5) with (sdwrite (disk s) (block_addr (blk (cwd s))) b).
      apply sdread_write_ne. rewrite Hbl. pose proof (block_addr_ne j (blk (cwd s)) Hjne). lia.
  - change (node s4 num = x2). rewrite Hn4, decide_False, decide_True by (done || lia). done.
Qed.

Lemma touch_spec s T blk nm rest junk num es :
  fs_inv s T blk → T !! cwd s = Some es → name_ok nm →
  DENTRY_SIZE * (Z.of_nat (length es) + 1) ≤ BLOCK_SIZE →
  Z.of_nat (length junk) = BLOCK_SIZE →
  find_first_zero_bit (inode_bit_map s) INODE_BIT_MAP_SIZE = Ok num →
  ∃ s', do_touch s (Some (nm ++ 0 :: rest)) junk = Ok s' ∧
    fs_inv s' (<[cwd s := es ++ [Dentry file num nm]]> T) blk ∧ cwd s' = cwd s ∧
    bit (inode_bit_map s) num = false ∧ bit (inode_bit_map s') num = true ∧
    type (node s' num) = file ∧ size (node s' num) = 0 ∧ link_cnt (node s' num) = 1 ∧
    block_bit_map s' = block_bit_map s ∧
    (∀ k, 0 ≤ k → k ≠ num → k ≠ cwd s → node s' k = node s k) ∧
    (type (node s' (cwd s)) = type (node s (cwd s)) ∧ cwd_str s' = cwd_str s ∧ fd s' = fd s) ∧
    ∀ j, 0 ≤ j → bit (inode_bit_map s') j = if j =? num then true else bit (inode_bit_map s) j.
Proof.
  intros Hinv Hc Hnm Hle Hl Hnum. pose proof (fi_ok _ _ _ Hinv) as Hok.
  destruct (first_free_inode s num Hok Hnum) as [Hn Hfree].
  destruct (touch_prepares s T blk nm rest junk num es) as (s5 & Ht & Ha & Hss & Hcs & Hbm & Hnn);
    [done..|].
  destruct (sync_steps s5 (ea_ok _ _ _ _ _ _ _ Ha) Hss Hcs) as (s6 & d & Hu & Hb & Hsaved & Hd).
  unfold do_touch. rewrite Ht, Hu, bind_Ok, Hb, bind_Ok, bind_Ok.
  pose proof (fi_dirs _ _ _ Hinv _ _ Hc) as Hdc.
  apply (entry_added_final _ _ _ _ _ _ _ d) in Ha; [|apply Hdc|done].
  set (s' := s5 <| disk := d |> <| inode_dirty := replicate 256 0 |>) in *.
  exists s'. split; [done|]. change (node s5 num) with (node s' num) in Hnn.
  pose proof (ea_cwd _ _ _ _ _ _ _ Ha) as [Hcwd Hroot].
  assert (∀ j, 0 ≤ j → bit (inode_bit_map s) j = true → bit (inode_bit_map s') j = true) as Hgrow.
  { intros j Hj Hb'. rewrite (ea_map _ _ _ _ _ _ _ Ha) by done. by destruct (j =? num). }
  assert (bit (inode_bit_map s') num = true) as Hused.
  { rewrite (ea_map _ _ _ _ _ _ _ Ha) by lia. by rewrite Z.eqb_refl. }
  assert (∀ j, is_Some (T !! j) → is_Some (<[cwd s := es ++ [Dentry file num nm]]> T !! j)) as HT.
  { intros j Hj. destruct (decide (j = cwd s)) as [->|]; [by rewrite lookup_insert_eq|].
    by rewrite lookup_insert_ne. }
  split; [|split_and!; try done; [by rewrite Hnn|by rewrite Hnn|by rewrite Hnn|apply Ha..]].
  split; [apply Ha|done|done|by apply (entry_added_dirs s T blk num es _ s' Hinv Hc Hfree Ha)| | | |].
  - intros k k' es1 es2 H1 H2. assert (is_Some (T !! k) ∧ is_Some (T !! k')) as [[x1 Hx1] [x2 Hx2]].
    { split; [destruct (decide (k = cwd s))|destruct (decide (k' = cwd s))]; subst;
        rewrite ?lookup_insert_ne in * by done; eauto. }
    by apply (fi_blocks _ _ _ Hinv _ _ _ _ Hx1 Hx2).
  - intros k es' Hk. destruct (decide (k = cwd s)) as [->|].
    + rewrite lookup_insert_eq in Hk. injection Hk as <-.
      apply entries_ok_snoc; [|done|done|done].
      by apply (entries_ok_grow s s' T); [apply (fi_entries _ _ _ Hinv)|..].
    + rewrite lookup_insert_ne in Hk by done.
      by apply (entries_ok_grow s s' T); [apply (fi_entries _ _ _ Hinv)|..].
  - split; [rewrite Hroot; apply (fi_root _ _ _ Hinv)|]. apply HT, (fi_root _ _ _ Hinv).
  - rewrite Hcwd. apply HT. by exists es.
Qed.

(** Creating a file: [do_touch] with a name without slashes, in a current
    directory that has room, takes the first free inode, makes it an empty
    file with one link, and appends an entry with the name and this inode to
    the current directory.  All other directories keep their entries, all other
    inodes are untouched, and what is in memory is again on the disk: the
    invariant holds for the updated map. *)
Theorem touch_correct s T blk nm rest junk num es :
  fs_inv s T blk → T !! cwd s = Some es → name_ok nm →
  DENTRY_SIZE * (Z.of_nat (length es) + 1) ≤ BLOCK_SIZE →
  Z.of_nat (length junk) = BLOCK_SIZE →
  find_first_zero_bit (inode_bit_map s) INODE_BIT_MAP_SIZE = Ok num →
  ∃ s', do_touch s (Some (nm ++ 0 :: rest)) junk = Ok s' ∧
    fs_inv s' (<[cwd s := es ++ [Dentry file num nm]]> T) blk ∧ cwd s' = cwd s ∧
    bit (inode_bit_map s) num = false ∧ bit (inode_bit_map s') num = true ∧
    type (node s' num) = file ∧ size (node s' num) = 0 ∧ link_cnt (node s' num) = 1 ∧
    block_bit_map s' = block_bit_map s ∧
    ∀ k, 0 ≤ k → k ≠ num → k ≠ cwd s → node s' k = node s k.
Proof.
  intros. destruct (touch_spec s T blk nm rest junk num es)
    as (s' & E1 & E2 & E3 & E4 & E5 & E6 & E7 & E8 & E9 & E10 & _); [done..|]. by exists s'.
Qed.

(** ** [do_mkdir] *)

(** The first entries of directory [k]. *)
Definition dots (k par : Z) : list dentry := [Dentry dir k (str "."); Dentry dir par (str "..")].

Lemma dots_ok k par : is_word k → is_word par → Forall entry_ok (dots k par).
Proof.
  intros Hk Hp. apply Forall_cons. split; [by apply small_entry|].
  apply Forall_cons. split; [by apply small_entry|by apply Forall_nil].
Qed.

Lemma holds_nil b : Z.of_nat (length b) = BLOCK_SIZE → holds b [].
Proof. intros Hb. split; [done|simpl; flia|done|done|done|by apply Forall_nil]. Qed.

Lemma init_dentries_spec b k par :
  Z.of_nat (length b) = BLOCK_SIZE → is_word k → is_word par →
  ∃ b', init_dentries b k par = Ok b' ∧ holds b' (dots k par).
Proof.
  intros Hb Hk Hp. pose proof (dots_ok k par Hk Hp) as Hd. unfold dots in *.
  apply Forall_cons in Hd as [Hd1 Hd]. apply Forall_cons in Hd as [Hd2 _].
  destruct (add_dentry_spec b [] (cstr ".") (Dentry dir k (str "."))) as (b1 & H1 & Hh1);
    [by apply holds_nil|done|by apply (string_at_app _ []), Hd1|done|].
  destruct (add_dentry_spec b1 [Dentry dir k (str ".")] (cstr "..") (Dentry dir par (str "..")))
    as (b2 & H2 & Hh2); [done|done|by apply (string_at_app _ []), Hd2|done|].
  exists b2. split; [|done]. unfold init_dentries. unfold add_dentry in *.
  cbn [length d_type d_inode] in *. change (Z.of_nat 0) with 0 in H1. change (Z.of_nat 1) with 1 in H2.
  apply bind_Ok_inv in H1 as (x1 & -> & H1). rewrite bind_Ok.
  apply bind_Ok_inv in H1 as (x2 & -> & H1). rewrite bind_Ok, H1, bind_Ok. exact H2.
Qed.

Definition new_dir (x : inode_t) (b : Z) : inode_t :=
  x <| entry_num := 2 |> <| type := dir |> <| direct ::= λ l, <[0%nat := block_addr b]> l |>
    <| link_cnt := 1 |>.

Lemma new_dir_ok x b : inode_ok x → 0 ≤ b < DATA_BLOCK_MAX_NUMBER → inode_ok (new_dir x b).
Proof.
  intros Hx Hb. destruct (inode_ok_words x Hx) as [(W1 & W2 & W3 & W4 & W5) Wd].
  pose proof (block_addr_range b Hb) as Hr.
  apply (inode_ok_upd x 2 dir (size x) 1 (link_to x) (<[0%nat := block_addr b]> (direct x)));
    [done..| |].
  - apply Forall_insert; [done|]. unfold is_word. simpl in Hr. unfold block_addr in *. simpl in *. flia.
  - rewrite length_insert. apply Hx.
Qed.

Lemma new_dir_addr s b :
  fs_ok s → 0 ≤ b < DATA_BLOCK_MAX_NUMBER →
  u32 (data_start (super_block s) + b * BLOCK_SIZE) = block_addr b.
Proof.
  intros Hs Hb. rewrite (ok_super _ Hs). pose proof (block_addr_range b Hb) as Hr.
  unfold block_addr in *. rewrite Z.mul_comm. rewrite u32_small; [done|].
  simpl in *. flia.
Qed.

Lemma mkdir_prepares s T blk nm rest junk1 junk2 num b es :
  fs_inv s T blk → T !! cwd s = Some es → name_ok nm →
  DENTRY_SIZE * (Z.of_nat (length es) + 1) ≤ BLOCK_SIZE →
  Z.of_nat (length junk1) = BLOCK_SIZE → Z.of_nat (length junk2) = BLOCK_SIZE →
  find_first_zero_bit (inode_bit_map s) INODE_BIT_MAP_SIZE = Ok num →
  find_first_zero_bit (block_bit_map s) DATA_BLOCK_BIT_MAP_SIZE = Ok b →
  ∃ s', do_mkdir s (Some (nm ++ 0 :: rest)) junk1 junk2 =
      (s ← update_bit_map s'; s ← mark_inode_dirty s (cwd s); s ← mark_inode_dirty s num;
       update_inode s) ∧
    entry_added s (cwd s) num es (Dentry dir num nm) (blk (cwd s)) s' ∧
    inode_dirty s' = inode_dirty s ∧
    (∀ o n, o + n ≤ data_start new_super → sdread (disk s') o n = sdread (disk s) o n) ∧
    node s' num = new_dir (node s num <| hash := time_hash s |>) b ∧
    (∀ j, 0 ≤ j → bit (block_bit_map s') j = if j =? b then true else bit (block_bit_map s) j) ∧
    holds (sdread (disk s') (block_addr b) BLOCK_SIZE) (dots num (cwd s)).
Proof.
  intros Hinv Hc Hnm Hle Hl1 Hl2 Hnum Hblk. pose proof (fi_ok _ _ _ Hinv) as Hok.
  destruct (first_free_inode s num Hok Hnum) as [Hn Hfree].
  destruct (first_free_block s b Hok Hblk) as [Hb Hbfree].
  destruct (fi_dirs _ _ _ Hinv _ _ Hc) as [[Hcr Hcn Hch] Hcu Hcb Hcblk Hca].
  assert (num ≠ cwd s) as Hne by (intros ->; congruence).
  assert (b ≠ blk (cwd s)) as Hbne by (intros ->; congruence).
  unfold do_mkdir. rewrite name_standrize, bind_Ok by done.
  rewrite get_node_spec, bind_Ok by done.
  rewrite read_block_spec, bind_Ok by (done || by apply node_direct). cbv zeta.
  rewrite upd_node_spec, bind_Ok by done.
  set (xc := node s (cwd s) <| entry_num := u32 (entry_num (node s (cwd s)) + 1) |>).
  assert (entry_num xc = Z.of_nat (length es) + 1) as Hxc
    by (unfold xc; simpl; rewrite Hcn, u32_small by flia; done).
  assert (inode_ok xc) as Hxok.
  { destruct (inode_ok_words _ (node_ok s (cwd s) Hok)) as [(W1 & W2 & W3 & W4 & W5) Wd].
    apply (inode_ok_upd _ (entry_num xc) _ _ _ _ _ (node_ok s (cwd s) Hok));
      [unfold is_word; flia|done..|apply (io_direct _ (node_ok s (cwd s) Hok))]. }
  set (s1 := with_node s (cwd s) xc). assert (fs_ok s1) as Hok1 by (by apply with_node_ok).
  change (inode_bit_map s1) with (inode_bit_map s). rewrite Hnum, bind_Ok.
  assert (∀ k, 0 ≤ k → node s1 k = if decide (k = cwd s) then xc else node s k) as Hn1
    by (intros k Hk; by apply node_with_node).
  destruct (allocate_inode_spec s1 num Hok1 Hn Hfree) as (m & -> & Hok2 & Hm). rewrite bind_Ok.
  rewrite Hn1, decide_False by (done || lia). change (time_hash s1) with (time_hash s).
  set (x1 := node s num <| hash := time_hash s |>).
  assert (inode_ok x1) as Hx1 by (apply hash_inode_ok; [by apply node_ok|apply time_hash_ok..]).
  set (s2 := with_node (s1 <| inode_bit_map := m |>) num x1).
  assert (fs_ok s2) as Hok3 by (by apply with_node_ok). rewrite Hcn.
  destruct (add_dentry_spec _ _ (nm ++ 0 :: rest) (Dentry dir num nm) Hch) as (b1 & Hb1 & Hholds);
    [apply name_entry_ok; [done|done|by apply inode_word]|by apply string_at_app, Hnm|done|].
  cbn [d_inode d_type] in Hb1. rewrite Hb1, bind_Ok. pose proof (ho_block _ _ Hholds) as Hbl.
  rewrite write_block_spec, bind_Ok by (done || by apply node_direct). rewrite Hcblk.
  set (s3 := s2 <| disk ::= _ |>).
  assert (fs_ok s3) as Hok4 by (by apply (fs_ok_disk s2)).
  change (block_bit_map s3) with (block_bit_map s). rewrite Hblk, bind_Ok.
  destruct (allocate_data_block_spec s3 b Hok4 Hb Hbfree) as (mb & -> & Hok5 & Hmb).
  rewrite bind_Ok. cbn [negb]. set (s4 := s3 <| block_bit_map := mb |>) in *.
  change (cwd s4) with (cwd s).
  destruct (init_dentries_spec junk2 num (cwd s) Hl2) as (nb & -> & Hnb);
    [by apply inode_word..|]. rewrite bind_Ok.
  pose proof (ho_block _ _ Hnb) as Hnbl.
  assert (∀ k, 0 ≤ k → node s4 k =
    if decide (k = num) then x1 else if decide (k = cwd s) then xc else node s k) as Hn4.
  { intros k Hk. transitivity (node s2 k); [done|]. unfold s2.
    rewrite (node_with_node (s1 <| inode_bit_map := m |>) num x1 k Hok2 Hn Hk).
    case_decide; [done|]. by apply Hn1. }
  rewrite upd_node_spec, bind_Ok by done. rewrite Hn4, decide_True, new_dir_addr by (done || lia).
  change (with_node s4 num _) with (with_node s4 num (new_dir x1 b)).
  pose proof (new_dir_ok x1 b Hx1 Hb) as Hx2.
  set (s5 := with_node s4 num (new_dir x1 b)).
  assert (fs_ok s5) as Hok6 by (by apply with_node_ok).
  assert (∀ k, 0 ≤ k → node s5 k =
    if decide (k = num) then new_dir x1 b else if decide (k = cwd s) then xc else node s k) as Hn5.
  { intros k Hk. unfold s5. rewrite (node_with_node s4 num _ k Hok5 Hn Hk).
    case_decide; [done|]. by rewrite Hn4, decide_False by (done || lia). }
  rewrite get_node_spec, bind_Ok by done. rewrite Hn5, decide_True by (done || lia).
  rewrite write_block_spec, bind_Ok;
    [|intros Hd; pose proof (io_direct _ Hx2) as Hx; by rewrite Hd in Hx|done].
  assert (nth 0 (direct (new_dir x1 b)) 0 = block_addr b) as ->.
  { change (direct (new_dir x1 b)) with (<[0%nat := block_addr b]> (direct x1)).
    rewrite nth_lookup, list_lookup_insert_eq by (rewrite (io_direct _ Hx1); lia). done. }
  set (s6 := s5 <| disk ::= _ |>).
  assert (disk s6 = sdwrite (sdwrite (disk s) (block_addr (blk (cwd s))) b1) (block_addr b) nb)
    as Hdisk by done.
  assert (∀ k, node s6 k = node s5 k) as Hn6 by done.
  exists s6. split; [done|]. split; [split|split_and!].
  - by apply (fs_ok_disk s5).
  - intros j Hj. by apply Hm.
  - intros j Hj Hb'. change (block_bit_map s6) with mb. rewrite Hmb by done.
    change (block_bit_map s3) with (block_bit_map s). rewrite Hb'. by destruct (j =? b).
  - intros k Hk Hk1 Hk2. by rewrite Hn6, Hn5, !decide_False by done.
  - by rewrite Hn6, Hn5, decide_False, decide_True by (done || lia).
  - by rewrite Hn6, Hn5, decide_False, decide_True by (done || lia).
  - rewrite Hdisk, sdread_write_ne.
    + rewrite <- Hbl, sdread_write_eq. done.
    + rewrite Hnbl. pose proof (block_addr_ne b (blk (cwd s)) Hbne). lia.
  - intros j Hj Hjne Hjb. assert (j ≠ b) as Hjb' by (intros ->; congruence).
    rewrite Hdisk, !sdread_write_ne; [done|rewrite Hbl|rewrite Hnbl].
    + pose proof (block_addr_ne j (blk (cwd s)) Hjne). lia.
    + pose proof (block_addr_ne j b Hjb'). lia.
  - done.
  - split; [|done]. by rewrite Hn6, Hn5, decide_False, decide_True by (done || lia).
  - done.
  - intros o n Ho. rewrite Hdisk, !sdread_write_ne; [done|left..]; unfold block_addr; flia.
  - by rewrite Hn6, Hn5, decide_True by (done || lia).
  - intros j Hj. change (block_bit_map s6) with mb. by apply Hmb.
  - rewrite Hdisk, <- Hnbl, sdread_write_eq. done.
Qed.

(** The map after [do_mkdir]. *)
Definition mkdir_map (T : gmap Z (list dentry)) (c num : Z) (es : list dentry) (nm : bytes) :
    gmap Z (list dentry) :=
  <[num := dots num c]> (<[c := es ++ [Dentry dir num nm]]> T).

Lemma mkdir_map_cases T c num es nm k es' :
  num ≠ c → mkdir_map T c num es nm !! k = Some es' →
  (k = num ∧ es' = dots num c) ∨ (k ≠ num ∧ <[c := es ++ [Dentry dir num nm]]> T !! k = Some es').
Proof.
  intros Hne. unfold mkdir_map. destruct (decide (k = num)) as [->|].
  - rewrite lookup_insert_eq. intros [= <-]. by left.
  - rewrite lookup_insert_ne by done. by right.
Qed.

Lemma mkdir_map_some T c num es nm j :
  num ≠ c → is_Some (T !! j) ∨ j = num → is_Some (mkdir_map T c num es nm !! j).
Proof.
  intros Hne. unfold mkdir_map. destruct (decide (j = num)) as [->|]; [by rewrite lookup_insert_eq|].
  rewrite lookup_insert_ne by done. destruct (decide (j = c)) as [->|]; [by rewrite lookup_insert_eq|].
  rewrite lookup_insert_ne by done. naive_solver.
Qed.

(** The directories after both changes. *)
Lemma mkdir_inv s T blk nm num b es s' :
  fs_inv s T blk → T !! cwd s = Some es → 0 ≤ num < INODE_MAX_NUMBER →
  bit (inode_bit_map s) num = false → bit (block_bit_map s) b = false →
  entry_added s (cwd s) num es (Dentry dir num nm) (blk (cwd s)) s' →
  saved s' → inode_dirty s' = replicate 256 0 → dir_at s' num b (dots num (cwd s)) →
  fs_inv s' (mkdir_map T (cwd s) num es nm) (λ k, if decide (k = num) then b else blk k).
Proof.
  intros Hinv Hc Hn Hfree Hbfree Ha Hsaved Hclean Hnew.
  pose proof (fi_dirs _ _ _ Hinv _ _ Hc) as Hdc. pose proof (di_node _ _ _ (da_dir _ _ _ _ Hdc)) as Hcr.
  assert (num ≠ cwd s) as Hne by (intros ->; by rewrite (da_used _ _ _ _ Hdc) in Hfree).
  pose proof (ea_cwd _ _ _ _ _ _ _ Ha) as [Hcwd Hroot].
  assert (∀ j, 0 ≤ j → bit (inode_bit_map s) j = true → bit (inode_bit_map s') j = true) as Hgrow.
  { intros j Hj Hb'. rewrite (ea_map _ _ _ _ _ _ _ Ha) by done. by destruct (j =? num). }
  assert (bit (inode_bit_map s') num = true) as Hused.
  { rewrite (ea_map _ _ _ _ _ _ _ Ha) by lia. by rewrite Z.eqb_refl. }
  pose proof (entry_added_dirs s T blk num es _ s' Hinv Hc Hfree Ha) as Hdirs.
  assert (∀ k es', <[cwd s := es ++ [Dentry dir num nm]]> T !! k = Some es' → is_Some (T !! k)) as Hold.
  { intros k es' Hk. destruct (decide (k = cwd s)) as [->|]; [by exists es|].
    rewrite lookup_insert_ne in Hk by done. by exists es'. }
  assert (∀ k, is_Some (T !! k) → blk k ≠ b) as Hbn.
  { intros k [x Hx] He. pose proof (da_alloc _ _ _ _ (fi_dirs _ _ _ Hinv _ _ Hx)). congruence. }
  split; [apply Ha|done|done| | | | |].
  - intros k es' [[-> ->]|[Hk Hk']]%mkdir_map_cases; [by rewrite decide_True| |done].
    rewrite decide_False by done. by apply Hdirs.
  - intros k k' es1 es2 [[-> ->]|[Hk Hk1]]%mkdir_map_cases [[-> ->]|[Hk' Hk2]]%mkdir_map_cases;
      try done.
    + rewrite decide_True, decide_False by done. intros He. by destruct (Hbn k' (Hold _ _ Hk2)).
    + rewrite decide_False, decide_True by done. intros He. by destruct (Hbn k (Hold _ _ Hk1)).
    + rewrite !decide_False by done.
      destruct (Hold _ _ Hk1) as [x1 Hx1], (Hold _ _ Hk2) as [x2 Hx2].
      by apply (fi_blocks _ _ _ Hinv _ _ _ _ Hx1 Hx2).
  - intros k es' [[-> ->]|[Hk Hk1]]%mkdir_map_cases; [| |done].
    + split; [by exists (cwd s), []|]. intros e He. unfold dots in He.
      rewrite !elem_of_cons, elem_of_nil in He. destruct He as [->|[->|[]]]; cbn [d_inode d_type].
      * split_and!; [lia|lia|done|]. intros _. apply mkdir_map_some; [done|by right].
      * split_and!; [lia|lia|apply Hgrow; [lia|by apply Hdc]|].
        intros _. apply mkdir_map_some; [done|left; by exists es].
    + destruct (decide (k = cwd s)) as [->|].
      * rewrite lookup_insert_eq in Hk1. injection Hk1 as <-.
        apply entries_ok_snoc; [|done|done|].
        { apply (entries_ok_grow s s' T); [by apply (fi_entries _ _ _ Hinv)|done|].
          intros j Hj. apply mkdir_map_some; [done|by left]. }
        intros _. apply mkdir_map_some; [done|by right].
      * rewrite lookup_insert_ne in Hk1 by done.
        apply (entries_ok_grow s s' T); [by apply (fi_entries _ _ _ Hinv)|done|].
        intros j Hj. apply mkdir_map_some; [done|by left].
  - split; [rewrite Hroot; apply (fi_root _ _ _ Hinv)|].
    apply mkdir_map_some; [done|]. left. apply (fi_root _ _ _ Hinv).
  - rewrite Hcwd. apply mkdir_map_some; [done|]. left. by exists es.
Qed.

Lemma mkdir_spec s T blk nm rest junk1 junk2 num b es :
  fs_inv s T blk → T !! cwd s = Some es → name_ok nm →
  DENTRY_SIZE * (Z.of_nat (length es) + 1) ≤ BLOCK_SIZE →
  Z.of_nat (length junk1) = BLOCK_SIZE → Z.of_nat (length junk2) = BLOCK_SIZE →
  find_first_zero_bit (inode_bit_map s) INODE_BIT_MAP_SIZE = Ok num →
  find_first_zero_bit (block_bit_map s) DATA_BLOCK_BIT_MAP_SIZE = Ok b →
  ∃ s', do_mkdir s (Some (nm ++ 0 :: rest)) junk1 junk2 = Ok s' ∧
    fs_inv s' (mkdir_map T (cwd s) num es nm) (λ k, if decide (k = num) then b else blk k) ∧
    T !! num = None ∧ cwd s' = cwd s ∧
    type (node s' num) = dir ∧ link_cnt (node s' num) = 1 ∧
    (∀ k, 0 ≤ k → k ≠ num → k ≠ cwd s → node s' k = node s k) ∧
    (type (node s' (cwd s)) = type (node s (cwd s)) ∧ cwd_str s' = cwd_str s ∧ fd s' = fd s) ∧
    (∀ j, 0 ≤ j → bit (inode_bit_map s') j = if j =? num then true else bit (inode_bit_map s) j) ∧
    ∀ j, 0 ≤ j → bit (block_bit_map s') j = if j =? b then true else bit (block_bit_map s) j.
Proof.
  intros Hinv Hc Hnm Hle Hl1 Hl2 Hnum Hblk. pose proof (fi_ok _ _ _ Hinv) as Hok.
  destruct (first_free_inode s num Hok Hnum) as [Hn Hfree].
  destruct (first_free_block s b Hok Hblk) as [Hb Hbfree].
  destruct (mkdir_prepares s T blk nm rest junk1 junk2 num b es)
    as (s6 & Hrun & Ha & Hdirty & Hlow & Hnn & Hbits & Hnb); [done..|].
  assert (bit (block_bit_map s6) b = true) as Hbit by (rewrite Hbits by lia; by rewrite Z.eqb_refl).
  pose proof (fi_dirs _ _ _ Hinv _ _ Hc) as Hdc. pose proof (di_node _ _ _ (da_dir _ _ _ _ Hdc)) as Hcr.
  assert (num ≠ cwd s) as Hne by (intros ->; by rewrite (da_used _ _ _ _ Hdc) in Hfree).
  pose proof (ea_cwd _ _ _ _ _ _ _ Ha) as [Hcwd _].
  set (t := <[Z.to_nat (num / 32) := 1]> (<[Z.to_nat (cwd s / 32) := 1]> (inode_dirty s6))).
  pose proof (ok_dirty _ (ea_ok _ _ _ _ _ _ _ Ha)) as Hdl.
  assert (super_saved (s6 <| inode_dirty := t |>) ∧ clean_saved (s6 <| inode_dirty := t |>))
    as [Hss Hcs].
  { apply (clean_saved_upd s (s6 <| inode_dirty := t |>)); [apply Hinv|done|].
    intros k Hk Hd. change (inode_dirty (s6 <| inode_dirty := t |>)) with t in Hd. unfold t in Hd.
    assert (0 ≤ cwd s / 32 < 256 ∧ 0 ≤ num / 32 < 256) as [Hr1 Hr2]
      by (split; split; first [apply Z.div_pos; lia|apply Z.div_lt_upper_bound; flia]).
    apply nth_dirty in Hd as [Hd1 Hd]; [|rewrite length_insert; lia].
    apply nth_dirty in Hd as [Hd2 _]; [|lia].
    apply (ea_node _ _ _ _ _ _ _ Ha); [lia|by intros ->..]. }
  destruct (sync_marked s6 t) as (d1 & d & Hub & Hui & Hsaved & Hd);
    [apply Ha|by unfold t; rewrite !length_insert|exact Hss|done|].
  assert (fs_ok (s6 <| disk := d1 |>)) as Hok1 by (apply fs_ok_disk, Ha).
  rewrite Hrun, Hub, bind_Ok. change (cwd (s6 <| disk := d1 |>)) with (cwd s6). rewrite Hcwd.
  destruct (mark_inode_dirty_spec _ _ Hok1 Hcr) as [-> Hok2]. rewrite bind_Ok.
  destruct (mark_inode_dirty_spec _ _ Hok2 Hn) as [-> Hok3]. rewrite bind_Ok.
  eexists. split; [exact Hui|]. clear Hok1 Hok2 Hok3 Hui Hub.
  apply (entry_added_final _ _ _ _ _ _ _ d) in Ha; [|apply Hdc|done].
  set (s' := s6 <| disk := d |> <| inode_dirty := replicate 256 0 |>) in *.
  change (node s6 num) with (node s' num) in Hnn.
  assert (bit (inode_bit_map s') num = true) as Hused
    by (rewrite (ea_map _ _ _ _ _ _ _ Ha) by lia; by rewrite Z.eqb_refl).
  assert (dir_at s' num b (dots num (cwd s))) as Hnew.
  { assert (nth 0 (direct (node s' num)) 0 = block_addr b) as Hdirect.
    { rewrite Hnn. change (direct (new_dir ?x b)) with (<[0%nat := block_addr b]> (direct x)).
      rewrite nth_lookup, list_lookup_insert_eq; [done|].
      pose proof (io_direct _ (node_ok s num Hok)) as Hdl'. simpl. lia. }
    split; [split|done|done|done|done]; [done|by rewrite Hnn|].
    unfold first_block. rewrite Hdirect.
    change (disk s') with d. rewrite Hd; [exact Hnb|]. unfold block_addr. flia. }
  assert (T !! num = None) as HTn.
  { destruct (T !! num) as [es'|] eqn:E; [|done].
    pose proof (da_used _ _ _ _ (fi_dirs _ _ _ Hinv _ _ E)). congruence. }
  split; [by apply mkdir_inv|].
  split_and!; [done|done|by rewrite Hnn|by rewrite Hnn|apply Ha..|exact Hbits].
Qed.

(** C9.  Creating a directory: [do_mkdir] takes the first free inode and the
    first free data block, initialises the block with the entries "." and ".."
    (the new directory and the current one) and appends an entry for it to the
    current directory.  The invariant holds for the map with both changes, so
    that the tree stays a tree, no two directories share a block, and memory and
    disk agree; all other inodes are untouched. *)
Theorem mkdir_correct s T blk nm rest junk1 junk2 num b es :
  fs_inv s T blk → T !! cwd s = Some es → name_ok nm →
  DENTRY_SIZE * (Z.of_nat (length es) + 1) ≤ BLOCK_SIZE →
  Z.of_nat (length junk1) = BLOCK_SIZE → Z.of_nat (length junk2) = BLOCK_SIZE →
  find_first_zero_bit (inode_bit_map s) INODE_BIT_MAP_SIZE = Ok num →
  find_first_zero_bit (block_bit_map s) DATA_BLOCK_BIT_MAP_SIZE = Ok b →
  ∃ s', do_mkdir s (Some (nm ++ 0 :: rest)) junk1 junk2 = Ok s' ∧
    fs_inv s' (mkdir_map T (cwd s) num es nm) (λ k, if decide (k = num) then b else blk k) ∧
    T !! num = None ∧ cwd s' = cwd s ∧
    type (node s' num) = dir ∧ link_cnt (node s' num) = 1 ∧
    ∀ k, 0 ≤ k → k ≠ num → k ≠ cwd s → node s' k = node s k.
Proof.
  intros. destruct (mkdir_spec s T blk nm rest junk1 junk2 num b es)
    as (s' & E1 & E2 & E3 & E4 & E5 & E6 & E7 & _); [done..|]. by exists s'.
Qed.

(** ** [do_mkfs] *)

Lemma bit_zeros n k : bit (replicate n 0) k = false.
Proof.
  unfold bit. rewrite nth_lookup. destruct (replicate n 0 !! Z.to_nat (k / 8)) as [c|] eqn:Hc.
  - apply lookup_replicate in Hc as [-> _]. apply Z.bits_0.
  - apply Z.bits_0.
Qed.

Lemma first_of_zeros n sz :
  0 < sz → n = Z.to_nat sz → find_first_zero_bit (replicate n 0) sz = Ok 0.
Proof.
  intros Hsz ->. destruct (find_first_zero_bit_spec (replicate (Z.to_nat sz) 0)) as (r & Hr & Hs).
  rewrite length_replicate, Z2Nat.id in * by lia. rewrite Hr. destruct r as [i|].
  - destruct Hs as (Hi & _ & Hj). destruct (decide (i = 0)) as [->|]; [done|].
    specialize (Hj 0 ltac:(lia)). by rewrite bit_zeros in Hj.
  - specialize (Hs 0 ltac:(lia)). by rewrite bit_zeros in Hs.
Qed.

Lemma memset_all (b : bytes) n :
  n = Z.of_nat (length b) → memset b 0 n = Ok (replicate (Z.to_nat n) 0).
Proof.
  intros ->. rewrite memset_spec by lia. f_equal. unfold splice. rewrite length_replicate.
  change (Z.to_nat 0) with 0%nat. rewrite Nat2Z.id, take_0, drop_ge by lia. by rewrite app_nil_r.
Qed.

Lemma do_fs_write_prefix s o buf n :
  0 ≤ n ≤ Z.of_nat (length buf) →
  do_fs_write s o buf n = Ok (s <| disk ::= λ d, sdwrite d o (take (Z.to_nat n) buf) |>).
Proof.
  intros Hn. unfold do_fs_write, slice. rewrite decide_True by lia. by rewrite bind_Ok.
Qed.

(** The sector of the super block. *)
Lemma super_sector junk :
  Z.of_nat (length junk) = BLOCK_SIZE →
  ∃ buf, memcpy junk (encode_super new_super) 36 = Ok buf ∧ Z.of_nat (length buf) = BLOCK_SIZE ∧
    decode_super (take 512 buf) = new_super.
Proof.
  intros Hl. rewrite memcpy_spec by (rewrite ?Hl; simpl; flia). eexists. split; [done|].
  change (take (Z.to_nat 36) (encode_super new_super)) with (encode_super new_super).
  split; [rewrite length_splice; simpl; flia|]. unfold splice. change (Z.to_nat 0) with 0%nat.
  rewrite take_0, app_nil_l, take_app_ge by (simpl; lia).
  apply decode_encode_super. by apply (bool_decide_unpack _).
Qed.

(** The root directory that [do_mkfs] makes of inode 0. *)
Definition root_inode s : inode_t :=
  node s 0 <| hash := time_hash s |> <| entry_num := 2 |> <| link_cnt := 1 |>
    <| direct ::= λ l, <[0%nat := block_addr 0]> l |>.

(** What holds when [do_mkfs] syncs. *)
Lemma mkfs_prepares s junk :
  fs_ok (s <| super_block := new_super |>) → Z.of_nat (length junk) = BLOCK_SIZE →
  ∃ s', do_mkfs s junk =
      (s ← update_bit_map s'; s ← mark_inode_dirty s 0; s ← update_inode s;
       c ← strcpy (cwd_str s) 0 (cstr "/");
       do_print_fs_info (s <| root := 0 |> <| cwd := 0 |> <| cwd_str := c |>)) ∧
    fs_ok s' ∧ super_saved s' ∧ inode_dirty s' = inode_dirty s ∧ cwd_str s' = cwd_str s ∧
    (∀ k, 0 < k → node s' k = node s k) ∧ node s' 0 = root_inode s ∧
    (∀ o n, FS_START + 512 ≤ o → o + n ≤ data_start new_super →
       sdread (disk s') o n = sdread (disk s) o n) ∧
    holds (sdread (disk s') (block_addr 0) BLOCK_SIZE) (dots 0 0) ∧
    ∀ j, 0 ≤ j → bit (inode_bit_map s') j = (j =? 0) ∧ bit (block_bit_map s') j = (j =? 0).
Proof.
  intros Hok Hl. unfold do_mkfs. set (s0 := s <| super_block := new_super |>) in *.
  destruct (super_sector junk Hl) as (buf & Hbuf & Hbl & Hdec).
  change (encode_super (super_block s0)) with (encode_super new_super). rewrite Hbuf, bind_Ok.
  rewrite do_fs_write_prefix, bind_Ok by (rewrite Hbl; flia).
  change (Z.to_nat 512) with 512%nat. cbn [block_bit_map inode_bit_map disk].
  rewrite (memset_all (block_bit_map _)), bind_Ok by (symmetry; apply (ok_block_map _ Hok)).
  rewrite (memset_all (inode_bit_map _)), bind_Ok by (symmetry; apply (ok_inode_map _ Hok)).
  rewrite (memset_all buf), bind_Ok by (by symmetry).
  set (s1 := _ <| inode_bit_map := _ |>).
  change (inode_bit_map s1) with (replicate (Z.to_nat INODE_BIT_MAP_SIZE) 0).
  rewrite first_of_zeros, bind_Ok by (done || flia).
  assert (fs_ok s1) as Hok1.
  { destruct Hok as [E1 E2 E3 E4 E5 E6]. split; [done..| |].
    - change (block_bit_map s1) with (replicate (Z.to_nat DATA_BLOCK_BIT_MAP_SIZE) 0).
      rewrite length_replicate. split; [flia|]. apply Forall_replicate. by unfold is_byte.
    - change (inode_bit_map s1) with (replicate (Z.to_nat INODE_BIT_MAP_SIZE) 0).
      rewrite length_replicate. split; [flia|]. apply Forall_replicate. by unfold is_byte. }
  assert (0 ≤ 0 < INODE_MAX_NUMBER ∧ 0 ≤ 0 < DATA_BLOCK_MAX_NUMBER) as [Hi0 Hb0] by flia.
  destruct (allocate_inode_spec s1 0 Hok1 Hi0 (bit_zeros _ 0)) as (m & -> & Hok2 & Hm).
  rewrite bind_Ok. change (node s1 0) with (node s 0). change (time_hash s1) with (time_hash s).
  set (x1 := node s 0 <| hash := time_hash s |>).
  assert (inode_ok x1) as Hx1.
  { apply hash_inode_ok; [exact (node_ok s0 0 Hok)|apply time_hash_ok..]. }
  destruct (inode_ok_words x1 Hx1) as [(W1 & W2 & W3 & W4 & W5) Wd].
  set (x2 := x1 <| entry_num := 2 |>).
  assert (inode_ok x2) as Hx2
    by (by apply (inode_ok_upd x1 2 (type x1) (size x1) (link_cnt x1) (link_to x1) (direct x1) Hx1);
        [..|apply Hx1]).
  set (x3 := x2 <| link_cnt := 1 |>).
  assert (inode_ok x3) as Hx3
    by (by apply (inode_ok_upd x1 2 (type x1) (size x1) 1 (link_to x1) (direct x1) Hx1);
        [..|apply Hx1]).
  rewrite upd_node_again, bind_Ok by done. fold x2.
  rewrite upd_node_again, bind_Ok by done. fold x3.
  pose proof (with_node_ok _ 0 _ Hok2 Hx3) as Hok3. set (s2 := with_node _ 0 x3) in *.
  change (block_bit_map s2) with (replicate (Z.to_nat DATA_BLOCK_BIT_MAP_SIZE) 0).
  rewrite first_of_zeros, bind_Ok by (done || flia).
  destruct (allocate_data_block_spec s2 0 Hok3 Hb0 (bit_zeros _ 0)) as (mb & -> & Hok4 & Hmb).
  rewrite bind_Ok. set (s3 := s2 <| block_bit_map := mb |>) in *.
  rewrite upd_node_spec, bind_Ok by done.
  assert (node s3 0 = x3) as Hn3 by (exact (node_with_node_eq _ 0 x3 Hok2 Hi0)). rewrite Hn3.
  change (get_data_block_offset s3 0) with (block_addr 0).
  set (x4 := x3 <| direct ::= _ |>).
  assert (inode_ok x4) as Hx4.
  { apply (inode_ok_upd x1 2 (type x1) (size x1) 1 (link_to x1)
      (<[0%nat := block_addr 0]> (direct x1)) Hx1); [done..| |].
    - by apply Forall_insert.
    - rewrite length_insert. apply Hx1. }
  pose proof (with_node_ok _ 0 _ Hok4 Hx4) as Hok5. set (s4 := with_node s3 0 x4) in *.
  cbn [negb].
  destruct (init_dentries_spec (replicate (Z.to_nat BLOCK_SIZE) 0) 0 0) as (nb & -> & Hnb);
    [by rewrite length_replicate; flia|done..|]. rewrite bind_Ok.
  pose proof (ho_block _ _ Hnb) as Hnbl.
  assert (node s4 0 = x4) as Hn0 by (exact (node_with_node_eq s3 0 x4 Hok4 Hi0)).
  rewrite get_node_spec, bind_Ok by done. rewrite Hn0.
  rewrite write_block_spec, bind_Ok;
    [|intros Hd; pose proof (io_direct _ Hx4) as Hx; by rewrite Hd in Hx|done].
  assert (nth 0 (direct x4) 0 = block_addr 0) as ->.
  { change (direct x4) with (<[0%nat := block_addr 0]> (direct x1)).
    rewrite nth_lookup, list_lookup_insert_eq by (rewrite (io_direct _ Hx1); lia). done. }
  set (s5 := s4 <| disk ::= _ |>).
  assert (disk s5 = sdwrite (sdwrite (disk s) FS_START (take 512 buf)) (block_addr 0) nb) as Hdisk by done.
  assert (Z.of_nat (length (take 512 buf)) = 512) as Htl by (rewrite length_take; flia).
  exists s5. split; [done|]. split_and!; [by apply (fs_ok_disk s4)| |done|done| |done| | |].
  - unfold super_saved. rewrite Hdisk, sdread_write_ne by (left; unfold block_addr; simpl; flia).
    rewrite <- Htl, sdread_write_eq. exact Hdec.
  - intros k Hk. change (node s5 k) with (node s4 k). unfold s4.
    rewrite node_with_node, decide_False by (done || lia). change (node s3 k) with (node s2 k).
    unfold s2. rewrite node_with_node, decide_False by (done || lia). done.
  - intros o n Ho1 Ho2. rewrite Hdisk, !sdread_write_ne; [done|rewrite Htl; lia|].
    left. unfold block_addr. flia.
  - rewrite Hdisk, <- Hnbl, sdread_write_eq. done.
  - intros j Hj. change (bit m j = (j =? 0) ∧ bit mb j = (j =? 0)).
    rewrite Hm, Hmb by done. change (block_bit_map s2) with (replicate (Z.to_nat DATA_BLOCK_BIT_MAP_SIZE) 0).
    change (inode_bit_map s1) with (replicate (Z.to_nat INODE_BIT_MAP_SIZE) 0).
    rewrite !bit_zeros. by destruct (j =? 0).
Qed.

Lemma fs_inv_out s s' T blk : same_but_out s s' → fs_inv s T blk → fs_inv s' T blk.
Proof.
  intros [l ->] [[F1 F2 F3 F4 F5 F6] [G1 G2 G3 G4] E3 E4 E5 E6 E7 E8].
  split; [by split|by split|done| |done|done|done|done].
  intros k es Hk. by apply (dir_at_keep s); [apply E4|..].
Qed.

Lemma same_but_out_printks s s' fmt args : same_but_out s s' → same_but_out s (printks s' fmt args).
Proof.
  intros [l ->]. exists (l ++ [Printks fmt args]). destruct s. unfold printks, update, upd_out. cbn.
  by rewrite <- (assoc_L (++)).
Qed.

Lemma print_fs_info_spec s :
  super_saved s → ∃ s', do_print_fs_info s = Ok s' ∧ same_but_out s s'.
Proof.
  intros Hs. unfold do_print_fs_info.
  rewrite do_fs_read_spec, bind_Ok by (done || by rewrite length_replicate).
  change (disk (print s _)) with (disk s). unfold super_saved in Hs. rewrite Hs.
  change (magic new_super =? MAGIC_NUMER) with true. cbn [negb]. eexists. split; [done|].
  unfold print. repeat apply same_but_out_printks. apply same_but_out_refl.
Qed.

Lemma mkfs_spec s junk :
  fs_ok (s <| super_block := new_super |>) → Z.of_nat (length junk) = BLOCK_SIZE →
  (2 ≤ length (cwd_str s))%nat →
  (∀ k, 32 ≤ k < INODE_MAX_NUMBER → nth (Z.to_nat (k / 32)) (inode_dirty s) 0 = 0 →
     inode_saved s k) →
  ∃ s', do_mkfs s junk = Ok s' ∧ fs_inv s' {[ 0 := dots 0 0 ]} (λ _, 0) ∧
    cwd s' = 0 ∧ super_block s' = new_super ∧
    (∀ j, 0 ≤ j → bit (inode_bit_map s') j = (j =? 0) ∧ bit (block_bit_map s') j = (j =? 0)) ∧
    cwd_str s' = splice (cwd_str s) 0 (cstr "/") ∧ type (node s' 0) = type (node s 0).
Proof.
  intros Hok Hl Hcl Hclean.
  destruct (mkfs_prepares s junk Hok Hl)
    as (s5 & -> & Hok5 & Hss & Hdirty & Hcs & Hn & Hn0 & Hlow & Hh & Hbits).
  assert (0 ≤ 0 < INODE_MAX_NUMBER) as Hi0 by flia.
  set (t := <[Z.to_nat (0 / 32) := 1]> (inode_dirty s5)).
  pose proof (ok_dirty _ Hok5) as Hdl.
  destruct (sync_marked s5 t) as (d1 & d & -> & Hui & Hsaved & Hd);
    [done|by unfold t; rewrite length_insert|done| |].
  { intros k Hk Hd. apply nth_dirty in Hd as [Hd1 Hd]; [|change (Z.to_nat (0 / 32)) with 0%nat; lia].
    assert (32 ≤ k) as Hk32 by (destruct (Z.lt_ge_cases k 32); [|done];
      by rewrite (Z.div_small k 32) in Hd1 by lia).
    unfold inode_saved. change (disk (s5 <| inode_dirty := t |>)) with (disk s5).
    change (node (s5 <| inode_dirty := t |>) k) with (node s5 k).
    rewrite Hlow; [|unfold inode_offset; simpl; flia..]. rewrite Hn by lia.
    apply Hclean; [lia|]. by rewrite <- Hdirty. }
  rewrite bind_Ok. assert (fs_ok (s5 <| disk := d1 |>)) as Hok6 by (by apply fs_ok_disk).
  destruct (mark_inode_dirty_spec _ 0 Hok6 Hi0) as [-> _]. rewrite bind_Ok.
  change (s5 <| disk := d1 |> <| inode_dirty := _ |>)
    with (s5 <| disk := d1 |> <| inode_dirty := t |>). rewrite Hui, bind_Ok.
  set (s6 := s5 <| disk := d |> <| inode_dirty := replicate 256 0 |>) in *.
  change (cwd_str s6) with (cwd_str s5).
  rewrite Hcs, (strcpy_string _ 0 _ (str "/")), bind_Ok;
    [|by apply (string_at_app _ []); vm_compute; set_solver|lia|simpl; lia].
  set (s7 := s6 <| root := 0 |> <| cwd := 0 |> <| cwd_str := _ |>).
  destruct (print_fs_info_spec s7 (sv_super _ Hsaved)) as (s8 & Hp & Hs8).
  exists s8. split; [done|].
  assert (fs_inv s7 {[0 := dots 0 0]} (λ _, 0)) as Hinv.
  { assert (fs_ok s6) as Hok7 by (destruct Hok5 as [E1 E2 E3 E4 E5 E6]; by split).
    assert (is_Some (({[0 := dots 0 0]} : gmap Z (list dentry)) !! 0)) as H0
      by (by rewrite lookup_singleton_eq).
    assert (direct (node s7 0) = <[0%nat := block_addr 0]> (direct (node s 0))) as Hdir
      by (change (node s7 0) with (node s5 0); by rewrite Hn0).
    assert (nth 0 (direct (node s7 0)) 0 = block_addr 0) as Hdir0.
    { rewrite Hdir, nth_lookup, list_lookup_insert_eq; [done|].
      pose proof (io_direct _ (node_ok _ 0 Hok)) as Hx. change (length (direct (node s 0)) = 16%nat) in Hx.
      lia. }
    destruct (Hbits 0 ltac:(lia)) as [Hi Hb].
    split; [by destruct Hok7|by destruct Hsaved|done| | | |by split|done].
    - intros k es [<- <-]%lookup_singleton_Some. split; [split|done..]; [done| |].
      + change (node s7 0) with (node s5 0). by rewrite Hn0.
      + unfold first_block. rewrite Hdir0. change (disk s7) with d.
        rewrite Hd; [exact Hh|]. unfold block_addr. flia.
    - by intros k k' es es' [<- <-]%lookup_singleton_Some [<- <-]%lookup_singleton_Some.
    - intros k es [<- <-]%lookup_singleton_Some. split; [by exists 0, []|].
      intros e He. unfold dots in He. rewrite !elem_of_cons, elem_of_nil in He.
      by destruct He as [->|[->|[]]]. }
  split; [by apply (fs_inv_out s7)|]. destruct Hs8 as [l ->]. split; [done|]. split; [apply Hok5|].
  split; [exact Hbits|]. split; [done|]. change (type (node s5 0) = type (node s 0)). by rewrite Hn0.
Qed.

(** Making a file system: [do_mkfs] leaves the super block of the layout
    on the disk, empty bit maps except for inode 0 and block 0, and the root
    directory with its entries "." and "..", both the root itself; it is the
    current directory, and memory and disk agree.  The inodes outside the first
    block are not written, so they have to agree before. *)
Theorem mkfs_correct s junk :
  fs_ok (s <| super_block := new_super |>) → Z.of_nat (length junk) = BLOCK_SIZE →
  (2 ≤ length (cwd_str s))%nat →
  (∀ k, 32 ≤ k < INODE_MAX_NUMBER → nth (Z.to_nat (k / 32)) (inode_dirty s) 0 = 0 →
     inode_saved s k) →
  ∃ s', do_mkfs s junk = Ok s' ∧ fs_inv s' {[ 0 := dots 0 0 ]} (λ _, 0) ∧
    cwd s' = 0 ∧ super_block s' = new_super ∧
    ∀ j, 0 ≤ j → bit (inode_bit_map s') j = (j =? 0) ∧ bit (block_bit_map s') j = (j =? 0).
Proof.
  intros. destruct (mkfs_spec s junk)
    as (s' & E1 & E2 & E3 & E4 & E5 & _); [done..|]. by exists s'.
Qed.

(** ** Mounting again *)

Lemma remount_spec s T blk s0 junk :
  fs_inv s T blk → inode_dirty s0 = replicate 256 0 →
  length (nodes s0) = length (nodes s) →
  Z.of_nat (length (inode_bit_map s0)) = INODE_BIT_MAP_SIZE →
  Z.of_nat (length (block_bit_map s0)) = DATA_BLOCK_BIT_MAP_SIZE →
  (2 ≤ length (cwd_str s0))%nat →
  ∃ s', mount_fs (s0 <| disk := disk s |>) junk = Ok s' ∧ fs_inv s' T blk ∧
    nodes s' = nodes s ∧ inode_bit_map s' = inode_bit_map s ∧
    block_bit_map s' = block_bit_map s ∧ disk s' = disk s ∧ cwd s' = 0.
Proof.
  intros Hinv Hdirty Hn Hi Hb Hc. pose proof (fi_ok _ _ _ Hinv) as Hok.
  destruct (mount_spec s (s0 <| disk := disk s |>) junk Hok (fi_saved _ _ _ Hinv))
    as (s' & Hm & E1 & E2 & E3 & E4 & E5 & E6 & E7 & E8); [done..|].
  exists s'. split; [done|]. split; [|split_and!; done].
  assert (∀ k, node s' k = node s k) as Hnode by (intros k; unfold node; by rewrite E1).
  split.
  - destruct Hok as [F1 F2 F3 F4 F5 F6].
    split; [by rewrite E1|by rewrite E1| |by rewrite E4|by rewrite E3|by rewrite E2].
    rewrite E8. change (Z.of_nat (length (inode_dirty s0)) = 256). by rewrite Hdirty.
  - destruct (fi_saved _ _ _ Hinv) as [G1 G2 G3 G4].
    split; [by unfold super_saved; rewrite E5|by rewrite E5, E2|by rewrite E5, E3|].
    intros k Hk. unfold inode_saved. rewrite E5, Hnode. by apply G4.
  - by rewrite E8.
  - intros k es Hk. apply (dir_at_keep s); [by apply Hinv|done|by rewrite E2|by rewrite E3|].
    by rewrite E5.
  - apply Hinv.
  - intros k es Hk. apply (entries_ok_grow s s' T T); [by apply Hinv|by rewrite E2|done].
  - split; [done|]. apply (fi_root _ _ _ Hinv).
  - rewrite E7. apply (fi_root _ _ _ Hinv).
Qed.

(** C15.  A reboot keeps the file system: from a state that satisfies the
    invariant, mounting its disk in any other memory gives back the inodes, the
    bit maps and the super block, with the root as current directory, and the
    invariant holds for the same directories.  Since [do_mkfs], [do_mkdir] and
    [do_touch] establish the invariant, what they did survives. *)
Theorem remount_keeps_tree s T blk s0 junk :
  fs_inv s T blk → inode_dirty s0 = replicate 256 0 →
  length (nodes s0) = length (nodes s) →
  Z.of_nat (length (inode_bit_map s0)) = INODE_BIT_MAP_SIZE →
  Z.of_nat (length (block_bit_map s0)) = DATA_BLOCK_BIT_MAP_SIZE →
  (2 ≤ length (cwd_str s0))%nat →
  ∃ s', mount_fs (s0 <| disk := disk s |>) junk = Ok s' ∧ fs_inv s' T blk ∧
    nodes s' = nodes s ∧ inode_bit_map s' = inode_bit_map s ∧
    block_bit_map s' = block_bit_map s ∧ disk s' = disk s ∧ cwd s' = 0.
Proof. apply remount_spec. Qed.
End ops.

(** ** A new file system *)

(** The memory at boot, with an empty disk. *)
Definition boot_fs : fs memdisk :=
  Fs memdisk (λ _, 0) (fill DATA_BLOCK_BIT_MAP_SIZE 0) (fill INODE_BIT_MAP_SIZE 0)
    (fill INODE_MAX_NUMBER zero_inode) (fill 256 0) 0 0 (fill 240 0)
    (SuperBlock 0 0 0 0 0 0 0 0 0) [FileDesc 0 None 0] 100 [].

Lemma boot_ok : fs_ok (boot_fs <| super_block := new_super |>).
Proof.
  split; unfold boot_fs, update, upd_super_block;
    cbn [nodes inode_dirty super_block block_bit_map inode_bit_map].
  - by apply length_fill.
  - apply Forall_fill, zero_inode_ok.
  - by apply length_fill.
  - done.
  - split; [by apply length_fill|apply fill_bytes].
  - split; [by apply length_fill|apply fill_bytes].
Qed.

Lemma node_boot k : node boot_fs k = zero_inode.
Proof.
  unfold node, boot_fs. cbn [nodes]. rewrite nth_lookup.
  destruct (fill INODE_MAX_NUMBER zero_inode !! Z.to_nat k) as [x|] eqn:Hx; [|done].
  unfold fill in Hx. apply lookup_replicate in Hx as [-> _]. done.
Qed.

Lemma boot_saved k : inode_saved boot_fs k.
Proof.
  unfold inode_saved. rewrite node_boot. unfold boot_fs. cbn [disk].
  apply list_eq. intros i. rewrite sdread_lookup. case_decide as Hi.
  - assert (encode_inode zero_inode = replicate 128 0) as -> by reflexivity.
    rewrite lookup_replicate_2 by lia. done.
  - rewrite lookup_ge_None_2; [done|]. rewrite encode_inode_length by apply zero_inode_ok. lia.
Qed.

Lemma first_after_zero (m : bytes) sz :
  (∀ j, 0 ≤ j → bit m j = (j =? 0)) → Z.of_nat (length m) = sz → 0 < sz →
  find_first_zero_bit m sz = Ok 1.
Proof.
  intros Hb <- Hsz. destruct (find_first_zero_bit_spec m) as (r & -> & Hr). destruct r as [i|].
  - destruct Hr as (Hi & Hf & Hj). rewrite Hb in Hf by lia. f_equal.
    destruct (decide (i = 1)); [done|]. destruct (Z.eqb_spec i 0); [done|].
    specialize (Hj 1 ltac:(lia)). by rewrite Hb in Hj by lia.
  - specialize (Hr 1 ltac:(lia)). by rewrite Hb in Hr by lia.
Qed.

(** A file system that was just made. *)
Lemma made_fs :
  ∃ s : fs memdisk, fs_inv s {[ 0 := dots 0 0 ]} (λ _, 0) ∧ cwd s = 0 ∧
    find_first_zero_bit (inode_bit_map s) INODE_BIT_MAP_SIZE = Ok 1 ∧
    find_first_zero_bit (block_bit_map s) DATA_BLOCK_BIT_MAP_SIZE = Ok 1.
Proof.
  destruct (mkfs_spec boot_fs (fill BLOCK_SIZE 0)) as (s & _ & Hinv & Hc & _ & Hb & _).
  - apply boot_ok.
  - by apply length_fill.
  - apply Nat2Z.inj_le. unfold boot_fs. cbn [cwd_str]. rewrite length_fill; lia.
  - intros k _ _. apply boot_saved.
  - pose proof (fi_ok _ _ _ Hinv) as Hok. exists s. split; [done|]. split; [done|].
    split; apply first_after_zero; try done; [|apply Hok| |apply Hok]; intros j Hj; by apply Hb.
Qed.

Lemma mkfs_correct_witness :
  fs_ok (boot_fs <| super_block := new_super |>) ∧
  ∃ s', do_mkfs boot_fs (fill BLOCK_SIZE 0) = Ok s' ∧ fs_inv s' {[ 0 := dots 0 0 ]} (λ _, 0).
Proof.
  split; [apply boot_ok|].
  destruct (mkfs_correct boot_fs (fill BLOCK_SIZE 0)) as (s & Hs & Hinv & _).
  - apply boot_ok.
  - by apply length_fill.
  - apply Nat2Z.inj_le. unfold boot_fs. cbn [cwd_str]. rewrite length_fill; lia.
  - intros k _ _. apply boot_saved.
  - exists s. split; [exact Hs|exact Hinv].
Defined.

Lemma small_name nm :
  str nm ≠ [] → bool_decide (0 ∉ str nm) → bool_decide (all_bytes (str nm)) →
  bool_decide (47 ∉ str nm) → Z.of_nat (length (str nm)) < 24 → name_ok (str nm).
Proof.
  intros H0 H1%bool_decide_unpack H2%bool_decide_unpack H3%bool_decide_unpack H4. by split.
Qed.

Lemma touch_correct_witness :
  ∃ s s' : fs memdisk, fs_inv s {[ 0 := dots 0 0 ]} (λ _, 0) ∧
    do_touch s (Some (cstr "f")) (fill BLOCK_SIZE 0) = Ok s' ∧
    fs_inv s' (<[0 := dots 0 0 ++ [Dentry file 1 (str "f")]]> {[ 0 := dots 0 0 ]}) (λ _, 0).
Proof.
  destruct made_fs as (s & Hinv & Hc & Hi & Hb).
  destruct (touch_correct s {[ 0 := dots 0 0 ]} (λ _, 0) (str "f") [] (fill BLOCK_SIZE 0) 1 (dots 0 0))
    as (s' & Hs' & Hinv' & _).
  - exact Hinv.
  - rewrite Hc. apply lookup_singleton_eq.
  - by apply small_name.
  - by apply Z.leb_le.
  - by apply length_fill.
  - exact Hi.
  - exists s, s'. rewrite Hc in Hinv'. split; [exact Hinv|]. split; [exact Hs'|exact Hinv'].
Defined.

Lemma mkdir_correct_witness :
  ∃ s s' : fs memdisk, fs_inv s {[ 0 := dots 0 0 ]} (λ _, 0) ∧
    do_mkdir s (Some (cstr "d")) (fill BLOCK_SIZE 0) (fill BLOCK_SIZE 7) = Ok s' ∧
    fs_inv s' (mkdir_map {[ 0 := dots 0 0 ]} 0 1 (dots 0 0) (str "d"))
      (λ k, if decide (k = 1) then 1 else 0).
Proof.
  destruct made_fs as (s & Hinv & Hc & Hi & Hb).
  destruct (mkdir_correct s {[ 0 := dots 0 0 ]} (λ _, 0) (str "d") [] (fill BLOCK_SIZE 0)
    (fill BLOCK_SIZE 7) 1 1 (dots 0 0)) as (s' & Hs' & Hinv' & _).
  - exact Hinv.
  - rewrite Hc. apply lookup_singleton_eq.
  - by apply small_name.
  - by apply Z.leb_le.
  - by apply length_fill.
  - by apply length_fill.
  - exact Hi.
  - exact Hb.
  - exists s, s'. rewrite Hc in Hinv'. split; [exact Hinv|]. split; [exact Hs'|exact Hinv'].
Defined.

Lemma remount_keeps_tree_witness :
  ∃ s s' : fs memdisk, fs_inv s {[ 0 := dots 0 0 ]} (λ _, 0) ∧
    mount_fs (boot_fs <| disk := disk s |>) (fill BLOCK_SIZE 0) = Ok s' ∧
    fs_inv s' {[ 0 := dots 0 0 ]} (λ _, 0).
Proof.
  destruct made_fs as (s & Hinv & _).
  destruct (remount_keeps_tree s {[ 0 := dots 0 0 ]} (λ _, 0) boot_fs (fill BLOCK_SIZE 0))
    as (s' & Hm & Hinv' & _).
  - exact Hinv.
  - reflexivity.
  - apply Nat2Z.inj. rewrite (ok_nodes _ (fi_ok _ _ _ Hinv)). by apply length_fill.
  - by apply length_fill.
  - by apply length_fill.
  - apply Nat2Z.inj_le. unfold boot_fs. cbn [cwd_str]. rewrite length_fill; lia.
  - exists s, s'. split; [exact Hinv|]. split; [exact Hm|exact Hinv'].
Defined.
