(* ===== verification/FsFiles.v ===== *)
(** * File contents: [do_fwrite], [do_fread], [do_fseek] and [do_resize]

    Writes and reads inside one block do what they should; the ones that reach
    the end of a block never return, and the ones that need a new block mark an
    inode outside the table. *)

From S2P Require Import Prelude CString Printk FsLayout Fs FsDisk FsPath FsOps.

(** ** Copying loops *)

Lemma splice_snoc (dest xs : bytes) (i : nat) r x :
  0 ≤ r → r + Z.of_nat (length xs) ≤ Z.of_nat (length dest) → xs !! i = Some x →
  aset (splice dest r (take i xs)) (Z.of_nat i + r) x = Ok (splice dest r (take (S i) xs)).
Proof.
  intros Hr Hl Hx. pose proof (lookup_lt_Some _ _ _ Hx) as Hi.
  assert (length (take i xs) = i ∧ length (take (S i) xs) = S i) as [L1 L2]
    by (rewrite !length_take; lia).
  rewrite aset_total by (rewrite length_splice by (rewrite ?L1; lia); lia). f_equal.
  apply list_eq. intros j. destruct (decide (j = Z.to_nat (Z.of_nat i + r))) as [->|Hj].
  - rewrite list_lookup_insert_eq by (rewrite length_splice by (rewrite ?L1; lia); lia).
    rewrite lookup_splice, L2, decide_True by (rewrite ?L2; lia).
    rewrite lookup_take_lt by lia. rewrite <- Hx. f_equal. lia.
  - rewrite list_lookup_insert_ne by lia. rewrite !lookup_splice, L1, L2 by (rewrite ?L1, ?L2; lia).
    destruct (decide (r ≤ Z.of_nat j < r + Z.of_nat i)).
    + rewrite decide_True by lia. by rewrite !lookup_take_lt by lia.
    + by rewrite decide_False by lia.
Qed.

(** Copying [xs], which [f] reads one by one, to [dest] at [r]. *)
Lemma copy_loop (f : Z → outcome Z) (dest xs : bytes) r :
  0 ≤ r → r + Z.of_nat (length xs) ≤ Z.of_nat (length dest) →
  (∀ (i : nat) x, xs !! i = Some x → f (Z.of_nat i) = Ok x) →
  for_range 0 (Z.of_nat (length xs)) (λ i w, c ← f i; aset w (i + r) c) dest =
    Ok (splice dest r xs).
Proof.
  intros Hr Hl Hf.
  destruct (for_range_inv (λ i w, w = splice dest r (take (Z.to_nat i) xs)) 0
    (Z.of_nat (length xs)) (λ i w, c ← f i; aset w (i + r) c) dest) as (w & -> & ->).
  - lia.
  - change (Z.to_nat 0) with 0%nat. by rewrite take_0, splice_nil.
  - intros i w Hi ->. destruct (lookup_lt_is_Some_2 xs (Z.to_nat i)) as [x Hx]; [lia|].
    assert (f i = Ok x) as -> by (rewrite <- (Hf _ _ Hx); f_equal; lia). rewrite bind_Ok.
    replace (i + r) with (Z.of_nat (Z.to_nat i) + r) by lia.
    rewrite (splice_snoc _ _ _ _ _ Hr Hl Hx).
    eexists. split; [done|]. do 2 f_equal. lia.
  - by rewrite Nat2Z.id, firstn_all.
Qed.

(** Reading what was written. *)
Lemma splice_read (data buf : bytes) r sz :
  0 ≤ r → r + Z.of_nat (length (take (Z.to_nat sz) buf)) ≤ Z.of_nat (length data) →
  sz ≤ Z.of_nat (length buf) →
  take (Z.to_nat sz) (drop (Z.to_nat r) (splice data r (take (Z.to_nat sz) buf))) =
    take (Z.to_nat sz) buf.
Proof.
  intros Hr Hl Hs. pose proof (slice_splice_eq data r (take (Z.to_nat sz) buf) Hr Hl) as H.
  apply slice_Ok in H as [_ H]. rewrite length_take, Nat2Z.id in H.
  by rewrite Nat.min_l in H by lia.
Qed.

(** ** Inside a block *)

(** The number that is computed from the pointer to an entry of [nodes]. *)
Lemma get_inode_number_of nodes_addr i :
  0 ≤ nodes_addr → 0 ≤ i < INODE_MAX_NUMBER → nodes_addr + INODE_SIZE * INODE_MAX_NUMBER < 2 ^ 32 →
  get_inode_number nodes_addr (nodes_addr + INODE_SIZE * i) = i.
Proof.
  unfold get_inode_number, INODE_SIZE. change INODE_MAX_NUMBER with 8192.
  intros. rewrite (u32_small nodes_addr), (u32_small (nodes_addr + 128 * i)) by lia.
  rewrite u32_small by lia.
  replace (nodes_addr + 128 * i - nodes_addr) with (i * 128) by lia. by rewrite Z.div_mul.
Qed.

Section files.
Context {D : Type} {dev : BlockDev D} {laws : BlockDevLaws D}.
Implicit Types (s : fs D).

(** Descriptor [i] is open on inode [k], and the [sz] bytes at its position are
    inside the allocated block [b]. *)
Record within_block s (i sz k b : Z) (d : file_desc_t) : Prop := {
  wb_fd : aget (fd s) i = Ok d;
  wb_file : ifile d = Some k;
  wb_node : 0 ≤ k < INODE_MAX_NUMBER;
  wb_pos : 0 ≤ pos d < 16 * BLOCK_SIZE ∧ 0 ≤ sz;
  wb_same : pos d / BLOCK_SIZE = (pos d + sz) / BLOCK_SIZE;
  wb_range : 0 ≤ b < DATA_BLOCK_MAX_NUMBER;
  wb_block : aget (direct (node s k)) (pos d / BLOCK_SIZE) = Ok (block_addr b);
}.

Lemma block_part p sz :
  0 ≤ p → 0 ≤ sz → p / BLOCK_SIZE = (p + sz) / BLOCK_SIZE →
  Z.land p (BLOCK_SIZE - 1) = p mod BLOCK_SIZE ∧ p mod BLOCK_SIZE + sz < BLOCK_SIZE.
Proof.
  intros Hp Hsz He. change (BLOCK_SIZE - 1) with (Z.ones 12). rewrite Z.land_ones by lia.
  change (2 ^ 12) with BLOCK_SIZE. split; [done|].
  pose proof (Z_div_mod_eq_full p BLOCK_SIZE). pose proof (Z_div_mod_eq_full (p + sz) BLOCK_SIZE).
  pose proof (Z.mod_pos_bound (p + sz) BLOCK_SIZE ltac:(flia)). flia.
Qed.

Lemma set_fd_spec s i d : 0 ≤ i < Z.of_nat (length (fd s)) →
  set_fd s i d = Ok (s <| fd := <[Z.to_nat i := d]> (fd s) |>).
Proof. intros Hi. unfold set_fd. by rewrite aset_total by done. Qed.

Lemma fs_ok_fd s l : fs_ok s → fs_ok (s <| fd := l |>).
Proof. intros [F1 F2 F3 F4 F5 F6]. by split. Qed.

Lemma read_at s o : do_fs_read s o (replicate (Z.to_nat BLOCK_SIZE) 0) BLOCK_SIZE =
  Ok (sdread (disk s) o BLOCK_SIZE).
Proof. apply do_fs_read_spec; [done|by rewrite length_replicate]. Qed.

(** The part of [do_fread] that copies. *)
Lemma fread_block_spec s i sz k b d buf :
  fs_ok s → within_block s i sz k b d → sz ≤ Z.of_nat (length buf) →
  fread_block s i d buf sz =
    Ok (take (Z.to_nat sz) (drop (Z.to_nat (pos d mod BLOCK_SIZE))
          (sdread (disk s) (block_addr b) BLOCK_SIZE)) ++ drop (Z.to_nat sz) buf,
        s <| fd := <[Z.to_nat i := d <| pos := u32 (pos d + sz) |>]> (fd s) |>).
Proof.
  intros Hok [Hfd Hfile Hk [Hp Hsz] Hsame Hb Hblk] Hl.
  destruct (block_part (pos d) sz) as [Hland Hr]; [lia|done|done|].
  pose proof (Z.mod_pos_bound (pos d) BLOCK_SIZE ltac:(flia)) as Hm.
  unfold fread_block. rewrite Hfile, get_node_spec, bind_Ok by done.
  assert (blk_offset (node s k) (pos d) = Ok (block_addr b)) as ->.
  { unfold blk_offset. by destruct (Z.ltb_spec (pos d) (16 * BLOCK_SIZE)); [|lia]. }
  rewrite bind_Ok, read_at, bind_Ok, Hland.
  set (r := pos d mod BLOCK_SIZE) in *. set (data := sdread (disk s) (block_addr b) BLOCK_SIZE).
  assert (length data = Z.to_nat BLOCK_SIZE) as Hdl by apply sdread_length.
  set (xs := take (Z.to_nat sz) (drop (Z.to_nat r) data)).
  assert (Z.of_nat (length xs) = sz) as Hxl
    by (unfold xs; rewrite length_take, length_drop, Hdl; flia).
  rewrite Z.min_l by lia. rewrite <- Hxl at 1.
  rewrite fill_loop; [|apply Nat2Z.inj_le; lia|].
  - rewrite bind_Ok, set_fd_spec by (by eapply aget_bound). rewrite bind_Ok. do 2 f_equal.
    unfold splice. change (Z.to_nat 0) with 0%nat. rewrite take_0, app_nil_l, Nat.add_0_l.
    by replace (length xs) with (Z.to_nat sz) by lia.
  - intros j x Hx. apply aget_Ok. split; [lia|]. unfold xs in Hx.
    apply lookup_take_Some in Hx as [Hx _]. rewrite lookup_drop in Hx. rewrite <- Hx. f_equal. lia.
Qed.

Lemma set_size_ok x z : inode_ok x → is_word z → inode_ok (x <| size := z |>).
Proof.
  intros Hx Hz. destruct (inode_ok_words x Hx) as [(W1 & W2 & W3 & W4 & W5) Wd].
  by apply (inode_ok_upd x (entry_num x) (type x) z (link_cnt x) (link_to x) (direct x) Hx);
    [..|apply Hx].
Qed.

(** The part of [do_fwrite] that copies. *)
Lemma fwrite_block_spec s i sz k b d buf :
  fs_ok s → within_block s i sz k b d → sz ≤ Z.of_nat (length buf) →
  ∃ s', fwrite_block s i d buf sz false = Ok s' ∧ fs_ok s' ∧
    sdread (disk s') (block_addr b) BLOCK_SIZE =
      splice (sdread (disk s) (block_addr b) BLOCK_SIZE) (pos d mod BLOCK_SIZE)
        (take (Z.to_nat sz) buf) ∧
    (∀ b', 0 ≤ b' → b' ≠ b → sdread (disk s') (block_addr b') BLOCK_SIZE =
       sdread (disk s) (block_addr b') BLOCK_SIZE) ∧
    fd s' = <[Z.to_nat i := d <| pos := u32 (pos d + sz) |>]> (fd s) ∧
    node s' k = node s k <| size := u32 (size (node s k) + sz) |> ∧
    (∀ j, 0 ≤ j → j ≠ k → node s' j = node s j).
Proof.
  intros Hok [Hfd Hfile Hk [Hp Hsz] Hsame Hb Hblk] Hl.
  destruct (block_part (pos d) sz) as [Hland Hr]; [lia|done|done|].
  pose proof (Z.mod_pos_bound (pos d) BLOCK_SIZE ltac:(flia)) as Hm.
  unfold fwrite_block. rewrite Hfile, get_node_spec, bind_Ok by done.
  assert (blk_offset (node s k) (pos d) = Ok (block_addr b)) as ->.
  { unfold blk_offset. by destruct (Z.ltb_spec (pos d) (16 * BLOCK_SIZE)); [|lia]. }
  rewrite bind_Ok, read_at, bind_Ok, Hland.
  set (r := pos d mod BLOCK_SIZE) in *. set (data := sdread (disk s) (block_addr b) BLOCK_SIZE).
  assert (length data = Z.to_nat BLOCK_SIZE) as Hdl by apply sdread_length.
  set (xs := take (Z.to_nat sz) buf).
  assert (Z.of_nat (length xs) = sz) as Hxl by (unfold xs; rewrite length_take; lia).
  pose proof (copy_loop (aget buf) data xs r) as Hcopy. rewrite Hxl in Hcopy.
  rewrite Z.min_l by lia. rewrite Hcopy; [|lia|rewrite Hdl; flia|].
  2:{ intros j x Hx. apply aget_Ok. split; [lia|]. apply lookup_take_Some in Hx as [Hx _].
      by rewrite Nat2Z.id. }
  rewrite bind_Ok, set_fd_spec, bind_Ok by (by eapply aget_bound). cbn [negb].
  set (s1 := s <| fd := _ |>). assert (fs_ok s1) as Hok1 by by apply fs_ok_fd.
  rewrite upd_node_spec, bind_Ok by done. change (node s1 k) with (node s k).
  set (x1 := node s k <| size := u32 (size (node s k) + sz) |>).
  assert (fs_ok (with_node s1 k x1)) as Hok2.
  { apply with_node_ok; [done|]. apply set_size_ok; [by apply node_ok|apply u32_range]. }
  assert (Z.of_nat (length (splice data r xs)) = BLOCK_SIZE) as Hsl
    by (rewrite length_splice; rewrite ?Hdl; flia).
  rewrite do_fs_write_spec, bind_Ok by (by rewrite Hsl). simpl deref. rewrite bind_Ok.
  set (s2 := with_node s1 k x1 <| disk ::= _ |>).
  assert (fs_ok s2) as Hok3 by (by apply fs_ok_disk).
  destruct (mark_inode_dirty_spec s2 k Hok3 Hk) as [-> Hok4]. rewrite bind_Ok.
  destruct (update_bit_map_spec _ Hok4) as (d1 & -> & _ & _ & Hd1). rewrite bind_Ok.
  destruct (update_inode_spec _ (fs_ok_disk _ d1 Hok4)) as (d2 & -> & _ & Hd2).
  eexists. split; [done|].
  assert (∀ b', 0 ≤ b' → sdread d2 (block_addr b') BLOCK_SIZE =
    sdread (disk s2) (block_addr b') BLOCK_SIZE) as Hdd.
  { intros b' Hb'. rewrite Hd2 by (right; unfold block_addr; flia). simpl disk.
    rewrite Hd1 by (right; unfold block_addr; simpl; flia). done. }
  assert (∀ j, 0 ≤ j → node (with_node s1 k x1) j = if decide (j = k) then x1 else node s1 j) as Hnode
    by (intros j Hj; by apply node_with_node).
  split_and!; try done.
  - destruct Hok3 as [F1 F2 F3 F4 F5 F6]. by split.
  - simpl disk. rewrite Hdd by lia. change (disk s2) with
      (sdwrite (disk s) (block_addr b) (splice data r xs)). rewrite <- Hsl. apply sdread_write_eq.
  - intros b' Hb' Hne. simpl disk. rewrite Hdd by lia. change (disk s2) with
      (sdwrite (disk s) (block_addr b) (splice data r xs)). apply sdread_write_ne.
    rewrite Hsl. pose proof (block_addr_ne b' b Hne). lia.
  - change (node (with_node s1 k x1) k = x1). rewrite Hnode by lia. by rewrite decide_True.
  - intros j Hj Hne. change (node (with_node s1 k x1) j = node s j).
    by rewrite Hnode, decide_False by done.
Qed.

(** No new block is needed. *)
Definition no_growth s (k p : Z) : Prop := (blocks_of (size (node s k)) <? blocks_of p) = false.

Lemma do_fwrite_within fuel na s i sz k b d buf :
  fs_ok s → within_block s i sz k b d → no_growth s k (pos d + sz) → sz ≤ BLOCK_SIZE →
  do_fwrite (S fuel) na s i buf sz = fwrite_block s i d buf sz false.
Proof.
  intros Hok [Hfd Hfile Hk [Hp Hsz] Hsame Hb Hblk] Hg Hle. cbn [do_fwrite].
  rewrite Hfd, bind_Ok, Hfile, get_node_spec, bind_Ok by done.
  rewrite (u32_small (pos d + sz)) by flia. unfold no_growth in Hg. rewrite Hg, bind_Ok.
  change (if O_WR =? 0 then 1 else 0) with 0. rewrite Z.land_0_r. cbn [Z.eqb negb].
  destruct (Z.ltb_spec BLOCK_SIZE sz); [lia|].
  destruct (Z.eqb_spec (pos d / BLOCK_SIZE) ((pos d + sz) / BLOCK_SIZE)); [done|lia].
Qed.

Lemma do_fread_within fuel s i sz k b d buf :
  fs_ok s → within_block s i sz k b d → pos d + sz ≤ size (node s k) → sz ≤ BLOCK_SIZE →
  do_fread (S fuel) s i buf sz = fread_block s i d buf sz.
Proof.
  intros Hok [Hfd Hfile Hk [Hp Hsz] Hsame Hb Hblk] Hg Hle. cbn [do_fread].
  rewrite Hfd, bind_Ok, Hfile, get_node_spec, bind_Ok by done.
  rewrite (u32_small (pos d + sz)) by flia.
  destruct (Z.ltb_spec (size (node s k)) (pos d + sz)); [lia|].
  destruct (Z.ltb_spec BLOCK_SIZE sz); [lia|].
  destruct (Z.eqb_spec (pos d / BLOCK_SIZE) ((pos d + sz) / BLOCK_SIZE)); [done|lia].
Qed.

(** C23.  A write inside a block, of a file that does not need a new block, puts
    the bytes at the position of the descriptor and leaves the rest of the block
    and all other blocks alone; seeking back and reading returns them.  The
    position advances; the size grows by the number of bytes whether the write
    was at the end of the file or not. *)
Theorem write_seek_read fuel na s i sz k b d buf rbuf :
  fs_ok s → within_block s i sz k b d → no_growth s k (pos d + sz) →
  sz ≤ Z.of_nat (length buf) → sz ≤ Z.of_nat (length rbuf) →
  pos d ≤ size (node s k) → size (node s k) + sz < 2 ^ 32 →
  ∃ s1 s2 s3, do_fwrite (S fuel) na s i buf sz = Ok s1 ∧
    do_fseek s1 i (pos d) = Ok s2 ∧
    do_fread (S fuel) s2 i rbuf sz =
      Ok (take (Z.to_nat sz) buf ++ drop (Z.to_nat sz) rbuf, s3) ∧
    sdread (disk s3) (block_addr b) BLOCK_SIZE =
      splice (sdread (disk s) (block_addr b) BLOCK_SIZE) (pos d mod BLOCK_SIZE)
        (take (Z.to_nat sz) buf) ∧
    (∀ b', 0 ≤ b' → b' ≠ b → sdread (disk s3) (block_addr b') BLOCK_SIZE =
       sdread (disk s) (block_addr b') BLOCK_SIZE) ∧
    aget (fd s3) i = Ok (d <| pos := pos d + sz |>) ∧
    size (node s3 k) = size (node s k) + sz.
Proof.
  intros Hok Hw Hg Hl Hrl Hps Hsz. pose proof Hw as [Hfd Hfile Hk [Hp Hsz0] Hsame Hb Hblk].
  destruct (block_part (pos d) sz) as [_ Hr]; [lia|done|done|].
  pose proof (Z.mod_pos_bound (pos d) BLOCK_SIZE ltac:(flia)) as Hm.
  assert (sz ≤ BLOCK_SIZE) as Hle by flia.
  rewrite (do_fwrite_within _ _ _ _ _ k b d) by done.
  destruct (fwrite_block_spec s i sz k b d buf) as (s1 & -> & Hok1 & Hblock & Hother & Hfd1 & Hn1 & _);
    [done..|]. pose proof (aget_bound _ _ _ Hfd) as Hi.
  rewrite (u32_small (pos d + sz)) in Hfd1 by flia.
  pose proof (io_words _ (node_ok s k Hok)) as Hwords.
  destruct (inode_ok_words _ (node_ok s k Hok)) as [(_ & _ & [Hs0 _] & _) _].
  rewrite (u32_small (size (node s k) + sz)) in Hn1 by lia.
  assert (aget (fd s1) i = Ok (d <| pos := pos d + sz |>)) as Hfd1'
    by (rewrite Hfd1; by apply aget_insert_eq).
  set (d2 := d <| pos := pos d |>). set (s2 := s1 <| fd := <[Z.to_nat i := d2]> (fd s1) |>).
  assert (do_fseek s1 i (pos d) = Ok s2) as Hseek.
  { unfold do_fseek. rewrite Hfd1', bind_Ok, set_fd_spec by (rewrite Hfd1, length_insert; lia). done. }
  assert (within_block s2 i sz k b d2) as Hw2.
  { split; [|done|done|done|done|done|].
    - simpl. apply aget_insert_eq. rewrite Hfd1, length_insert. lia.
    - change (node s2 k) with (node s1 k). by rewrite Hn1. }
  assert (fs_ok s2) as Hok2 by by apply fs_ok_fd.
  exists s1, s2. eexists. split; [done|]. split; [exact Hseek|].
  rewrite (do_fread_within _ _ _ _ k b d2), (fread_block_spec _ _ _ k b d2);
    [|done..|change (node s2 k) with (node s1 k); rewrite Hn1; simpl; lia|done].
  change (pos d2) with (pos d). change (disk s2) with (disk s1). rewrite Hblock.
  split_and!.
  - do 3 f_equal. apply splice_read; [lia| |done]. rewrite sdread_length, length_take. flia.
  - done.
  - done.
  - simpl. rewrite u32_small by flia. apply aget_insert_eq. rewrite length_insert, Hfd1, length_insert. lia.
  - change (size (node s1 k) = size (node s k) + sz). by rewrite Hn1.
Qed.

(** ** Across the end of a block *)

Lemma first_part p sz :
  0 ≤ p → 0 < sz → p / BLOCK_SIZE ≠ (p + sz) / BLOCK_SIZE →
  let fst_sz := BLOCK_SIZE - Z.land p (BLOCK_SIZE - 1) in
  0 < fst_sz ≤ sz ∧ p / BLOCK_SIZE ≠ (p + fst_sz) / BLOCK_SIZE.
Proof.
  intros Hp Hsz Hne. change (BLOCK_SIZE - 1) with (Z.ones 12). rewrite Z.land_ones by lia.
  change (2 ^ 12) with BLOCK_SIZE. cbv zeta.
  pose proof (Z_div_mod_eq_full p BLOCK_SIZE). pose proof (Z_div_mod_eq_full (p + sz) BLOCK_SIZE).
  pose proof (Z.mod_pos_bound p BLOCK_SIZE ltac:(flia)).
  pose proof (Z.mod_pos_bound (p + sz) BLOCK_SIZE ltac:(flia)).
  assert ((p + (BLOCK_SIZE - p mod BLOCK_SIZE)) / BLOCK_SIZE = p / BLOCK_SIZE + 1) as ->.
  { symmetry. apply (Z.div_unique _ _ _ 0); flia. }
  assert (p / BLOCK_SIZE ≤ (p + sz) / BLOCK_SIZE) by (apply Z.div_le_mono; flia). flia.
Qed.

Lemma whole_block p : 0 ≤ p → p / BLOCK_SIZE ≠ (p + BLOCK_SIZE) / BLOCK_SIZE.
Proof.
  intros Hp. pose proof (Z.div_add p 1 BLOCK_SIZE ltac:(flia)) as H. rewrite Z.mul_1_l in H. lia.
Qed.

Lemma no_growth_less s k p p' :
  no_growth s k p → 0 ≤ p' ≤ p → p + BLOCK_SIZE < 2 ^ 32 → no_growth s k p'.
Proof.
  unfold no_growth, blocks_of. rewrite !Z.ltb_ge. intros Hg Hp Hl. etransitivity; [|done].
  rewrite (u32_small (p + _ - 1)), (u32_small (p' + _ - 1)) by flia. apply Z.div_le_mono; flia.
Qed.

(** Descriptor [i] is open on inode [k], and the bytes reach the next block. *)
Record crossing s (i sz k : Z) (d : file_desc_t) : Prop := {
  cr_fd : aget (fd s) i = Ok d;
  cr_file : ifile d = Some k;
  cr_node : 0 ≤ k < INODE_MAX_NUMBER;
  cr_pos : 0 ≤ pos d ∧ 0 < sz ∧ pos d + sz + BLOCK_SIZE < 2 ^ 32;
  cr_cross : pos d / BLOCK_SIZE ≠ (pos d + sz) / BLOCK_SIZE;
}.

(** The first recursive call is of the same kind. *)
Lemma crossing_again s i sz k d :
  crossing s i sz k d →
  (BLOCK_SIZE < sz → crossing s i (BLOCK_SIZE `min` (sz - 0 * BLOCK_SIZE)) k d) ∧
  (sz ≤ BLOCK_SIZE → let fst_sz := BLOCK_SIZE - Z.land (pos d) (BLOCK_SIZE - 1) in
     crossing s i fst_sz k d ∧ fst_sz ≤ sz).
Proof.
  intros [Hfd Hfile Hk (Hp & Hsz & Hl) Hc]. split; intros Hle.
  - rewrite Z.min_l by lia. split; [done..|split_and!; flia|by apply whole_block].
  - destruct (first_part (pos d) sz Hp Hsz Hc) as [Hf Hne]. split; [|apply Hf].
    split; [done..|split_and!; lia|done].
Qed.

Lemma fread_crossing fuel s i sz k d buf :
  fs_ok s → crossing s i sz k d → pos d + sz ≤ size (node s k) →
  do_fread fuel s i buf sz = OutOfFuel.
Proof.
  intros Hok. revert sz buf. induction fuel as [|fuel IH]; intros sz buf Hc Hs; [done|].
  destruct (crossing_again _ _ _ _ _ Hc) as [Hbig Hsmall].
  destruct Hc as [Hfd Hfile Hk (Hp & Hsz & Hl) Hc]. cbn [do_fread].
  rewrite Hfd, bind_Ok, Hfile, get_node_spec, bind_Ok by done. rewrite u32_small by flia.
  destruct (Z.ltb_spec (size (node s k)) (pos d + sz)); [lia|].
  destruct (Z.ltb_spec BLOCK_SIZE sz) as [Hlt|Hge].
  - rewrite for_range_cons by (apply Z.div_str_pos; flia). cbn [at_offset]. unfold at_offset.
    rewrite IH; [done|by apply Hbig|]. rewrite Z.min_l by lia. lia.
  - destruct (Z.eqb_spec (pos d / BLOCK_SIZE) ((pos d + sz) / BLOCK_SIZE)); [done|]. cbn [negb].
    destruct (Hsmall Hge) as [Hc' Hf]. rewrite IH; [done|done|lia].
Qed.

Lemma fwrite_crossing fuel na s i sz k d buf :
  fs_ok s → crossing s i sz k d → no_growth s k (pos d + sz) →
  do_fwrite fuel na s i buf sz = OutOfFuel.
Proof.
  intros Hok. revert sz buf. induction fuel as [|fuel IH]; intros sz buf Hc Hg; [done|].
  destruct (crossing_again _ _ _ _ _ Hc) as [Hbig Hsmall].
  destruct Hc as [Hfd Hfile Hk (Hp & Hsz & Hl) Hc]. cbn [do_fwrite].
  rewrite Hfd, bind_Ok, Hfile, get_node_spec, bind_Ok by done. rewrite (u32_small (pos d + sz)) by flia.
  pose proof Hg as Hg'. unfold no_growth in Hg'. rewrite Hg', bind_Ok.
  change (if O_WR =? 0 then 1 else 0) with 0. rewrite Z.land_0_r. cbn [Z.eqb negb].
  destruct (Z.ltb_spec BLOCK_SIZE sz) as [Hlt|Hge].
  - rewrite for_range_cons by (apply Z.div_str_pos; flia).
    rewrite IH; [done|by apply Hbig|]. rewrite Z.min_l by lia. eapply no_growth_less; [done|flia|lia].
  - destruct (Z.eqb_spec (pos d / BLOCK_SIZE) ((pos d + sz) / BLOCK_SIZE)); [done|]. cbn [negb].
    destruct (Hsmall Hge) as [Hc' Hf]. rewrite IH; [done|done|].
    eapply no_growth_less; [done| |lia]. pose proof (cr_pos _ _ _ _ _ Hc'). lia.
Qed.

(** C37.  A read or a write that reaches the end of a block never returns: the
    part up to the end of the block is passed to a recursive call, for which
    the position at the end of the bytes is again in the next block, so that it
    calls itself with the same arguments, whatever the depth of the stack.  This
    includes every access to a whole block or more. *)
Theorem block_end_never_returns fuel na s i sz k d buf :
  fs_ok s → crossing s i sz k d →
  (pos d + sz ≤ size (node s k) → do_fread fuel s i buf sz = OutOfFuel) ∧
  (no_growth s k (pos d + sz) → do_fwrite fuel na s i buf sz = OutOfFuel).
Proof.
  intros Hok Hc. split; intros.
  - by apply (fread_crossing fuel s i sz k d).
  - by apply (fwrite_crossing fuel na s i sz k d).
Qed.

(** ** Growing *)

Lemma upd_node_dirty s f g s' : upd_node s f g = Ok s' → inode_dirty s' = inode_dirty s.
Proof. unfold upd_node. intros Hr. outcome_inv Hr. by subst. Qed.

Lemma update_bit_map_dirty s s' : update_bit_map s = Ok s' → inode_dirty s' = inode_dirty s.
Proof.
  unfold update_bit_map, do_fs_write. intros Hr. outcome_inv Hr.
  apply bind_Ok_inv in H as (b & _ & [= <-]). by subst.
Qed.

Lemma resize_round_dirty s k i s' :
  (blk_num ← find_first_zero_bit (block_bit_map s) DATA_BLOCK_BIT_MAP_SIZE;
   '(_, s) ← allocate_data_block s blk_num;
   x ← get_node s (Some k);
   l ← aset (direct x) i (get_data_block_offset s blk_num);
   upd_node s (Some k) (λ x, x <| direct := l |>)) = Ok s' → inode_dirty s' = inode_dirty s.
Proof.
  intros Hr. outcome_inv Hr. destruct a0 as [g s1]. outcome_inv Hr.
  apply upd_node_dirty in Hr as ->. unfold allocate_data_block in H0.
  destruct (DATA_BLOCK_MAX_NUMBER <=? a); [by injection H0 as _ <-|].
  apply bind_Ok_inv in H0 as (o & _ & H0). destruct o; [by injection H0 as _ <-|].
  by apply bind_Ok_inv in H0 as (m & _ & [= _ <-]).
Qed.

(** [do_resize] passes the address of the inode to [mark_inode_dirty],
    which expects its number: with the array of inodes anywhere above the first
    kilobytes of the address space, every resize that needs a new block writes
    outside [inode_dirty], so that no file can grow past its last block with a
    defined result. *)
Theorem growth_out_of_bounds na s k sz :
  fs_ok s → 0 ≤ k < INODE_MAX_NUMBER → INODE_MAX_NUMBER ≤ na →
  na + INODE_SIZE * INODE_MAX_NUMBER < 2 ^ 32 →
  blocks_of (size (node s k)) < blocks_of sz →
  ∀ s', do_resize na s (Some k) sz ≠ Ok s'.
Proof.
  intros Hok Hk Hna Hnb Hg s' Hrun. unfold do_resize in Hrun.
  rewrite get_node_spec, bind_Ok in Hrun by done.
  destruct (Z.ltb_spec (blocks_of (size (node s k))) (blocks_of sz)); [|lia].
  apply bind_Ok_inv in Hrun as (s1 & Hs1 & Hrun). apply bind_Ok_inv in Hrun as (s2 & Hs2 & Hrun).
  apply bind_Ok_inv in Hrun as (s3 & Hs3 & Hrun). simpl in Hrun.
  apply bind_Ok_inv in Hrun as (s4 & Hs4 & _).
  assert (inode_dirty s2 = inode_dirty s) as Hd2.
  { rewrite <- (upd_node_dirty _ _ _ _ Hs1). destruct (blocks_of sz <? 16); [|by injection Hs2 as <-].
    revert Hs2. apply (for_range_keeps (λ _ s', inode_dirty s' = inode_dirty s1)); [lia|done|].
    intros i t t' _ Ht Hr. rewrite <- Ht. by apply (resize_round_dirty t k i). }
  apply update_bit_map_dirty in Hs3. unfold mark_inode_dirty in Hs4.
  apply bind_Ok_inv in Hs4 as (l & Hl & _). apply aset_Ok in Hl as [[_ Hl] _].
  rewrite Hs3, Hd2, (ok_dirty _ Hok), u32_small in Hl by flia.
  change node_num_per_block with 32 in Hl.
  assert (256 ≤ (na + INODE_SIZE * k) / 32) by (apply Z.div_le_lower_bound; flia). lia.
Qed.
End files.

(** ** An open file *)

(** Inode 2 is a file of 5000 bytes in blocks 2 and 3, open at position 100. *)
Definition file_inode : inode_t :=
  zero_inode <| type := file |> <| size := 5000 |> <| link_cnt := 1 |>
    <| direct := block_addr 2 :: block_addr 3 :: replicate 14 0 |>.

Definition open_fs : fs memdisk :=
  Fs memdisk (λ _, 0) (15 :: fill (DATA_BLOCK_BIT_MAP_SIZE - 1) 0)
    (7 :: fill (INODE_BIT_MAP_SIZE - 1) 0)
    (dir_inode 3 0 :: dir_inode 2 1 :: file_inode :: fill (INODE_MAX_NUMBER - 3) zero_inode)
    (fill 256 0) 0 0 (str "/" ++ fill 239 0) new_super [FileDesc 100 (Some 2) 3] 100 [].

Lemma open_ok : fs_ok open_fs.
Proof.
  split; unfold open_fs; cbn [nodes inode_dirty super_block block_bit_map inode_bit_map].
  - rewrite !length_cons, !Nat2Z.inj_succ, length_fill by flia. flia.
  - do 2 (constructor; [apply dir_inode_ok; flia|]). constructor; [|apply Forall_fill, zero_inode_ok].
    split; [by apply (bool_decide_unpack _)|done|split; [done|by apply (bool_decide_unpack _)]..].
  - by apply length_fill.
  - done.
  - rewrite length_cons, Nat2Z.inj_succ, length_fill by flia. split; [flia|].
    constructor; [done|apply fill_bytes].
  - rewrite length_cons, Nat2Z.inj_succ, length_fill by flia. split; [flia|].
    constructor; [done|apply fill_bytes].
Qed.

Lemma open_within : within_block open_fs 0 5 2 2 (FileDesc 100 (Some 2) 3).
Proof. by split. Qed.

Lemma open_crossing : crossing open_fs 0 4096 2 (FileDesc 100 (Some 2) 3).
Proof. by split. Qed.

Lemma write_seek_read_witness :
  within_block open_fs 0 5 2 2 (FileDesc 100 (Some 2) 3) ∧
  ∃ s1 s2 s3, do_fwrite 1 0 open_fs 0 (str "hello") 5 = Ok s1 ∧ do_fseek s1 0 100 = Ok s2 ∧
    do_fread 1 s2 0 (replicate 8 7) 5 = Ok (str "hello" ++ [7; 7; 7], s3).
Proof.
  split; [apply open_within|].
  destruct (write_seek_read 0 0 open_fs 0 5 2 2 (FileDesc 100 (Some 2) 3) (str "hello")
    (replicate 8 7)) as (s1 & s2 & s3 & H1 & H2 & H3 & _); [apply open_ok|apply open_within|..].
  - reflexivity.
  - by apply Z.leb_le.
  - by apply Z.leb_le.
  - by apply Z.leb_le.
  - by apply Z.ltb_lt.
  - exists s1, s2, s3. split; [exact H1|]. split; [exact H2|exact H3].
Defined.

Lemma block_end_never_returns_witness :
  crossing open_fs 0 4096 2 (FileDesc 100 (Some 2) 3) ∧
  (∀ fuel, do_fread fuel open_fs 0 (replicate 4096 0) 4096 = OutOfFuel).
Proof.
  split; [apply open_crossing|]. intros fuel.
  apply (block_end_never_returns fuel 0 open_fs 0 4096 2 (FileDesc 100 (Some 2) 3));
    [apply open_ok|apply open_crossing|by apply Z.leb_le].
Defined.

Lemma growth_out_of_bounds_witness :
  fs_ok open_fs ∧ (∀ s', do_resize 0xa0900000 open_fs (Some 2) 9000 ≠ Ok s').
Proof.
  split; [apply open_ok|].
  apply (growth_out_of_bounds 0xa0900000 open_fs 2 9000);
    [apply open_ok|flia|flia|flia|by apply Z.ltb_lt].
Defined.
