(* ===== verification/FsRemove.v ===== *)
(** * Removing: [do_rm], [rm_recurse] and [free_inode]

    An empty directory is removed from the current one: its entry disappears,
    its inode and its block become free.  The file case clears bits outside the
    block bit map, and a path of two components is taken for a name. *)

From S2P Require Import Prelude CString Printk FsLayout Fs FsDisk FsPath FsOps.

(** ** Entries as chunks of 32 bytes *)

Definition chunk (b : bytes) (j : nat) : bytes := take 32 (drop (32 * j) b).

Lemma chunk_length b j :
  (32 * (j + 1) ≤ length b)%nat → length (chunk b j) = 32%nat.
Proof. intros. unfold chunk. rewrite length_take, length_drop. lia. Qed.

(** A part of an entry only depends on its chunk. *)
Lemma chunk_part (b : bytes) (j o n : nat) :
  (o + n ≤ 32)%nat → take n (drop (32 * j + o) b) = take n (drop o (chunk b j)).
Proof.
  intros. unfold chunk. rewrite <- drop_drop. generalize (drop (32 * j) b) as c. intros c.
  rewrite !take_drop_commute, take_take. do 2 f_equal. lia.
Qed.

Lemma get32_chunk b b' (i j o : nat) :
  chunk b' i = chunk b j → (o + 4 ≤ 32)%nat →
  (32 * (i + 1) ≤ length b')%nat → (32 * (j + 1) ≤ length b)%nat →
  get32 b' (DENTRY_SIZE * Z.of_nat i + Z.of_nat o) = get32 b (DENTRY_SIZE * Z.of_nat j + Z.of_nat o).
Proof.
  intros Hc Ho Hi Hj. unfold get32, slice. rewrite !decide_True by flia.
  rewrite !bind_Ok. do 2 f_equal. unfold DENTRY_SIZE.
  replace (Z.to_nat (32 * Z.of_nat i + Z.of_nat o)) with (32 * i + o)%nat by lia.
  replace (Z.to_nat (32 * Z.of_nat j + Z.of_nat o)) with (32 * j + o)%nat by lia.
  change (Z.to_nat 4) with 4%nat. by rewrite !chunk_part, Hc by done.
Qed.

(** A block whose chunks are those of [b], in another place. *)
Lemma holds_chunks b es b' es' :
  holds b es → Z.of_nat (length b') = BLOCK_SIZE →
  DENTRY_SIZE * Z.of_nat (length es') ≤ BLOCK_SIZE →
  (∀ (i : nat) e, es' !! i = Some e → ∃ j, es !! j = Some e ∧ chunk b' i = chunk b j) →
  holds b' es'.
Proof.
  intros [Hb Hes Ht Hi Hn Hok] Hb' Hes' Hc.
  assert (∀ (i : nat) e, es' !! i = Some e → ∃ j, es !! j = Some e ∧ chunk b' i = chunk b j ∧
    (32 * (i + 1) ≤ length b')%nat ∧ (32 * (j + 1) ≤ length b)%nat) as Hall.
  { intros i e He. destruct (Hc i e He) as (j & Hj & Hch). exists j. split; [done|]. split; [done|].
    apply lookup_lt_Some in He, Hj. unfold BLOCK_SIZE, DENTRY_SIZE in *. lia. }
  split; [done|done| | | |].
  - intros i e He. destruct (Hall i e He) as (j & Hj & Hch & L1 & L2).
    rewrite <- (Ht j e Hj). rewrite <- (Z.add_0_r (DENTRY_SIZE * Z.of_nat i)).
    rewrite <- (Z.add_0_r (DENTRY_SIZE * Z.of_nat j)). by apply (get32_chunk b b' i j 0); [|lia|..].
  - intros i e He. destruct (Hall i e He) as (j & Hj & Hch & L1 & L2).
    rewrite <- (Hi j e Hj). by apply (get32_chunk b b' i j 4); [|lia|..].
  - intros i e He. destruct (Hall i e He) as (j & Hj & Hch & L1 & L2).
    pose proof (eo_length _ (Forall_lookup_1 _ _ _ _ Hok Hj)) as Hl.
    apply (string_at_prefix _ _ _ 24 (Hn j e Hj)); [|unfold MAX_NAME_LEN in Hl; lia].
    unfold DENTRY_SIZE.
    replace (Z.to_nat (32 * Z.of_nat i + 8)) with (32 * i + 8)%nat by lia.
    replace (Z.to_nat (32 * Z.of_nat j + 8)) with (32 * j + 8)%nat by lia.
    by rewrite !chunk_part, Hch by lia.
  - apply Forall_lookup. intros i e He. destruct (Hall i e He) as (j & Hj & _).
    by eapply Forall_lookup_1.
Qed.

Lemma shift_dentry_spec b (i : nat) :
  (1 ≤ i)%nat → (32 * (i + 1) ≤ length b)%nat →
  ∃ b', shift_dentry (Z.of_nat i) b = Ok b' ∧ length b' = length b ∧
    ∀ j, (32 * (j + 1) ≤ length b)%nat → chunk b' j = if decide (j = i - 1)%nat then chunk b i else chunk b j.
Proof.
  intros Hi Hl. unfold shift_dentry, slice. rewrite decide_True by flia. rewrite bind_Ok.
  unfold DENTRY_SIZE. replace (Z.to_nat (32 * Z.of_nat i)) with (32 * i)%nat by lia.
  change (take (Z.to_nat 32) (drop (32 * i) b)) with (chunk b i).
  pose proof (chunk_length b i Hl) as Hcl.
  assert (put b (32 * (Z.of_nat i - 1)) (chunk b i) =
    Ok (splice b (32 * (Z.of_nat i - 1)) (chunk b i))) as Hp.
  { apply put_Ok. split_and!; [lia|rewrite Hcl; lia|done]. }
  eexists. split; [exact Hp|]. split; [by eapply put_length|]. intros j Hj. case_decide as He.
  - subst j. pose proof (put_slice_eq _ _ _ _ Hp) as Hs. apply slice_Ok in Hs as [_ Hs].
    rewrite Hcl in Hs. symmetry. etransitivity; [exact Hs|].
    replace (Z.to_nat (32 * (Z.of_nat i - 1))) with (32 * (i - 1))%nat by lia. done.
  - assert (slice (splice b (32 * (Z.of_nat i - 1)) (chunk b i)) (32 * Z.of_nat j) 32 =
      slice b (32 * Z.of_nat j) 32) as Hs.
    { apply (put_slice_ne _ _ _ _ _ _ Hp). rewrite Hcl. lia. }
    unfold slice in Hs. rewrite (put_length _ _ _ _ Hp), !decide_True in Hs by lia.
    apply (inj Ok) in Hs. replace (Z.to_nat (32 * Z.of_nat j)) with (32 * j)%nat in Hs by lia. exact Hs.
Qed.

(** The loop of [do_rm] that closes the gap. *)
Lemma shift_entries b es (th : nat) :
  holds b es → (th < length es)%nat →
  ∃ b', for_range (Z.of_nat th + 1) (Z.of_nat (length es)) shift_dentry b = Ok b' ∧
    holds b' (take th es ++ drop (S th) es).
Proof.
  intros Hb Hth. pose proof (ho_block _ _ Hb) as Hl. pose proof (ho_entries _ _ Hb) as He.
  unfold BLOCK_SIZE, DENTRY_SIZE in *.
  destruct (for_range_inv (λ i w, length w = length b ∧
    ∀ j, (j < length es)%nat → chunk w j =
      if decide (Z.of_nat th ≤ Z.of_nat j < i - 1) then chunk b (S j) else chunk b j)
    (Z.of_nat th + 1) (Z.of_nat (length es)) shift_dentry b) as (b' & -> & Hl' & Hc).
  - lia.
  - split; [done|]. intros j Hj. by rewrite decide_False by lia.
  - intros i w Hi [Hw Hc]. rewrite <- (Z2Nat.id i) by lia. set (n := Z.to_nat i) in *.
    destruct (shift_dentry_spec w n) as (w' & -> & Hw' & Hc'); [lia|lia|].
    exists w'. split; [done|]. split; [lia|]. intros j Hj. rewrite Hc' by lia. case_decide.
    + rewrite decide_True by lia. rewrite Hc by lia. rewrite decide_False by lia. f_equal. lia.
    + rewrite Hc by lia. destruct (decide (Z.of_nat th ≤ Z.of_nat j < i - 1)).
      * by rewrite decide_True by lia.
      * by rewrite decide_False by lia.
  - exists b'. split; [done|]. apply (holds_chunks b es); [done|unfold BLOCK_SIZE; lia| |].
    + unfold BLOCK_SIZE, DENTRY_SIZE. rewrite length_app, length_take, length_drop. lia.
    + intros i e Hi. apply lookup_app_Some in Hi as [Hi|[Hge Hi]].
      * apply lookup_take_Some in Hi as [Hi Hlt]. exists i. split; [done|].
        rewrite Hc by lia. by rewrite decide_False by lia.
      * rewrite length_take in Hge, Hi. rewrite lookup_drop in Hi.
        exists (S i). replace (S th + (i - th `min` length es))%nat with (S i) in Hi by lia.
        split; [done|]. apply lookup_lt_Some in Hi. rewrite Hc by lia. by rewrite decide_True by lia.
Qed.

(** ** Freeing *)

Section remove.
Context {D : Type} {dev : BlockDev D} {laws : BlockDevLaws D}.
Implicit Types (s : fs D).

Definition freed (x : inode_t) : inode_t :=
  x <| entry_num := 0 |> <| size := 0 |> <| link_cnt := 0 |> <| type := notype |>
    <| indirect := 0 |> <| double_indrect := 0 |> <| triple_indrect := 0 |>
    <| direct := replicate 16 0 |> <| hash := replicate 16 0 |>.

Lemma freed_ok x : inode_ok x → inode_ok (freed x).
Proof.
  intros Hx. destruct (inode_ok_words x Hx) as [(_ & _ & _ & _ & W) _]. destruct Hx as [_ _ Ho _].
  split; [|done|done|split; [done|apply (Forall_replicate is_byte); by unfold is_byte]].
  change (inode_words (freed x)) with ([0; 0; 0; 0; link_to x] ++ replicate 19 0).
  apply Forall_app. split; [|apply Forall_replicate; by unfold is_word].
  do 4 (apply Forall_cons; split; [done|]). apply Forall_cons. by split; [exact W|].
Qed.

Lemma fs_ok_inode_map s m :
  fs_ok s → length m = length (inode_bit_map s) → all_bytes m → fs_ok (s <| inode_bit_map := m |>).
Proof.
  intros [F1 F2 F3 F4 F5 F6] Hl Hb. split; simpl; [done..|]. rewrite Hl. split; [apply F6|done].
Qed.

Lemma fs_ok_block_map s m :
  fs_ok s → length m = length (block_bit_map s) → all_bytes m → fs_ok (s <| block_bit_map := m |>).
Proof.
  intros [F1 F2 F3 F4 F5 F6] Hl Hb. split; simpl; [done..| |done]. rewrite Hl. split; [apply F5|done].
Qed.

Lemma free_inode_spec s k :
  fs_ok s → 0 ≤ k < INODE_MAX_NUMBER →
  ∃ m s', free_inode s (Some k) = Ok s' ∧ fs_ok s' ∧
    s' = with_node (s <| inode_dirty := <[Z.to_nat (k / 32) := 1]> (inode_dirty s) |>) k
           (freed (node s k)) <| inode_bit_map := m |> ∧
    ∀ j, 0 ≤ j → bit m j = if j =? k then false else bit (inode_bit_map s) j.
Proof.
  intros Hok Hk. unfold free_inode. simpl deref. rewrite bind_Ok.
  destruct (mark_inode_dirty_spec s k Hok Hk) as [-> Hok1]. rewrite bind_Ok.
  rewrite upd_node_spec, bind_Ok by done.
  destruct (ok_inode_map _ Hok) as [Hl Hb].
  destruct (clear_bit_spec (inode_bit_map s) k) as (m & Hm & Hml & Hmb & Hbits);
    [rewrite Hl; flia|done|].
  exists m. eexists. split.
  - change (inode_bit_map (with_node _ _ _)) with (inode_bit_map s). rewrite Hm. reflexivity.
  - split; [|done]. apply fs_ok_inode_map; [|done|done].
    apply with_node_ok; [done|]. by apply freed_ok, (node_ok s).
Qed.

Lemma block_number_addr s b :
  fs_ok s → 0 ≤ b < DATA_BLOCK_MAX_NUMBER → get_data_block_number s (block_addr b) = b.
Proof.
  intros Hok Hb. unfold get_data_block_number. rewrite (ok_super _ Hok). unfold block_addr.
  replace (data_start new_super + BLOCK_SIZE * b - data_start new_super) with (b * BLOCK_SIZE) by lia.
  rewrite u32_small by flia. by apply Z.div_mul.
Qed.

Lemma release_block_spec s b :
  fs_ok s → 0 ≤ b < DATA_BLOCK_MAX_NUMBER →
  ∃ m, release_block s (block_addr b) = Ok (s <| block_bit_map := m |>) ∧
    fs_ok (s <| block_bit_map := m |>) ∧
    ∀ j, 0 ≤ j → bit m j = if j =? b then false else bit (block_bit_map s) j.
Proof.
  intros Hok Hb. unfold release_block. rewrite block_number_addr by done.
  destruct (ok_block_map _ Hok) as [Hl Hby].
  destruct (clear_bit_spec (block_bit_map s) b) as (m & -> & Hml & Hmb & Hbits);
    [rewrite Hl; flia|done|].
  rewrite bind_Ok. exists m. split; [done|]. split; [by apply fs_ok_block_map|done].
Qed.

(** A directory without entries of its own. *)
Lemma rm_recurse_empty fuel s k b junk :
  fs_ok s → dir_at s k b (dots k (cwd s)) → type (node s k) = dir → link_cnt (node s k) = 1 →
  Z.of_nat (length junk) = BLOCK_SIZE →
  ∃ s', rm_recurse (S fuel) s (Some k) junk = Ok s' ∧ fs_ok s' ∧ disk s' = disk s ∧
    cwd s' = cwd s ∧ root s' = root s ∧ super_block s' = super_block s ∧
    inode_dirty s' = <[Z.to_nat (k / 32) := 1]> (inode_dirty s) ∧
    (∀ j, 0 ≤ j → j ≠ k → node s' j = node s j) ∧
    (∀ j, 0 ≤ j → bit (inode_bit_map s') j = if j =? k then false else bit (inode_bit_map s) j) ∧
    (∀ j, 0 ≤ j → bit (block_bit_map s') j = if j =? b then false else bit (block_bit_map s) j).
Proof.
  intros Hok [[Hk Hnum Hh] Hu Hb Hblk Ha] Ht Hc Hl. cbn [rm_recurse].
  rewrite upd_node_spec, bind_Ok by done. rewrite Hc. change (u32 (1 - 1)) with 0.
  set (x1 := node s k <| link_cnt := 0 |>).
  assert (inode_ok x1) as Hx1.
  { destruct (inode_ok_words _ (node_ok s k Hok)) as [(W1 & W2 & W3 & W4 & W5) Wd].
    by apply (inode_ok_upd _ (entry_num (node s k)) (type (node s k)) (size (node s k)) 0
      (link_to (node s k)) (direct (node s k)) (node_ok s k Hok)); [..|apply (node_ok s k Hok)]. }
  pose proof (with_node_ok s k x1 Hok Hx1) as Hok1. set (s1 := with_node s k x1) in *.
  assert (node s1 k = x1) as Hn1 by (by apply node_with_node_eq).
  rewrite get_node_spec, bind_Ok by done. rewrite Hn1.
  change (link_cnt x1) with 0. change (type x1) with (type (node s k)). rewrite Ht.
  cbn [Z.ltb Z.compare]. change (dir =? dir) with true. cbv iota.
  assert (direct x1 ≠ []) as Hd1 by (rewrite <- Hn1; by apply node_direct).
  rewrite read_block_spec, bind_Ok by done.
  change (entry_num x1) with (entry_num (node s k)). rewrite Hnum, for_range_nil, bind_Ok by done.
  rewrite get_node_spec, bind_Ok by done. rewrite Hn1, aget_direct0, bind_Ok by done.
  change (direct x1) with (direct (node s k)). rewrite Hblk.
  destruct (release_block_spec s1 b Hok1 Hb) as (mb & -> & Hok2 & Hmb). rewrite bind_Ok.
  destruct (free_inode_spec _ k Hok2 Hk) as (mi & s3 & -> & Hok3 & -> & Hmi).
  eexists. split; [done|]. split; [done|]. split_and!; try done.
  intros j Hj Hjk. change (node (with_node (s1 <| block_bit_map := mb |>) k
    (freed (node (s1 <| block_bit_map := mb |>) k))) j = node s j).
  rewrite node_with_node, decide_False by (done || lia).
  change (node s1 j = node s j). unfold s1. by rewrite node_with_node, decide_False by (done || lia).
Qed.

(** ** Names in the current directory *)

Lemma split_path_single nm : 47 ∉ nm → split_path nm = [nm].
Proof.
  induction nm as [|c nm IH]; intros Hn; [done|]. simpl. rewrite decide_False by set_solver.
  by rewrite IH by set_solver.
Qed.

Lemma count_slashes_none nm rest : 0 ∉ nm → 47 ∉ nm → count_slashes (nm ++ 0 :: rest) = Ok 0.
Proof.
  induction nm as [|c nm IH]; intros Hz Hs; [done|]. simpl.
  destruct (Z.eqb_spec c 0); [set_solver|]. rewrite IH by set_solver. simpl.
  destruct (Z.eqb_spec c 47); [set_solver|done].
Qed.

Lemma name_in_cwd s nm : name_ok nm → path_start s nm = cwd s ∧ path_comps nm = [nm].
Proof.
  intros [Hne _ Hs _]. destruct nm as [|c nm]; [done|]. unfold path_start, path_comps.
  destruct (Z.eqb_spec c 47); [set_solver|]. split; [done|]. by apply split_path_single.
Qed.

(** Looking up an entry that is not a soft link. *)
Lemma parse_entry s nm rest buf es i e :
  fs_ok s → name_ok nm → dir_of s (cwd s) es → lookup_name es nm = Some (i, e) →
  0 ≤ d_inode e < INODE_MAX_NUMBER → type (node s (d_inode e)) ≠ soft_link →
  Z.of_nat (length buf) = BLOCK_SIZE →
  ∃ buf', name_parse s (Some (nm ++ 0 :: rest)) buf = Ok (Some (d_inode e), buf', s) ∧
    Z.of_nat (length buf') = BLOCK_SIZE.
Proof.
  intros Hok Hnm Hd Hl Hi Ht Hb. destruct (name_in_cwd s nm Hnm) as [Hst Hco].
  destruct (name_parse_spec s nm rest buf (Some (d_inode e))) as (buf' & s' & Hp & Hbl & _ & Hq);
    [done|apply Hnm|apply Hnm|pose proof (nk_length _ Hnm); flia| | |done|].
  - rewrite Hst, Hco. by apply (res_last s (cwd s) es nm i e).
  - intros k [= <-]. split; [done|]. intros Hs. by destruct Ht.
  - assert (followed s (Some (d_inode e)) = Some (d_inode e)) as Hf.
    { unfold followed. by destruct (Z.eqb_spec (type (node s (d_inode e))) soft_link). }
    rewrite Hf in Hp, Hq. exists buf'. destruct (Hq eq_refl) as [->|]; done.
Qed.

Lemma rm_parent_cwd s nm rest buf :
  name_ok nm →
  rm_parent s (nm ++ 0 :: rest) buf = Ok (Some (cwd s), nm ++ 0 :: rest, buf, s).
Proof.
  intros [Hne [Hz _] Hs _]. unfold rm_parent. rewrite count_slashes_none, bind_Ok by done.
  destruct nm as [|c nm]; [done|]. change (aget ((c :: nm) ++ 0 :: rest) 0) with (Ok c).
  by rewrite bind_Ok.
Qed.

(** The state in which [do_rm] syncs. *)
Lemma rm_prepares s T blk nm rest junk fuel num es (th : nat) :
  fs_inv s T blk → T !! cwd s = Some es → name_ok nm →
  lookup_name es nm = Some (th, Dentry dir num nm) → (2 ≤ th)%nat → num ≠ cwd s →
  T !! num = Some (dots num (cwd s)) → type (node s num) = dir → link_cnt (node s num) = 1 →
  Z.of_nat (length junk) = BLOCK_SIZE →
  ∃ s', do_rm (S fuel) s (nm ++ 0 :: rest) junk = (s ← update_bit_map s'; update_inode s) ∧
    fs_ok s' ∧ cwd s' = cwd s ∧ root s' = root s ∧
    inode_dirty s' = <[Z.to_nat (num / 32) := 1]> (inode_dirty s) ∧
    (∀ k, 0 ≤ k → k ≠ num → k ≠ cwd s → node s' k = node s k) ∧
    node s' (cwd s) = node s (cwd s) <| entry_num := Z.of_nat (length es) - 1 |> ∧
    (∀ j, 0 ≤ j → bit (inode_bit_map s') j = if j =? num then false else bit (inode_bit_map s) j) ∧
    (∀ j, 0 ≤ j → bit (block_bit_map s') j = if j =? blk num then false else bit (block_bit_map s) j) ∧
    holds (sdread (disk s') (block_addr (blk (cwd s))) BLOCK_SIZE) (take th es ++ drop (S th) es) ∧
    (∀ o n, o + n ≤ block_addr (blk (cwd s)) ∨ block_addr (blk (cwd s)) + BLOCK_SIZE ≤ o →
       sdread (disk s') o n = sdread (disk s) o n).
Proof.
  intros Hinv Hc Hnm Hlook Hth Hne Hnew Ht Hlc Hl. pose proof (fi_ok _ _ _ Hinv) as Hok.
  pose proof (fi_dirs _ _ _ Hinv _ _ Hc) as Hdc. pose proof (fi_dirs _ _ _ Hinv _ _ Hnew) as Hdn.
  pose proof (di_node _ _ _ (da_dir _ _ _ _ Hdn)) as Hn.
  destruct (Hdc) as [[Hcr Hcn Hch] Hcu Hcb Hcblk Hca].
  unfold do_rm. rewrite name_standrize, bind_Ok by done. unfold rm_target.
  destruct (parse_entry s nm rest junk es th _ Hok Hnm (da_dir _ _ _ _ Hdc) Hlook Hn) as (buf & -> & Hbl);
    [cbn [d_inode]; by rewrite Ht|done|]. rewrite !bind_Ok. cbn [d_inode].
  destruct (rm_recurse_empty fuel s num (blk num) junk Hok Hdn Ht Hlc Hl)
    as (s1 & -> & Hok1 & Hd1 & Hc1 & Hr1 & _ & Hdirty1 & Hn1 & Hi1 & Hb1). rewrite bind_Ok.
  rewrite rm_parent_cwd, bind_Ok, Hc1 by done.
  rewrite get_node_spec, bind_Ok by done. rewrite Hn1 by (done || lia).
  rewrite read_block_spec, bind_Ok by (done || by apply node_direct).
  assert (first_block s1 (node s (cwd s)) = first_block s (node s (cwd s))) as ->
    by (unfold first_block; by rewrite Hd1).
  rewrite Hcn.
  assert (find_dentry (first_block s (node s (cwd s))) (nm ++ 0 :: rest) 2 (Z.of_nat (length es)) =
    Ok (Some (Z.of_nat th))) as ->.
  { pose proof Hlook as Hlook'. apply lookup_name_Some in Hlook' as (He & Hen & Hbef).
    pose proof (lookup_lt_Some _ _ _ He). change 2 with (Z.of_nat 2).
    rewrite (find_dentry_spec _ _ Hch 2 _ nm); [|lia|by apply string_at_app, Hnm|apply Hnm].
    assert (lookup_name (drop 2 es) nm = Some ((th - 2)%nat, Dentry dir num nm)) as ->.
    { apply lookup_name_Some. split; [rewrite lookup_drop; rewrite <- He; f_equal; lia|].
      split; [done|]. intros j e' Hj Hlt. rewrite lookup_drop in Hj. eapply Hbef; [exact Hj|lia]. }
    simpl. do 2 f_equal. lia. }
  rewrite bind_Ok. cbn [default from_option id].
  assert (th < length es)%nat as Hthl
    by (apply lookup_name_Some in Hlook as (He & _); by apply lookup_lt_Some in He).
  destruct (shift_entries _ es th Hch Hthl) as (b' & -> & Hh'). rewrite bind_Ok.
  pose proof (ho_block _ _ Hh') as Hbl'. pose proof (ho_entries _ _ Hch) as Hes.
  rewrite upd_node_spec, bind_Ok by done. rewrite Hn1 by (done || lia). rewrite Hcn, u32_small by flia.
  set (xc := node s (cwd s) <| entry_num := Z.of_nat (length es) - 1 |>).
  assert (inode_ok xc) as Hxc.
  { destruct (inode_ok_words _ (node_ok s (cwd s) Hok)) as [(W1 & W2 & W3 & W4 & W5) Wd].
    apply (inode_ok_upd _ (entry_num xc) _ _ _ _ _ (node_ok s (cwd s) Hok));
      [unfold is_word, xc; simpl; flia|done..|apply (io_direct _ (node_ok s (cwd s) Hok))]. }
  pose proof (with_node_ok s1 (cwd s) xc Hok1 Hxc) as Hok2. set (s2 := with_node s1 (cwd s) xc) in *.
  rewrite write_block_spec, bind_Ok by (done || by apply node_direct). rewrite Hcblk.
  set (s3 := s2 <| disk ::= _ |>).
  assert (disk s3 = sdwrite (disk s) (block_addr (blk (cwd s))) b') as Hd3
    by (change (disk s3) with (sdwrite (disk s1) (block_addr (blk (cwd s))) b'); by rewrite Hd1).
  assert (∀ k, 0 ≤ k → node s3 k = if decide (k = cwd s) then xc else node s1 k) as Hn3
    by (intros k Hk; exact (node_with_node s1 (cwd s) xc k Hok1 Hcr Hk)).
  exists s3. split; [done|]. split; [by apply (fs_ok_disk s2)|].
  split_and!; try done.
  - intros k Hk Hk1 Hk2. by rewrite Hn3, decide_False, Hn1 by done.
  - by rewrite Hn3, decide_True by (done || lia).
  - rewrite Hd3, <- Hbl', sdread_write_eq. done.
  - intros o n Ho. rewrite Hd3. apply sdread_write_ne. by rewrite Hbl'.
Qed.

(** Nothing but the entry [th] of the current directory leads to [num]. *)
Definition only_entry s (T : gmap Z (list dentry)) (num : Z) (th : nat) : Prop :=
  ∀ k es i e, T !! k = Some es → es !! i = Some e → d_inode e = num →
    k = num ∨ (k = cwd s ∧ i = th).

(** The directories without [num]. *)
Definition rm_map (T : gmap Z (list dentry)) (c num : Z) (es : list dentry) (th : nat) :
    gmap Z (list dentry) :=
  delete num (<[c := take th es ++ drop (S th) es]> T).

Lemma rm_map_cases T c num es th k es' :
  rm_map T c num es th !! k = Some es' →
  k ≠ num ∧ ((k = c ∧ es' = take th es ++ drop (S th) es) ∨ (k ≠ c ∧ T !! k = Some es')).
Proof.
  unfold rm_map. intros [Hk Hl]%lookup_delete_Some. split; [done|].
  apply lookup_insert_Some in Hl. naive_solver.
Qed.

Lemma rm_map_some T c num es th k :
  is_Some (T !! k) → k ≠ num → is_Some (rm_map T c num es th !! k).
Proof.
  intros Hk Hne. unfold rm_map. rewrite lookup_delete_ne by done.
  destruct (decide (k = c)) as [->|]; [by rewrite lookup_insert_eq|by rewrite lookup_insert_ne].
Qed.

(** Removing an entry of a list. *)
Lemma elem_of_removed {A} (l : list A) (th : nat) x :
  x ∈ take th l ++ drop (S th) l → ∃ i, l !! i = Some x ∧ i ≠ th.
Proof.
  intros [Hx|Hx]%elem_of_app; apply list_elem_of_lookup in Hx as [i Hi].
  - apply lookup_take_Some in Hi as [Hi Hlt]. exists i. split; [done|lia].
  - rewrite lookup_drop in Hi. exists (S th + i)%nat. split; [done|lia].
Qed.

Lemma removed_dots k par es' (th : nat) :
  (2 ≤ th)%nat →
  ∃ es'', take th (Dentry dir k (str ".") :: Dentry dir par (str "..") :: es') ++
    drop (S th) (Dentry dir k (str ".") :: Dentry dir par (str "..") :: es') =
    Dentry dir k (str ".") :: Dentry dir par (str "..") :: es''.
Proof. intros Hth. destruct th as [|[|th]]; [lia|lia|]. simpl. eauto. Qed.

(** The directories after the removal. *)
Lemma rm_inv s T blk num es (th : nat) s' :
  fs_inv s T blk → T !! cwd s = Some es → (2 ≤ th)%nat → num ≠ cwd s → num ≠ 0 →
  is_Some (T !! num) → only_entry s T num th →
  fs_ok s' → saved s' → inode_dirty s' = replicate 256 0 → cwd s' = cwd s → root s' = root s →
  (∀ k, 0 ≤ k → k ≠ num → k ≠ cwd s → node s' k = node s k) →
  node s' (cwd s) = node s (cwd s) <| entry_num := Z.of_nat (length es) - 1 |> →
  (th < length es)%nat →
  (∀ j, 0 ≤ j → bit (inode_bit_map s') j = if j =? num then false else bit (inode_bit_map s) j) →
  (∀ j, 0 ≤ j → bit (block_bit_map s') j = if j =? blk num then false else bit (block_bit_map s) j) →
  holds (sdread (disk s') (block_addr (blk (cwd s))) BLOCK_SIZE) (take th es ++ drop (S th) es) →
  (∀ b, 0 ≤ b → b ≠ blk (cwd s) → sdread (disk s') (block_addr b) BLOCK_SIZE =
     sdread (disk s) (block_addr b) BLOCK_SIZE) →
  fs_inv s' (rm_map T (cwd s) num es th) blk.
Proof.
  intros Hinv Hc Hth Hne Hn0 [esn Hnew] Honly Hok Hsaved Hclean Hcwd Hroot Hnode Hnc Hthl Hi Hb Hh Hd.
  pose proof (fi_dirs _ _ _ Hinv _ _ Hc) as Hdc.
  assert (∀ k es', T !! k = Some es' → k ≠ num → blk k ≠ blk num) as Hbn.
  { intros k es' Hk Hkn He. by apply Hkn, (fi_blocks _ _ _ Hinv _ _ _ _ Hk Hnew). }
  assert (∀ k es' e, T !! k = Some es' → k ≠ num → k ≠ cwd s ∨ (∃ i, es' !! i = Some e ∧ i ≠ th) →
    e ∈ es' → d_inode e ≠ num) as Hother.
  { intros k es' e Hk Hkn Hcase Hin He. destruct Hcase as [Hkc|(i & Hie & Hith)].
    - apply list_elem_of_lookup in Hin as [i Hie].
      destruct (Honly k es' i e Hk Hie He) as [|[]]; done.
    - destruct (Honly k es' i e Hk Hie He) as [|[]]; done. }
  assert (∀ k es' e, T !! k = Some es' → e ∈ es' → d_inode e ≠ num →
    0 ≤ d_inode e < INODE_MAX_NUMBER ∧ bit (inode_bit_map s') (d_inode e) = true ∧
    (d_type e = dir → is_Some (rm_map T (cwd s) num es th !! d_inode e))) as Hent.
  { intros k es' e Hk Hin Hen. destruct (fi_entries _ _ _ Hinv _ _ Hk) as [_ He].
    destruct (He e Hin) as (H1 & H2 & H3). split; [done|]. split.
    - rewrite Hi by lia. by destruct (Z.eqb_spec (d_inode e) num).
    - intros Ht. apply rm_map_some; [by apply H3|done]. }
  split; [done|done|done| | | | |].
  - intros k es' [Hkn [[-> ->]|[Hkc Hk]]]%rm_map_cases.
    + destruct Hdc as [[Hcr Hcn Hch] Hcu Hcb Hcblk Hca]. split; [split|..].
      * done.
      * rewrite Hnc. rewrite length_app, length_take, length_drop. simpl. lia.
      * unfold first_block. rewrite Hnc. cbn. rewrite Hcblk. exact Hh.
      * rewrite Hi by lia. by destruct (Z.eqb_spec (cwd s) num).
      * done.
      * by rewrite Hnc.
      * rewrite Hb by lia. destruct (Z.eqb_spec (blk (cwd s)) (blk num)) as [He|]; [|done].
        by destruct (Hbn _ _ Hc (not_eq_sym Hne)).
    + pose proof (fi_dirs _ _ _ Hinv _ _ Hk) as Hdk.
      pose proof (di_node _ _ _ (da_dir _ _ _ _ Hdk)). pose proof (da_range _ _ _ _ Hdk).
      apply (dir_at_keep s); [done|apply Hnode; [lia|done..]| | |].
      * intros Hu. rewrite Hi by lia. by destruct (Z.eqb_spec k num).
      * intros Hu. rewrite Hb by lia. destruct (Z.eqb_spec (blk k) (blk num)) as [He|]; [|done].
        by destruct (Hbn _ _ Hk Hkn).
      * apply Hd; [lia|]. intros He. by apply Hkc, (fi_blocks _ _ _ Hinv _ _ _ _ Hk Hc).
  - intros k k' es1 es2 H1 H2.
    assert (∀ k es', rm_map T (cwd s) num es th !! k = Some es' → is_Some (T !! k)) as Hold.
    { intros j es' [_ [[-> _]|[_ Hj]]]%rm_map_cases; eauto. }
    destruct (Hold _ _ H1) as [x1 Hx1], (Hold _ _ H2) as [x2 Hx2].
    by apply (fi_blocks _ _ _ Hinv _ _ _ _ Hx1 Hx2).
  - intros k es' [Hkn [[-> ->]|[Hkc Hk]]]%rm_map_cases.
    + split.
      * destruct (fi_entries _ _ _ Hinv _ _ Hc) as [(par & es'' & ->) _].
        exists par. by apply removed_dots.
      * intros e Hin. apply elem_of_removed in Hin as (i & Hie & Hith).
        pose proof (list_elem_of_lookup_2 _ _ _ Hie) as Hin.
        apply (Hent (cwd s) es); [done|done|].
        apply (Hother (cwd s) es); [done|done| |done]. right. by exists i.
    + split; [by apply (fi_entries _ _ _ Hinv _ _ Hk)|]. intros e Hin.
      apply (Hent k es'); [done|done|]. apply (Hother k es'); [done|done|by left|done].
  - split; [rewrite Hroot; apply (fi_root _ _ _ Hinv)|].
    apply rm_map_some; [apply (fi_root _ _ _ Hinv)|done].
  - rewrite Hcwd. apply rm_map_some; [by exists es|done].
Qed.

(** The state with inode [c] written to the disk. *)
Definition store_inode s (c : Z) : fs D :=
  s <| disk := sdwrite (disk s) (inode_offset c) (encode_inode (node s c)) |>.

(** Storing what is missing. *)
Lemma store_inode_saved s c :
  fs_ok s → 0 ≤ c < INODE_MAX_NUMBER → super_saved s →
  sdread (disk s) (ind_bit_map_start new_super) INODE_BIT_MAP_SIZE = inode_bit_map s →
  sdread (disk s) (blk_bit_map_start new_super) DATA_BLOCK_BIT_MAP_SIZE = block_bit_map s →
  (∀ k, 0 ≤ k < INODE_MAX_NUMBER → k ≠ c → inode_saved s k) →
  saved (store_inode s c).
Proof.
  intros Hok Hc Hsup Hi Hb Hn. pose proof (encode_inode_length _ (node_ok s c Hok)) as Hl.
  assert (∀ o n, o + n ≤ inode_offset c ∨ inode_offset c + 128 ≤ o →
    sdread (disk (store_inode s c)) o n = sdread (disk s) o n) as Hother.
  { intros o n Ho. apply sdread_write_ne. by rewrite Hl. }
  split.
  - unfold super_saved. rewrite Hother; [done|]. unfold inode_offset. simpl. flia.
  - rewrite Hother; [done|]. unfold inode_offset. simpl. flia.
  - rewrite Hother; [done|]. unfold inode_offset. simpl. flia.
  - intros k Hk. unfold inode_saved. change (node (store_inode s c) k) with (node s k).
    destruct (decide (k = c)) as [->|Hne].
    + replace 128 with (Z.of_nat (length (encode_inode (node s c)))) by (by rewrite Hl).
      apply sdread_write_eq.
    + rewrite Hother by (unfold inode_offset, INODE_SIZE; lia). by apply Hn.
Qed.

(** Syncing when the inode of [c] may differ from the disk without its block being
    marked. *)
Lemma sync_but s c :
  fs_ok s → super_saved s → 0 ≤ c < INODE_MAX_NUMBER →
  (∀ k, 0 ≤ k < INODE_MAX_NUMBER → k ≠ c → nth (Z.to_nat (k / 32)) (inode_dirty s) 0 = 0 →
     inode_saved s k) →
  ∃ d, let s' := s <| disk := d |> <| inode_dirty := replicate 256 0 |> in
    (s ← update_bit_map s; update_inode s) = Ok s' ∧ saved (store_inode s' c) ∧
    (nth (Z.to_nat (c / 32)) (inode_dirty s) 0 ≠ 0 → saved s') ∧
    (nth (Z.to_nat (c / 32)) (inode_dirty s) 0 = 0 →
       sdread d (inode_offset c) 128 = sdread (disk s) (inode_offset c) 128) ∧
    (∀ o n, data_start new_super ≤ o → sdread d o n = sdread (disk s) o n).
Proof.
  intros Hs Hsuper Hc Hclean. destruct (update_bit_map_spec s Hs) as (d1 & Hub & Hi & Hb & Ho1).
  destruct (update_inode_spec (s <| disk := d1 |>)) as (d & Hui & Hn & Ho); [by apply fs_ok_disk|].
  exists d. cbv zeta. set (s' := s <| disk := d |> <| inode_dirty := replicate 256 0 |>).
  assert (Hok' : fs_ok s') by (destruct Hs; by split).
  assert (Hsup : super_saved s').
  { unfold super_saved. simpl disk. rewrite Ho by (simpl; flia). simpl disk.
    by rewrite Ho1 by (simpl; flia). }
  assert (Him : sdread d (ind_bit_map_start new_super) INODE_BIT_MAP_SIZE = inode_bit_map s).
  { rewrite Ho by (simpl; flia). done. }
  assert (Hbm : sdread d (blk_bit_map_start new_super) DATA_BLOCK_BIT_MAP_SIZE = block_bit_map s).
  { rewrite Ho by (simpl; flia). done. }
  assert (Hw : ∀ k, 0 ≤ k < INODE_MAX_NUMBER → sdread d (inode_offset k) 128 =
    if nth (Z.to_nat (k / 32)) (inode_dirty s) 0 =? 0 then sdread (disk s) (inode_offset k) 128
    else encode_inode (node s k)).
  { intros k Hk. rewrite Hn by done. simpl. destruct (nth _ _ _ =? 0); [|done].
    apply Ho1. unfold inode_offset. simpl. flia. }
  assert (Hrest : ∀ k, 0 ≤ k < INODE_MAX_NUMBER →
    k ≠ c ∨ nth (Z.to_nat (c / 32)) (inode_dirty s) 0 ≠ 0 → inode_saved s' k).
  { intros k Hk Hcase. unfold inode_saved. change (disk s') with d. change (node s' k) with (node s k).
    rewrite Hw by done. destruct (Z.eqb_spec (nth (Z.to_nat (k / 32)) (inode_dirty s) 0) 0); [|done].
    apply Hclean; [done| |done]. intros ->. by destruct Hcase. }
  split_and!.
  - rewrite Hub, bind_Ok. exact Hui.
  - apply store_inode_saved; try done. intros k Hk Hne. apply Hrest; [done|by left].
  - intros Hd. split; try done. intros k Hk. apply Hrest; [done|by right].
  - intros Hd. rewrite Hw by done. by rewrite Hd.
  - intros o n Hon. rewrite Ho by (by right). simpl. apply Ho1. simpl in *. flia.
Qed.

(** C24.  [do_rm] of the name [nm] of an empty directory other than the current
    one and the root, listed in the current directory behind its two first
    entries, with one link and no other entry leading to it: the call succeeds, the
    entry disappears from the current directory and the later ones move up, the
    inode and its block are free again, and the other directories keep their
    entries.  The inode of the current directory, which counts its entries, is not
    marked for writing.  When it is in the same block of the inode table as the
    removed one, it is written with it, so that memory and disk agree and the
    invariant holds for the map without the directory.  Otherwise the disk keeps
    the old inode of the current directory, with one entry too many, and is in all
    other respects the disk of that map: storing this inode restores the
    invariant. *)
Theorem rm_directory_correct s T blk nm rest junk fuel num es (th : nat) :
  fs_inv s T blk → T !! cwd s = Some es → name_ok nm →
  lookup_name es nm = Some (th, Dentry dir num nm) → (2 ≤ th)%nat →
  num ≠ cwd s → num ≠ 0 → T !! num = Some (dots num (cwd s)) → only_entry s T num th →
  type (node s num) = dir → link_cnt (node s num) = 1 →
  Z.of_nat (length junk) = BLOCK_SIZE →
  ∃ s', do_rm (S fuel) s (nm ++ 0 :: rest) junk = Ok s' ∧
    fs_inv (store_inode s' (cwd s)) (rm_map T (cwd s) num es th) blk ∧
    bit (inode_bit_map s') num = false ∧ bit (block_bit_map s') (blk num) = false ∧
    entry_num (node s' (cwd s)) = Z.of_nat (length es) - 1 ∧
    if decide (num / 32 = cwd s / 32) then fs_inv s' (rm_map T (cwd s) num es th) blk
    else ¬ inode_saved s' (cwd s) ∧
      sdread (disk s') (inode_offset (cwd s)) 128 = encode_inode (node s (cwd s)) ∧
      entry_num (node s (cwd s)) = Z.of_nat (length es).
Proof.
  intros Hinv Hc Hnm Hlook Hth Hne Hn0 Hnew Honly Ht Hlc Hl.
  destruct (rm_prepares s T blk nm rest junk fuel num es th)
    as (s3 & Hrun & Hok3 & Hcwd & Hroot & Hdirty & Hnode & Hnc & Hi & Hb & Hh & Hd); [done..|].
  pose proof (fi_ok _ _ _ Hinv) as Hok. pose proof (fi_dirs _ _ _ Hinv _ _ Hc) as Hdc.
  pose proof (fi_dirs _ _ _ Hinv _ _ Hnew) as Hdn. pose proof (di_node _ _ _ (da_dir _ _ _ _ Hdn)) as Hnr.
  pose proof (da_range _ _ _ _ Hdc). pose proof (da_range _ _ _ _ Hdn).
  pose proof (di_node _ _ _ (da_dir _ _ _ _ Hdc)) as Hcr.
  pose proof (di_num _ _ _ (da_dir _ _ _ _ Hdc)) as Hcn.
  assert (Hlow : ∀ o n, o + n ≤ data_start new_super → sdread (disk s3) o n = sdread (disk s) o n).
  { intros o n Ho. apply Hd. left. unfold block_addr. flia. }
  assert (Hg : (Z.to_nat (num / 32) < length (inode_dirty s))%nat).
  { pose proof (ok_dirty _ Hok). assert (num / 32 < 256) by (apply Z.div_lt_upper_bound; flia).
    assert (0 ≤ num / 32) by (apply Z.div_pos; lia). lia. }
  assert (Hcd : nth (Z.to_nat (cwd s / 32)) (inode_dirty s3) 0 ≠ 0 ↔ num / 32 = cwd s / 32).
  { rewrite Hdirty, nth_lookup. assert (0 ≤ num / 32 ∧ 0 ≤ cwd s / 32) by (split; apply Z.div_pos; lia).
    split.
    - intros Hn. destruct (decide (num / 32 = cwd s / 32)); [done|]. destruct Hn.
      rewrite list_lookup_insert_ne by lia. rewrite (fi_clean _ _ _ Hinv).
      destruct (replicate 256 0 !! _) as [v|] eqn:Hv; [|done]. by apply lookup_replicate in Hv as [-> _].
    - intros <-. by rewrite list_lookup_insert_eq. }
  destruct (sync_but s3 (cwd s) Hok3) as (d & Hsync & Hfix & Hsaved & Hstale & Hdata); [|done| |].
  { unfold super_saved. rewrite Hlow by (simpl; flia). apply (fi_saved _ _ _ Hinv). }
  { intros k Hk Hkc Hdk. rewrite Hdirty in Hdk. apply nth_dirty in Hdk as [Hk1 _]; [|done].
    unfold inode_saved. rewrite Hlow, Hnode by (try done; try lia; unfold inode_offset; simpl; flia || by intros ->).
    by apply (sv_inodes _ (fi_saved _ _ _ Hinv)). }
  cbv zeta in *. set (s' := s3 <| disk := d |> <| inode_dirty := replicate 256 0 |>) in *.
  assert (Hok' : fs_ok s') by (destruct Hok3; by split).
  assert (Hth' : (th < length es)%nat).
  { apply lookup_name_Some in Hlook as (He & _). by apply lookup_lt_Some in He. }
  assert (Hblocks : ∀ o, data_start new_super ≤ o →
    sdread (disk (store_inode s' (cwd s))) o BLOCK_SIZE = sdread (disk s') o BLOCK_SIZE).
  { intros o Ho. apply sdread_write_ne. right.
    rewrite (encode_inode_length _ (node_ok s' (cwd s) Hok')). unfold inode_offset. simpl in *. flia. }
  assert (Hall : ∀ f, f = s' ∨ f = store_inode s' (cwd s) → saved f →
    fs_inv f (rm_map T (cwd s) num es th) blk).
  { intros f Hf Hfs. assert (Hrd : ∀ b, 0 ≤ b →
      sdread (disk f) (block_addr b) BLOCK_SIZE = sdread (disk s3) (block_addr b) BLOCK_SIZE).
    { intros b Hb0. destruct Hf as [-> | ->]; [|rewrite Hblocks by (unfold block_addr; flia)];
        apply Hdata; unfold block_addr; flia. }
    assert (Hfo : fs_ok f) by (destruct Hf as [-> | ->]; [done|by apply fs_ok_disk]).
    apply (rm_inv s T blk num es th); try done; try (by destruct Hf as [-> | ->]).
    - rewrite Hrd by lia. exact Hh.
    - intros b Hb0 Hbne. rewrite Hrd by done. apply Hd. pose proof (block_addr_ne b _ Hbne). lia. }
  exists s'. split; [by rewrite Hrun|]. split; [apply Hall; [by right|done]|].
  split; [change (bit (inode_bit_map s3) num = false); by rewrite Hi, Z.eqb_refl by lia|].
  split; [change (bit (block_bit_map s3) (blk num) = false); by rewrite Hb, Z.eqb_refl by lia|].
  assert (Hnew' : node s' (cwd s) = node s (cwd s) <| entry_num := Z.of_nat (length es) - 1 |>) by exact Hnc.
  split; [by rewrite Hnew'|]. case_decide as Hsame.
  - apply Hall; [by left|]. by apply Hsaved, Hcd.
  - assert (Hold : sdread (disk s') (inode_offset (cwd s)) 128 = encode_inode (node s (cwd s))).
    { change (disk s') with d. rewrite Hstale.
      - rewrite Hlow by (unfold inode_offset; simpl; flia). by apply (sv_inodes _ (fi_saved _ _ _ Hinv)).
      - destruct (decide (nth (Z.to_nat (cwd s / 32)) (inode_dirty s3) 0 = 0)); [done|]. by apply Hcd in n. }
    split; [|done]. unfold inode_saved. rewrite Hold. intros He.
    apply (f_equal decode_inode) in He. rewrite !decode_encode_inode in He by (by apply node_ok).
    rewrite Hnew' in He. apply (f_equal entry_num) in He. change (entry_num (node s (cwd s)) = Z.of_nat (length es) - 1) in He. lia.
Qed.

(** ** Files and paths *)

(** Removing a file whose first block was never allocated, as [do_touch]
    leaves it, has no defined result: [rm_recurse] clears the bits of all sixteen
    blocks, and the offset 0 is taken for a block number beyond the end of the
    block bit map. *)
Theorem rm_empty_file_out_of_bounds fuel s k junk :
  fs_ok s → 0 ≤ k < INODE_MAX_NUMBER → type (node s k) = file → link_cnt (node s k) = 1 →
  nth 0 (direct (node s k)) 0 = 0 →
  rm_recurse (S fuel) s (Some k) junk = Fault OutOfBounds.
Proof.
  intros Hok Hk Ht Hc H0. cbn [rm_recurse].
  rewrite upd_node_spec, bind_Ok by done. rewrite Hc. change (u32 (1 - 1)) with 0.
  set (x1 := node s k <| link_cnt := 0 |>).
  assert (inode_ok x1) as Hx1.
  { destruct (inode_ok_words _ (node_ok s k Hok)) as [(W1 & W2 & W3 & W4 & W5) Wd].
    by apply (inode_ok_upd _ (entry_num (node s k)) (type (node s k)) (size (node s k)) 0
      (link_to (node s k)) (direct (node s k)) (node_ok s k Hok)); [..|apply (node_ok s k Hok)]. }
  pose proof (with_node_ok s k x1 Hok Hx1) as Hok1. set (s1 := with_node s k x1) in *.
  assert (node s1 k = x1) as Hn1 by (by apply node_with_node_eq).
  rewrite get_node_spec, bind_Ok by done. rewrite Hn1.
  change (link_cnt x1) with 0. change (type x1) with (type (node s k)). rewrite Ht.
  cbn [Z.ltb Z.compare]. change (file =? dir) with false. change (file =? file) with true. cbv iota.
  rewrite for_range_cons by lia. rewrite get_node_spec, bind_Ok by done. rewrite Hn1.
  rewrite aget_direct0, bind_Ok by (rewrite <- Hn1; by apply node_direct).
  change (direct x1) with (direct (node s k)). rewrite H0.
  unfold release_block, clear_bit, get_data_block_number. rewrite (ok_super _ Hok1).
  unfold aget. rewrite decide_False by (by apply (bool_decide_unpack _)).
  rewrite lookup_ge_None_2; [done|].
  pose proof (proj1 (ok_block_map _ Hok1)) as Hl. apply Nat2Z.inj_le. rewrite Hl, Z2Nat.id by done.
  by apply (bool_decide_unpack _).
Qed.

Lemma count_slashes_app p q rest :
  0 ∉ p → 47 ∉ p → count_slashes (p ++ 47 :: q ++ 0 :: rest) =
    (n ← count_slashes (q ++ 0 :: rest); Ok (n + 1)).
Proof.
  induction p as [|c p IH]; intros Hz Hs; [done|].
  cbn [app count_slashes]. destruct (Z.eqb_spec c 0); [set_solver|]. rewrite IH by set_solver.
  destruct (count_slashes (q ++ 0 :: rest)); [|done|done]. simpl.
  destruct (Z.eqb_spec c 47); [set_solver|done].
Qed.

(** The parent of a relative path with two components is taken to be the
    current directory, where the whole path is searched as a name; without an
    entry of that name, [do_rm] moves no entry and drops the last one. *)
Lemma rm_two_components s es p q rest buf :
  fs_ok s → dir_of s (cwd s) es → (2 ≤ length es)%nat → Forall (λ e, 47 ∉ d_name e) es →
  p ≠ [] → 0 ∉ p ∧ 0 ∉ q → 47 ∉ p ∧ 47 ∉ q → all_bytes (p ++ 47 :: q) →
  let name := p ++ 47 :: q ++ 0 :: rest in
  rm_parent s name buf = Ok (Some (cwd s), name, buf, s) ∧
  find_dentry (first_block s (node s (cwd s))) name 2 (entry_num (node s (cwd s))) = Ok None.
Proof.
  intros Hok [Hk Hn Hh] Hlen Hes Hp [Hz1 Hz2] [Hs1 Hs2] Hb. cbv zeta. split.
  - unfold rm_parent. rewrite count_slashes_app, count_slashes_none, !bind_Ok by done.
    destruct p as [|c p]; [done|]. change (aget ((c :: p) ++ _) 0) with (Ok c). rewrite bind_Ok.
    destruct (Z.eqb_spec c 47); [set_solver|done].
  - rewrite Hn. change 2 with (Z.of_nat 2).
    rewrite (find_dentry_spec _ _ Hh 2 _ (p ++ 47 :: q)); [|lia| |done].
    + assert (lookup_name (drop 2 es) (p ++ 47 :: q) = None) as ->; [|done].
      apply lookup_name_None. intros e He Heq. rewrite Forall_forall in Hes.
      apply (Hes e); [|rewrite Heq; set_solver].
      rewrite <- (take_drop 2 es). apply elem_of_app. by right.
    + replace (p ++ 47 :: q ++ 0 :: rest) with ((p ++ 47 :: q) ++ 0 :: rest)
        by (by rewrite <- (assoc_L (++))). apply string_at_app. set_solver.
Qed.
End remove.

(** ** Witnesses *)

Lemma removed_only_entry (s : fs memdisk) :
  cwd s = 0 → only_entry s (mkdir_map {[ 0 := dots 0 0 ]} 0 1 (dots 0 0) (str "d")) 1 2.
Proof.
  intros Hc k es i e Hk Hi He. apply mkdir_map_cases in Hk as [[-> _]|[_ Hk]]; [by left| |done].
  apply lookup_insert_Some in Hk as [[<- <-]|[_ Hk]].
  - right. split; [done|]. destruct i as [|[|[|i]]]; [| |done|done];
      injection Hi as <-; discriminate He.
  - apply lookup_singleton_Some in Hk as [<- <-]. destruct i as [|[|i]]; [| |done];
      injection Hi as <-; discriminate He.
Qed.

Lemma rm_directory_correct_witness :
  ∃ (s s' : fs memdisk) T blk, fs_inv s T blk ∧ T !! 1 = Some (dots 1 0) ∧
    do_rm 1 s (cstr "d") (fill BLOCK_SIZE 0) = Ok s' ∧
    fs_inv s' (rm_map T 0 1 (dots 0 0 ++ [Dentry dir 1 (str "d")]) 2) blk.
Proof.
  destruct made_fs as (s0 & Hinv0 & Hc0 & Hi & Hb).
  destruct (mkdir_spec s0 {[ 0 := dots 0 0 ]} (λ _, 0) (str "d") [] (fill BLOCK_SIZE 0)
    (fill BLOCK_SIZE 7) 1 1 (dots 0 0)) as (s & _ & Hinv & _ & Hc & Ht & Hl & _).
  - exact Hinv0.
  - rewrite Hc0. apply lookup_singleton_eq.
  - by apply small_name.
  - by apply Z.leb_le.
  - by apply length_fill.
  - by apply length_fill.
  - exact Hi.
  - exact Hb.
  - rewrite Hc0 in Hinv, Hc. set (T := mkdir_map _ 0 1 _ _) in *.
    assert (T !! 0 = Some (dots 0 0 ++ [Dentry dir 1 (str "d")])) as HT0.
    { unfold T, mkdir_map. rewrite lookup_insert_ne by done. apply lookup_insert_eq. }
    assert (T !! 1 = Some (dots 1 0)) as HT1 by apply lookup_insert_eq.
    destruct (rm_directory_correct s T (λ k, if decide (k = 1) then 1 else 0) (str "d") [] (fill BLOCK_SIZE 0) 0 1
      (dots 0 0 ++ [Dentry dir 1 (str "d")]) 2) as (s' & Hr & _ & _ & _ & _ & Hinv').
    + exact Hinv.
    + by rewrite Hc.
    + by apply small_name.
    + reflexivity.
    + lia.
    + rewrite Hc. lia.
    + lia.
    + rewrite Hc. exact HT1.
    + by apply removed_only_entry.
    + exact Ht.
    + exact Hl.
    + by apply length_fill.
    + exists s, s', T. eexists. rewrite Hc in Hinv'. change (if decide (1 / 32 = 0 / 32) then ?X else _) with X in Hinv'.
      split; [exact Hinv|]. split; [exact HT1|]. split; [exact Hr|exact Hinv'].
Defined.

Lemma rm_empty_file_out_of_bounds_witness :
  fs_ok (demo_fs <| nodes ::= λ l, <[2%nat := zero_inode <| type := file |> <| link_cnt := 1 |>]> l |>) ∧
  rm_recurse 1 (demo_fs <| nodes ::= λ l,
    <[2%nat := zero_inode <| type := file |> <| link_cnt := 1 |>]> l |>) (Some 2) [] = Fault OutOfBounds.
Proof.
  set (x := zero_inode <| type := file |> <| link_cnt := 1 |>).
  assert (fs_ok (with_node demo_fs 2 x)) as Hok.
  { apply with_node_ok; [apply demo_fs_ok|].
    split; [by apply (bool_decide_unpack _)|done|split; [done|by apply (bool_decide_unpack _)]..]. }
  assert (node (with_node demo_fs 2 x) 2 = x) as Hn
    by (apply node_with_node_eq; [apply demo_fs_ok|flia]).
  split; [exact Hok|].
  apply (rm_empty_file_out_of_bounds 0 (with_node demo_fs 2 x) 2 []);
    [exact Hok|flia|by rewrite Hn|by rewrite Hn|by rewrite Hn].
Defined.
