(* ===== verification/FsTree.v ===== *)
(** * The file system as a tree with a current directory

    An abstract file system: directories as a map from inodes to entries, the way
    from the root to the current directory, and the inodes and blocks in use.
    [tree_step] is what [mkdir], [touch] and [cd] mean there.  [do_mkdir],
    [do_touch] and [do_cd] of [kernel/fs/fs.c] refine it, one operation or a
    sequence of them. *)

From S2P Require Import Prelude CString Printk Kstate FsLayout Fs FsDisk FsPath FsOps FsRemove.

(** ** The abstract file system *)

Record tree := Tree {
  t_dirs : gmap Z (list dentry);
  t_stack : list (Z * bytes);   (* inode and name of the directories below the root *)
  t_inodes : gset Z;
  t_blocks : gset Z;
}.

Definition t_cwd (t : tree) : Z := default 0 (fst <$> last (t_stack t)).

(** What the prompt shows: a slash after every name. *)
Definition path_string (l : list (Z * bytes)) : bytes := 47 :: concat ((λ c, c.2 ++ [47]) <$> l).

Inductive tree_op := Mkdir (nm : bytes) | Touch (nm : bytes) | Cd (nm : bytes).
Definition op_name (op : tree_op) : bytes := match op with Mkdir nm | Touch nm | Cd nm => nm end.

(** The least number that is not in use; [size U] rounds are enough. *)
Fixpoint next_free (fuel : nat) (U : gset Z) (k : Z) : Z :=
  match fuel with
  | O => k
  | S fuel => if decide (k ∈ U) then next_free fuel U (k + 1) else k
  end.
Definition least_free (U : gset Z) (n : Z) : option Z :=
  let k := next_free (base.size U) U 0 in if decide (k < n) then Some k else None.

Definition has_room (es : list dentry) : Prop := DENTRY_SIZE * (Z.of_nat (length es) + 1) ≤ BLOCK_SIZE.

(** An operation on the entries [es] of the current directory.  A name that is
    not there leaves [cd] where it is. *)
Definition step_at (t : tree) (es : list dentry) (op : tree_op) : option tree :=
  match op with
  | Mkdir nm =>
      match least_free (t_inodes t) INODE_MAX_NUMBER, least_free (t_blocks t) DATA_BLOCK_MAX_NUMBER with
      | Some num, Some b =>
          if decide (has_room es) then
            Some (Tree (mkdir_map (t_dirs t) (t_cwd t) num es nm) (t_stack t)
              ({[ num ]} ∪ t_inodes t) ({[ b ]} ∪ t_blocks t))
          else None
      | _, _ => None
      end
  | Touch nm =>
      match least_free (t_inodes t) INODE_MAX_NUMBER with
      | Some num =>
          if decide (has_room es) then
            Some (Tree (<[t_cwd t := es ++ [Dentry file num nm]]> (t_dirs t)) (t_stack t)
              ({[ num ]} ∪ t_inodes t) (t_blocks t))
          else None
      | None => None
      end
  | Cd nm =>
      match lookup_name es nm with
      | None => Some t
      | Some (_, e) =>
          if decide (d_type e = dir) then
            if decide (nm = str ".") then Some t
            else if decide (nm = str "..") then
              match t_stack t with
              | [] => None
              | _ => Some (Tree (t_dirs t) (removelast (t_stack t)) (t_inodes t) (t_blocks t))
              end
            else if decide (Z.of_nat (length (path_string (t_stack t)) + length nm) < 239) then
              Some (Tree (t_dirs t) (t_stack t ++ [(d_inode e, nm)]) (t_inodes t) (t_blocks t))
            else None
          else None
      end
  end.

Definition tree_step (t : tree) (op : tree_op) : option tree :=
  match t_dirs t !! t_cwd t with Some es => step_at t es op | None => None end.

Fixpoint tree_steps (t : tree) (ops : list tree_op) : option tree :=
  match ops with
  | [] => Some t
  | op :: ops => match tree_step t op with Some t => tree_steps t ops | None => None end
  end.

(** The tree of a new file system. *)
Definition new_tree : tree := Tree {[ 0 := dots 0 0 ]} [] {[ 0 ]} {[ 0 ]}.

(** ** Numbers in use *)

Lemma next_free_spec fuel U k :
  0 ≤ k → (∀ j, 0 ≤ j < k → j ∈ U) →
  let r := next_free fuel U k in
  0 ≤ r ∧ (∀ j, 0 ≤ j < r → j ∈ U) ∧ (r ∉ U ∨ r = k + Z.of_nat fuel).
Proof.
  revert k. induction fuel as [|n IH]; intros k Hk Hj; cbn [next_free].
  - split_and!; [done..|]. right. lia.
  - case_decide as Hin; [|by split_and!; [..|left]].
    destruct (IH (k + 1)) as (H1 & H2 & H3); [lia| |].
    { intros j Hj'. destruct (decide (j = k)) as [->|]; [done|]. apply Hj. lia. }
    split_and!; [done..|]. destruct H3 as [|H3]; [by left|right]. rewrite H3. lia.
Qed.

Lemma least_free_spec U n k :
  least_free U n = Some k → 0 ≤ k < n ∧ k ∉ U ∧ ∀ j, 0 ≤ j < k → j ∈ U.
Proof.
  unfold least_free. destruct (next_free_spec (base.size U) U 0) as (H1 & H2 & H3); [done|lia|].
  set (r := next_free _ _ _) in *. case_decide; [|done]. intros [= <-]. split_and!; [done..| |done].
  intros Hin. destruct H3 as [|Hr]; [done|]. rewrite Z.add_0_l in Hr.
  assert (Hsub : list_to_set (seqZ 0 (r + 1)) ⊆ U).
  { intros j [Hj Hj']%elem_of_list_to_set%elem_of_seqZ.
    destruct (decide (j = r)) as [->|]; [done|]. apply H2. lia. }
  apply subseteq_size in Hsub. rewrite size_list_to_set, length_seqZ in Hsub by apply NoDup_seqZ. lia.
Qed.

Lemma find_first_free m sz U k :
  Z.of_nat (length m) = sz → (∀ j, 0 ≤ j → bit m j = bool_decide (j ∈ U)) →
  least_free U (8 * sz) = Some k → find_first_zero_bit m sz = Ok k.
Proof.
  intros <- Hbit (Hk & Hin & Hlow)%least_free_spec.
  destruct (find_first_zero_bit_spec m) as ([i|] & -> & Hr).
  - destruct Hr as (Hi & Hb & Hj). f_equal. rewrite Hbit in Hb by lia. apply bool_decide_eq_false in Hb.
    destruct (Z.lt_trichotomy i k) as [|[|]]; [|done|].
    + destruct Hb. by apply Hlow; lia.
    + specialize (Hj k ltac:(lia)). rewrite Hbit in Hj by lia. by apply bool_decide_eq_true in Hj.
  - specialize (Hr k Hk). rewrite Hbit in Hr by lia. by apply bool_decide_eq_true in Hr.
Qed.

Lemma bits_add m' m (U : gset Z) k :
  (∀ j, 0 ≤ j → bit m j = bool_decide (j ∈ U)) →
  (∀ j, 0 ≤ j → bit m' j = if j =? k then true else bit m j) →
  ∀ j, 0 ≤ j → bit m' j = bool_decide (j ∈ {[ k ]} ∪ U).
Proof.
  intros H H' j Hj. rewrite H' by done. destruct (Z.eqb_spec j k) as [->|Hne].
  - symmetry. apply bool_decide_eq_true. set_solver.
  - rewrite H by done. apply bool_decide_ext. set_solver.
Qed.

(** ** Well-formed trees *)

(** The directories on the way, each with its predecessor as parent. *)
Fixpoint chain (T : gmap Z (list dentry)) (par : Z) (l : list (Z * bytes)) : Prop :=
  match l with
  | [] => True
  | (k, nm) :: l => (∃ es, T !! k = Some (dots k par ++ es)) ∧ name_ok nm ∧ chain T k l
  end.

Record tree_wf (t : tree) : Prop := {
  tw_root : ∃ es, t_dirs t !! 0 = Some (dots 0 0 ++ es);
  tw_chain : chain (t_dirs t) 0 (t_stack t);
  tw_used k : is_Some (t_dirs t !! k) → k ∈ t_inodes t;
  tw_parents k es i e : t_dirs t !! k = Some es → es !! i = Some e → (2 ≤ i)%nat →
    d_type e = dir → ∃ es', t_dirs t !! d_inode e = Some (dots (d_inode e) k ++ es');
}.

(** Directories only grow, at their end. *)
Definition extends (T T' : gmap Z (list dentry)) : Prop :=
  ∀ k es, T !! k = Some es → ∃ es', T' !! k = Some (es ++ es').

Lemma extends_dots T T' k par :
  extends T T' → (∃ es, T !! k = Some (dots k par ++ es)) → ∃ es, T' !! k = Some (dots k par ++ es).
Proof.
  intros Hx (es & Hk). destruct (Hx _ _ Hk) as [es' Hk']. exists (es ++ es'). by rewrite (assoc_L (++)).
Qed.

Lemma chain_extends T T' par l : extends T T' → chain T par l → chain T' par l.
Proof.
  intros Hx. revert par. induction l as [|[k nm] l IH]; intros par; [done|].
  intros (H1 & H2 & H3). split_and!; [by eapply extends_dots|done|by apply IH].
Qed.

Lemma chain_snoc T par l k nm :
  chain T par (l ++ [(k, nm)]) ↔ chain T par l ∧
    (∃ es, T !! k = Some (dots k (default par (fst <$> last l)) ++ es)) ∧ name_ok nm.
Proof.
  revert par. induction l as [|[j c] l IH]; intros par; cbn [chain app].
  - cbn. naive_solver.
  - rewrite IH. destruct l as [|x l]; cbn [last]; [naive_solver|].
    destruct (last (x :: l)) as [[]|] eqn:E; [cbn; naive_solver|]. by apply last_None in E.
Qed.

Lemma path_string_snoc l k nm : path_string (l ++ [(k, nm)]) = path_string l ++ nm ++ [47].
Proof. unfold path_string. rewrite fmap_app, concat_app. cbn. by rewrite app_nil_r. Qed.

Lemma path_string_slash l : ∃ q, path_string l = q ++ [47].
Proof.
  destruct l as [|[k nm] x _] using rev_ind; [by exists []|].
  rewrite path_string_snoc. exists (path_string x ++ nm). by rewrite (assoc_L (++)).
Qed.

Lemma stack_cases (l : list (Z * bytes)) :
  l = [] ∨ ∃ l' k nm, l = l' ++ [(k, nm)] ∧ removelast l = l'.
Proof.
  destruct l as [|[k nm] x _] using rev_ind; [by left|right].
  exists x, k, nm. split; [done|]. by apply removelast_last.
Qed.

(** Adding an entry to the current directory. *)
Lemma extends_snoc T c es e : T !! c = Some es → extends T (<[c := es ++ [e]]> T).
Proof.
  intros Hc k es' Hk. destruct (decide (k = c)) as [->|].
  - rewrite Hc in Hk. injection Hk as <-. exists [e]. by rewrite lookup_insert_eq.
  - exists []. rewrite lookup_insert_ne by done. by rewrite app_nil_r.
Qed.

Lemma extends_mkdir T c num es nm :
  T !! c = Some es → T !! num = None → extends T (mkdir_map T c num es nm).
Proof.
  intros Hc Hn k es' Hk. unfold mkdir_map. rewrite lookup_insert_ne by congruence.
  by apply (extends_snoc _ _ _ (Dentry dir num nm) Hc).
Qed.

Lemma chain_dots T l : (∃ es, T !! 0 = Some (dots 0 0 ++ es)) → chain T 0 l →
  ∃ es par, T !! default 0 (fst <$> last l) = Some (dots (default 0 (fst <$> last l)) par ++ es).
Proof.
  intros (es0 & H0) H. destruct (stack_cases l) as [->|(l' & k & nm & -> & _)].
  - by exists es0, 0.
  - apply chain_snoc in H as (_ & (es & H) & _). rewrite last_snoc. cbn [fmap option_fmap option_map default fst from_option]. by eauto.
Qed.

Lemma parents_snoc T T' c es e :
  extends T T' → T !! c = Some es →
  (∀ k es i e, T !! k = Some es → es !! i = Some e → (2 ≤ i)%nat → d_type e = dir →
     ∃ es', T !! d_inode e = Some (dots (d_inode e) k ++ es')) →
  (d_type e = dir → ∃ es', T' !! d_inode e = Some (dots (d_inode e) c ++ es')) →
  ∀ k es' i x, <[c := es ++ [e]]> T !! k = Some es' → es' !! i = Some x → (2 ≤ i)%nat →
    d_type x = dir → ∃ es', T' !! d_inode x = Some (dots (d_inode x) k ++ es').
Proof.
  intros Hx Hc H He k es' i x Hk Hi H2 Hd.
  apply lookup_insert_Some in Hk as [[<- <-]|[_ Hk]].
  - apply lookup_app_Some in Hi as [Hi|[_ Hi]].
    + eapply extends_dots; [exact Hx|]. by eapply H.
    + apply list_lookup_singleton_Some in Hi as [_ <-]. by apply He.
  - eapply extends_dots; [exact Hx|]. by eapply H.
Qed.

Lemma step_at_wf t es op t' :
  tree_wf t → t_dirs t !! t_cwd t = Some es → name_ok (op_name op) →
  step_at t es op = Some t' → tree_wf t'.
Proof.
  intros [H1 H2 H3 H4] Hc Hnm. destruct op as [nm|nm|nm]; cbn [step_at op_name] in *.
  - destruct (least_free (t_inodes t) _) as [num|] eqn:Hn; [|done].
    destruct (least_free (t_blocks t) _) as [b|]; [|done]. case_decide; [|done]. intros [= <-].
    apply least_free_spec in Hn as (_ & Hn & _).
    assert (HT : t_dirs t !! num = None) by (apply eq_None_not_Some; intros Hs; by apply Hn, H3).
    pose proof (extends_mkdir _ _ num es nm Hc HT) as Hx.
    split; cbn [t_dirs t_stack t_inodes].
    + by eapply extends_dots.
    + by eapply chain_extends.
    + intros k Hk. unfold mkdir_map in Hk. apply elem_of_union.
      destruct (decide (k = num)) as [->|Hne]; [left; set_solver|right].
      rewrite lookup_insert_ne in Hk by done. apply H3.
      destruct (decide (k = t_cwd t)) as [->|]; [by exists es|]. by rewrite lookup_insert_ne in Hk.
    + intros k es' i e Hk Hi H2i Hd. unfold mkdir_map in Hk.
      apply lookup_insert_Some in Hk as [[<- <-]|[_ Hk]].
      { destruct i as [|[|i]]; [lia|lia|done]. }
      eapply (parents_snoc _ _ _ es (Dentry dir num nm) Hx Hc H4); [|done..].
      intros _. exists []. unfold mkdir_map. cbn [d_inode]. by rewrite lookup_insert_eq.
  - destruct (least_free (t_inodes t) _) as [num|]; [|done]. case_decide; [|done]. intros [= <-].
    pose proof (extends_snoc _ _ es (Dentry file num nm) Hc) as Hx.
    split; cbn [t_dirs t_stack t_inodes].
    + by eapply extends_dots.
    + by eapply chain_extends.
    + intros k Hk. apply elem_of_union. right. apply H3.
      destruct (decide (k = t_cwd t)) as [->|]; [by exists es|]. by rewrite lookup_insert_ne in Hk.
    + by apply (parents_snoc _ _ _ es (Dentry file num nm) Hx Hc H4).
  - destruct (lookup_name es nm) as [[i e]|] eqn:Hl; [|intros [= <-]; by split].
    case_decide as Hd; [|done]. case_decide as Hdot; [intros [= <-]; by split|].
    case_decide as Hup.
    + destruct (stack_cases (t_stack t)) as [E|(l & k & c & E & Hr)]; [by rewrite E|].
      destruct (t_stack t) as [|x l'] eqn:Es; [by destruct l|]. intros [= <-].
      split; [done| |done|done]. change (chain (t_dirs t) 0 (removelast (x :: l'))). rewrite Hr. rewrite E in H2. by apply chain_snoc in H2 as [H2 _].
    + case_decide; [|done]. intros [= <-]. split; cbn [t_dirs t_stack t_inodes]; [done| |done|done].
      apply chain_snoc. split; [done|]. split; [|done].
      apply lookup_name_Some in Hl as (Hi & Hen & _).
      destruct (chain_dots _ _ H1 H2) as (es' & par & Hc'). fold (t_cwd t) in Hc'. rewrite Hc in Hc'.
      injection Hc' as ->. destruct i as [|[|i]].
      * injection Hi as <-. done.
      * injection Hi as <-. done.
      * by apply (H4 (t_cwd t) _ (S (S i)) e Hc); [|lia|].
Qed.

Lemma tree_step_wf t op t' : tree_wf t → name_ok (op_name op) → tree_step t op = Some t' → tree_wf t'.
Proof.
  unfold tree_step. intros Hwf Hn H. destruct (t_dirs t !! t_cwd t) as [es|] eqn:Hc; [|done].
  by eapply step_at_wf.
Qed.

Lemma new_tree_wf : tree_wf new_tree.
Proof.
  split; cbn [t_dirs t_stack t_inodes new_tree].
  - exists []. by rewrite lookup_singleton_eq.
  - done.
  - intros k [x Hk]. apply lookup_singleton_Some in Hk as [<- _]. set_solver.
  - intros k es i e Hk Hi H2 Hd. apply lookup_singleton_Some in Hk as [<- <-].
    destruct i as [|[|i]]; [lia|lia|done].
Qed.

(** ** The string of the current directory *)

Lemma aset_at {A} (a b : list A) x y n :
  n = Z.of_nat (length a) → aset (a ++ x :: b) n y = Ok (a ++ y :: b).
Proof. intros ->. apply aset_app_length. Qed.

Lemma cwd_step_dot c nm len : string_at nm (str ".") → cwd_str_step c nm len = Ok (c, len).
Proof.
  intros Hn. unfold cwd_str_step.
  destruct (strcmp_eq nm (cstr ".") (str ".") (str ".")) as (r & -> & Hr);
    [done|by apply read_cstr_Ok|by apply (bool_decide_unpack _)..|].
  by rewrite bind_Ok, Hr.
Qed.

Lemma cwd_step_names c p nm len :
  string_at p nm → name_ok nm → nm ≠ str "." →
  cwd_str_step c p len =
    if decide (nm = str "..") then
      c ← aset c (len - 1) 0;
      len ← back_to_slash (S (length c)) c len;
      c ← aset c len 47;
      c ← aset c (len + 1) 0;
      Ok (c, len + 1)
    else
      c ← strcpy c len p;
      c ← aset c (len + Z.of_nat (length nm)) 47;
      c ← aset c (len + Z.of_nat (length nm) + 1) 0;
      Ok (c, len + Z.of_nat (length nm) + 1).
Proof.
  intros Hp [_ [_ Hb] _ _] Hd. unfold cwd_str_step.
  destruct (strcmp_eq p (cstr ".") nm (str ".")) as (r & -> & Hr);
    [done|by apply read_cstr_Ok|done|by apply (bool_decide_unpack _)|].
  rewrite bind_Ok, Hr, bool_decide_false by done.
  destruct (strcmp_eq p (cstr "..") nm (str "..")) as (r' & -> & Hr');
    [done|by apply read_cstr_Ok|done|by apply (bool_decide_unpack _)|].
  rewrite bind_Ok, Hr'. case_bool_decide; [by rewrite decide_True|rewrite decide_False by done].
  by rewrite (strlen_string p nm Hp).
Qed.

Lemma dotdot_ok : name_ok (str "..").
Proof. split; [done|split; [by vm_compute; set_solver|by apply (bool_decide_unpack _)]|by vm_compute; set_solver|done]. Qed.

(** Going down: the name and a slash are appended. *)
Lemma cwd_step_down c q p nm :
  string_at c q → string_at p nm → name_ok nm → nm ≠ str "." → nm ≠ str ".." →
  (length q + length nm + 1 < length c)%nat →
  ∃ c' len, cwd_str_step c p (Z.of_nat (length q)) = Ok (c', len) ∧
    string_at c' (q ++ nm ++ [47]) ∧ length c' = length c.
Proof.
  intros Hc Hp Hnm Hd Hdd Hl. rewrite (cwd_step_names c p nm), decide_False by done.
  rewrite (strcpy_string c _ p nm Hp), bind_Ok by lia. destruct Hc as [Hq [r ->]].
  rewrite length_app in Hl. cbn [length] in Hl.
  destruct (drop (length nm) r) as [|x r'] eqn:Hr.
  { apply (f_equal length) in Hr. rewrite length_drop in Hr. cbn in Hr. lia. }
  assert (Hs : splice (q ++ 0 :: r) (Z.of_nat (length q)) (nm ++ [0]) = (q ++ nm) ++ 0 :: x :: r').
  { unfold splice. rewrite Nat2Z.id, take_app_length, length_app. cbn [length].
    rewrite drop_app_ge by lia. replace (length q + (length nm + 1) - length q)%nat with (S (length nm)) by lia.
    cbn [drop]. rewrite Hr. by rewrite <- !(assoc_L (++)). }
  rewrite Hs, aset_at by (rewrite length_app; lia). rewrite bind_Ok.
  change ((q ++ nm) ++ 47 :: x :: r') with ((q ++ nm) ++ [47] ++ x :: r').
  rewrite (assoc_L (++)), aset_at by (rewrite !length_app; cbn; lia). rewrite bind_Ok.
  eexists _, _. split; [done|]. split.
  - rewrite <- (assoc_L (++) q nm). apply string_at_app. destruct (nk_string _ Hnm) as [H0 _]. set_solver.
  - apply (f_equal length) in Hr. rewrite length_drop in Hr. cbn [length] in Hr.
    rewrite !length_app. cbn [length]. lia.
Qed.

Lemma back_to_slash_spec a m (b : bytes) fuel :
  47 ∉ m → (length m < fuel)%nat →
  back_to_slash fuel (a ++ 47 :: m ++ b) (Z.of_nat (length a + length m)) = Ok (Z.of_nat (length a)).
Proof.
  revert b fuel. induction m as [|x m IH] using rev_ind; intros b [|fuel] Hm Hf; cbn [length] in *; try lia.
  - cbn [back_to_slash]. rewrite Nat.add_0_r.
    assert (aget (a ++ 47 :: [] ++ b) (Z.of_nat (length a)) = Ok 47) as ->.
    { apply aget_Ok. split; [lia|]. by rewrite Nat2Z.id, list_lookup_middle. }
    done.
  - rewrite length_app in *. cbn [length back_to_slash] in *.
    assert (aget (a ++ 47 :: (m ++ [x]) ++ b) (Z.of_nat (length a + (length m + 1))) = Ok x) as ->.
    { apply aget_Ok. split; [lia|]. rewrite Nat2Z.id, lookup_app_r by lia.
      replace (length a + (length m + 1) - length a)%nat with (S (length m)) by lia.
      change (((m ++ [x]) ++ b) !! length m = Some x). rewrite <- (assoc_L (++)). by apply list_lookup_middle. }
    rewrite bind_Ok. destruct (Z.eqb_spec x 47); [set_solver|]. cbn [negb].
    replace (Z.of_nat (length a + (length m + 1)) - 1) with (Z.of_nat (length a + length m)) by lia.
    rewrite <- (assoc_L (++) m). apply IH; [set_solver|lia].
Qed.

(** Going up: the last name and its slash disappear. *)
Lemma cwd_step_up c q p nm :
  string_at c ((q ++ [47]) ++ nm ++ [47]) → string_at p (str "..") → 47 ∉ nm →
  ∃ c' len, cwd_str_step c p (Z.of_nat (length ((q ++ [47]) ++ nm ++ [47]))) = Ok (c', len) ∧
    string_at c' (q ++ [47]) ∧ length c' = length c.
Proof.
  intros [H0 [r ->]] Hp Hs. rewrite (cwd_step_names _ p (str "..")), decide_True by
(done || exact dotdot_ok).
  replace (((q ++ [47]) ++ nm ++ [47]) ++ 0 :: r) with (((q ++ [47]) ++ nm) ++ 47 :: 0 :: r)
    by (by rewrite <- !(assoc_L (++))).
  rewrite aset_at by (rewrite !length_app; cbn; lia). rewrite bind_Ok.
  replace (((q ++ [47]) ++ nm) ++ 0 :: 0 :: r) with (q ++ 47 :: (nm ++ [0; 0]) ++ r)
    by (by rewrite <- !(assoc_L (++))).
  replace (Z.of_nat (length ((q ++ [47]) ++ nm ++ [47]))) with (Z.of_nat (length q + length (nm ++ [0; 0])))
    by (rewrite !length_app; cbn; lia).
  rewrite back_to_slash_spec by (rewrite ?length_app; cbn; rewrite ?length_app; cbn; try lia; set_solver).
  rewrite bind_Ok, aset_at, bind_Ok by done.
  destruct ((nm ++ [0; 0]) ++ r) as [|x r'] eqn:E; [by destruct nm|].
  replace (q ++ 47 :: x :: r') with ((q ++ [47]) ++ x :: r') by (by rewrite <- (assoc_L (++))).
  rewrite aset_at, bind_Ok by (rewrite length_app; cbn; lia). eexists _, _. split; [done|]. split.
  - apply string_at_app. set_solver.
  - apply (f_equal length) in E. rewrite !length_app in E. cbn in E. rewrite !length_app. cbn. lia.
Qed.

(** At the root there is no name to drop: the search for a slash leaves the
    array on the left. *)
Lemma cwd_step_above_root r p :
  string_at p (str "..") → cwd_str_step (str "/" ++ 0 :: r) p 1 = Fault OutOfBounds.
Proof.
  intros Hp. rewrite (cwd_step_names _ p (str "..")), decide_True by
(done || exact dotdot_ok).
  by destruct r.
Qed.

(** ** The kernel's state represents a tree *)

Section refine.
Context {D : Type} {dev : BlockDev D} {laws : BlockDevLaws D}.
Implicit Types (s : fs D) (t : tree).

Record tree_rep s t : Prop := {
  tr_wf : tree_wf t;
  tr_inv : ∃ blk, fs_inv s (t_dirs t) blk;
  tr_cwd : cwd s = t_cwd t;
  tr_str : string_at (cwd_str s) (path_string (t_stack t)) ∧ length (cwd_str s) = 240%nat;
  tr_inodes j : 0 ≤ j → bit (inode_bit_map s) j = bool_decide (j ∈ t_inodes t);
  tr_blocks j : 0 ≤ j → bit (block_bit_map s) j = bool_decide (j ∈ t_blocks t);
  tr_types k : is_Some (t_dirs t !! k) → type (node s k) ≠ soft_link;
}.

Lemma tree_rep_out s s' t : same_but_out s s' → tree_rep s t → tree_rep s' t.
Proof.
  intros Hs [H1 [blk H2] H3 H4 H5 H6 H7]. pose proof (fs_inv_out s s' _ blk Hs H2) as H2'.
  destruct Hs as [l ->]. split; try done. by exists blk.
Qed.

(** Another current directory. *)
Lemma fs_inv_cwd s T blk c k :
  fs_inv s T blk → is_Some (T !! k) → fs_inv (s <| cwd_str := c |> <| cwd := k |>) T blk.
Proof.
  intros [[F1 F2 F3 F4 F5 F6] [G1 G2 G3 G4] E3 E4 E5 E6 E7 E8] Hk.
  split; [by split|by split|done| |done|done|done|done].
  intros j es Hj. by apply (dir_at_keep s); [apply E4|..].
Qed.

Lemma update_cwd_spec s nm rest buf es i e q :
  fs_ok s → dir_of s (cwd s) es → lookup_name es nm = Some (i, e) → name_ok nm →
  Z.of_nat (length buf) = BLOCK_SIZE → string_at (cwd_str s) q →
  update_cwd_str s (Some (nm ++ 0 :: rest)) buf =
    ('(c, _) ← cwd_str_step (cwd_str s) (nm ++ 0 :: replicate (239 - length nm) 0) (Z.of_nat (length q));
     Ok (s <| cwd_str := c |>)).
Proof.
  intros Hok Hd Hl Hnm Hb Hq. pose proof Hnm as [Hne [H0 _] Hs Hlen].
  pose proof (di_node _ _ _ Hd) as Hk. pose proof (di_holds _ _ _ Hd) as Hh.
  unfold update_cwd_str. rewrite (strlen_string _ _ Hq), bind_Ok.
  rewrite strcpy_path, bind_Ok by (done || (change MAX_NAME_LEN with 24 in Hlen; lia)).
  destruct nm as [|x nm]; [done|]. change (aget ((x :: nm) ++ ?r) 0) with (Ok x). rewrite bind_Ok.
  destruct (Z.eqb_spec x 47); [set_solver|]. cbn [cwd_str_loop].
  rewrite get_node_spec, bind_Ok, read_block_spec, bind_Ok by (done || by apply node_direct).
  destruct (name_scan_spec (x :: nm) (replicate (239 - length (x :: nm)) 0) H0)
    as (comp & comps & Hsp & _ & _ & Hscan).
  rewrite split_path_single in Hsp by done. injection Hsp as <- <-. destruct Hscan as [_ ->].
  pose proof (find_dentry_spec _ _ Hh 0 ((x :: nm) ++ 0 :: replicate (239 - length (x :: nm)) 0) (x :: nm))
    as Hf. rewrite drop_0, Hl in Hf. change (Z.of_nat 0) with 0 in Hf.
  rewrite bind_Ok, (di_num _ _ _ Hd), Hf, bind_Ok by (lia || (by apply string_at_app) || apply Hnm).
  cbn [fmap option_fmap option_map compose fst]. rewrite Nat.add_0_l.
  destruct (cwd_str_step _ _ _) as [[c len]|f|]; [|done..]. rewrite !bind_Ok.
  apply lookup_name_Some in Hl as (He & _). by rewrite (dentry_inode_spec _ _ Hh i e He), bind_Ok.
Qed.

(** [do_mkfs] makes the tree with the root alone. *)
Lemma mkfs_tree s junk :
  fs_ok (s <| super_block := new_super |>) → Z.of_nat (length junk) = BLOCK_SIZE →
  length (cwd_str s) = 240%nat → type (node s 0) ≠ soft_link →
  (∀ k, 32 ≤ k < INODE_MAX_NUMBER → nth (Z.to_nat (k / 32)) (inode_dirty s) 0 = 0 →
     inode_saved s k) →
  ∃ s', do_mkfs s junk = Ok s' ∧ tree_rep s' new_tree.
Proof.
  intros Hok Hl Hc Ht Hs.
  destruct (mkfs_spec s junk Hok Hl) as (s' & Hrun & Hinv & Hcwd & _ & Hbits & Hstr & Hty);
    [lia|done|]. exists s'. split; [done|].
  assert (Hset : ∀ j : Z, bool_decide (j ∈ ({[ 0 ]} : gset Z)) = (j =? 0)).
  { intros j. destruct (Z.eqb_spec j 0) as [->|Hj]; [by apply bool_decide_eq_true; set_solver|].
    apply bool_decide_eq_false. set_solver. }
  split; cbn [t_dirs t_stack t_inodes t_blocks new_tree].
  - apply new_tree_wf.
  - by exists (λ _, 0).
  - done.
  - rewrite Hstr. split; [|rewrite length_splice; [done|done|rewrite Hc; simpl; lia]].
    unfold splice. change (take (Z.to_nat 0) (cwd_str s)) with (@nil Z). rewrite app_nil_l.
    split; [vm_compute; set_solver|]. by exists (drop 2 (cwd_str s)).
  - intros j Hj. rewrite Hset. by apply Hbits.
  - intros j Hj. rewrite Hset. by apply Hbits.
  - intros k [x Hk]. apply lookup_singleton_Some in Hk as [<- _]. by rewrite Hty.
Qed.

Context (junk1 junk2 : bytes).
Context (Hj1 : Z.of_nat (length junk1) = BLOCK_SIZE) (Hj2 : Z.of_nat (length junk2) = BLOCK_SIZE).

(** The operation of the kernel, on a pointer to the name. *)
Definition run_op (op : tree_op) (p : bytes) s : outcome (fs D) :=
  match op with
  | Mkdir _ => do_mkdir s (Some p) junk1 junk2
  | Touch _ => do_touch s (Some p) junk1
  | Cd _ => do_cd s (Some p) junk1
  end.

Lemma mkdir_refines s t es nm rest t' :
  tree_rep s t → t_dirs t !! t_cwd t = Some es → name_ok nm → step_at t es (Mkdir nm) = Some t' →
  ∃ s', do_mkdir s (Some (nm ++ 0 :: rest)) junk1 junk2 = Ok s' ∧ tree_rep s' t'.
Proof.
  intros [H1 [blk H2] H3 H4 H5 H6 H7] Hc Hnm Hstep.
  pose proof (step_at_wf _ _ (Mkdir nm) _ H1 Hc Hnm Hstep) as Hwf'. cbn [step_at] in Hstep.
  destruct (least_free (t_inodes t) _) as [num|] eqn:Hn; [|done].
  destruct (least_free (t_blocks t) _) as [b|] eqn:Hb; [|done].
  case_decide as Hroom; [|done]. injection Hstep as <-.
  pose proof (fi_ok _ _ _ H2) as Hok. rewrite <- H3 in Hc.
  destruct (mkdir_spec s (t_dirs t) blk nm rest junk1 junk2 num b es)
    as (s' & Hrun & Hinv & HTn & Hcwd & Hty & _ & Hnode & (Hct & Hcs & _) & Hi & Hbl); [done..| | |].
  { by apply (find_first_free _ _ (t_inodes t)); [apply Hok|..]. }
  { by apply (find_first_free _ _ (t_blocks t)); [apply Hok|..]. }
  exists s'. split; [done|]. split; cbn [t_dirs t_stack t_inodes t_blocks].
  - done.
  - eexists. rewrite <- H3. exact Hinv.
  - by rewrite Hcwd, H3.
  - by rewrite Hcs.
  - by apply (bits_add _ (inode_bit_map s)).
  - by apply (bits_add _ (block_bit_map s)).
  - rewrite <- H3. intros k Hk. destruct (decide (k = num)) as [->|Hkn].
    { rewrite Hty. done. }
    unfold mkdir_map in Hk. rewrite lookup_insert_ne in Hk by done.
    destruct (decide (k = cwd s)) as [->|Hkc]; [rewrite Hct; apply H7; by exists es|].
    rewrite lookup_insert_ne in Hk by done. rewrite Hnode; [by apply H7| |done..].
    destruct Hk as [es' Hk]. pose proof (di_node _ _ _ (da_dir _ _ _ _ (fi_dirs _ _ _ H2 _ _ Hk))). lia.
Qed.

Lemma touch_refines s t es nm rest t' :
  tree_rep s t → t_dirs t !! t_cwd t = Some es → name_ok nm → step_at t es (Touch nm) = Some t' →
  ∃ s', do_touch s (Some (nm ++ 0 :: rest)) junk1 = Ok s' ∧ tree_rep s' t'.
Proof.
  intros [H1 [blk H2] H3 H4 H5 H6 H7] Hc Hnm Hstep.
  pose proof (step_at_wf _ _ (Touch nm) _ H1 Hc Hnm Hstep) as Hwf'. cbn [step_at] in Hstep.
  destruct (least_free (t_inodes t) _) as [num|] eqn:Hn; [|done].
  case_decide as Hroom; [|done]. injection Hstep as <-.
  pose proof (fi_ok _ _ _ H2) as Hok. rewrite <- H3 in Hc.
  destruct (touch_spec s (t_dirs t) blk nm rest junk1 num es)
    as (s' & Hrun & Hinv & Hcwd & Hfree & _ & _ & _ & _ & Hbl & Hnode & (Hct & Hcs & _) & Hi); [done..| |].
  { by apply (find_first_free _ _ (t_inodes t)); [apply Hok|..]. }
  exists s'. split; [done|]. split; cbn [t_dirs t_stack t_inodes t_blocks].
  - done.
  - eexists. rewrite <- H3. exact Hinv.
  - by rewrite Hcwd, H3.
  - by rewrite Hcs.
  - by apply (bits_add _ (inode_bit_map s)).
  - by rewrite Hbl.
  - rewrite <- H3. intros k Hk.
    destruct (decide (k = cwd s)) as [->|Hkc]; [rewrite Hct; apply H7; by exists es|].
    rewrite lookup_insert_ne in Hk by done. pose proof Hk as [es' Hk'].
    pose proof (fi_dirs _ _ _ H2 _ _ Hk') as Hd. pose proof (di_node _ _ _ (da_dir _ _ _ _ Hd)).
    rewrite Hnode; [by apply H7|lia| |done]. intros ->. by rewrite (da_used _ _ _ _ Hd) in Hfree.
Qed.

Lemma tree_rep_fd s t l : tree_rep s t → tree_rep (s <| fd := l |>) t.
Proof.
  intros [H1 [blk [[F1 F2 F3 F4 F5 F6] [G1 G2 G3 G4] E3 E4 E5 E6 E7 E8]] H3 H4 H5 H6 H7].
  split; try done. exists blk. split; [by split|by split|done| |done|done|done|done].
  intros j es Hj. by apply (dir_at_keep s); [apply E4|..].
Qed.

(** [do_touch] makes an empty file of the first free inode, and keeps the
    descriptors of open files. *)
Lemma touch_makes s t es nm rest t' :
  tree_rep s t → t_dirs t !! t_cwd t = Some es → name_ok nm → step_at t es (Touch nm) = Some t' →
  ∃ s' num, touch_name s (nm ++ 0 :: rest) junk1 = Ok (nm ++ 0 :: rest, s') ∧ tree_rep s' t' ∧
    t_dirs t' !! t_cwd t' = Some (es ++ [Dentry file num nm]) ∧ 0 ≤ num < INODE_MAX_NUMBER ∧
    type (node s' num) = file ∧ size (node s' num) = 0 ∧ fd s' = fd s.
Proof.
  intros Hrep Hc Hnm Hstep. destruct (touch_refines s t es nm rest t' Hrep Hc Hnm Hstep) as (s' & Hrun & Hrep').
  destruct Hrep as [H1 [blk H2] H3 H4 H5 H6 H7]. cbn [step_at] in Hstep.
  destruct (least_free (t_inodes t) _) as [num|] eqn:Hn; [|done].
  case_decide as Hroom; [|done]. injection Hstep as <-. pose proof (fi_ok _ _ _ H2) as Hok.
  assert (find_first_zero_bit (inode_bit_map s) INODE_BIT_MAP_SIZE = Ok num) as Hnum.
  { by apply (find_first_free _ _ (t_inodes t)); [apply Hok|..]. }
  rewrite <- H3 in Hc.
  destruct (touch_spec s (t_dirs t) blk nm rest junk1 num es)
    as (s2 & Hrun2 & _ & _ & _ & _ & Hty & Hsz & _ & _ & _ & (_ & _ & Hfd) & _); [done..|].
  assert (s2 = s') as -> by congruence.
  destruct (touch_prepares s (t_dirs t) blk nm rest junk1 num es) as (s3 & Ht & _); [done..|].
  exists s', num. split_and!; [|done| |by apply (first_free_inode s)..|done|done|done].
  - cbn [do_touch] in Hrun. rewrite Ht in *.
    apply bind_Ok_inv in Hrun as ([x y] & Hrun & [= ->]). rewrite Hrun. do 2 f_equal.
    apply bind_Ok_inv in Hrun as (s4 & _ & Hrun). apply bind_Ok_inv in Hrun as (s5 & _ & Hrun).
    by injection Hrun.
  - cbn [t_dirs t_cwd t_stack]. apply lookup_insert_eq.
Qed.

Lemma cd_missing s t es nm rest :
  tree_rep s t → t_dirs t !! t_cwd t = Some es → name_ok nm → lookup_name es nm = None →
  ∃ s', do_cd s (Some (nm ++ 0 :: rest)) junk1 = Ok s' ∧ tree_rep s' t.
Proof.
  intros Hrep Hc Hnm Hl. pose proof Hrep as [_ [blk H2] H3 _ _ _ _]. rewrite <- H3 in Hc.
  pose proof (fi_dirs _ _ _ H2 _ _ Hc) as Hd. destruct (name_in_cwd s nm Hnm) as [Hst Hco].
  destruct (name_parse_spec s nm rest junk1 None) as (buf & s1 & Hp & _ & Hs1 & _);
    [apply (fi_ok _ _ _ H2)|apply Hnm|apply Hnm| | |done|done|].
  { pose proof (nk_length _ Hnm). change MAX_NAME_LEN with 24 in *. lia. }
  { rewrite Hst, Hco. by apply (res_missing s (cwd s) es); [apply Hd|]. }
  unfold do_cd, standrize_opt. rewrite name_standrize by done. 
  rewrite !bind_Ok, Hp, bind_Ok. cbn [followed]. unfold arg_str. cbn [deref]. rewrite !bind_Ok.
  eexists. split; [done|]. apply (tree_rep_out s); [|done]. by apply same_but_out_printks.
Qed.

(** The target of [cd] and the change of the string. *)
Lemma cd_found s t es nm rest i e :
  tree_rep s t → t_dirs t !! t_cwd t = Some es → name_ok nm → lookup_name es nm = Some (i, e) →
  d_type e = dir →
  do_cd s (Some (nm ++ 0 :: rest)) junk1 =
    ('(c, _) ← cwd_str_step (cwd_str s) (nm ++ 0 :: replicate (239 - length nm) 0)
       (Z.of_nat (length (path_string (t_stack t))));
     Ok (s <| cwd_str := c |> <| cwd := d_inode e |>)).
Proof.
  intros Hrep Hc Hnm Hl Ht. pose proof Hrep as [_ [blk H2] H3 [H4 _] _ _ H7]. rewrite <- H3 in Hc.
  pose proof (fi_dirs _ _ _ H2 _ _ Hc) as Hd. pose proof (fi_ok _ _ _ H2) as Hok.
  pose proof Hl as Hl'. apply lookup_name_Some in Hl' as (He & _). apply list_elem_of_lookup_2 in He.
  destruct (proj2 (fi_entries _ _ _ H2 _ _ Hc) e He) as (Hr & _ & Hsome).
  destruct (parse_entry s nm rest junk1 es i e Hok Hnm (da_dir _ _ _ _ Hd) Hl Hr) as (buf & Hp & Hbl);
    [by apply H7, Hsome|done|].
  unfold do_cd, standrize_opt. rewrite name_standrize by done. rewrite !bind_Ok, Hp, bind_Ok.
  rewrite (update_cwd_spec s nm rest buf es i e (path_string (t_stack t))) by (done || apply Hd).
  by destruct (cwd_str_step _ _ _) as [[c len]|f|].
Qed.

(** Moving to a directory whose string is known. *)
Lemma tree_rep_move s t l c :
  tree_rep s t → tree_wf (Tree (t_dirs t) l (t_inodes t) (t_blocks t)) →
  string_at c (path_string l) → length c = length (cwd_str s) →
  tree_rep (s <| cwd_str := c |> <| cwd := default 0 (fst <$> last l) |>)
    (Tree (t_dirs t) l (t_inodes t) (t_blocks t)).
Proof.
  intros [H1 [blk H2] H3 [_ H4] H5 H6 H7] Hwf Hc Hl. split; try done.
  - exists blk. apply fs_inv_cwd; [done|].
    destruct (chain_dots _ _ (tw_root _ Hwf) (tw_chain _ Hwf)) as (es & par & Hk). by eexists.
  - split; [done|]. change (length c = 240%nat). lia.
Qed.

Lemma lookup_dots k par es :
  lookup_name (dots k par ++ es) (str ".") = Some (0%nat, Dentry dir k (str ".")) ∧
  lookup_name (dots k par ++ es) (str "..") = Some (1%nat, Dentry dir par (str "..")).
Proof.
  split; apply lookup_name_Some; (split; [done|split; [done|]]); intros [|j] e' He Hj; try lia.
  by injection He as <-.
Qed.

Lemma cd_refines s t es nm rest t' :
  tree_rep s t → t_dirs t !! t_cwd t = Some es → name_ok nm → step_at t es (Cd nm) = Some t' →
  ∃ s', do_cd s (Some (nm ++ 0 :: rest)) junk1 = Ok s' ∧ tree_rep s' t'.
Proof.
  intros Hrep Hc Hnm Hstep. pose proof (step_at_wf _ _ (Cd nm) _ (tr_wf _ _ Hrep) Hc Hnm Hstep) as Hwf'.
  pose proof (tr_wf _ _ Hrep) as Hwf. destruct (tr_str _ _ Hrep) as [Hstr Hlen]. cbn [step_at] in Hstep.
  destruct (lookup_name es nm) as [[i e]|] eqn:Hl; [|injection Hstep as <-; by eapply cd_missing].
  case_decide as Hd; [|done].
  destruct (chain_dots _ _ (tw_root _ Hwf) (tw_chain _ Hwf)) as (es' & par & Hdots).
  fold (t_cwd t) in Hdots. rewrite Hc in Hdots.
  assert (es = dots (t_cwd t) par ++ es') as -> by congruence. clear Hdots.
  destruct (lookup_dots (t_cwd t) par es') as [L1 L2].
  assert (Hp : string_at (nm ++ 0 :: replicate (239 - length nm) 0) nm) by (apply string_at_app, Hnm).
  case_decide as Hdot; [|case_decide as Hup].
  - injection Hstep as <-. subst nm. rewrite L1 in Hl. injection Hl as <- <-.
    rewrite (cd_found s t _ _ rest _ _ Hrep Hc Hnm L1 eq_refl), cwd_step_dot, bind_Ok by done.
    eexists. split; [done|].
    destruct t as [T l U B]. by apply (tree_rep_move s (Tree T l U B) l).
  - subst nm. rewrite L2 in Hl. injection Hl as <- <-.
    destruct (stack_cases (t_stack t)) as [E|(l & k & c & E & Hr)]; [by rewrite E in Hstep|].
    assert (t' = Tree (t_dirs t) l (t_inodes t) (t_blocks t)) as ->.
    { rewrite <- Hr. destruct (t_stack t); [by destruct l|]. by injection Hstep as <-. }
    pose proof (tw_chain _ Hwf) as Hch. rewrite E in Hch.
    apply chain_snoc in Hch as (_ & (es2 & Hk) & Hcn).
    assert (t_cwd t = k) as Hck by (unfold t_cwd; by rewrite E, last_snoc).
    pose proof Hc as Hc'. rewrite Hck, Hk in Hc'. injection Hc' as Hpar _. rewrite E in Hstr. rewrite path_string_snoc in Hstr.
    destruct (path_string_slash l) as [q Hq]. rewrite Hq in Hstr.
    destruct (cwd_step_up (cwd_str s) q _ c Hstr Hp (nk_noslash _ Hcn)) as (c' & len & Hs & Hc1 & Hl').
    rewrite <- Hq in Hs, Hc1. rewrite <- (path_string_snoc l k c), <- E in Hs.
    rewrite (cd_found s t _ _ rest _ _ Hrep Hc Hnm L2 eq_refl), Hs, bind_Ok.
    eexists. split; [done|]. cbn [d_inode]. rewrite <- Hpar. by apply tree_rep_move.
  - case_decide as Hsp; [|done]. injection Hstep as <-.
    destruct (cwd_step_down (cwd_str s) _ _ nm Hstr Hp Hnm Hdot Hup) as (c' & len & Hs & Hc' & Hl'); [lia|].
    rewrite (cd_found s t _ _ rest _ _ Hrep Hc Hnm Hl Hd), Hs, bind_Ok.
    eexists. split; [done|].
    pose proof (tree_rep_move s t (t_stack t ++ [(d_inode e, nm)]) c' Hrep Hwf') as Hm.
    rewrite last_snoc in Hm. apply Hm; [|done]. by rewrite path_string_snoc.
Qed.

(** ** Opening files *)

(** [do_fopen] of a name that is not in the current directory makes the file and
    opens it: the directory tree is that of [touch], and descriptor 0 is the new,
    empty file, at its start. *)
Theorem fopen_new s t es nm rest access t' :
  tree_rep s t → t_dirs t !! t_cwd t = Some es → name_ok nm → lookup_name es nm = None →
  step_at t es (Touch nm) = Some t' → fd s ≠ [] →
  ∃ s' num, do_fopen s (Some (nm ++ 0 :: rest)) access junk1 = Ok s' ∧ tree_rep s' t' ∧
    t_dirs t' !! t_cwd t' = Some (es ++ [Dentry file num nm]) ∧ 0 ≤ num < INODE_MAX_NUMBER ∧
    type (node s' num) = file ∧ size (node s' num) = 0 ∧
    fd s' = <[0%nat := FileDesc 0 (Some num) access]> (fd s).
Proof.
  intros Hrep Hc Hnm Hl Hstep Hfd. pose proof Hrep as [_ [blk H2] H3 _ _ _ _].
  pose proof Hc as Hc'. rewrite <- H3 in Hc'.
  pose proof (fi_dirs _ _ _ H2 _ _ Hc') as Hd. destruct (name_in_cwd s nm Hnm) as [Hst Hco].
  destruct (name_parse_spec s nm rest junk1 None) as (buf & s1 & Hp & Hbuf & Hs1 & _);
    [apply (fi_ok _ _ _ H2)|apply Hnm|apply Hnm| | |done|done|].
  { pose proof (nk_length _ Hnm). change MAX_NAME_LEN with 24 in *. lia. }
  { rewrite Hst, Hco. by apply (res_missing s (cwd s) es); [apply Hd|]. }
  assert (tree_rep s1 t) as Hrep1 by (by apply (tree_rep_out s)).
  assert (fd s1 = fd s) as Hfd1 by (by destruct Hs1 as [l ->]).
  destruct (touch_makes s1 t es nm rest t' Hrep1 Hc Hnm Hstep)
    as (s2 & num & Ht & Hrep2 & Hdir & Hnum & Hty & Hsz & Hfd2).
  pose proof Hrep2 as [_ [blk2 I2] I3 _ _ _ _]. rewrite <- I3 in Hdir.
  assert (lookup_name (es ++ [Dentry file num nm]) nm = Some (length es, Dentry file num nm)) as Hl2.
  { rewrite lookup_name_snoc, Hl. by rewrite decide_True. }
  destruct (parse_entry s2 nm rest buf (es ++ [Dentry file num nm]) (length es) (Dentry file num nm))
    as (buf2 & Hp2 & _); [apply (fi_ok _ _ _ I2)|done|apply (fi_dirs _ _ _ I2 _ _ Hdir)|done|done| |done|].
  { change (type (node s2 num) ≠ soft_link). by rewrite Hty. }
  assert (0 < length (fd s2))%nat as Hlen.
  { rewrite Hfd2. destruct Hs1 as [l ->]. change (0 < length (fd s))%nat. destruct (fd s); [done|]. cbn. lia. }
  exists (s2 <| fd := <[0%nat := FileDesc 0 (Some num) access]> (fd s2) |>), num.
  split; [|split; [by apply tree_rep_fd|split_and!; try done]].
  - unfold do_fopen. rewrite name_standrize, bind_Ok, Hp, bind_Ok by done. cbn [followed].
    rewrite Ht, bind_Ok. cbv iota beta. rewrite Hp2, bind_Ok, bind_Ok.
    change (d_inode _) with num. rewrite get_node_spec, bind_Ok, Hty by (done || apply (fi_ok _ _ _ I2)).
    change (file =? dir) with false. change (file =? file) with true. cbv iota.
    unfold set_fd. rewrite aset_total by lia. done.
  - by rewrite <- I3.
  - apply Hnum.
  - apply Hnum.
  - rewrite <- Hfd1, <- Hfd2. done.
Qed.

Lemma step_refines s t op p t' :
  tree_rep s t → name_ok (op_name op) → string_at p (op_name op) → tree_step t op = Some t' →
  ∃ s', run_op op p s = Ok s' ∧ tree_rep s' t'.
Proof.
  unfold tree_step. intros Hrep Hnm [_ [rest ->]] Hs.
  destruct (t_dirs t !! t_cwd t) as [es|] eqn:Hc; [|done].
  destruct op; cbn [run_op op_name] in *;
    [by eapply mkdir_refines|by eapply touch_refines|by eapply cd_refines].
Qed.

Fixpoint run_ops (ops : list tree_op) s : outcome (fs D) :=
  match ops with
  | [] => Ok s
  | op :: ops => s ← run_op op (op_name op ++ [0]) s; run_ops ops s
  end.

Lemma steps_refine s t ops t' :
  tree_rep s t → Forall (λ op, name_ok (op_name op)) ops → tree_steps t ops = Some t' →
  ∃ s', run_ops ops s = Ok s' ∧ tree_rep s' t'.
Proof.
  revert s t. induction ops as [|op ops IH]; intros s t Hrep Hops Hs; cbn [tree_steps run_ops] in *.
  { injection Hs as <-. by exists s. }
  apply Forall_cons in Hops as [Hnm Hops]. destruct (tree_step t op) as [t1|] eqn:Ht; [|done].
  destruct (step_refines s t op (op_name op ++ [0]) t1) as (s1 & -> & Hrep1);
    [done|done|by apply string_at_app, Hnm|done|]. rewrite bind_Ok. by eapply IH.
Qed.

(** C8. The file system is a tree with a current directory: on a new file system,
    every sequence of [mkdir], [touch] and [cd] that the abstract tree allows runs
    without a fault, and memory and disk then represent the tree that the abstract
    steps give.  The numbers of the new inodes and blocks are the least unused
    ones, [cd] follows names, "." and "..", a name that does not exist leaves the
    current directory alone, and the string in the prompt always is the path
    from the root to the current directory. *)
Theorem file_tree_correct s ops t' :
  fs_ok (s <| super_block := new_super |>) → length (cwd_str s) = 240%nat →
  type (node s 0) ≠ soft_link →
  (∀ k, 32 ≤ k < INODE_MAX_NUMBER → nth (Z.to_nat (k / 32)) (inode_dirty s) 0 = 0 →
     inode_saved s k) →
  Forall (λ op, name_ok (op_name op)) ops → tree_steps new_tree ops = Some t' →
  ∃ s0 s', do_mkfs s junk1 = Ok s0 ∧ run_ops ops s0 = Ok s' ∧ tree_rep s' t' ∧
    string_at (cwd_str s') (path_string (t_stack t')).
Proof.
  intros Hok Hc Ht Hs Hops Hsteps. destruct (mkfs_tree s junk1) as (s0 & Hrun & Hrep); [done..|].
  destruct (steps_refine s0 new_tree ops t' Hrep Hops Hsteps) as (s' & Hrun' & Hrep').
  exists s0, s'. split_and!; [done..|apply Hrep'].
Qed.

(** [cd ".."] in the root directory reads before the start of the string of the
    current directory. *)
Theorem cd_above_root s t rest :
  tree_rep s t → t_stack t = [] → do_cd s (Some (str ".." ++ 0 :: rest)) junk1 = Fault OutOfBounds.
Proof.
  intros Hrep Hst. pose proof (tr_wf _ _ Hrep) as Hwf. destruct (tw_root _ Hwf) as [es Hr].
  assert (t_cwd t = 0) as Hc by (unfold t_cwd; by rewrite Hst).
  rewrite <- Hc in Hr at 1. destruct (lookup_dots 0 0 es) as [_ L].
  destruct (tr_str _ _ Hrep) as [[_ [r Hstr]] _]. rewrite Hst in Hstr.
  rewrite (cd_found s t _ _ rest _ _ Hrep Hr dotdot_ok L eq_refl), Hstr, Hst.
  by rewrite cwd_step_above_root by (apply string_at_app; vm_compute; set_solver).
Qed.
End refine.

(** ** Witnesses *)

Definition demo_ops : list tree_op :=
  [Mkdir (str "a"); Cd (str "a"); Touch (str "f"); Mkdir (str "b"); Cd (str "."); Cd (str "nowhere");
   Cd (str "b"); Cd (str ".."); Cd (str "b")].

Lemma demo_ops_names : Forall (λ op, name_ok (op_name op)) demo_ops.
Proof.
  unfold demo_ops. repeat (apply Forall_cons; split); [..|apply Forall_nil; exact I]; cbn [op_name];
    first [exact dotdot_ok|apply small_name; [intros [=]|by vm_compute..]].
Qed.

Lemma file_tree_correct_witness :
  ∃ s0 s' : fs memdisk, do_mkfs boot_fs (fill BLOCK_SIZE 0) = Ok s0 ∧
    run_ops (fill BLOCK_SIZE 0) (fill BLOCK_SIZE 7) demo_ops s0 = Ok s' ∧
    string_at (cwd_str s') (str "/a/b/").
Proof.
  destruct (tree_steps new_tree demo_ops) as [t'|] eqn:Ht; [|vm_compute in Ht; discriminate Ht].
  destruct (file_tree_correct (fill BLOCK_SIZE 0) (fill BLOCK_SIZE 7) (length_fill BLOCK_SIZE 0 ltac:(done))
    (length_fill BLOCK_SIZE 7 ltac:(done)) boot_fs demo_ops t') as (s0 & s' & H1 & H2 & _ & H3).
  - apply boot_ok.
  - by apply length_replicate.
  - rewrite node_boot. intros [=].
  - intros k _ _. apply boot_saved.
  - exact demo_ops_names.
  - exact Ht.
  - exists s0, s'. split; [exact H1|]. split; [exact H2|].
    assert (Hp : option_map (λ t, path_string (t_stack t)) (tree_steps new_tree demo_ops) = Some (str "/a/b/"))
      by (vm_compute; reflexivity).
    rewrite Ht in Hp. apply (inj Some) in Hp. cbn beta in Hp. rewrite <- Hp. exact H3.
Defined.
