(* ===== verification/Screen.v ===== *)
(** * The screen: [drivers/screen.c]

    Two buffers of 30 lines of 80 characters: what should be on the screen and
    what the driver last sent to the terminal, where 0 means that it does not
    know.  The serial port is a list of events; a terminal interprets them. *)

From S2P Require Import Prelude CString Printk.

Definition SCREEN_WIDTH : Z := 80.
Definition SCREEN_HEIGHT : Z := 30.

(** What is sent to the serial port: a formatted message or one character. *)
Inductive port_event := PortMsg (fmt : bytes) (args : list arg) | PortCh (ch : Z).

Record screen := Screen {
  screen_cursor_x : Z;
  screen_cursor_y : Z;
  new_screen : bytes;
  old_screen : bytes;
  port : list port_event;
}.

Definition screen_eta (s : screen) :=
  Screen (screen_cursor_x s) (screen_cursor_y s) (new_screen s) (old_screen s) (port s).
#[export] Instance upd_screen_cursor_x : Update screen_cursor_x :=
  ltac:(derive_update screen_eta screen_cursor_x).
#[export] Instance upd_screen_cursor_y : Update screen_cursor_y :=
  ltac:(derive_update screen_eta screen_cursor_y).
#[export] Instance upd_new_screen : Update new_screen := ltac:(derive_update screen_eta new_screen).
#[export] Instance upd_old_screen : Update old_screen := ltac:(derive_update screen_eta old_screen).
#[export] Instance upd_port : Update port := ltac:(derive_update screen_eta port).

Definition emit (e : port_event) (s : screen) : screen := s <| port ::= (.++ [e]) |>.

(** ** Control sequences *)

Definition vt100_move_cursor (x y : Z) (s : screen) : screen :=
  emit (PortMsg (cstr "%c[%d;%dH") [ArgInt 27; ArgInt y; ArgInt x]) s.

Definition vt100_clear (s : screen) : screen :=
  emit (PortMsg (cstr "%c[2J") [ArgInt 27]) s.

Definition vt100_hidden_cursor (s : screen) : screen :=
  emit (PortMsg (cstr "%c[?25l") [ArgInt 27]) s.

(** ** Writing *)

Definition set_new (i c : Z) (s : screen) : outcome screen :=
  l ← aset (new_screen s) i c; Ok (s <| new_screen := l |>).

Definition set_old (i c : Z) (s : screen) : outcome screen :=
  l ← aset (old_screen s) i c; Ok (s <| old_screen := l |>).

Definition screen_scroll (line1 line2 : Z) (s : screen) : outcome screen :=
  s ← for_range line1 (line2 + 1) (λ i, for_range 0 SCREEN_WIDTH (λ j, set_old (i * SCREEN_WIDTH + j) 0)) s;
  for_range line1 (line2 + 1) (λ i, for_range 0 SCREEN_WIDTH (λ j s,
    if i =? line2 then set_new (i * SCREEN_WIDTH + j) 32 s
    else c ← aget (new_screen s) ((i + 1) * SCREEN_WIDTH + j);
         set_new (i * SCREEN_WIDTH + j) c s)) s.

(** The four tests at the end of [screen_write_ch]. *)
Definition fix_cursor (s : screen) : outcome screen :=
  let s := if screen_cursor_x s <? 0 then s <| screen_cursor_x := 0 |> else s in
  let s := if SCREEN_WIDTH <=? screen_cursor_x s
           then s <| screen_cursor_y ::= λ y, i32 (y + 1) |> <| screen_cursor_x := 0 |> else s in
  let s := if screen_cursor_y s <? 0 then s <| screen_cursor_y := 0 |> else s in
  if SCREEN_HEIGHT <=? screen_cursor_y s then
    s ← screen_scroll (SCREEN_HEIGHT / 2 + 1) (SCREEN_HEIGHT - 1) s;
    Ok (s <| screen_cursor_x := 0 |> <| screen_cursor_y := SCREEN_HEIGHT - 1 |>)
  else Ok s.

Definition screen_write_ch (ch : Z) (s : screen) : outcome screen :=
  s ← (if (ch =? 10) || (ch =? 13) then
         Ok (s <| screen_cursor_x := 0 |> <| screen_cursor_y ::= λ y, i32 (y + 1) |>)
       else if ch =? 8 then
         if 0 <? screen_cursor_x s then
           let s := s <| screen_cursor_x ::= λ x, x - 1 |> in
           set_new (screen_cursor_y s * SCREEN_WIDTH + screen_cursor_x s) 32 s
         else Ok s
       else
         s ← set_new (screen_cursor_y s * SCREEN_WIDTH + screen_cursor_x s) ch s;
         Ok (s <| screen_cursor_x ::= λ x, i32 (x + 1) |>));
  fix_cursor s.

Definition screen_write (buff : bytes) (s : screen) : outcome screen :=
  l ← strlen buff;
  for_range 0 l (λ i s, c ← aget buff i; screen_write_ch c s) s.

Definition screen_move_cursor (x y : Z) (s : screen) : screen :=
  s <| screen_cursor_x := x |> <| screen_cursor_y := y |>.

(** ** Refreshing *)

Definition screen_reflush (s : screen) : outcome screen :=
  s ← for_range 0 SCREEN_HEIGHT (λ i, for_range 0 SCREEN_WIDTH (λ j s,
    n ← aget (new_screen s) (i * SCREEN_WIDTH + j);
    o ← aget (old_screen s) (i * SCREEN_WIDTH + j);
    if negb (n =? o) then
      let s := emit (PortCh n) (vt100_move_cursor (j + 1) (i + 1) s) in
      set_old (i * SCREEN_WIDTH + j) n s
    else Ok s)) s;
  Ok (vt100_move_cursor (screen_cursor_x s) (screen_cursor_y s) s).

Definition screen_clear (line1 line2 : Z) (s : screen) : outcome screen :=
  s ← for_range line1 line2 (λ i, for_range 0 SCREEN_WIDTH (λ j s,
    s ← set_new (i * SCREEN_WIDTH + j) 32 s;
    set_old (i * SCREEN_WIDTH + j) 0 s)) s;
  screen_reflush (s <| screen_cursor_x := 0 |> <| screen_cursor_y := 0 |>).

Definition init_screen (s : screen) : outcome screen :=
  screen_clear 0 (SCREEN_HEIGHT - 1) (vt100_clear (vt100_hidden_cursor s)).

(** ** Nested loops over lines and columns *)

Lemma for_range_app {S} (a b c : Z) (f : Z → S → outcome S) s :
  a ≤ b ≤ c → for_range a c f s = (s ← for_range a b f s; for_range b c f s).
Proof.
  intros Hab. remember (Z.to_nat (b - a)) as n eqn:Hn. revert a s Hab Hn.
  induction n as [|n IH]; intros a s Hab Hn.
  - assert (a = b) as -> by lia. rewrite (for_range_nil b b) by lia. done.
  - rewrite (for_range_cons a c), (for_range_cons a b) by lia.
    destruct (f a s); simpl; [|done|done]. apply IH; lia.
Qed.

Lemma for_range_shift {S} (a n : Z) (f g : Z → S → outcome S) s :
  (∀ j s, 0 ≤ j < n → g j s = f (a + j) s) → for_range 0 n g s = for_range a (a + n) f s.
Proof.
  intros Hfg. assert (∀ (m : nat) i s, Z.of_nat m = n - i → 0 ≤ i →
    for_range i n g s = for_range (a + i) (a + n) f s) as H.
  { induction m as [|m IH]; intros i s' Hm Hi.
    - by rewrite !for_range_nil by lia.
    - rewrite (for_range_cons i), (for_range_cons (a + i)), Hfg by lia.
      destruct (f (a + i) s'); simpl; [|done|done]. rewrite IH by lia. f_equal. lia. }
  destruct (decide (n < 0)); [by rewrite !for_range_nil by lia|].
  rewrite (H (Z.to_nat n) 0) by lia. f_equal. lia.
Qed.

(** A loop over lines and columns is a loop over the cells. *)
Lemma for_cells {S} (l1 l2 w : Z) (g : Z → Z → S → outcome S) (f : Z → S → outcome S) s :
  l1 ≤ l2 → 0 ≤ w → (∀ i j s, l1 ≤ i < l2 → 0 ≤ j < w → g i j s = f (i * w + j) s) →
  for_range l1 l2 (λ i, for_range 0 w (g i)) s = for_range (l1 * w) (l2 * w) f s.
Proof.
  intros Hl Hw Hg. remember (Z.to_nat (l2 - l1)) as n eqn:Hn. revert l1 s Hl Hg Hn.
  induction n as [|n IH]; intros l1 s Hl Hg Hn.
  - assert (l1 = l2) as -> by lia. by rewrite !for_range_nil by lia.
  - rewrite for_range_cons by lia.
    rewrite (for_range_app (l1 * w) ((l1 + 1) * w) (l2 * w)) by (split; apply Z.mul_le_mono_nonneg_r; lia).
    rewrite (for_range_shift (l1 * w) w f (g l1)) by (intros; apply Hg; lia).
    replace (l1 * w + w) with ((l1 + 1) * w) by lia.
    destruct (for_range (l1 * w) ((l1 + 1) * w) f s); simpl; [|done|done].
    apply IH; [lia| |lia]. intros. apply Hg; lia.
Qed.

(** ** Well-formed screens *)

Definition CELLS : Z := SCREEN_HEIGHT * SCREEN_WIDTH.

Record in_bounds (s : screen) : Prop := {
  ib_x : 0 ≤ screen_cursor_x s < SCREEN_WIDTH;
  ib_y : 0 ≤ screen_cursor_y s < SCREEN_HEIGHT;
  ib_new : Z.of_nat (length (new_screen s)) = CELLS;
  ib_old : Z.of_nat (length (old_screen s)) = CELLS;
}.

Ltac slia := unfold CELLS, SCREEN_WIDTH, SCREEN_HEIGHT in *; lia.

(** Lines 16 to 29 move up by one and line 29 becomes blank. *)
Definition scrolled (l : bytes) : bytes :=
  take (16 * 80) l ++ drop (17 * 80) l ++ replicate 80 32.

Definition forgotten (l : bytes) : bytes := take (16 * 80) l ++ replicate (14 * 80) 0.

Lemma scrolled_lookup l (m : nat) :
  Z.of_nat (length l) = CELLS →
  scrolled l !! m =
    if decide (m < 16 * 80)%nat then l !! m
    else if decide (m < 29 * 80)%nat then l !! (m + 80)%nat
    else if decide (m < 30 * 80)%nat then Some 32 else None.
Proof.
  intros Hl. unfold scrolled. case_decide.
  - rewrite lookup_app_l by (rewrite length_take; slia). by rewrite lookup_take_lt by lia.
  - rewrite lookup_app_r by (rewrite length_take; slia). rewrite length_take.
    rewrite (Nat.min_l (16 * 80)) by slia. case_decide.
    + rewrite lookup_app_l by (rewrite length_drop; slia). rewrite lookup_drop.
      by replace (17 * 80 + (m - 16 * 80))%nat with (m + 80)%nat by lia.
    + rewrite lookup_app_r by (rewrite length_drop; slia). rewrite length_drop. case_decide.
      * rewrite lookup_replicate_2; [done|slia].
      * apply lookup_ge_None_2. rewrite length_replicate. slia.
Qed.

Lemma forgotten_lookup l (m : nat) :
  Z.of_nat (length l) = CELLS →
  forgotten l !! m =
    if decide (m < 16 * 80)%nat then l !! m else if decide (m < 30 * 80)%nat then Some 0 else None.
Proof.
  intros Hl. unfold forgotten. case_decide.
  - rewrite lookup_app_l by (rewrite length_take; slia). by rewrite lookup_take_lt by lia.
  - rewrite lookup_app_r by (rewrite length_take; slia). rewrite length_take.
    rewrite (Nat.min_l (16 * 80)) by slia. case_decide.
    + rewrite lookup_replicate_2; [done|lia].
    + apply lookup_ge_None_2. rewrite length_replicate. lia.
Qed.

Lemma scrolled_length l : Z.of_nat (length l) = CELLS → length (scrolled l) = length l.
Proof. intros Hl. unfold scrolled. rewrite !length_app, length_take, length_drop, length_replicate. slia. Qed.

Lemma forgotten_length l : Z.of_nat (length l) = CELLS → length (forgotten l) = length l.
Proof. intros Hl. unfold forgotten. rewrite length_app, length_take, length_replicate. slia. Qed.

(** ** Loops that change one cell per round *)

(** Round [k] sets cell [k] to [v k], which it computes from cells not yet
    changed. *)
Lemma cells_loop (proj : screen → bytes) (set : bytes → screen → screen)
    (body : Z → screen → outcome screen) (l : bytes) (v : nat → option Z) (a b : Z) s :
  0 ≤ a ≤ b → b ≤ Z.of_nat (length l) →
  (∀ l', proj (set l' s) = l') → set (proj s) s = s → l = proj s →
  (∀ k w, a ≤ k < b → length w = length l → (∀ m : nat, k ≤ Z.of_nat m → w !! m = l !! m) →
     ∃ c, v (Z.to_nat k) = Some c ∧ body k (set w s) = Ok (set (<[Z.to_nat k := c]> w) s)) →
  ∃ w, for_range a b body s = Ok (set w s) ∧ length w = length l ∧
    ∀ m : nat, w !! m = if decide (a ≤ Z.of_nat m < b) then v m else l !! m.
Proof.
  intros Hab Hb Hps Hsp -> Hbody.
  destruct (for_range_inv (λ k s', ∃ w, s' = set w s ∧ length w = length (proj s) ∧
    ∀ m : nat, w !! m = if decide (a ≤ Z.of_nat m < k) then v m else proj s !! m) a b body s)
    as (s' & Hrun & w & -> & Hl & Hw).
  - lia.
  - exists (proj s). split; [done|]. split; [done|]. intros m. by rewrite decide_False by lia.
  - intros k s' Hk (w & -> & Hl & Hw).
    destruct (Hbody k w Hk Hl) as (c & Hc & ->).
    { intros m Hm. rewrite Hw. by rewrite decide_False by lia. }
    eexists. split; [done|]. eexists. split; [done|]. split; [by rewrite length_insert|].
    intros m. destruct (decide (m = Z.to_nat k)) as [->|Hm].
    + rewrite list_lookup_insert_eq, decide_True by lia. done.
    + rewrite list_lookup_insert_ne by done. rewrite Hw.
      destruct (decide (a ≤ Z.of_nat m < k)); [by rewrite decide_True by lia|].
      by rewrite decide_False by lia.
  - by exists w.
Qed.

Lemma set_new_total i c s :
  0 ≤ i < Z.of_nat (length (new_screen s)) →
  set_new i c s = Ok (s <| new_screen := <[Z.to_nat i := c]> (new_screen s) |>).
Proof. intros. unfold set_new. by rewrite aset_total. Qed.

Lemma set_old_total i c s :
  0 ≤ i < Z.of_nat (length (old_screen s)) →
  set_old i c s = Ok (s <| old_screen := <[Z.to_nat i := c]> (old_screen s) |>).
Proof. intros. unfold set_old. by rewrite aset_total. Qed.

Lemma screen_ext x y n o p n' o' :
  n = n' → o = o' → Screen x y n o p = Screen x y n' o' p.
Proof. by intros -> ->. Qed.

(** ** Scrolling *)

Lemma forget_lines s :
  Z.of_nat (length (old_screen s)) = CELLS →
  for_range 16 30 (λ i, for_range 0 SCREEN_WIDTH (λ j, set_old (i * SCREEN_WIDTH + j) 0)) s
  = Ok (s <| old_screen := forgotten (old_screen s) |>).
Proof.
  intros Hl. rewrite (for_cells _ _ _ _ (λ k, set_old k 0)) by (done || slia).
  destruct (cells_loop old_screen (λ w s, s <| old_screen := w |>) (λ k, set_old k 0)
    (old_screen s) (λ _, Some 0) (16 * SCREEN_WIDTH) (30 * SCREEN_WIDTH) s)
    as (w & -> & Hw & Hlook); [slia|slia|done|by destruct s|done| |].
  { intros k w Hk Hw _. exists 0. split; [done|]. rewrite set_old_total; [done|].
    change (old_screen (s <| old_screen := w |>)) with w. slia. }
  enough (w = forgotten (old_screen s)) as -> by done. apply list_eq. intros m.
  rewrite Hlook, forgotten_lookup by done. repeat case_decide; slia || done || idtac.
  rewrite lookup_ge_None_2; [done|slia].
Qed.

Definition move_cell (k : Z) (s : screen) : outcome screen :=
  if 29 * SCREEN_WIDTH <=? k then set_new k 32 s
  else c ← aget (new_screen s) (k + SCREEN_WIDTH); set_new k c s.

Lemma move_lines s :
  Z.of_nat (length (new_screen s)) = CELLS →
  for_range (16 * SCREEN_WIDTH) (30 * SCREEN_WIDTH) move_cell s
  = Ok (s <| new_screen := scrolled (new_screen s) |>).
Proof.
  intros Hl.
  destruct (cells_loop new_screen (λ w s, s <| new_screen := w |>) move_cell
    (new_screen s) (λ m, scrolled (new_screen s) !! m) (16 * SCREEN_WIDTH) (30 * SCREEN_WIDTH) s)
    as (w & -> & Hw & Hlook); [slia|slia|done|by destruct s|done| |].
  - intros k w Hk Hw Hsame. unfold move_cell. rewrite scrolled_lookup by done.
    rewrite decide_False by slia. destruct (Z.leb_spec (29 * SCREEN_WIDTH) k).
    + rewrite decide_False, decide_True by slia. exists 32. split; [done|].
      rewrite set_new_total; [done|]. change (new_screen (s <| new_screen := w |>)) with w. slia.
    + rewrite decide_True by slia. change (new_screen (s <| new_screen := w |>)) with w.
      destruct (aget_total w (k + SCREEN_WIDTH)) as (c & Hc); [slia|]. rewrite Hc, bind_Ok.
      apply aget_Ok in Hc as [? Hc]. exists c. rewrite Hsame in Hc by slia. split.
      * rewrite <- Hc. f_equal. slia.
      * rewrite set_new_total; [done|]. change (new_screen (s <| new_screen := w |>)) with w. slia.
  - enough (w = scrolled (new_screen s)) as -> by done. apply list_eq. intros m.
    rewrite Hlook. case_decide; [done|]. rewrite scrolled_lookup by done.
    repeat case_decide; slia || done || idtac. rewrite lookup_ge_None_2; [done|slia].
Qed.

Lemma screen_scroll_spec s :
  Z.of_nat (length (new_screen s)) = CELLS → Z.of_nat (length (old_screen s)) = CELLS →
  screen_scroll 16 29 s =
    Ok (s <| old_screen := forgotten (old_screen s) |> <| new_screen := scrolled (new_screen s) |>).
Proof.
  intros Hn Ho. unfold screen_scroll. change (29 + 1) with 30.
  rewrite forget_lines, bind_Ok by done.
  rewrite (for_cells _ _ _ _ move_cell); [by rewrite move_lines|slia|slia|].
  intros i j s' Hi Hj. unfold move_cell.
  replace ((i + 1) * SCREEN_WIDTH + j) with (i * SCREEN_WIDTH + j + SCREEN_WIDTH) by slia.
  destruct (Z.eqb_spec i 29), (Z.leb_spec (29 * SCREEN_WIDTH) (i * SCREEN_WIDTH + j));
    slia || done.
Qed.

(** ** Writing, against a specification without loops and bounds checks *)

Definition cell (s : screen) : nat := Z.to_nat (screen_cursor_y s * SCREEN_WIDTH + screen_cursor_x s).

(** The cursor goes to the start of the next line; below the last line, lines
    16 to 29 move up. *)
Definition next_line (s : screen) : screen :=
  if screen_cursor_y s =? 29 then
    Screen 0 29 (scrolled (new_screen s)) (forgotten (old_screen s)) (port s)
  else s <| screen_cursor_x := 0 |> <| screen_cursor_y ::= Z.succ |>.

Definition type_char (s : screen) (c : Z) : screen :=
  if (c =? 10) || (c =? 13) then next_line s
  else if c =? 8 then
    if screen_cursor_x s =? 0 then s
    else let s := s <| screen_cursor_x ::= (λ x, x - 1) |> in
         s <| new_screen ::= (<[cell s := 32]>) |>
  else
    let s := s <| new_screen ::= (<[cell s := c]>) |> in
    if screen_cursor_x s =? 79 then next_line s else s <| screen_cursor_x ::= Z.succ |>.

Lemma next_line_bounds s : in_bounds s → in_bounds (next_line s).
Proof.
  intros [Hx Hy Hn Ho]. unfold next_line. destruct (Z.eqb_spec (screen_cursor_y s) 29).
  - split; cbn -[scrolled forgotten]; [slia|slia|rewrite scrolled_length by done|rewrite forgotten_length by done]; done.
  - split; cbn; [slia|slia|done|done].
Qed.

Lemma set_cell_bounds s m c : in_bounds s → in_bounds (s <| new_screen ::= (<[m := c]>) |>).
Proof. intros [Hx Hy Hn Ho]. split; [done|done| |done]. cbn. by rewrite length_insert. Qed.

Lemma type_char_bounds s c : in_bounds s → in_bounds (type_char s c).
Proof.
  intros Hb. pose proof Hb as [Hx Hy Hn Ho]. unfold type_char.
  destruct (_ || _); [by apply next_line_bounds|]. destruct (c =? 8).
  - destruct (Z.eqb_spec (screen_cursor_x s) 0); [done|].
    apply (set_cell_bounds (s <| screen_cursor_x ::= (λ x, x - 1) |>)).
    split; cbn; [slia|slia|done|done].
  - pose proof (set_cell_bounds s (cell s) c Hb) as Hb'. cbv zeta.
    destruct (Z.eqb_spec (screen_cursor_x (s <| new_screen ::= (<[cell s := c]>) |>)) 79);
      [by apply next_line_bounds|].
    destruct Hb' as [Hx' ???]. split; cbn in *; [slia|done|done|done].
Qed.

(** The tests at the end of [screen_write_ch], after the cursor has moved by at
    most one place. *)
Lemma fix_cursor_stays s : in_bounds s → fix_cursor s = Ok s.
Proof.
  intros [Hx Hy Hn Ho]. unfold fix_cursor.
  destruct (Z.ltb_spec (screen_cursor_x s) 0); [slia|].
  destruct (Z.leb_spec SCREEN_WIDTH (screen_cursor_x s)); [slia|].
  destruct (Z.ltb_spec (screen_cursor_y s) 0); [slia|].
  destruct (Z.leb_spec SCREEN_HEIGHT (screen_cursor_y s)); [slia|]. done.
Qed.

Lemma fix_cursor_next s :
  in_bounds s →
  fix_cursor (s <| screen_cursor_x := 0 |> <| screen_cursor_y ::= Z.succ |>) = Ok (next_line s).
Proof.
  intros Hb. pose proof Hb as [Hx Hy Hn Ho]. unfold next_line.
  destruct (Z.eqb_spec (screen_cursor_y s) 29) as [H29|H29].
  - destruct s as [x y n o p]. cbn in H29, Hn, Ho. subst y.
    change (fix_cursor _) with (s ← screen_scroll 16 29 (Screen 0 30 n o p);
      Ok (s <| screen_cursor_x := 0 |> <| screen_cursor_y := SCREEN_HEIGHT - 1 |>)).
    by rewrite screen_scroll_spec.
  - apply fix_cursor_stays. split; cbn; [slia|slia|done|done].
Qed.

Lemma screen_write_ch_spec c s :
  in_bounds s → screen_write_ch c s = Ok (type_char s c).
Proof.
  intros Hb. pose proof Hb as [Hx Hy Hn Ho]. unfold screen_write_ch, type_char.
  assert (Hnl : i32 (screen_cursor_y s + 1) = Z.succ (screen_cursor_y s)).
  { rewrite i32_small by slia. done. }
  destruct (_ || _).
  { rewrite bind_Ok, <- fix_cursor_next by done. apply (f_equal fix_cursor).
    destruct s as [x y n o p]. change (Screen 0 (i32 (y + 1)) n o p = Screen 0 (Z.succ y) n o p).
    cbn -[i32] in Hnl. by rewrite Hnl. }
  destruct (Z.eqb_spec c 8) as [Hc|Hc].
  - destruct (Z.ltb_spec 0 (screen_cursor_x s)), (Z.eqb_spec (screen_cursor_x s) 0);
      try slia; [|by rewrite bind_Ok, fix_cursor_stays].
    cbv zeta. set (s' := s <| screen_cursor_x ::= λ x, x - 1 |>).
    assert (Hs' : in_bounds s') by (split; cbn; [slia|slia|done|done]).
    rewrite set_new_total by (destruct Hs'; slia). rewrite bind_Ok. fold (cell s').
    by apply fix_cursor_stays, set_cell_bounds.
  - rewrite set_new_total, !bind_Ok by slia. cbv zeta. fold (cell s).
    pose proof (set_cell_bounds s (cell s) c Hb) as [Hx' Hy' Hn' Ho'].
    set (s' := s <| new_screen ::= <[cell s := c]> |>) in *.
    change (s <| new_screen := _ |>) with s'.
    assert (Hnl' : i32 (screen_cursor_y s' + 1) = Z.succ (screen_cursor_y s')) by exact Hnl.
    clearbody s'.
    replace (s' <| screen_cursor_x ::= λ x, i32 (x + 1) |>)
      with (s' <| screen_cursor_x ::= Z.succ |>).
    + destruct (Z.eqb_spec (screen_cursor_x s') 79) as [H79|H79].
      * rewrite <- fix_cursor_next by done. destruct s' as [x y n o p]. cbn -[i32] in *. subst x.
        change (fix_cursor (Screen 0 (i32 (y + 1)) n o p) = fix_cursor (Screen 0 (Z.succ y) n o p)).
        by rewrite Hnl'.
      * apply fix_cursor_stays. split; cbn in *; [slia|slia|done|done].
    + destruct s' as [x y n o p]. change (Screen (Z.succ x) y n o p = Screen (i32 (x + 1)) y n o p).
      cbn -[i32] in *. by rewrite i32_small by slia.
Qed.

Lemma screen_write_loop text rest (k : Z) s :
  0 ≤ k → in_bounds s → (∀ i : nat, (i < length text)%nat → rest !! (Z.to_nat k + i)%nat = text !! i) →
  for_range k (k + Z.of_nat (length text)) (λ i s, c ← aget rest i; screen_write_ch c s) s
  = Ok (foldl type_char s text) ∧ in_bounds (foldl type_char s text).
Proof.
  revert k s. induction text as [|c text IH]; intros k s Hk Hb Hr.
  - rewrite for_range_nil by (cbn; lia). done.
  - rewrite for_range_cons by (cbn; lia).
    replace (aget rest k) with (Ok c).
    2: { symmetry. apply aget_Ok. split; [done|]. pose proof (Hr 0%nat) as H.
         rewrite Nat.add_0_r in H. apply H. cbn. lia. }
    rewrite !bind_Ok, screen_write_ch_spec, bind_Ok by done.
    replace (k + Z.of_nat (length (c :: text))) with (k + 1 + Z.of_nat (length text)) by (cbn; lia).
    apply IH; [lia|by apply type_char_bounds|]. intros i Hi.
    etransitivity; [|apply (Hr (S i)); cbn; lia]. f_equal. lia.
Qed.


Lemma screen_write_spec buff text s :
  in_bounds s → string_at buff text → screen_write buff s = Ok (foldl type_char s text).
Proof.
  intros Hb Hs. unfold screen_write. rewrite (strlen_string buff text), bind_Ok by done.
  apply (screen_write_loop text buff 0 s); [done|done|].
  intros i Hi. destruct Hs as (? & rest & ->). rewrite lookup_app_l by lia. done.
Qed.

Lemma type_text_bounds text s : in_bounds s → in_bounds (foldl type_char s text).
Proof.
  revert s. induction text as [|c text IH]; intros s Hb; [done|]. by apply IH, type_char_bounds.
Qed.

(** C34. [screen_write] writes exactly what the specification [type_char] gives
    for each character of the string in turn: no character, wherever the cursor
    is and however often the screen scrolls, makes the driver leave its two
    buffers, and the cursor stays on the screen. *)
Theorem screen_write_correct buff text s :
  in_bounds s → string_at buff text →
  screen_write buff s = Ok (foldl type_char s text) ∧ in_bounds (foldl type_char s text).
Proof. intros Hb Hs. split; [by apply screen_write_spec|by apply type_text_bounds]. Qed.

(** Nothing checks the position given to [screen_move_cursor].  The shell's
    backspace moves left of column 0 when the line being edited starts there, as it
    does after it has wrapped: the blank it writes then goes to the last cell of
    the line above, the cursor is left in column -1, and on the first line the
    write is outside of the buffer. *)
Theorem backspace_at_line_start s y :
  in_bounds s → 0 ≤ y < SCREEN_HEIGHT →
  screen_write (cstr " ") (screen_move_cursor (-1) y s) =
    if y =? 0 then Fault OutOfBounds
    else Ok (s <| new_screen ::= (<[Z.to_nat (y * SCREEN_WIDTH - 1) := 32]>) |>
      <| screen_cursor_x := 0 |> <| screen_cursor_y := y |>).
Proof.
  intros [Hx0 Hy0 Hn Ho] Hy.
  assert (Hw : ∀ s', screen_write (cstr " ") s' = screen_write_ch 32 s').
  { intros s'. change (screen_write (cstr " ") s') with (for_range 0 1
      (λ i s, c ← aget (cstr " ") i; screen_write_ch c s) s').
    rewrite for_range_cons by lia. change (aget (cstr " ") 0) with (Ok (A := Z) 32).
    rewrite bind_Ok. destruct (screen_write_ch 32 s') as [s1| |]; [|done|done].
    by rewrite bind_Ok, for_range_nil by lia. }
  rewrite Hw. clear Hw. destruct s as [x0 y0 n o p]. cbn in Hn, Ho. clear Hx0 Hy0.
  change (screen_write_ch 32 _) with
    (s ← (s ← (l ← aset n (y * SCREEN_WIDTH + -1) 32; Ok (Screen (-1) y l o p));
       Ok (s <| screen_cursor_x ::= λ x, i32 (x + 1) |>)); fix_cursor s).
  destruct (Z.eqb_spec y 0) as [->|H0].
  - unfold aset. by rewrite decide_False by (cbn; lia).
  - rewrite aset_total, !bind_Ok by slia. by apply fix_cursor_stays; split; cbn;
      [slia|slia|rewrite length_insert|].
Qed.

Definition blank_screen : screen :=
  Screen 0 0 (fill CELLS 32) (fill CELLS 0) [].

Lemma blank_screen_bounds : in_bounds blank_screen.
Proof. split; [cbn; slia|cbn; slia|apply length_fill; slia|apply length_fill; slia]. Qed.

(** Typing three characters near the end of the last line scrolls the screen. *)
Definition last_columns : screen :=
  Screen 78 29 (fill CELLS 32) (fill CELLS 0) [].

Lemma screen_write_correct_witness :
  screen_write (str "abc" ++ [0]) last_columns = Ok (foldl type_char last_columns (str "abc")) ∧
  map (λ i, new_screen (foldl type_char last_columns (str "abc")) !! Z.to_nat i)
    [28 * 80 + 78; 28 * 80 + 79; 29 * 80; 29 * 80 + 1] = [Some 97; Some 98; Some 99; Some 32].
Proof.
  split; [|vm_compute; reflexivity].
  apply screen_write_correct; [|by apply string_at_app; apply (bool_decide_unpack _)].
  split; [cbn; slia|cbn; slia|apply length_fill; slia|apply length_fill; slia].
Defined.

(** ** Refreshing sends the cells that changed *)

(** What refreshing cell [k] sends. *)
Definition cell_events (k : Z) (n o : bytes) : list port_event :=
  match n !! Z.to_nat k, o !! Z.to_nat k with
  | Some c, Some d =>
      if negb (c =? d) then
        [PortMsg (cstr "%c[%d;%dH")
           [ArgInt 27; ArgInt (k / SCREEN_WIDTH + 1); ArgInt (k mod SCREEN_WIDTH + 1)]; PortCh c]
      else []
  | _, _ => []
  end.

Definition refresh_events (n o : bytes) : list port_event :=
  flat_map (λ k, cell_events k n o) (seqZ 0 CELLS).

Definition reflush_cell (k : Z) (s : screen) : outcome screen :=
  n ← aget (new_screen s) k;
  o ← aget (old_screen s) k;
  if negb (n =? o) then
    set_old k n (emit (PortCh n) (vt100_move_cursor (k mod SCREEN_WIDTH + 1) (k / SCREEN_WIDTH + 1) s))
  else Ok s.

Lemma reflush_cells (k : Z) s :
  in_bounds s → 0 ≤ k ≤ CELLS →
  for_range 0 k reflush_cell s =
    Ok (s <| old_screen := take (Z.to_nat k) (new_screen s) ++ drop (Z.to_nat k) (old_screen s) |>
          <| port ::= (.++ flat_map (λ k, cell_events k (new_screen s) (old_screen s)) (seqZ 0 k)) |>).
Proof.
  intros [_ _ Hn Ho] Hk. destruct s as [x y n o p]. cbn in Hn, Ho.
  destruct (for_range_inv (λ k s', s' = Screen x y n (take (Z.to_nat k) n ++ drop (Z.to_nat k) o)
    (p ++ flat_map (λ k, cell_events k n o) (seqZ 0 k))) 0 k reflush_cell (Screen x y n o p))
    as (s' & -> & ->); [lia| |..|done].
  - cbn. by rewrite app_nil_r.
  - intros i s' Hi ->. unfold reflush_cell.
    destruct (aget_total n i) as (c & Hc); [lia|]. destruct (aget_total o i) as (d & Hd); [lia|].
    change (new_screen (Screen x y n _ _)) with n. rewrite Hc, bind_Ok.
    apply aget_Ok in Hc as [_ Hc], Hd as [_ Hd].
    set (w := take (Z.to_nat i) n ++ drop (Z.to_nat i) o).
    set (q := p ++ flat_map _ (seqZ 0 i)).
    assert (Hwi : take (Z.to_nat (i + 1)) n ++ drop (Z.to_nat (i + 1)) o = <[Z.to_nat i := c]> w).
    { replace (Z.to_nat (i + 1)) with (S (Z.to_nat i)) by lia. unfold w.
      rewrite (take_S_r _ _ c), (drop_S o d (Z.to_nat i)) by done.
      rewrite insert_app_r_alt by (rewrite length_take; lia).
      rewrite length_take, Nat.min_l, Nat.sub_diag by lia. cbn. by rewrite <- (assoc_L (++)). }
    assert (Hw : w !! Z.to_nat i = Some d).
    { unfold w. rewrite lookup_app_r by (rewrite length_take; lia).
      rewrite length_take, Nat.min_l, Nat.sub_diag, lookup_drop by lia. by rewrite Nat.add_0_r. }
    assert (Hq : p ++ flat_map (λ k, cell_events k n o) (seqZ 0 (i + 1)) = q ++ cell_events i n o).
    { unfold q. rewrite <- (assoc_L (++)). f_equal. rewrite seqZ_app by lia.
      rewrite flat_map_app. cbn. rewrite Z.add_0_l. f_equal. apply app_nil_r. }
    rewrite Hwi, Hq. unfold cell_events. rewrite Hc, Hd.
    replace (aget (old_screen (Screen x y n w q)) i) with (Ok d)
      by (symmetry; apply aget_Ok; split; [lia|exact Hw]).
    rewrite bind_Ok. destruct (Z.eqb_spec c d) as [->|Hne]; cbn [negb].
    + eexists. split; [done|]. by rewrite app_nil_r, list_insert_id.
    + eexists. split.
      * rewrite set_old_total; [done|]. cbn -[w Z.of_nat].
        apply lookup_lt_Some in Hw. lia.
      * cbv [emit vt100_move_cursor update upd_port upd_old_screen]. cbn [port screen_cursor_x screen_cursor_y new_screen old_screen]. by rewrite <- (assoc_L (++)).
Qed.

Lemma screen_reflush_spec s :
  in_bounds s →
  screen_reflush s = Ok (vt100_move_cursor (screen_cursor_x s) (screen_cursor_y s)
    (s <| old_screen := new_screen s |>
       <| port ::= (.++ refresh_events (new_screen s) (old_screen s)) |>)).
Proof.
  intros Hb. unfold screen_reflush.
  rewrite (for_cells _ _ _ _ reflush_cell); [|slia|slia|].
  - change (0 * SCREEN_WIDTH) with 0. change (SCREEN_HEIGHT * SCREEN_WIDTH) with CELLS.
    rewrite reflush_cells, bind_Ok by (done || slia). destruct Hb as [_ _ Hn Ho].
    replace (Z.to_nat CELLS) with (length (new_screen s)) by lia. rewrite firstn_all.
    rewrite drop_ge by lia. rewrite app_nil_r. by destruct s.
  - intros i j s' Hi Hj. unfold reflush_cell.
    replace ((i * SCREEN_WIDTH + j) / SCREEN_WIDTH) with i.
    2: { rewrite Z.div_add_l by slia. rewrite Z.div_small by slia. lia. }
    replace ((i * SCREEN_WIDTH + j) mod SCREEN_WIDTH) with j; [done|].
    rewrite Z.add_comm, Z.mod_add by slia. by rewrite Z.mod_small.
Qed.
