(* ===== verification/Terminal.v ===== *)
(** * The screen driver and a terminal

    The promises of a VT100 terminal as a typeclass; the driver keeps its
    [old_screen] in step with it; a small terminal that keeps the promises. *)

From stdpp Require Import pretty.
From S2P Require Import Prelude CString Printk Screen.

(** ** What the driver relies on *)

Definition printable (c : Z) : Prop := 32 ≤ c < 127.

(** The bytes of [ESC [ y ; x H] and of the other two sequences. *)
Definition cup (y x : Z) : bytes :=
  27 :: 91 :: str (pretty (Z.to_N y)) ++ 59 :: str (pretty (Z.to_N x)) ++ [72].
Definition erase_display : bytes := 27 :: str "[2J".
Definition hide_cursor : bytes := 27 :: str "[?25l".

(** [ready t]: no control sequence is in progress; [shown t i j]: the
    character in column [i] of line [j], both counted from 0. *)
Class Terminal (T : Type) := {
  feed : bytes → T → T;
  ready : T → Prop;
  shown : T → Z → Z → option Z;
}.

Class TerminalLaws (T : Type) `{Terminal T} := {
  feed_nil t : feed [] t = t;
  feed_app a b t : feed (a ++ b) t = feed b (feed a t);
  cup_char x y c t :
    ready t → 1 ≤ x ≤ SCREEN_WIDTH → 1 ≤ y ≤ SCREEN_HEIGHT → printable c →
    ready (feed (cup y x ++ [c]) t) ∧
    ∀ i j, shown (feed (cup y x ++ [c]) t) i j =
      if decide (i = x - 1 ∧ j = y - 1) then Some c else shown t i j;
  cup_alone x y t :
    ready t → 0 ≤ x < SCREEN_WIDTH → 0 ≤ y < SCREEN_HEIGHT →
    ready (feed (cup y x) t) ∧ ∀ i j, shown (feed (cup y x) t) i j = shown t i j;
  erase_ready t : ready t → ready (feed erase_display t);
  hide_ready t : ready t → ready (feed hide_cursor t);
}.

(** ** What the driver sends *)

Definition event_text (e : port_event) : bytes :=
  match e with
  | PortMsg fmt args =>
      match items ← parse fmt; render items args with Ok t => t | _ => [] end
  | PortCh c => [c]
  end.

Definition sent (p : list port_event) : bytes := flat_map event_text p.

Lemma sent_app p q : sent (p ++ q) = sent p ++ sent q.
Proof. apply flat_map_app. Qed.

Definition move_msg (x y : Z) : port_event :=
  PortMsg (cstr "%c[%d;%dH") [ArgInt 27; ArgInt y; ArgInt x].

(** The text that [printk] makes of a cursor movement is the control sequence. *)
Lemma move_msg_text x y : 0 ≤ x ≤ 80 → 0 ≤ y ≤ 30 → event_text (move_msg x y) = cup y x.
Proof.
  intros Hx Hy.
  assert (Hall : forallb (λ y, forallb (λ x, bool_decide (event_text (move_msg x y) = cup y x))
    (seqZ 0 81)) (seqZ 0 31) = true) by (vm_compute; reflexivity).
  rewrite forallb_forall in Hall. specialize (Hall y). rewrite forallb_forall in Hall.
  apply (bool_decide_unpack _), Is_true_true, Hall; apply list_elem_of_In, elem_of_seqZ; lia.
Qed.

(** ** The driver and the terminal in step *)

Definition boot_screen : screen := Screen 0 0 (fill CELLS 0) (fill CELLS 0) [].

(** The operations that the kernel calls. *)
Inductive screen_op :=
  | WriteOp (text : bytes)
  | CursorOp (x y : Z)
  | ReflushOp
  | ClearOp (line1 line2 : Z).

Definition run_op (op : screen_op) (s : screen) : outcome screen :=
  match op with
  | WriteOp text => screen_write (text ++ [0]) s
  | CursorOp x y => Ok (screen_move_cursor x y s)
  | ReflushOp => screen_reflush s
  | ClearOp line1 line2 => screen_clear line1 line2 s
  end.

Fixpoint run_ops (ops : list screen_op) (s : screen) : outcome screen :=
  match ops with
  | [] => Ok s
  | op :: ops => s ← run_op op s; run_ops ops s
  end.

Definition control (c : Z) : Prop := c = 8 ∨ c = 10 ∨ c = 13.

(** Printable text with line feeds, carriage returns and backspaces; positions
    and lines on the screen. *)
Definition valid_op (op : screen_op) : Prop :=
  match op with
  | WriteOp text => Forall (λ c, printable c ∨ control c) text ∧ 0 ∉ text
  | CursorOp x y => 0 ≤ x < SCREEN_WIDTH ∧ 0 ≤ y < SCREEN_HEIGHT
  | ReflushOp => True
  | ClearOp line1 line2 => 0 ≤ line1 ≤ line2 ∧ line2 ≤ SCREEN_HEIGHT
  end.

Section sync.
Context {T : Type} `{laws : TerminalLaws T}.

Definition column (k : nat) : Z := Z.of_nat k mod SCREEN_WIDTH.
Definition line (k : nat) : Z := Z.of_nat k / SCREEN_WIDTH.

(** Every cell that [old_screen] knows is on the terminal [t]. *)
Definition known (t : T) (o : bytes) : Prop :=
  ∀ k c, o !! k = Some c → c ≠ 0 → shown t (column k) (line k) = Some c.

(** The contents of the buffers: printable, or 0 for never written; what was
    never written was never sent. *)
Definition contents (n o : bytes) : Prop :=
  ∀ k c, n !! k = Some c → printable c ∨ (c = 0 ∧ o !! k = Some 0).

Record synced (t0 : T) (s : screen) : Prop := {
  sync_bounds : in_bounds s;
  sync_contents : contents (new_screen s) (old_screen s);
  sync_ready : ready (feed (sent (port s)) t0);
  sync_known : known (feed (sent (port s)) t0) (old_screen s);
}.

Lemma cell_coordinates (k : nat) :
  Z.of_nat k < CELLS → 0 ≤ column k < SCREEN_WIDTH ∧ 0 ≤ line k < SCREEN_HEIGHT.
Proof.
  intros Hk. split; [apply Z.mod_pos_bound; slia|]. unfold line. split; [apply Z.div_pos; slia|].
  apply Z.div_lt_upper_bound; slia.
Qed.

Lemma cell_coordinates_inj (k m : nat) : column k = column m → line k = line m → k = m.
Proof.
  unfold column, line. intros Hc Hl. apply Nat2Z.inj.
  rewrite (Z.div_mod (Z.of_nat k) SCREEN_WIDTH), (Z.div_mod (Z.of_nat m) SCREEN_WIDTH) by slia.
  by rewrite Hc, Hl.
Qed.

Lemma contents_set n o m c : printable c → contents n o → contents (<[m := c]> n) o.
Proof.
  intros Hc Hn k d. destruct (decide (k = m)) as [->|Hk].
  - intros Hd. pose proof (lookup_lt_Some _ _ _ Hd) as Hl. rewrite length_insert in Hl.
    rewrite list_lookup_insert_eq in Hd by done. injection Hd as <-. by left.
  - rewrite list_lookup_insert_ne by done. apply Hn.
Qed.

Lemma contents_scroll n o :
  Z.of_nat (length n) = CELLS → Z.of_nat (length o) = CELLS →
  contents n o → contents (scrolled n) (forgotten o).
Proof.
  intros Hn Ho Hc k c. rewrite scrolled_lookup, forgotten_lookup by done. intros Hk.
  repeat case_decide; try slia; simplify_eq; [by apply Hc| |by left].
  destruct (Hc _ _ Hk) as [?|[? _]]; [by left|by right].
Qed.

Lemma known_forgotten t o : Z.of_nat (length o) = CELLS → known t o → known t (forgotten o).
Proof.
  intros Ho Hk k c. rewrite forgotten_lookup by done. repeat case_decide; naive_solver.
Qed.

(** ** Typing *)

Lemma synced_next_line t0 s : synced t0 s → synced t0 (next_line s).
Proof.
  intros [Hb Hc Hr Hk]. pose proof (next_line_bounds s Hb) as Hb'. revert Hb'. unfold next_line.
  destruct (_ =? 29); [|by split]. destruct Hb as [_ _ Hn Ho]. intros Hb'. split; [done| |done|].
  - by apply contents_scroll.
  - by apply known_forgotten.
Qed.

Lemma synced_set t0 s m c :
  printable c → synced t0 s → synced t0 (s <| new_screen ::= (<[m := c]>) |>).
Proof.
  intros Hp [Hb Hc Hr Hk]. split; [by apply set_cell_bounds|by apply contents_set|done|done].
Qed.

Lemma synced_cursor t0 s x y :
  0 ≤ x < SCREEN_WIDTH → 0 ≤ y < SCREEN_HEIGHT → synced t0 s →
  synced t0 (s <| screen_cursor_x := x |> <| screen_cursor_y := y |>).
Proof. intros Hx Hy [[_ _ Hn Ho] Hc Hr Hk]. by repeat split; try apply Hx; try apply Hy. Qed.

Lemma synced_type_char t0 s c :
  printable c ∨ control c → synced t0 s → synced t0 (type_char s c).
Proof.
  intros Hc Hs. pose proof (sync_bounds _ _ Hs) as Hb. pose proof (type_char_bounds s c Hb) as Hb'.
  revert Hb'. unfold type_char. destruct (_ || _) eqn:Hnl; [by intros; apply synced_next_line|].
  destruct (Z.eqb_spec c 8) as [->|H8].
  - destruct (_ =? 0); [done|]. intros Hb'. destruct Hs as [_ Hc' Hr Hk].
    split; [done|by apply contents_set|done|done].
  - assert (Hp : printable c).
    { destruct Hc as [?|[?|[?|?]]]; [done|..]; subst; done. }
    pose proof (synced_set _ _ (cell s) c Hp Hs) as Hs'. cbv zeta.
    destruct (_ =? 79); [intros _; by apply synced_next_line|].
    intros Hb'. destruct Hs' as [_ ???]. by split.
Qed.

Lemma synced_type t0 text s :
  Forall (λ c, printable c ∨ control c) text → synced t0 s → synced t0 (foldl type_char s text).
Proof.
  revert s. induction text as [|c text IH]; intros s; [done|].
  intros [Hc Ht]%Forall_cons Hs. apply IH; [done|]. by apply synced_type_char.
Qed.

(** ** Refreshing *)

(** One changed cell: the terminal shows its new character. *)
Lemma feed_cell (k : nat) n o t :
  contents n o → Z.of_nat k < CELLS → ready t →
  (∀ c, o !! k = Some c → c ≠ 0 → shown t (column k) (line k) = Some c) →
  let t' := feed (sent (cell_events (Z.of_nat k) n o)) t in
  ready t' ∧ (∀ c, n !! k = Some c → c ≠ 0 → is_Some (o !! k) → shown t' (column k) (line k) = Some c) ∧
  ∀ m : nat, m ≠ k → shown t' (column m) (line m) = shown t (column m) (line m).
Proof.
  intros Hc Hk Hr Ho t'. subst t'. unfold cell_events. rewrite Nat2Z.id.
  destruct (n !! k) as [c|] eqn:Hnk; [|by rewrite feed_nil].
  destruct (o !! k) as [d|] eqn:Hok; [|rewrite feed_nil; split_and!; [done|by intros ??? []|done]].
  destruct (Z.eqb_spec c d) as [<-|Hcd]; cbn [negb].
  - rewrite feed_nil. split_and!; [done| |done]. intros c' [= <-] H0 _. by apply Ho.
  - destruct (Hc k c Hnk) as [Hp|[-> ?]]; [|congruence].
    pose proof (cell_coordinates k Hk) as [Hx Hy]. fold (column k) (line k).
    assert (Htext : sent [PortMsg (cstr "%c[%d;%dH") [ArgInt 27; ArgInt (line k + 1);
      ArgInt (column k + 1)]; PortCh c] = cup (line k + 1) (column k + 1) ++ [c]).
    { cbn [sent flat_map]. fold (move_msg (column k + 1) (line k + 1)).
      by rewrite move_msg_text by slia. }
    rewrite Htext.
    destruct (cup_char (column k + 1) (line k + 1) c t) as [Hr' Hs]; [done|slia|slia|done|].
    split_and!; [done| |].
    + intros c' [= <-] _ _. rewrite Hs. by rewrite decide_True by lia.
    + intros m Hm. rewrite Hs. rewrite decide_False; [done|]. intros [??].
      apply Hm, cell_coordinates_inj; lia.
Qed.

Lemma feed_refresh (k : nat) n o t :
  contents n o → length n = length o → Z.of_nat k ≤ CELLS → ready t → known t o →
  let t' := feed (sent (flat_map (λ k, cell_events k n o) (seqZ 0 (Z.of_nat k)))) t in
  ready t' ∧ known t' (take k n ++ drop k o).
Proof.
  intros Hc Hl. induction k as [|k IH]; intros Hk Hr Ho t'.
  - subst t'. cbn. by rewrite feed_nil.
  - destruct IH as [Hr1 Hk1]; [lia|done|done|]. subst t'.
    replace (Z.of_nat (S k)) with (Z.of_nat k + 1) by lia. rewrite seqZ_app by lia.
    rewrite flat_map_app, sent_app, feed_app.
    set (t1 := feed _ t) in *. change (seqZ (0 + Z.of_nat k) 1) with [Z.of_nat k].
    cbn [flat_map]. rewrite app_nil_r.
    assert (Hlook : ∀ m, (k ≤ m)%nat → (take k n ++ drop k o) !! m = o !! m).
    { intros m Hm. destruct (decide (k ≤ length n)%nat).
      - rewrite lookup_app_r, length_take, lookup_drop by (rewrite length_take; lia). f_equal. lia.
      - rewrite !lookup_ge_None_2; [done|lia|len]. }
    destruct (feed_cell k n o t1) as (Hr2 & Hnew & Hother); [done|lia|done| |].
    { intros c Hok H0. apply Hk1; [|done]. by rewrite Hlook. }
    split; [done|]. intros m c Hm H0. destruct (decide (m = k)) as [->|Hmk].
    + destruct (decide (k < length n)%nat) as [Hlt|Hge].
      * rewrite lookup_app_l, lookup_take_lt in Hm by (rewrite ?length_take; lia).
        apply Hnew; [done|done|]. apply lookup_lt_is_Some_2. lia.
      * rewrite lookup_ge_None_2 in Hm by len. done.
    + rewrite Hother by done. apply Hk1; [|done]. rewrite <- Hm.
      destruct (decide (m < k)%nat).
      * destruct (decide (k < length n)%nat).
        -- rewrite !lookup_app_l, !lookup_take_lt by (rewrite ?length_take; lia). done.
        -- rewrite !take_ge, !drop_ge by lia. done.
      * rewrite Hlook by lia. destruct (decide (S k ≤ length n)%nat).
        -- rewrite lookup_app_r, length_take, lookup_drop by (rewrite length_take; lia). f_equal. lia.
        -- rewrite !lookup_ge_None_2; [done|len|lia].
Qed.

Lemma synced_reflush t0 s :
  synced t0 s → ∃ s', screen_reflush s = Ok s' ∧ synced t0 s' ∧
    new_screen s' = new_screen s ∧ old_screen s' = new_screen s.
Proof.
  intros [Hb Hc Hr Hk]. rewrite screen_reflush_spec by done. eexists. split; [done|].
  split; [|by destruct s]. destruct Hb as [Hx Hy Hn Ho].
  destruct (feed_refresh (length (new_screen s)) (new_screen s) (old_screen s)
    (feed (sent (port s)) t0)) as [Hr1 Hk1]; [done|lia|lia|done|done|].
  rewrite firstn_all, drop_ge, app_nil_r in Hk1 by lia. rewrite Hn in Hr1, Hk1.
  fold (refresh_events (new_screen s) (old_screen s)) in Hr1, Hk1.
  set (ev := refresh_events _ _) in *.
  destruct (cup_alone (screen_cursor_x s) (screen_cursor_y s)
    (feed (sent ev) (feed (sent (port s)) t0))) as [Hr2 Hk2]; [done..|].
  assert (Hport : feed (sent (port (vt100_move_cursor (screen_cursor_x s) (screen_cursor_y s)
    (s <| old_screen := new_screen s |> <| port ::= (.++ ev) |>)))) t0 =
    feed (cup (screen_cursor_y s) (screen_cursor_x s)) (feed (sent ev) (feed (sent (port s)) t0))).
  { cbn [port vt100_move_cursor emit update upd_port upd_old_screen].
    rewrite !sent_app, !feed_app. f_equal. cbn [sent flat_map].
    fold (move_msg (screen_cursor_x s) (screen_cursor_y s)).
    rewrite move_msg_text by slia. apply app_nil_r. }
  split.
  - by destruct s.
  - destruct s. cbn in *. intros k c Hkc. destruct (Hc k c Hkc) as [?|[-> ?]]; [by left|by right].
  - by rewrite Hport.
  - rewrite Hport. intros k c Hkc H0. rewrite Hk2. apply Hk1; [by destruct s|done].
Qed.

(** ** Clearing lines *)

Definition clear_cell (k : Z) (s : screen) : outcome screen :=
  s ← set_new k 32 s; set_old k 0 s.

(** Cells [a..b-1] are blank in [n'] and unknown in [o']. *)
Definition cleared (a b : Z) (n o n' o' : bytes) : Prop :=
  length n' = length n ∧ length o' = length o ∧
  ∀ m : nat, n' !! m = (if decide (a ≤ Z.of_nat m < b) then (λ _, 32) <$> n !! m else n !! m) ∧
             o' !! m = (if decide (a ≤ Z.of_nat m < b) then (λ _, 0) <$> o !! m else o !! m).

Lemma clear_cells a b s :
  Z.of_nat (length (new_screen s)) = CELLS → Z.of_nat (length (old_screen s)) = CELLS →
  0 ≤ a ≤ b → b ≤ CELLS →
  ∃ n o, for_range a b clear_cell s = Ok (s <| new_screen := n |> <| old_screen := o |>) ∧
    cleared a b (new_screen s) (old_screen s) n o.
Proof.
  intros Hn Ho Ha Hb. destruct s as [x y n o p]. cbn in Hn, Ho.
  destruct (for_range_inv (λ k s', ∃ n' o', s' = Screen x y n' o' p ∧ cleared a k n o n' o')
    a b clear_cell (Screen x y n o p)) as (s' & -> & n' & o' & -> & Hcl); [lia| |..].
  - exists n, o. split; [done|]. split_and!; [done|done|]. intros m. by rewrite !decide_False by lia.
  - intros i s' Hi (n' & o' & -> & Hln & Hlo & Hm). unfold clear_cell.
    rewrite set_new_total, bind_Ok by (cbn -[Z.of_nat]; lia).
    rewrite set_old_total by (cbn -[Z.of_nat]; lia).
    exists (Screen x y (<[Z.to_nat i := 32]> n') (<[Z.to_nat i := 0]> o') p). split; [done|].
    eexists _, _. split; [done|]. split_and!; [by rewrite length_insert|by rewrite length_insert|].
    intros m.
    destruct (decide (m = Z.to_nat i)) as [->|Hne].
    + rewrite !list_lookup_insert_eq, !decide_True by lia.
      destruct (lookup_lt_is_Some_2 n (Z.to_nat i)) as [? ->]; [lia|].
      destruct (lookup_lt_is_Some_2 o (Z.to_nat i)) as [? ->]; [lia|]. done.
    + rewrite !list_lookup_insert_ne by done. destruct (Hm m) as [-> ->].
      destruct (decide (a ≤ Z.of_nat m < i)); [by rewrite !decide_True by lia|].
      by rewrite !decide_False by lia.
  - by exists n', o'.
Qed.

Lemma synced_cleared t0 s a b n o :
  cleared a b (new_screen s) (old_screen s) n o → synced t0 s →
  synced t0 (s <| new_screen := n |> <| old_screen := o |>).
Proof.
  intros (Hln & Hlo & Hm) [[Hx Hy Hn Ho] Hc Hr Hk]. destruct s as [x y n0 o0 p]. cbn in *.
  split; [split; cbn; [done|done|by rewrite Hln|by rewrite Hlo]| |done|].
  - intros k c Hkc. cbn in *. destruct (Hm k) as [Hnk Hok]. rewrite Hnk in Hkc. rewrite Hok.
    case_decide; [|by apply Hc]. destruct (n0 !! k); [|done]. injection Hkc as <-. by left.
  - intros k c Hkc H0. cbn in *. destruct (Hm k) as [_ Hok]. rewrite Hok in Hkc.
    case_decide; [|by apply Hk]. destruct (o0 !! k); simplify_eq/=.
Qed.

Lemma synced_clear t0 l1 l2 s :
  0 ≤ l1 ≤ l2 → l2 ≤ SCREEN_HEIGHT → synced t0 s →
  ∃ s', screen_clear l1 l2 s = Ok s' ∧ synced t0 s' ∧ old_screen s' = new_screen s'.
Proof.
  intros Hl H2 Hs. pose proof Hs as [[Hx Hy Hn Ho] _ _ _]. unfold screen_clear.
  rewrite (for_cells _ _ _ _ clear_cell) by (done || slia).
  destruct (clear_cells (l1 * SCREEN_WIDTH) (l2 * SCREEN_WIDTH) s) as (n & o & -> & Hc);
    [done|done|slia|slia|].
  rewrite bind_Ok. pose proof (synced_cleared t0 s _ _ n o Hc Hs) as Hs'.
  destruct (synced_reflush t0 (s <| new_screen := n |> <| old_screen := o |>
    <| screen_cursor_x := 0 |> <| screen_cursor_y := 0 |>)) as (s' & -> & ? & Hn' & Ho').
  { apply synced_cursor; [slia|slia|done]. }
  exists s'. split; [done|]. split; [done|]. by rewrite Hn', Ho'.
Qed.

(** The static buffers at boot, before [init_screen]. *)
Lemma synced_init t0 : ready t0 →
  ∃ s', init_screen boot_screen = Ok s' ∧ synced t0 s' ∧ old_screen s' = new_screen s'.
Proof.
  intros Hr. apply synced_clear; [slia|slia|]. split.
  - split; [cbn; slia|cbn; slia|apply length_fill; slia|apply length_fill; slia].
  - intros k c Hk. right. apply lookup_replicate in Hk as [-> Hk]. split; [done|].
    by apply lookup_replicate_2.
  - change (sent _) with (hide_cursor ++ erase_display ++ []).
    rewrite !feed_app, feed_nil. by apply erase_ready, hide_ready.
  - intros k c Hk. apply lookup_replicate in Hk as [-> Hk]. done.
Qed.

(** ** Runs of the driver *)

Lemma run_op_synced t0 op s :
  valid_op op → synced t0 s → ∃ s', run_op op s = Ok s' ∧ synced t0 s'.
Proof.
  destruct op as [text|x y| |l1 l2]; cbn [run_op valid_op].
  - intros [Ht H0] Hs. pose proof (sync_bounds _ _ Hs) as Hb.
    rewrite (screen_write_spec (text ++ [0]) text) by (done || by apply string_at_app).
    eexists. split; [done|]. by apply synced_type.
  - intros [Hx Hy] Hs. eexists. split; [done|]. by apply synced_cursor.
  - intros _ Hs. destruct (synced_reflush t0 s Hs) as (s' & ? & ? & _). eauto.
  - intros [Hl H2] Hs. destruct (synced_clear t0 l1 l2 s Hl H2 Hs) as (s' & ? & ? & _). eauto.
Qed.

Lemma run_ops_synced t0 ops s :
  Forall valid_op ops → synced t0 s → ∃ s', run_ops ops s = Ok s' ∧ synced t0 s'.
Proof.
  revert s. induction ops as [|op ops IH]; intros s; [by exists s|].
  intros [Hv Hvs]%Forall_cons Hs. destruct (run_op_synced t0 op s Hv Hs) as (s1 & Hop & Hs1).
  destruct (IH s1 Hvs Hs1) as (s2 & Hops & Hs2). exists s2. split; [|done].
  cbn. by rewrite Hop, bind_Ok.
Qed.

(** C20. After [init_screen] and any sequence of valid operations the driver has
    not failed, and a refresh leaves the terminal showing, in every cell the driver
    has ever written, the character that [new_screen] holds there.  Valid are
    writes of printable text with line feeds, carriage returns and backspaces (so no
    tab, which the driver would store as a character), cursor movements to a
    position on the screen, which [screen_move_cursor] does not check
    ([Screen.backspace_at_line_start] says what happens otherwise), clearings of a
    range of lines on the screen, and refreshes.  The terminal starts ready for a
    control sequence and obeys the laws of [TerminalLaws]. *)
Theorem screen_synchronised (t0 : T) ops :
  ready t0 → Forall valid_op ops →
  ∃ s, (s ← init_screen boot_screen; s ← run_ops ops s; screen_reflush s) = Ok s ∧ in_bounds s ∧
    ∀ k c, new_screen s !! k = Some c → c ≠ 0 →
      shown (feed (sent (port s)) t0) (column k) (line k) = Some c.
Proof.
  intros Hr Hops. destruct (synced_init t0 Hr) as (s0 & -> & Hs0 & _).
  destruct (run_ops_synced t0 ops s0 Hops Hs0) as (s1 & Hrun & Hs1).
  destruct (synced_reflush t0 s1 Hs1) as (s2 & Hfl & [Hb _ _ Hk] & Hn & Ho).
  exists s2. rewrite bind_Ok, Hrun, bind_Ok. split_and!; [done|done|].
  rewrite Ho, <- Hn in Hk. exact Hk.
Qed.
End sync.

(** ** A terminal *)

Inductive mode := Ground | Esc | Csi (ps : list Z) (n : Z).
Inductive command := Put (c : Z) | Goto (y x : Z) | Erase.

(** The decoder of control sequences. *)
Definition decode (m : mode) (b : Z) : mode * list command :=
  match m with
  | Ground => if b =? 27 then (Esc, []) else (Ground, [Put b])
  | Esc => if b =? 91 then (Csi [] 0, []) else (Ground, [])
  | Csi ps n =>
      if (48 <=? b) && (b <=? 57) then (Csi ps (n * 10 + (b - 48)), [])
      else if b =? 59 then (Csi (ps ++ [n]) 0, [])
      else if b =? 63 then (m, [])
      else if b =? 72 then (Ground, match ps with [y] => [Goto (y `max` 1) (n `max` 1)] | _ => [Goto 1 1] end)
      else if b =? 74 then (Ground, [Erase])
      else (Ground, [])
  end.

Fixpoint decode_all (bs : bytes) (m : mode) : mode * list command :=
  match bs with
  | [] => (m, [])
  | b :: bs =>
      let '(m, cs) := decode m b in
      let '(m, cs') := decode_all bs m in (m, cs ++ cs')
  end.

Record vt := Vt { vt_mode : mode; vt_x : Z; vt_y : Z; vt_cells : gmap (Z * Z) Z }.

(** A character goes to the cursor, which then moves right, at most to the last
    column. *)
Definition execute (c : command) (t : vt) : vt :=
  match c with
  | Put c => Vt (vt_mode t) ((vt_x t + 1) `min` SCREEN_WIDTH) (vt_y t) (<[(vt_x t - 1, vt_y t - 1) := c]> (vt_cells t))
  | Goto y x => Vt (vt_mode t) x y (vt_cells t)
  | Erase => Vt (vt_mode t) (vt_x t) (vt_y t) ∅
  end.

Definition vt_feed (bs : bytes) (t : vt) : vt :=
  let '(m, cs) := decode_all bs (vt_mode t) in
  let t := foldl (λ t c, execute c t) t cs in
  Vt m (vt_x t) (vt_y t) (vt_cells t).

#[export] Instance vt_terminal : Terminal vt := {
  feed := vt_feed;
  ready t := vt_mode t = Ground;
  shown t i j := vt_cells t !! (i, j);
}.

Lemma decode_all_app a b m :
  decode_all (a ++ b) m =
    let '(m, cs) := decode_all a m in let '(m, cs') := decode_all b m in (m, cs ++ cs').
Proof.
  revert m. induction a as [|x a IH]; intros m; cbn; [by destruct (decode_all b m)|].
  destruct (decode m x) as [m1 c1]. rewrite IH. destruct (decode_all a m1) as [m2 c2].
  destruct (decode_all b m2) as [m3 c3]. by rewrite (assoc_L (++)).
Qed.

(** Commands do not read the mode. *)
Lemma execute_mode cs t m :
  foldl (λ t c, execute c t) (Vt m (vt_x t) (vt_y t) (vt_cells t)) cs =
  let t := foldl (λ t c, execute c t) t cs in Vt m (vt_x t) (vt_y t) (vt_cells t).
Proof.
  revert t. induction cs as [|c cs IH]; intros t; [done|]. cbn.
  rewrite <- IH. f_equal. by destruct c.
Qed.

Lemma decode_cup x y :
  0 ≤ x ≤ 80 → 0 ≤ y ≤ 30 → decode_all (cup y x) Ground = (Ground, [Goto (y `max` 1) (x `max` 1)]).
Proof.
  intros Hx Hy.
  assert (Hall : forallb (λ y, forallb (λ x,
    match decode_all (cup y x) Ground with
    | (Ground, [Goto y' x']) => (y' =? y `max` 1) && (x' =? x `max` 1) | _ => false end)
    (seqZ 0 81)) (seqZ 0 31) = true) by (vm_compute; reflexivity).
  rewrite forallb_forall in Hall. specialize (Hall y). rewrite forallb_forall in Hall.
  specialize (Hall ltac:(apply list_elem_of_In, elem_of_seqZ; lia) x).
  specialize (Hall ltac:(apply list_elem_of_In, elem_of_seqZ; lia)).
  destruct (decode_all (cup y x) Ground) as [[] [|[] []]]; try done.
  apply andb_true_iff in Hall as [->%Z.eqb_eq ->%Z.eqb_eq]. done.
Qed.

Lemma vt_feed_cup x y x0 y0 cells :
  0 ≤ x ≤ 80 → 0 ≤ y ≤ 30 →
  vt_feed (cup y x) (Vt Ground x0 y0 cells) = Vt Ground (x `max` 1) (y `max` 1) cells.
Proof. intros. unfold vt_feed. cbn [vt_mode]. by rewrite decode_cup. Qed.

Lemma vt_feed_char c x0 y0 cells :
  printable c → vt_feed [c] (Vt Ground x0 y0 cells) =
    Vt Ground ((x0 + 1) `min` SCREEN_WIDTH) y0 (<[(x0 - 1, y0 - 1) := c]> cells).
Proof. intros [??]. unfold vt_feed. cbn. by rewrite (proj2 (Z.eqb_neq c 27)) by lia. Qed.

Lemma vt_feed_app a b t : vt_feed (a ++ b) t = vt_feed b (vt_feed a t).
Proof.
  destruct t as [m x y cells]. unfold vt_feed. rewrite decode_all_app. cbn [vt_mode].
  destruct (decode_all a m) as [m1 c1]. cbn. destruct (decode_all b m1) as [m2 c2].
  rewrite foldl_app, execute_mode. done.
Qed.

#[export] Instance vt_laws : TerminalLaws vt.
Proof.
  split.
  - by intros [].
  - apply vt_feed_app.
  - intros x y c [m x0 y0 cells] Hm Hx Hy Hc. cbn in Hm. subst m.
    change (feed (cup y x ++ [c])) with (vt_feed (cup y x ++ [c])).
    rewrite vt_feed_app, vt_feed_cup, vt_feed_char by (done || slia). split; [done|].
    intros i j. cbn. rewrite !Z.max_l by lia. case_decide as Hij.
    + destruct Hij as [-> ->]. apply lookup_insert_eq.
    + apply lookup_insert_ne. intros [= ??]. apply Hij. lia.
  - intros x y [m x0 y0 cells] Hm Hx Hy. cbn in Hm. subst m.
    change (feed (cup y x)) with (vt_feed (cup y x)). by rewrite vt_feed_cup by slia.
  - by intros [m x y cells] [= ->].
  - by intros [m x y cells] [= ->].
Qed.

Definition blank_vt : vt := Vt Ground 1 1 ∅.

(** A prompt, a correction and a new line on the terminal above. *)
Definition session : list screen_op := [WriteOp (str "ab"); CursorOp 79 29; WriteOp (8 :: str "xyz")].

Lemma screen_synchronised_witness :
  ∃ s, (s ← init_screen boot_screen; s ← run_ops session s; screen_reflush s) = Ok s ∧
    ∀ k c, new_screen s !! k = Some c → c ≠ 0 →
      shown (feed (sent (port s)) blank_vt) (column k) (line k) = Some c.
Proof.
  assert (Hr : ready blank_vt) by exact eq_refl.
  assert (Hv : Forall valid_op session).
  { repeat constructor; try (apply (bool_decide_unpack _); vm_compute; exact I);
      cbn; unfold printable, control; slia. }
  destruct (screen_synchronised blank_vt session Hr Hv) as (s & Hs & _ & Hshown).
  exists s. split; [exact Hs|exact Hshown].
Defined.
