(* ===== verification/Memory.v ===== *)
(** * Memory management: [kernel/mm/memory.c], [include/os/mm.h] and the copies
    between kernel and user space of [kernel/sched/sched.c]

    The stack of free page frames, the two-level page tables and the pairs of
    pages that a page fault adds.  Memory is a function from unmapped addresses
    to bytes; the page tables of second level lie in page frames, so that they
    are read and written through this memory.  Words are little-endian. *)

From S2P Require Import Prelude CString Printk Queue Kstate Process.

Definition FRAME_NUM : Z := 2048.
Definition PAGE_SIZE : Z := 4096.
Definition PTE_SIZE : Z := 8.
Definition FIRST_PTE_NUM : Z := 1024.

Definition COMPRESS_ENTRYLO (pfn coherency dirty valid global : Z) : Z :=
  Z.lor (Z.lor (Z.lor (Z.lor (u32 (Z.shiftl pfn 6)) (Z.shiftl coherency 3)) (Z.shiftl dirty 2))
    (Z.shiftl valid 1)) global.

(** What [write_TLB_index] ([Some index]) or [write_TLB_rand] loads into the
    coprocessor's registers before its [tlbwi] or [tlbwr]. *)
Record tlb_write := TlbWrite {
  tlb_index : option Z;
  entryhi : Z;
  entrylo0 : Z;
  entrylo1 : Z;
}.

Record mm_t := Mm {
  empty_frame : list Z;
  top : Z;
  ram : Z → Z;
  secondary_pt : list (list Z);     (* one table for each process table entry *)
  tlb : list tlb_write;
}.

Definition mm_eta (m : mm_t) := Mm (empty_frame m) (top m) (ram m) (secondary_pt m) (tlb m).
#[export] Instance upd_empty_frame : Update empty_frame := ltac:(derive_update mm_eta empty_frame).
#[export] Instance upd_top : Update top := ltac:(derive_update mm_eta top).
#[export] Instance upd_ram : Update ram := ltac:(derive_update mm_eta ram).
#[export] Instance upd_secondary_pt : Update secondary_pt :=
  ltac:(derive_update mm_eta secondary_pt).
#[export] Instance upd_tlb : Update tlb := ltac:(derive_update mm_eta tlb).

(** ** Bytes and words of memory *)

Definition store8 (a v : Z) (r : Z → Z) : Z → Z := λ x, if x =? a then v else r x.

Definition store32 (a v : Z) (r : Z → Z) : Z → Z :=
  store8 (a + 3) (v / 2 ^ 24 mod 256) (store8 (a + 2) (v / 2 ^ 16 mod 256)
    (store8 (a + 1) (v / 2 ^ 8 mod 256) (store8 a (v mod 256) r))).

Definition load32 (r : Z → Z) (a : Z) : Z :=
  r a + 2 ^ 8 * r (a + 1) + 2 ^ 16 * r (a + 2) + 2 ^ 24 * r (a + 3).

(** ** Page numbers *)

Definition paddr_ok (paddr : Z) : bool := true.
Definition get_vpn2 (vaddr : Z) : Z := Z.shiftr vaddr 13.
Definition get_vpn (vaddr : Z) : Z := Z.shiftr vaddr 12.
Definition get_pfn (paddr : Z) : Z := Z.shiftr paddr 12.
Definition get_frame_start (unmapped : Z) : Z := Z.land unmapped (u32 (Z.lnot (PAGE_SIZE - 1))).
Definition get_paddr (unmapped : Z) : Z := Z.land unmapped 0xffffff.
Definition get_first_level_index (vpn : Z) : Z := Z.shiftr vpn 9.
Definition get_second_level_index (vpn : Z) : Z := Z.land vpn 511.

(** ** The stack of free frames *)

Definition do_mem_init (m : mm_t) : outcome mm_t :=
  '(_, m) ← for_range 0 FRAME_NUM (λ i '(start, m),
    l ← aset (empty_frame m) i start;
    Ok (u32 (start + PAGE_SIZE), m <| empty_frame := l |>)) (0xa08f0000, m);
  Ok (m <| top := 0 |>).

Definition kalloc (m : mm_t) : outcome (Z * mm_t) :=
  if top m <? FRAME_NUM - 1 then
    addr ← aget (empty_frame m) (top m);
    m ← for_range 0 (PAGE_SIZE / 4) (λ i m, Ok (m <| ram ::= store32 (addr + 4 * i) 0 |>)) m;
    r ← aget (empty_frame m) (top m);
    Ok (r, m <| top ::= λ t, u32 (t + 1) |>)
  else Fault NoReturnValue.

Definition kfree (paddr : Z) (m : mm_t) : outcome mm_t :=
  if paddr_ok paddr && (0 <? top m) then
    let m := m <| top ::= λ t, u32 (t - 1) |> in
    l ← aset (empty_frame m) (top m) paddr;
    Ok (m <| empty_frame := l |>)
  else Ok m.

(** ** Page tables *)

(** [p->secondary_pt[i]] *)
Definition get_pt (m : mm_t) (p : option pid) (i : Z) : outcome Z :=
  p ← deref p; t ← aget (secondary_pt m) p; aget t i.

Definition set_pt (m : mm_t) (p : option pid) (i a : Z) : outcome mm_t :=
  p ← deref p;
  t ← aget (secondary_pt m) p;
  t ← aset t i a;
  l ← aset (secondary_pt m) p t;
  Ok (m <| secondary_pt := l |>).

(** The address of an entry, or a null pointer. *)
Definition querry_PTE (k : kstate) (vpn p : Z) (m : mm_t) : outcome (option Z) :=
  proc ← get_proc_by_pid k p;
  second ← get_pt m proc (get_first_level_index vpn);
  Ok (if second =? 0 then None else Some (second + PTE_SIZE * get_second_level_index vpn)).

(** [table[sec].vpn = vpn; table[sec].entry = entry] *)
Definition set_PTE (table sec vpn entry : Z) (m : mm_t) : mm_t :=
  m <| ram ::= store32 (table + PTE_SIZE * sec) vpn |>
    <| ram ::= store32 (table + PTE_SIZE * sec + 4) entry |>.

(** The common body of the two halves of [add_2_page]. *)
Definition map_page (proc : option pid) (base : Z) (m : mm_t) : outcome mm_t :=
  let vpn := get_vpn base in
  let fst := get_first_level_index vpn in
  let sec := get_second_level_index vpn in
  table ← get_pt m proc fst;
  m ← (if table =? 0 then '(page, m) ← kalloc m; set_pt m proc fst page else Ok m);
  '(frame, m) ← kalloc m;
  let entry := COMPRESS_ENTRYLO (get_pfn (get_paddr frame)) 2 1 1 0 in
  table ← get_pt m proc fst;
  Ok (set_PTE table sec vpn entry m).

Definition add_2_page (k : kstate) (vpn2 p : Z) (m : mm_t) : outcome mm_t :=
  let base := u32 (Z.shiftl vpn2 13) in
  proc ← get_proc_by_pid k p;
  m ← map_page proc base m;
  map_page proc (u32 (base + PAGE_SIZE)) m.

Definition page_miss_handler (k : kstate) (vpn2 : Z) (m : mm_t) : outcome mm_t :=
  x ← get_pcb k (current_running k);
  add_2_page k vpn2 (p_pid x) m.

Definition write_TLB (index : option Z) (k : kstate) (a b : option Z) (m : mm_t) : outcome mm_t :=
  a ← deref a;
  x ← get_pcb k (current_running k);
  b ← deref b;
  Ok (m <| tlb ::= (.++ [TlbWrite index
    (Z.lor (u32 (Z.shiftl (Z.shiftr (load32 (ram m) a) 1) 13)) (Z.land (p_pid x) 0xff))
    (load32 (ram m) (a + 4)) (load32 (ram m) (b + 4))]) |>).

Definition write_TLB_index (k : kstate) (a b : option Z) (index : Z) : mm_t → outcome mm_t :=
  write_TLB (Some index) k a b.

Definition write_TLB_rand (k : kstate) (a b : option Z) : mm_t → outcome mm_t :=
  write_TLB None k a b.

(** One half of [do_page_table_static_init], which looks the entry up with the
    address of the current process, [self], in the place of its number. *)
Definition static_page (k : kstate) (self base : Z) (m : mm_t) : outcome (option Z * mm_t) :=
  '(page, m) ← kalloc m;
  '(frame, m) ← kalloc m;
  let vpn := get_vpn base in
  let entry := COMPRESS_ENTRYLO (get_pfn (get_paddr (get_frame_start frame))) 2 1 1 1 in
  let fst := get_first_level_index vpn in
  let sec := get_second_level_index vpn in
  m ← set_pt m (current_running k) fst page;
  let m := set_PTE page sec vpn entry m in
  pte ← querry_PTE k vpn self m;
  Ok (pte, m).

Definition do_page_table_static_init (k : kstate) (self : Z) (m : mm_t) : outcome mm_t :=
  let base := 0x40000000 in
  '(pte1, m) ← static_page k self base m;
  '(pte2, m) ← static_page k self (u32 (base + PAGE_SIZE)) m;
  write_TLB_index k pte1 pte2 10 m.

(** ** Copies between kernel and user space *)

(** The unmapped address of the byte at [vaddr] in the page of [pte]. *)
Definition unmapped_of (r : Z → Z) (pte vaddr : Z) : Z :=
  Z.lor (Z.lor (u32 (Z.shiftl (Z.land (load32 r (pte + 4)) (u32 (Z.lnot 63))) 6))
    (Z.land vaddr 0xfff)) 0xa0000000.

Definition copy_from_user (k : kstate) (src : Z) (dest : bytes) (src_pid size : Z) (m : mm_t) :
    outcome bytes :=
  pte ← querry_PTE k (Z.shiftr src 12) src_pid m;
  pte ← deref pte;
  let unmapped_addr := unmapped_of (ram m) pte src in
  for_range 0 size (λ i dest, aset dest i (ram m (unmapped_addr + i))) dest.

Definition copy_to_user (k : kstate) (src : bytes) (dest dest_pid size : Z) (m : mm_t) :
    outcome mm_t :=
  pte ← querry_PTE k (Z.shiftr dest 12) dest_pid m;
  '(pte, m) ← match pte with
    | None => m ← add_2_page k (Z.shiftr dest 13) dest_pid m;
              pte ← querry_PTE k (Z.shiftr dest 12) dest_pid m; Ok (pte, m)
    | Some _ => Ok (pte, m)
    end;
  pte ← deref pte;
  let unmapped_addr := unmapped_of (ram m) pte dest in
  for_range 0 size (λ i m, c ← aget src i; Ok (m <| ram ::= store8 (unmapped_addr + i) c |>)) m.

(** ** Words *)

Lemma store8_eq a v r : store8 a v r a = v.
Proof. unfold store8. by rewrite Z.eqb_refl. Qed.

Lemma store8_ne a v r x : x ≠ a → store8 a v r x = r x.
Proof. intros. unfold store8. by rewrite (proj2 (Z.eqb_neq x a)). Qed.

Lemma store32_ne a v r x : x < a ∨ a + 4 ≤ x → store32 a v r x = r x.
Proof. intros. unfold store32. by rewrite !store8_ne by lia. Qed.

Lemma store32_zero a r x : a ≤ x < a + 4 → store32 a 0 r x = 0.
Proof.
  intros. unfold store32, store8. repeat case_match; try done. lia.
Qed.

Lemma load32_store32 a v r : 0 ≤ v < 2 ^ 32 → load32 (store32 a v r) a = v.
Proof.
  intros Hv. unfold load32, store32.
  rewrite (store8_ne (a + 3)), (store8_ne (a + 2)), (store8_ne (a + 1)), store8_eq by lia.
  rewrite (store8_ne (a + 3)), (store8_ne (a + 2)), store8_eq by lia.
  rewrite (store8_ne (a + 3)), store8_eq, store8_eq by lia. Z.div_mod_to_equations. lia.
Qed.

Lemma load32_ext r r' a : (∀ x, a ≤ x < a + 4 → r x = r' x) → load32 r a = load32 r' a.
Proof. intros H. unfold load32. by rewrite !H by lia. Qed.

Lemma load32_store32_ne a b v r : b + 4 ≤ a ∨ a + 4 ≤ b → load32 (store32 a v r) b = load32 r b.
Proof. intros. apply load32_ext. intros. apply store32_ne. lia. Qed.

(** ** Bit fields *)

Lemma land_ones_mod x n : 0 ≤ n → Z.land x (2 ^ n - 1) = x mod 2 ^ n.
Proof. intros. rewrite <- Z.land_ones by done. f_equal. rewrite Z.ones_equiv. lia. Qed.

(** Clearing the low [n] bits of a 32-bit word. *)
Lemma land_high x n : 0 ≤ n ≤ 32 → 0 ≤ x < 2 ^ 32 →
  Z.land x (u32 (Z.lnot (2 ^ n - 1))) = x / 2 ^ n * 2 ^ n.
Proof.
  intros Hn Hx. unfold u32. rewrite <- !Z.land_ones by lia.
  rewrite (Z.land_comm (Z.lnot _)), Z.land_assoc, (Z.land_ones x 32), Z.mod_small by lia.
  rewrite <- Z.shiftr_div_pow2, <- Z.shiftl_mul_pow2 by lia.
  replace (2 ^ n - 1) with (Z.ones n) by (rewrite Z.ones_equiv; lia).
  apply Z.bits_inj'. intros i Hi. rewrite Z.land_spec, Z.lnot_spec by lia.
  destruct (Z.lt_ge_cases i n).
  - rewrite Z.ones_spec_low, Z.shiftl_spec_low by lia. by rewrite andb_false_r.
  - rewrite Z.ones_spec_high, Z.shiftl_spec, Z.shiftr_spec by lia.
    rewrite andb_true_r. f_equal. lia.
Qed.

(** ** Addresses *)

Lemma get_vpn_div v : get_vpn v = v / PAGE_SIZE.
Proof. unfold get_vpn. by rewrite Z.shiftr_div_pow2. Qed.

Lemma first_level_div v : get_first_level_index v = v / 512.
Proof. unfold get_first_level_index. by rewrite Z.shiftr_div_pow2. Qed.

Lemma second_level_mod v : get_second_level_index v = v mod 512.
Proof. apply (land_ones_mod v 9). lia. Qed.

(** The frame of an unmapped address, as the driver computes it. *)
Lemma pfn_paddr f : 0 ≤ f → get_pfn (get_paddr f) = f mod 2 ^ 24 / PAGE_SIZE.
Proof.
  intros. unfold get_pfn, get_paddr. rewrite Z.shiftr_div_pow2 by done.
  change 0xffffff with (2 ^ 24 - 1). by rewrite land_ones_mod.
Qed.

Lemma compress_value pfn g :
  0 ≤ pfn < 2 ^ 26 → 0 ≤ g ≤ 1 → COMPRESS_ENTRYLO pfn 2 1 1 g = pfn * 2 ^ 6 + (22 + g).
Proof.
  intros Hp Hg. unfold COMPRESS_ENTRYLO. rewrite Z.shiftl_mul_pow2, u32_small by lia.
  rewrite <- !Z.lor_assoc.
  replace (Z.lor (Z.shiftl 2 3) _) with (22 + g); [by apply lor_add; lia|].
  assert (g = 0 ∨ g = 1) as [-> | ->] by lia; done.
Qed.

(** The unmapped address that the copies compute for the byte at [vaddr] of a
    page mapped to frame [f]: bit 24 of the frame's address is lost. *)
Definition alias (f : Z) : Z := 0xa0000000 + f mod 2 ^ 24.

Lemma unmapped_of_frame r pte vaddr f :
  0 ≤ f → f mod PAGE_SIZE = 0 → 0 ≤ vaddr →
  load32 r (pte + 4) = COMPRESS_ENTRYLO (get_pfn (get_paddr f)) 2 1 1 0 →
  unmapped_of r pte vaddr = alias f + vaddr mod PAGE_SIZE.
Proof.
  intros Hf Hal Hv He. unfold unmapped_of, alias. rewrite He, pfn_paddr by done.
  assert (H24 : 0 ≤ f mod 2 ^ 24 < 2 ^ 24) by (apply Z.mod_pos_bound; lia).
  set (n := f mod 2 ^ 24) in *.
  assert (Hn : n mod PAGE_SIZE = 0).
  { unfold n, PAGE_SIZE in *. Z.div_mod_to_equations. lia. }
  assert (Hq : 0 ≤ n / PAGE_SIZE < 2 ^ 12) by (unfold PAGE_SIZE; Z.div_mod_to_equations; lia).
  rewrite compress_value by lia. change 63 with (2 ^ 6 - 1). rewrite land_high by lia.
  rewrite Z.div_add_l, (Z.div_small (22 + 0)), Z.add_0_r by lia.
  rewrite Z.shiftl_mul_pow2, u32_small by lia.
  change 0xfff with (2 ^ 12 - 1). rewrite land_ones_mod by lia. change (2 ^ 12) with PAGE_SIZE.
  assert (Hm : 0 ≤ vaddr mod PAGE_SIZE < PAGE_SIZE) by (apply Z.mod_pos_bound; done).
  replace (n / PAGE_SIZE * 2 ^ 6 * 2 ^ 6) with (n / PAGE_SIZE * 2 ^ 12) by lia.
  rewrite (lor_add _ _ 12) by (unfold PAGE_SIZE in *; lia).
  replace (n / PAGE_SIZE * 2 ^ 12) with n.
  2: { rewrite (Z.div_mod n PAGE_SIZE) at 1 by done. rewrite Hn. unfold PAGE_SIZE. lia. }
  rewrite Z.lor_comm. change 0xa0000000 with (5 * 2 ^ 29). rewrite lor_add; [lia|lia|].
  unfold PAGE_SIZE in *. lia.
Qed.

(** ** The pool of frames *)

Definition frame_at (i : Z) : Z := 0xa08f0000 + PAGE_SIZE * i.
Definition pool : list Z := frame_at <$> seqZ 0 FRAME_NUM.

Lemma elem_of_pool f : f ∈ pool ↔ ∃ i, f = frame_at i ∧ 0 ≤ i < FRAME_NUM.
Proof.
  unfold pool. rewrite list_elem_of_fmap. split.
  - intros (i & -> & Hi%elem_of_seqZ). exists i. split; [done|lia].
  - intros (i & -> & Hi). exists i. split; [done|]. apply elem_of_seqZ. lia.
Qed.

Lemma NoDup_pool : NoDup pool.
Proof.
  apply (NoDup_fmap_2_strong frame_at).
  - unfold frame_at, PAGE_SIZE. intros i j _ _. lia.
  - apply NoDup_seqZ.
Qed.

Lemma pool_range f : f ∈ pool → 0xa08f0000 ≤ f < 0xa10f0000 ∧ f mod PAGE_SIZE = 0.
Proof.
  rewrite elem_of_pool. intros (i & -> & Hi). unfold frame_at, PAGE_SIZE, FRAME_NUM in *.
  split; [lia|]. Z.div_mod_to_equations. lia.
Qed.

Definition in_page (f x : Z) : Prop := f ≤ x < f + PAGE_SIZE.

(** Two frames do not overlap. *)
Lemma pool_disjoint f g x : f ∈ pool → g ∈ pool → in_page f x → in_page g x → f = g.
Proof.
  rewrite !elem_of_pool. intros (i & -> & Hi) (j & -> & Hj).
  unfold in_page, frame_at, PAGE_SIZE. intros. assert (i = j) by lia. lia.
Qed.

(** [used] are the frames handed out; the others are above [top]. *)
Record frames_ok (m : mm_t) (used : list Z) : Prop := {
  fr_length : Z.of_nat (length (empty_frame m)) = FRAME_NUM;
  fr_top : 0 ≤ top m < FRAME_NUM;
  fr_split : used ++ drop (Z.to_nat (top m)) (empty_frame m) ≡ₚ pool;
}.

Lemma frames_used m used : frames_ok m used → Z.of_nat (length used) = top m.
Proof.
  intros [Hl Ht Hs%Permutation_length]. unfold pool in Hs.
  rewrite length_app, length_drop, length_fmap, length_seqZ in Hs.
  unfold FRAME_NUM in *. lia.
Qed.

Lemma frames_NoDup m used :
  frames_ok m used → NoDup (used ++ drop (Z.to_nat (top m)) (empty_frame m)).
Proof. intros [_ _ ->]. apply NoDup_pool. Qed.

Lemma frames_pool m used f : frames_ok m used → f ∈ used → f ∈ pool.
Proof. intros [_ _ <-] Hf. apply elem_of_app. by left. Qed.

(** ** Boot, allocation and release *)

Lemma do_mem_init_spec m :
  Z.of_nat (length (empty_frame m)) = FRAME_NUM →
  do_mem_init m = Ok (m <| empty_frame := pool |> <| top := 0 |>).
Proof.
  intros Hl. unfold do_mem_init.
  destruct (for_range_inv (λ i (sm : Z * mm_t), sm = (frame_at i,
      m <| empty_frame := take (Z.to_nat i) pool ++ drop (Z.to_nat i) (empty_frame m) |>))
    0 FRAME_NUM (λ i '(start, m), l ← aset (empty_frame m) i start;
      Ok (u32 (start + PAGE_SIZE), m <| empty_frame := l |>)) (0xa08f0000, m))
    as (sm & -> & ->); [done|by destruct m| |].
  - intros i sm Hi ->. set (l := take _ pool ++ _).
    assert (Hlen : length l = length (empty_frame m)).
    { unfold l. rewrite length_app, length_take, length_drop. unfold pool.
      rewrite length_fmap, length_seqZ. unfold FRAME_NUM in *. lia. }
    change (empty_frame (m <| empty_frame := l |>)) with l. rewrite aset_total, bind_Ok by lia.
    eexists. split; [done|]. rewrite u32_small by (unfold frame_at, PAGE_SIZE, FRAME_NUM in *; lia).
    f_equal; [unfold frame_at; lia|].
    assert (Hp : pool !! Z.to_nat i = Some (frame_at i)).
    { unfold pool. rewrite list_lookup_fmap, lookup_seqZ_lt by lia. cbn. f_equal. f_equal. lia. }
    enough (<[Z.to_nat i := frame_at i]> l =
      take (Z.to_nat (i + 1)) pool ++ drop (Z.to_nat (i + 1)) (empty_frame m)) as -> by done.
    replace (Z.to_nat (i + 1)) with (S (Z.to_nat i)) by lia.
    destruct (lookup_lt_is_Some_2 (empty_frame m) (Z.to_nat i)) as [x Hx]; [lia|].
    unfold l. rewrite (take_S_r _ _ _ Hp), (drop_S _ _ _ Hx).
    assert (Ht : length (take (Z.to_nat i) pool) = Z.to_nat i).
    { apply lookup_lt_Some in Hp. rewrite length_take. lia. }
    rewrite insert_app_r_alt, Ht, Nat.sub_diag by lia. cbn. by rewrite <- (assoc_L (++)).
  - rewrite bind_Ok. rewrite take_ge, drop_ge, app_nil_r; [done| |].
    + unfold FRAME_NUM in *. lia.
    + unfold pool. rewrite length_fmap, length_seqZ. lia.
Qed.

Lemma frames_ok_init m : frames_ok (m <| empty_frame := pool |> <| top := 0 |>) [].
Proof.
  split; [|done|done]. cbn -[Z.of_nat pool]. unfold pool. rewrite length_fmap, length_seqZ. done.
Qed.

(** The loop of [kalloc] clears the page. *)
Lemma clear_page addr m :
  ∃ r, for_range 0 (PAGE_SIZE / 4) (λ i m, Ok (m <| ram ::= store32 (addr + 4 * i) 0 |>)) m
    = Ok (m <| ram := r |>) ∧
    (∀ x, in_page addr x → r x = 0) ∧ (∀ x, ¬ in_page addr x → r x = ram m x).
Proof.
  change (PAGE_SIZE / 4) with 1024.
  destruct (for_range_inv (λ i m', ∃ r, m' = m <| ram := r |> ∧
      (∀ x, addr ≤ x < addr + 4 * i → r x = 0) ∧
      (∀ x, ¬ (addr ≤ x < addr + 4 * i) → r x = ram m x))
    0 1024 (λ i m, Ok (m <| ram ::= store32 (addr + 4 * i) 0 |>)) m)
    as (m' & -> & r & -> & Hz & Hs); [done| | |].
  - exists (ram m). split_and!; [by destruct m|lia|done].
  - intros i m' Hi (r & -> & Hz & Hs). eexists. split; [done|].
    exists (store32 (addr + 4 * i) 0 r). split_and!; [done| |].
    + intros x Hx. destruct (decide (addr + 4 * i ≤ x < addr + 4 * i + 4)).
      * by apply store32_zero.
      * rewrite store32_ne by lia. apply Hz. lia.
    + intros x Hx. rewrite store32_ne by lia. apply Hs. lia.
  - exists r. split; [done|]. unfold in_page, PAGE_SIZE.
    split; intros x Hx; [apply Hz; lia|apply Hs; lia].
Qed.

Lemma kalloc_spec m used :
  frames_ok m used → top m < FRAME_NUM - 1 →
  ∃ f r, kalloc m = Ok (f, m <| ram := r |> <| top ::= Z.succ |>) ∧
    f ∈ pool ∧ f ∉ used ∧ frames_ok (m <| ram := r |> <| top ::= Z.succ |>) (f :: used) ∧
    (∀ x, in_page f x → r x = 0) ∧ (∀ x, ¬ in_page f x → r x = ram m x).
Proof.
  intros Hok Htop. pose proof (frames_NoDup m used Hok) as Hnd. destruct Hok as [Hl Ht Hs].
  unfold kalloc. destruct (Z.ltb_spec (top m) (FRAME_NUM - 1)); [|lia].
  destruct (aget_total (empty_frame m) (top m)) as (f & Hf); [lia|]. rewrite Hf, bind_Ok.
  destruct (clear_page f m) as (r & -> & Hz & Hr). rewrite bind_Ok.
  change (empty_frame (m <| ram := r |>)) with (empty_frame m).
  change (top (m <| ram := r |>)) with (top m). rewrite Hf, bind_Ok.
  apply aget_Ok in Hf as [_ Hf]. rewrite (drop_S _ _ _ Hf) in Hs, Hnd.
  replace (m <| ram := r |> <| top ::= λ t, u32 (t + 1) |>)
    with (m <| ram := r |> <| top ::= Z.succ |>).
  2: { destruct m as [e t r0 pt tl]. change (Mm e (Z.succ t) r pt tl = Mm e (u32 (t + 1)) r pt tl).
       cbn -[u32] in Ht. rewrite u32_small by (unfold FRAME_NUM in *; lia). done. }
  exists f, r. split; [done|]. split_and!; [| | |done|done].
  - rewrite <- Hs. apply elem_of_app. right. left.
  - intros Hu. apply NoDup_app in Hnd as (_ & Hd & _). apply (Hd f Hu). left.
  - split; [done|cbn; lia|]. cbn -[Z.succ]. rewrite Z2Nat.inj_succ by lia. rewrite <- Hs.
    apply Permutation_middle.
Qed.

Lemma kalloc_exhausted m : FRAME_NUM - 1 ≤ top m → kalloc m = Fault NoReturnValue.
Proof. intros. unfold kalloc. destruct (Z.ltb_spec (top m) (FRAME_NUM - 1)); [lia|done]. Qed.

Lemma kfree_spec m f used :
  frames_ok m (f :: used) → ∃ m', kfree f m = Ok m' ∧ frames_ok m' used.
Proof.
  intros Hok. pose proof (frames_used m _ Hok) as Hu. destruct Hok as [Hl Ht Hs].
  unfold kfree. cbn in Hu. destruct (Z.ltb_spec 0 (top m)); [|lia]. cbn [andb paddr_ok].
  cbv zeta. replace (m <| top ::= λ t, u32 (t - 1) |>) with (m <| top := top m - 1 |>).
  2: { destruct m as [e t r0 pt tl]. change (Mm e (t - 1) r0 pt tl = Mm e (u32 (t - 1)) r0 pt tl).
       cbn -[u32] in Ht. rewrite u32_small by (unfold FRAME_NUM in *; cbn in *; lia). done. }
  change (empty_frame (m <| top := top m - 1 |>)) with (empty_frame m).
  change (top (m <| top := top m - 1 |>)) with (top m - 1).
  rewrite aset_total, bind_Ok by lia. eexists. split; [done|]. split.
  - cbn -[Z.of_nat]. by rewrite length_insert.
  - cbn. lia.
  - cbn. rewrite <- Hs. replace (Z.to_nat (top m)) with (S (Z.to_nat (top m - 1))) by lia.
    rewrite (drop_S (<[Z.to_nat (top m - 1) := f]> (empty_frame m)) f)
      by (apply list_lookup_insert_eq; lia).
    rewrite drop_insert_lt by lia. symmetry. apply Permutation_middle.
Qed.

#[export] Instance frames_ok_proper m : Proper ((≡ₚ) ==> iff) (frames_ok m).
Proof.
  assert (H : ∀ u v, u ≡ₚ v → frames_ok m u → frames_ok m v).
  { intros u v Huv [Hl Ht Hs]. split; [done|done|]. by rewrite <- Huv. }
  intros u v Huv. split; by apply H.
Qed.

(** The allocator used by clients that release only frames they hold. *)
Inductive frame_step : mm_t * list Z → mm_t * list Z → Prop :=
  | step_alloc m held f m' : kalloc m = Ok (f, m') → frame_step (m, held) (m', f :: held)
  | step_free m l1 f l2 m' : kfree f m = Ok m' → frame_step (m, l1 ++ f :: l2) (m', l1 ++ l2).

Lemma frame_step_ok a b : frame_step a b → frames_ok a.1 a.2 → frames_ok b.1 b.2.
Proof.
  intros [m held f m' Ha|m l1 f l2 m' Hf] Hok; cbn [fst snd] in *.
  - destruct (decide (top m < FRAME_NUM - 1)) as [Ht|Ht].
    + destruct (kalloc_spec m held Hok Ht) as (f' & r & Ha' & _ & _ & Hok' & _).
      rewrite Ha' in Ha. apply (inj Ok) in Ha. injection Ha as <- <-. exact Hok'.
    + rewrite kalloc_exhausted in Ha by lia. done.
  - rewrite <- Permutation_middle in Hok. destruct (kfree_spec m f _ Hok) as (m1 & Hf1 & Hok1).
    rewrite Hf1 in Hf. apply (inj Ok) in Hf as <-. exact Hok1.
Qed.

Lemma frame_steps_ok a b : rtc frame_step a b → frames_ok a.1 a.2 → frames_ok b.1 b.2.
Proof. induction 1; [done|]. eauto using frame_step_ok. Qed.

(** C16. From [do_mem_init] on, for clients that release only what they hold: the
    frames held are distinct frames of the pool; while fewer than 2047 are held
    [kalloc] returns a further one, distinct from all of them and cleared; when
    2047 are held, it returns nothing. *)
Theorem frames_exclusive m m0 m1 held :
  Z.of_nat (length (empty_frame m)) = FRAME_NUM → do_mem_init m = Ok m0 →
  rtc frame_step (m0, []) (m1, held) →
  NoDup held ∧ held ⊆ pool ∧
  (Z.of_nat (length held) < FRAME_NUM - 1 →
    ∃ f m', kalloc m1 = Ok (f, m') ∧ f ∈ pool ∧ f ∉ held ∧
      ∀ x, in_page f x → ram m' x = 0) ∧
  (Z.of_nat (length held) = FRAME_NUM - 1 → kalloc m1 = Fault NoReturnValue).
Proof.
  intros Hl Hinit Hsteps. rewrite do_mem_init_spec in Hinit by done. apply (inj Ok) in Hinit as <-.
  pose proof (frame_steps_ok _ _ Hsteps (frames_ok_init m)) as Hok. cbn [fst snd] in Hok.
  pose proof (frames_used _ _ Hok) as Hu. split_and!.
  - by apply frames_NoDup, NoDup_app in Hok as [? _].
  - intros f Hf. by apply (frames_pool m1 held).
  - intros Hlt. destruct (kalloc_spec m1 held Hok) as (f & r & Ha & Hp & Hn & _ & Hz & _); [lia|].
    exists f, (m1 <| ram := r |> <| top ::= Z.succ |>). done.
  - intros Heq. apply kalloc_exhausted. lia.
Qed.

Definition boot_mm : mm_t := Mm (fill FRAME_NUM 0) 77 (λ _, 255) (replicate 16 (fill FIRST_PTE_NUM 0)) [].

(** One frame is allocated, released, and allocated again. *)
Lemma frames_exclusive_witness :
  ∃ m0 m1 f, do_mem_init boot_mm = Ok m0 ∧ rtc frame_step (m0, []) (m1, [f]) ∧
    f ∈ pool ∧ ∃ g m2, kalloc m1 = Ok (g, m2) ∧ g ∉ [f].
Proof.
  assert (Hl : Z.of_nat (length (empty_frame boot_mm)) = FRAME_NUM) by (apply length_fill; done).
  pose proof (do_mem_init_spec boot_mm Hl) as Hinit.
  set (m0 := boot_mm <| empty_frame := pool |> <| top := 0 |>) in *.
  assert (Htop : top m0 < FRAME_NUM - 1) by exact eq_refl.
  destruct (kalloc_spec m0 [] (frames_ok_init boot_mm) Htop) as (f & r & Ha & _ & _ & Hok & _).
  set (m1 := m0 <| ram := r |> <| top ::= Z.succ |>) in *.
  destruct (kfree_spec m1 f [] Hok) as (m2 & Hf & Hok2).
  destruct (kalloc_spec m2 [] Hok2) as (g & r2 & Hg & _ & _ & Hok3 & _).
  { rewrite <- (frames_used _ _ Hok2). exact eq_refl. }
  set (m3 := m2 <| ram := r2 |> <| top ::= Z.succ |>) in *.
  assert (Hsteps : rtc frame_step (m0, []) (m3, [g])).
  { apply rtc_l with (m1, [f]); [by apply step_alloc|].
    apply rtc_l with (m2, []); [by apply (step_free m1 [] f [])|].
    by apply rtc_once, step_alloc. }
  destruct (frames_exclusive boot_mm m0 m3 [g] Hl Hinit Hsteps) as (_ & Hsub & Hnext & _).
  destruct Hnext as (h & m4 & Hh & _ & Hne & _); [exact eq_refl|].
  exists m0, m3, g. split; [exact Hinit|]. split; [exact Hsteps|].
  split; [apply Hsub, list_elem_of_here|].
  exists h, m4. split; [exact Hh|exact Hne].
Defined.

(** ** Page tables *)

Definition NUM_TABLES : Z := NUM_MAX_TASK.

(** Page tables lie in distinct frames in use. *)
Record pt_ok (m : mm_t) (used : list Z) : Prop := {
  pt_rows : Z.of_nat (length (secondary_pt m)) = NUM_TABLES;
  pt_row : Forall (λ t, Z.of_nat (length t) = FIRST_PTE_NUM) (secondary_pt m);
  pt_used p i a : get_pt m (Some p) i = Ok a → a ≠ 0 → a ∈ used;
  pt_inj p i p' i' a : get_pt m (Some p) i = Ok a → get_pt m (Some p') i' = Ok a → a ≠ 0 →
    p = p' ∧ i = i';
}.

Definition in_tables (p i : Z) : Prop := 0 ≤ p < NUM_TABLES ∧ 0 ≤ i < FIRST_PTE_NUM.

Lemma get_pt_total m used p i :
  pt_ok m used → in_tables p i → ∃ a, get_pt m (Some p) i = Ok a.
Proof.
  intros [Hr Hrow _ _] [Hp Hi]. unfold get_pt. cbn [deref]. rewrite bind_Ok.
  destruct (aget_total (secondary_pt m) p) as (t & Ht); [lia|]. rewrite Ht, bind_Ok.
  apply aget_Ok in Ht as [_ Ht]. apply aget_total. rewrite Forall_forall in Hrow.
  rewrite (Hrow t); [lia|]. by eapply list_elem_of_lookup_2.
Qed.

Lemma set_pt_spec m used p i a :
  pt_ok m used → in_tables p i →
  ∃ l, set_pt m (Some p) i a = Ok (m <| secondary_pt := l |>) ∧
    Z.of_nat (length l) = NUM_TABLES ∧ Forall (λ t, Z.of_nat (length t) = FIRST_PTE_NUM) l ∧
    ∀ p' i', get_pt (m <| secondary_pt := l |>) (Some p') i' =
      if decide (p' = p ∧ i' = i) then Ok a else get_pt m (Some p') i'.
Proof.
  intros [Hr Hrow _ _] [Hp Hi]. unfold set_pt. cbn [deref]. rewrite bind_Ok.
  destruct (aget_total (secondary_pt m) p) as (t & Ht); [lia|]. rewrite Ht, bind_Ok.
  pose proof Ht as Ht'. apply aget_Ok in Ht as [_ Ht].
  assert (Hlen : Z.of_nat (length t) = FIRST_PTE_NUM).
  { rewrite Forall_forall in Hrow. apply Hrow. by eapply list_elem_of_lookup_2. }
  rewrite aset_total, bind_Ok, aset_total, bind_Ok by lia. eexists. split; [done|].
  split_and!; [by rewrite length_insert| |].
  - apply Forall_insert; [done|]. by rewrite length_insert.
  - intros p' i'. unfold get_pt. cbn [deref]. rewrite !bind_Ok.
    change (secondary_pt (m <| secondary_pt := ?l |>)) with l.
    destruct (decide (p' = p)) as [->|Hne].
    + rewrite aget_insert_eq, bind_Ok by lia. rewrite Ht', bind_Ok.
      destruct (decide (i' = i)) as [->|Hi'].
      * rewrite aget_insert_eq, decide_True by (done || lia). done.
      * rewrite aget_insert_ne, decide_False by (lia || naive_solver). done.
    + rewrite aget_insert_ne by lia. rewrite decide_False by naive_solver. done.
Qed.

(** The entry of page [v] of process [p]: its number and its TLB word. *)
Definition pte (m : mm_t) (p v : Z) : option (Z * Z) :=
  match get_pt m (Some p) (get_first_level_index v) with
  | Ok a => if a =? 0 then None
            else let e := a + PTE_SIZE * get_second_level_index v in
                 Some (load32 (ram m) e, load32 (ram m) (e + 4))
  | _ => None
  end.

Lemma second_level_range v : 0 ≤ get_second_level_index v < 512.
Proof. rewrite second_level_mod. apply Z.mod_pos_bound. lia. Qed.

(** The words of an entry lie in the page of its table. *)
Lemma entry_in_page a v x :
  let e := a + PTE_SIZE * get_second_level_index v in e ≤ x < e + 8 → in_page a x.
Proof.
  pose proof (second_level_range v). unfold in_page, PAGE_SIZE, PTE_SIZE. cbv zeta. lia.
Qed.

Lemma pte_kept m m' p v a e :
  get_pt m (Some p) (get_first_level_index v) = Ok a →
  get_pt m' (Some p) (get_first_level_index v) = Ok a →
  (∀ x, let e := a + PTE_SIZE * get_second_level_index v in
    e ≤ x < e + 8 → ram m' x = ram m x) →
  pte m p v = Some e → pte m' p v = Some e.
Proof.
  unfold pte. intros -> -> Hx. destruct (a =? 0); [done|]. intros [= <-]. do 2 f_equal.
  - apply load32_ext. intros. apply Hx. lia.
  - apply load32_ext. intros. apply Hx. lia.
Qed.

Lemma page_indices v v' :
  get_first_level_index v = get_first_level_index v' →
  get_second_level_index v = get_second_level_index v' → v = v'.
Proof.
  rewrite !first_level_div, !second_level_mod. intros H1 H2.
  rewrite (Z.div_mod v 512), (Z.div_mod v' 512) by done. by rewrite H1, H2.
Qed.

(** What the steps of [map_page] leave alone: the pages in use that hold no page
    table, and the tables there were. *)
Record extends (m : mm_t) (used : list Z) (m' : mm_t) (used' : list Z) : Prop := {
  ex_frames : frames_ok m' used';
  ex_tables : pt_ok m' used';
  ex_used : used ⊆ used';
  ex_old p i b : get_pt m (Some p) i = Ok b → b ≠ 0 → get_pt m' (Some p) i = Ok b;
  ex_new p i b : get_pt m' (Some p) i = Ok b → b ≠ 0 →
    get_pt m (Some p) i = Ok b ∨ b ∉ used;
}.

Lemma kalloc_extends m used :
  frames_ok m used → pt_ok m used → top m < FRAME_NUM - 1 →
  ∃ f m', kalloc m = Ok (f, m') ∧ top m' = top m + 1 ∧ extends m used m' (f :: used) ∧
    f ∈ pool ∧ f ∉ used ∧ secondary_pt m' = secondary_pt m ∧
    (∀ x, in_page f x → ram m' x = 0) ∧ (∀ x, ¬ in_page f x → ram m' x = ram m x).
Proof.
  intros Hok Hpt Ht. destruct (kalloc_spec m used Hok Ht) as (f & r & Ha & Hp & Hn & Hok' & Hz & Hr).
  exists f, (m <| ram := r |> <| top ::= Z.succ |>). destruct Hpt as [H1 H2 H3 H4].
  split_and!; try done. split; [done| |set_solver|done|by left].
  split; [done|done| |done]. intros p i a Hg Ha0. right. by apply (H3 p i).
Qed.

(** The first step of [map_page]: the table that will hold the entry. *)
Definition ensure_table (proc : option pid) (fst : Z) (m : mm_t) : outcome mm_t :=
  table ← get_pt m proc fst;
  if table =? 0 then '(page, m) ← kalloc m; set_pt m proc fst page else Ok m.

Lemma ensure_table_spec m used p i :
  frames_ok m used → pt_ok m used → in_tables p i → top m < FRAME_NUM - 1 →
  ∃ m' used' a, ensure_table (Some p) i m = Ok m' ∧ extends m used m' used' ∧
    get_pt m' (Some p) i = Ok a ∧ a ≠ 0 ∧ a ∈ used' ∧ top m' ≤ top m + 1 ∧
    ∀ g x, g ∈ used → in_page g x → ram m' x = ram m x.
Proof.
  intros Hok Hpt Hi Ht. unfold ensure_table.
  destruct (get_pt_total m used p i Hpt Hi) as (a & Ha). rewrite Ha, bind_Ok.
  destruct (Z.eqb_spec a 0) as [->|Ha0].
  - destruct (kalloc_extends m used Hok Hpt Ht)
      as (f & m1 & -> & Htop & Hex & Hpool & Hnew & Hsame & Hz & Hr).
    rewrite bind_Ok. cbv beta iota. pose proof (ex_tables _ _ _ _ Hex) as Hpt1.
    destruct (set_pt_spec m1 (f :: used) p i f Hpt1 Hi) as (l & -> & Hl & Hrow & Hget).
    assert (Hf0 : f ≠ 0) by (apply pool_range in Hpool; lia).
    assert (Hold : ∀ p i, get_pt m1 (Some p) i = get_pt m (Some p) i).
    { intros. unfold get_pt. by rewrite Hsame. }
    exists (m1 <| secondary_pt := l |>), (f :: used), f. split; [done|]. split_and!; try done.
    + destruct Hex as [[??] _ Hsub _ _]. destruct Hpt as [_ _ Hu Hinj]. split; [done| |done| |].
      * split; [done|done| |].
        -- intros p' i' b. rewrite Hget, Hold. case_decide; [|intros; right; by eapply Hu].
           intros [= <-] _. left.
        -- intros p1 i1 p2 i2 b. rewrite !Hget, !Hold. intros H1 H2 Hb.
           repeat case_decide; [naive_solver| | |by eapply Hinj];
             simplify_eq; exfalso; apply Hnew; by eapply Hu.
      * intros p' i' b Hb Hb0. rewrite Hget, Hold. case_decide as Hd; [|done].
        destruct Hd as [-> ->]. rewrite Ha in Hb. congruence.
      * intros p' i' b. rewrite Hget, Hold. case_decide; [|by left]. intros [= <-] _. by right.
    + rewrite Hget. by rewrite decide_True.
    + left.
    + change (top m1 ≤ top m + 1). lia.
    + intros g x Hg Hx. change (ram m1 x = ram m x). apply Hr. intros Hfx.
      apply Hnew. by rewrite (pool_disjoint f g x Hpool (frames_pool m used g Hok Hg)).
  - exists m, used, a. split; [done|]. split_and!; try done; [| |lia].
    + split; try done. by left.
    + by eapply pt_used.
Qed.

Lemma set_PTE_ram a v vpn entry m :
  0 ≤ vpn < 2 ^ 32 → 0 ≤ entry < 2 ^ 32 →
  let e := a + PTE_SIZE * get_second_level_index v in
  let m' := set_PTE a (get_second_level_index v) vpn entry m in
  load32 (ram m') e = vpn ∧ load32 (ram m') (e + 4) = entry ∧
  ∀ x, ¬ (e ≤ x < e + 8) → ram m' x = ram m x.
Proof.
  intros Hv He e m'.
  change (ram m') with (store32 (e + 4) entry (store32 e vpn (ram m))). split_and!.
  - rewrite load32_store32_ne by lia. by apply load32_store32.
  - by apply load32_store32.
  - intros x Hx. by rewrite !store32_ne by lia.
Qed.

Lemma set_PTE_extends m used m' used' a s vpn entry :
  extends m used m' used' → extends m used (set_PTE a s vpn entry m') used'.
Proof.
  intros [[H1 H2 H3] [H4 H5 H6 H7] H8 H9 H10]. split; [by split|by split|done|done|done].
Qed.

Lemma extends_trans m1 u1 m2 u2 m3 u3 :
  extends m1 u1 m2 u2 → extends m2 u2 m3 u3 → extends m1 u1 m3 u3.
Proof.
  intros [_ _ Hu1 Ho1 Hn1] [Hf Ht Hu2 Ho2 Hn2]. split; [done|done| | |].
  - by transitivity u2.
  - intros p i b Hb H0. apply Ho2; [|done]. by apply Ho1.
  - intros p i b Hb H0. destruct (Hn2 p i b Hb H0) as [Hb2|Hb2].
    + by apply Hn1.
    + right. intros ?. by apply Hb2, Hu1.
Qed.

(** The entry that maps a page to frame [f]. *)
Definition entry_of (f : Z) : Z := COMPRESS_ENTRYLO (get_pfn (get_paddr f)) 2 1 1 0.

Lemma entry_range f : 0 ≤ f → 0 ≤ entry_of f < 2 ^ 32.
Proof.
  intros Hf. unfold entry_of. rewrite pfn_paddr by done.
  assert (0 ≤ f mod 2 ^ 24 / PAGE_SIZE < 2 ^ 12).
  { unfold PAGE_SIZE. Z.div_mod_to_equations. lia. }
  rewrite compress_value by lia. lia.
Qed.

(** The unmapped address of the page that a TLB word leads to: its frame number is
    a physical one. *)
Definition entry_page (lo : Z) : Z := 0xa0000000 + Z.shiftr lo 6 * PAGE_SIZE.

(** Page [v] of process [p] has a valid and writable entry that leads to the page
    at the unmapped address [a]. *)
Definition maps (m : mm_t) (p v a : Z) : Prop :=
  ∃ lo, pte m p v = Some (v, lo) ∧ Z.testbit lo 1 = true ∧ Z.testbit lo 2 = true ∧ entry_page lo = a.

(** The entry made for a frame leads to the frame itself below [0xa1000000], and to
    a page of low memory above. *)
Lemma entry_of_page f :
  f ∈ pool → entry_page (entry_of f) = alias f ∧
  alias f = (if decide (f < 0xa1000000) then f else f - 0x1000000).
Proof.
  intros [Hr Hm]%pool_range. unfold entry_page, entry_of, alias. rewrite pfn_paddr by lia.
  assert (0 ≤ f mod 2 ^ 24 / PAGE_SIZE < 2 ^ 12).
  { unfold PAGE_SIZE. Z.div_mod_to_equations. lia. }
  rewrite compress_value, Z.shiftr_div_pow2 by lia. rewrite Z.div_add_l, (Z.div_small (22 + 0)) by lia.
  unfold PAGE_SIZE in *. split; [Z.div_mod_to_equations; lia|].
  case_decide; Z.div_mod_to_equations; lia.
Qed.

Lemma entry_of_bits f : Z.testbit (entry_of f) 1 = true ∧ Z.testbit (entry_of f) 2 = true.
Proof.
  unfold entry_of, COMPRESS_ENTRYLO. rewrite !Z.lor_spec. split.
  - replace (Z.testbit (Z.shiftl 1 1) 1) with true by done. by rewrite ?orb_true_r.
  - replace (Z.testbit (Z.shiftl 1 2) 2) with true by done. by rewrite ?orb_true_r.
Qed.

(** The entry of page [v] of process [p] is the one that the code makes for frame
    [f], which is in use and holds no page table. *)
Record entry_made (m : mm_t) (used : list Z) (p v f : Z) : Prop := {
  mp_entry : pte m p v = Some (v, entry_of f);
  mp_used : f ∈ used;
  mp_data p' i : get_pt m (Some p') i ≠ Ok f;
}.

Lemma entry_made_maps m used p v f :
  frames_ok m used → entry_made m used p v f →
  maps m p v (if decide (f < 0xa1000000) then f else f - 0x1000000).
Proof.
  intros Hok [He Hu _]. destruct (entry_of_page f (frames_pool m used f Hok Hu)) as [Hp <-].
  destruct (entry_of_bits f). by exists (entry_of f).
Qed.

Lemma map_page_eq proc base m :
  map_page proc base m =
    (m ← ensure_table proc (get_first_level_index (get_vpn base)) m;
     '(frame, m) ← kalloc m;
     table ← get_pt m proc (get_first_level_index (get_vpn base));
     Ok (set_PTE table (get_second_level_index (get_vpn base)) (get_vpn base) (entry_of frame) m)).
Proof.
  unfold map_page, ensure_table. destruct (get_pt m proc _) as [a| |]; [|done|done].
  rewrite !bind_Ok. by destruct (a =? 0).
Qed.

(** Entries of other pages survive writes to one entry and to fresh pages. *)
Lemma other_entries m used m' used' p v a :
  frames_ok m used → pt_ok m used → extends m used m' used' → get_pt m' (Some p) (get_first_level_index v) = Ok a →
  (∀ g x, g ∈ used → in_page g x →
    let e := a + PTE_SIZE * get_second_level_index v in ¬ (e ≤ x < e + 8) → ram m' x = ram m x) →
  ∀ p' v' w, (p', v') ≠ (p, v) → pte m p' v' = Some w → pte m' p' v' = Some w.
Proof.
  intros Hok Hpt Hex Ha Hram p' v' w Hne Hw. pose proof Hw as Hw'. unfold pte in Hw'.
  destruct (get_pt m (Some p') (get_first_level_index v')) as [b| |] eqn:Hb; [|done|done].
  destruct (Z.eqb_spec b 0) as [->|Hb0]; [done|].
  pose proof (ex_old _ _ _ _ Hex _ _ _ Hb Hb0) as Hb'.
  apply (pte_kept m m' p' v' b); [done|done| |done].
  intros x e Hx. assert (Hbu : b ∈ used) by (by eapply (pt_used m)).
  apply (Hram b x Hbu); [by apply (entry_in_page b v')|]. cbv zeta. intros Hax.
  assert (Hab : a = b ∨ a ≠ b) by lia. destruct Hab as [-> | Hab].
  - destruct (pt_inj _ _ (ex_tables _ _ _ _ Hex) _ _ _ _ _ Ha Hb' Hb0) as [-> Hfst].
    apply Hne. f_equal. symmetry. apply page_indices; [done|].
    unfold e, PTE_SIZE in *. lia.
  - assert (a ≠ 0).
    { intros ->. pose proof (second_level_range v). pose proof (second_level_range v').
      pose proof (pool_range b (frames_pool m used b Hok Hbu)) as [? _].
      unfold e, PTE_SIZE in *. lia. }
    apply Hab, (pool_disjoint a b x).
    + eapply frames_pool; [apply (ex_frames _ _ _ _ Hex)|].
      by apply (pt_used _ _ (ex_tables _ _ _ _ Hex) _ _ _ Ha).
    + by eapply frames_pool.
    + by apply (entry_in_page a v).
    + by apply (entry_in_page b v').
Qed.

Lemma map_page_spec m used p base :
  frames_ok m used → pt_ok m used → 0 ≤ p < NUM_TABLES → 0 ≤ base < 2 ^ 31 →
  top m + 2 < FRAME_NUM →
  ∃ m' used' f, map_page (Some p) base m = Ok m' ∧ extends m used m' used' ∧
    top m' ≤ top m + 2 ∧ f ∈ pool ∧ f ∉ used ∧ entry_made m' used' p (get_vpn base) f ∧
    (∀ x, in_page f x → ram m' x = 0) ∧
    (∀ g x, g ∈ used → (∀ p' i, get_pt m' (Some p') i ≠ Ok g) → in_page g x → ram m' x = ram m x) ∧
    (∀ p' v' w, (p', v') ≠ (p, get_vpn base) → pte m p' v' = Some w → pte m' p' v' = Some w).
Proof.
  intros Hok Hpt Hp Hbase Ht. rewrite map_page_eq. set (v := get_vpn base).
  assert (Hv : 0 ≤ v < 2 ^ 19).
  { unfold v. rewrite get_vpn_div. unfold PAGE_SIZE. Z.div_mod_to_equations. lia. }
  assert (Hi : in_tables p (get_first_level_index v)).
  { split; [done|]. rewrite first_level_div. unfold FIRST_PTE_NUM. Z.div_mod_to_equations. lia. }
  destruct (ensure_table_spec m used p _ Hok Hpt Hi) as (m1 & u1 & a & -> & Hex1 & Ha & Ha0 & Hau & Ht1 & Hr1);
    [lia|]. rewrite bind_Ok.
  destruct (kalloc_extends m1 u1 (ex_frames _ _ _ _ Hex1) (ex_tables _ _ _ _ Hex1))
    as (f & m2 & -> & Ht2 & Hex2 & Hpool & Hnew & Hsame & Hz & Hr2); [lia|].
  rewrite bind_Ok. cbv beta iota. pose proof (ex_old _ _ _ _ Hex2 _ _ _ Ha Ha0) as Ha2.
  rewrite Ha2, bind_Ok.
  destruct (set_PTE_ram a v v (entry_of f) m2) as (Hl1 & Hl2 & Hr3);
    [lia|apply entry_range; apply pool_range in Hpool; lia|].
  set (m3 := set_PTE a _ v (entry_of f) m2) in *.
  pose proof (set_PTE_extends m used _ _ a (get_second_level_index v) v (entry_of f)
    (extends_trans _ _ _ _ _ _ Hex1 Hex2)) as Hex. fold m3 in Hex.
  assert (Hapool : a ∈ pool) by (eapply frames_pool; [apply (ex_frames _ _ _ _ Hex1)|done]).
  assert (Hfa : f ≠ a) by (intros ->; done).
  assert (Hout : ∀ x, in_page f x → ram m3 x = 0).
  { intros x Hx. rewrite Hr3; [by apply Hz|]. intros He. apply Hfa.
    by apply (pool_disjoint f a x); [..|apply (entry_in_page a v)]. }
  assert (Hused : ∀ g x, g ∈ used → in_page g x → ¬ (a + PTE_SIZE * get_second_level_index v ≤ x
    < a + PTE_SIZE * get_second_level_index v + 8) → ram m3 x = ram m x).
  { intros g x Hg Hx He. rewrite (Hr3 x He), (Hr2 x); [by apply (Hr1 g)|].
    intros Hfx. apply Hnew. rewrite (pool_disjoint f g x Hpool (frames_pool m used g Hok Hg) Hfx Hx).
    by apply (ex_used _ _ _ _ Hex1). }
  exists m3, (f :: u1), f. split; [done|]. split_and!; try done.
  - change (top m2 ≤ top m + 2). lia.
  - intros Hf. by apply Hnew, (ex_used _ _ _ _ Hex1).
  - split.
    + unfold pte. change (get_pt m3) with (get_pt m2). rewrite Ha2.
      rewrite (proj2 (Z.eqb_neq a 0)) by done. by rewrite Hl1, Hl2.
    + left.
    + intros p' i Hf. assert (Hf1 : get_pt m1 (Some p') i = Ok f).
      { unfold get_pt in *. by rewrite <- Hsame. }
      apply Hnew, (pt_used _ _ (ex_tables _ _ _ _ Hex1) _ _ _ Hf1).
      apply pool_range in Hpool. lia.
  - intros g x Hg Hnt Hx. apply (Hused g x Hg Hx). intros He.
    apply (Hnt p (get_first_level_index v)). change (get_pt m3) with (get_pt m2). rewrite Ha2. f_equal.
    apply (pool_disjoint a g x); [done|by eapply frames_pool|by apply (entry_in_page a v)|done].
  - by apply (other_entries m used m3 (f :: u1) p v a).
Qed.

Lemma get_proc_by_pid_Some k q p :
  get_proc_by_pid k q = Ok (Some p) → p = q ∧ 0 ≤ p < NUM_TABLES.
Proof.
  unfold get_proc_by_pid, NUM_TABLES. destruct (_ || _) eqn:Hr; [done|].
  apply orb_false_iff in Hr as [?%Z.ltb_ge ?%Z.leb_gt]. intros (x & _ & Hx)%bind_Ok_inv.
  case_decide; [|done]. injection Hx as <-. split; [done|lia].
Qed.

Lemma add_2_page_spec k q p vpn2 m used :
  get_proc_by_pid k q = Ok (Some p) → 0 ≤ vpn2 < 2 ^ 18 →
  frames_ok m used → pt_ok m used → top m + 4 < FRAME_NUM →
  ∃ m' used' f0 f1, add_2_page k vpn2 q m = Ok m' ∧ extends m used m' used' ∧
    f0 ≠ f1 ∧ f0 ∈ pool ∧ f1 ∈ pool ∧ f0 ∉ used ∧ f1 ∉ used ∧
    entry_made m' used' p (2 * vpn2) f0 ∧ entry_made m' used' p (2 * vpn2 + 1) f1 ∧
    (∀ x, in_page f0 x ∨ in_page f1 x → ram m' x = 0) ∧
    (∀ p' v w, (p', v) ≠ (p, 2 * vpn2) → (p', v) ≠ (p, 2 * vpn2 + 1) →
      pte m p' v = Some w → pte m' p' v = Some w).
Proof.
  intros Hq Hv Hok Hpt Ht. destruct (get_proc_by_pid_Some _ _ _ Hq) as [_ Hp].
  unfold add_2_page. rewrite Hq, bind_Ok. rewrite Z.shiftl_mul_pow2, (u32_small (vpn2 * 2 ^ 13)) by lia.
  assert (Hv0 : get_vpn (vpn2 * 2 ^ 13) = 2 * vpn2).
  { rewrite get_vpn_div. replace (vpn2 * 2 ^ 13) with (2 * vpn2 * PAGE_SIZE) by (unfold PAGE_SIZE; lia).
    by apply Z.div_mul. }
  assert (Hv1 : get_vpn (u32 (vpn2 * 2 ^ 13 + PAGE_SIZE)) = 2 * vpn2 + 1).
  { rewrite u32_small by (unfold PAGE_SIZE; lia). rewrite get_vpn_div.
    replace (vpn2 * 2 ^ 13 + PAGE_SIZE) with ((2 * vpn2 + 1) * PAGE_SIZE) by (unfold PAGE_SIZE; lia).
    by apply Z.div_mul. }
  destruct (map_page_spec m used p (vpn2 * 2 ^ 13) Hok Hpt Hp)
    as (m1 & u1 & f0 & -> & Hex1 & Ht1 & Hf0 & Hn0 & Hm0 & Hz0 & _ & Ho1); [lia|lia|].
  rewrite bind_Ok.
  destruct (map_page_spec m1 u1 p (u32 (vpn2 * 2 ^ 13 + PAGE_SIZE)) (ex_frames _ _ _ _ Hex1)
    (ex_tables _ _ _ _ Hex1) Hp)
    as (m2 & u2 & f1 & -> & Hex2 & Ht2 & Hf1 & Hn1 & Hm1 & Hz1 & Hd1 & Ho2);
    [rewrite u32_small; unfold PAGE_SIZE; lia|lia|].
  rewrite Hv0 in *. rewrite Hv1 in *. destruct Hm0 as [He0 Hu0 Hdat0].
  assert (Hdat : ∀ p' i, get_pt m2 (Some p') i ≠ Ok f0).
  { intros p' i Hg. destruct (ex_new _ _ _ _ Hex2 _ _ _ Hg) as [?|?]; [|by eapply Hdat0|done].
    apply pool_range in Hf0. lia. }
  exists m2, u2, f0, f1. split; [done|]. split_and!; try done.
  - by apply (extends_trans _ _ _ _ _ _ Hex1 Hex2).
  - by intros ->.
  - intros ?. by apply Hn1, (ex_used _ _ _ _ Hex1).
  - split; [|by apply (ex_used _ _ _ _ Hex2)|done]. apply Ho2; [|done]. intros [=]. lia.
  - intros x [Hx|Hx]; [|by apply Hz1]. rewrite (Hd1 f0 x) by done. by apply Hz0.
  - intros p' v w H0 H1 Hw. apply Ho2; [done|]. by apply Ho1.
Qed.

(** C17. A page fault of a process gives both pages of the pair valid, writable
    entries made for two frames of the pool that are new: distinct from each other
    and from every frame in use, with all their bytes zero.  A page is mapped to its
    frame only if the frame lies below [0xa1000000], as the first 1808 of the pool
    do; the entry for any other frame leads to the page 16 MB below it, which is low
    memory of the kernel.  No other entry of any page table changes, and the page
    tables stay in frames of their own.  At most four frames are taken, and the
    call succeeds as long as more than four are left. *)
Theorem page_miss_correct k c x p vpn2 m used :
  current_running k = Some c → aget (pcb k) c = Ok x → get_proc_by_pid k (p_pid x) = Ok (Some p) →
  0 ≤ vpn2 < 2 ^ 18 → frames_ok m used → pt_ok m used → top m + 4 < FRAME_NUM →
  ∃ m' used' f0 f1, page_miss_handler k vpn2 m = Ok m' ∧ frames_ok m' used' ∧ pt_ok m' used' ∧
    used ⊆ used' ∧ f0 ≠ f1 ∧ f0 ∈ pool ∧ f1 ∈ pool ∧ f0 ∉ used ∧ f1 ∉ used ∧
    entry_made m' used' p (2 * vpn2) f0 ∧ entry_made m' used' p (2 * vpn2 + 1) f1 ∧
    maps m' p (2 * vpn2) (if decide (f0 < 0xa1000000) then f0 else f0 - 0x1000000) ∧
    maps m' p (2 * vpn2 + 1) (if decide (f1 < 0xa1000000) then f1 else f1 - 0x1000000) ∧
    (∀ y, in_page f0 y ∨ in_page f1 y → ram m' y = 0) ∧
    (∀ p' v w, (p', v) ≠ (p, 2 * vpn2) → (p', v) ≠ (p, 2 * vpn2 + 1) →
      pte m p' v = Some w → pte m' p' v = Some w).
Proof.
  intros Hc Hx Hq Hv Hok Hpt Ht.
  destruct (add_2_page_spec k _ p vpn2 m used Hq Hv Hok Hpt Ht)
    as (m' & used' & f0 & f1 & Hrun & Hex & Hne & Hp0 & Hp1 & Hn0 & Hn1 & Hm0 & Hm1 & Hz & Ho).
  exists m', used', f0, f1. destruct Hex as [Hok' Hpt' Hsub _ _].
  unfold page_miss_handler, get_pcb. rewrite Hc. cbn [deref]. rewrite bind_Ok, Hx, bind_Ok.
  split_and!; try done; by eapply entry_made_maps.
Qed.

(** ** Copies *)

Lemma alias_page f a x :
  f ∈ pool → a ∈ pool → a ≠ f → in_page (alias f) x → ¬ in_page a x.
Proof.
  intros Hf Ha Hne Hx Hax. pose proof (pool_range a Ha) as [Hra _]. pose proof (pool_range f Hf) as [Hrf _].
  unfold alias in Hx. destruct (decide (f < 0xa1000000)).
  - apply Hne. symmetry. apply (pool_disjoint f a x); [done|done| |done].
    replace f with (0xa0000000 + f mod 2 ^ 24); [done|]. Z.div_mod_to_equations. lia.
  - unfold in_page, PAGE_SIZE in *. Z.div_mod_to_equations. lia.
Qed.

Lemma querry_PTE_maps k q p v m a :
  get_proc_by_pid k q = Ok (Some p) →
  get_pt m (Some p) (get_first_level_index v) = Ok a → a ≠ 0 →
  querry_PTE k v q m = Ok (Some (a + PTE_SIZE * get_second_level_index v)).
Proof.
  intros Hq Ha H0. unfold querry_PTE. rewrite Hq, bind_Ok, Ha, bind_Ok.
  by rewrite (proj2 (Z.eqb_neq a 0)).
Qed.

(** The loop of [copy_to_user]. *)
Lemma copy_out src u size m :
  0 ≤ size ≤ Z.of_nat (length src) →
  ∃ r, for_range 0 size (λ i m, c ← aget src i; Ok (m <| ram ::= store8 (u + i) c |>)) m
    = Ok (m <| ram := r |>) ∧
    (∀ i c, 0 ≤ i < size → src !! Z.to_nat i = Some c → r (u + i) = c) ∧
    (∀ x, ¬ (u ≤ x < u + size) → r x = ram m x).
Proof.
  intros Hs.
  destruct (for_range_inv (λ i m', ∃ r, m' = m <| ram := r |> ∧
      (∀ j c, 0 ≤ j < i → src !! Z.to_nat j = Some c → r (u + j) = c) ∧
      (∀ x, ¬ (u ≤ x < u + i) → r x = ram m x))
    0 size (λ i m, c ← aget src i; Ok (m <| ram ::= store8 (u + i) c |>)) m)
    as (m' & -> & r & -> & Hr); [lia| | |].
  - exists (ram m). split_and!; [by destruct m|lia|done].
  - intros i m' Hi (r & -> & Hw & Hr). destruct (aget_total src i) as (c & Hc); [lia|].
    rewrite Hc, bind_Ok. apply aget_Ok in Hc as [_ Hc]. eexists. split; [done|].
    exists (store8 (u + i) c r). split_and!; [done| |].
    + intros j d Hj Hd. destruct (decide (j = i)) as [->|].
      * rewrite store8_eq. congruence.
      * rewrite store8_ne by lia. apply Hw; [lia|done].
    + intros x Hx. rewrite store8_ne by lia. apply Hr. lia.
  - by exists r.
Qed.

(** The loop of [copy_from_user]. *)
Lemma copy_in dest u size (m : mm_t) :
  0 ≤ size ≤ Z.of_nat (length dest) →
  for_range 0 size (λ i dest, aset dest i (ram m (u + i))) dest =
    Ok (map (λ i, ram m (u + i)) (seqZ 0 size) ++ drop (Z.to_nat size) dest).
Proof.
  intros Hs.
  destruct (for_range_inv (λ i d, d = map (λ i, ram m (u + i)) (seqZ 0 i) ++ drop (Z.to_nat i) dest)
    0 size (λ i dest, aset dest i (ram m (u + i))) dest) as (d & -> & ->); [lia|done| |done].
  intros i d Hi ->. assert (Hl : length (map (λ i, ram m (u + i)) (seqZ 0 i)) = Z.to_nat i).
  { rewrite length_map, length_seqZ. lia. }
  rewrite aset_total by (rewrite length_app, Hl, length_drop; lia).
  eexists. split; [done|]. rewrite insert_app_r_alt, Hl, Nat.sub_diag by lia.
  destruct (lookup_lt_is_Some_2 dest (Z.to_nat i)) as [y Hy]; [lia|].
  rewrite (drop_S _ _ _ Hy). cbn [list_insert]. rewrite seqZ_app, map_app by lia.
  rewrite <- (assoc_L (++)). replace (Z.to_nat (i + 1)) with (S (Z.to_nat i)) by lia.
  change (seqZ (0 + i) 1) with [0 + i]. cbn. by rewrite Z.add_0_l.
Qed.

(** A mapped page: the entry that [querry_PTE] finds and the bytes it leads to. *)
Lemma maps_entry k q p v f m used :
  get_proc_by_pid k q = Ok (Some p) → pt_ok m used → frames_ok m used → entry_made m used p v f →
  ∃ a, querry_PTE k v q m = Ok (Some (a + PTE_SIZE * get_second_level_index v)) ∧
    get_pt m (Some p) (get_first_level_index v) = Ok a ∧ a ∈ pool ∧ a ≠ f ∧ f ∈ pool ∧
    load32 (ram m) (a + PTE_SIZE * get_second_level_index v + 4) = entry_of f.
Proof.
  intros Hq Hpt Hok [He Hu Hd]. unfold pte in He.
  destruct (get_pt m (Some p) (get_first_level_index v)) as [a| |] eqn:Ha; [|done|done].
  destruct (Z.eqb_spec a 0) as [->|H0]; [done|]. injection He as Hv He.
  exists a. split_and!; try done.
  - by apply (querry_PTE_maps k q p v m a).
  - eapply frames_pool; [done|]. by eapply pt_used.
  - intros ->. by eapply Hd.
  - by eapply frames_pool.
Qed.

Lemma copy_mapped k q p f dest src buf size m used :
  get_proc_by_pid k q = Ok (Some p) → frames_ok m used → pt_ok m used →
  0 ≤ dest → 0 ≤ size → dest mod PAGE_SIZE + size ≤ PAGE_SIZE →
  size ≤ Z.of_nat (length src) → size ≤ Z.of_nat (length buf) →
  entry_made m used p (get_vpn dest) f →
  ∃ m', copy_to_user k src dest q size m = Ok m' ∧ extends m used m' used ∧
    entry_made m' used p (get_vpn dest) f ∧
    copy_from_user k dest buf q size m' = Ok (take (Z.to_nat size) src ++ drop (Z.to_nat size) buf).
Proof.
  intros Hq Hok Hpt Hd Hs Hpage Hsrc Hbuf Hm.
  destruct (maps_entry k q p _ f m used Hq Hpt Hok Hm) as (a & Hqa & Hga & Hap & Haf & Hfp & He).
  unfold copy_to_user. change (Z.shiftr dest 12) with (get_vpn dest). rewrite Hqa, !bind_Ok.
  cbn [deref]. rewrite bind_Ok.
  pose proof (pool_range f Hfp) as [Hf1 Hf2].
  rewrite (unmapped_of_frame _ _ dest f) by (done || lia).
  set (u := alias f + dest mod PAGE_SIZE).
  destruct (copy_out src u size m) as (r & -> & Hw & Hr); [lia|].
  assert (Hmod : 0 ≤ dest mod PAGE_SIZE < PAGE_SIZE) by (apply Z.mod_pos_bound; done).
  assert (Hsame : ∀ b x, b ∈ used → b ≠ f → in_page b x → r x = ram m x).
  { intros b x Hb Hbf Hx. apply Hr. intros Hux. apply (alias_page f b x); [done|by eapply frames_pool|done| |done].
    unfold in_page, u in *. lia. }
  set (m' := m <| ram := r |>).
  assert (Hex : extends m used m' used).
  { destruct Hok, Hpt. split; [by split|by split|done|done|by left]. }
  assert (Hm' : entry_made m' used p (get_vpn dest) f).
  { destruct Hm as [Hm1 Hm2 Hm3]. split; [|done|done]. apply (pte_kept m m' p _ a); [done|done| |done].
    intros x e Hx. apply (Hsame a); [|done|by apply (entry_in_page a (get_vpn dest))].
    eapply pt_used; [done|done|]. apply pool_range in Hap. lia. }
  exists m'. split; [done|]. split; [done|]. split; [done|].
  destruct (maps_entry k q p _ f m' used Hq (ex_tables _ _ _ _ Hex) (ex_frames _ _ _ _ Hex) Hm')
    as (a' & Hqa' & Hga' & _ & _ & _ & He').
  unfold copy_from_user. change (Z.shiftr dest 12) with (get_vpn dest). rewrite Hqa', bind_Ok.
  cbn [deref]. rewrite bind_Ok. rewrite (unmapped_of_frame _ _ dest f) by (done || lia). fold u.
  rewrite copy_in by lia. do 2 f_equal. apply list_eq. intros i.
  destruct (decide (i < Z.to_nat size)%nat) as [Hi|Hi].
  - rewrite lookup_take_lt by done. rewrite list_lookup_fmap, lookup_seqZ_lt by lia. cbn [fmap option_fmap option_map].
    destruct (lookup_lt_is_Some_2 src i) as [c Hc]; [lia|]. rewrite Hc. cbn. f_equal.
    change (ram m') with r. apply Hw; [lia|]. by replace (Z.to_nat (0 + Z.of_nat i)) with i by lia.
  - rewrite lookup_take_ge by lia. apply lookup_ge_None_2. rewrite length_map, length_seqZ. lia.
Qed.

(** C35. What [copy_to_user] writes to a user page, [copy_from_user] reads back,
    whether the page was mapped before or its table was missing, in which case it
    is mapped first. *)
Theorem copy_roundtrip k q p dest src buf size m used :
  get_proc_by_pid k q = Ok (Some p) → frames_ok m used → pt_ok m used → top m + 4 < FRAME_NUM →
  0 ≤ dest < 2 ^ 31 → 0 ≤ size → dest mod PAGE_SIZE + size ≤ PAGE_SIZE →
  size ≤ Z.of_nat (length src) → size ≤ Z.of_nat (length buf) →
  get_pt m (Some p) (get_first_level_index (get_vpn dest)) = Ok 0 ∨
    (∃ f, entry_made m used p (get_vpn dest) f) →
  ∃ m' used' f, copy_to_user k src dest q size m = Ok m' ∧ frames_ok m' used' ∧ pt_ok m' used' ∧
    entry_made m' used' p (get_vpn dest) f ∧
    copy_from_user k dest buf q size m' = Ok (take (Z.to_nat size) src ++ drop (Z.to_nat size) buf).
Proof.
  intros Hq Hok Hpt Ht Hd Hs Hpage Hsrc Hbuf [Hnone|[f Hm]].
  - destruct (add_2_page_spec k q p (Z.shiftr dest 13) m used Hq) as
      (m1 & u1 & f0 & f1 & Hadd & Hex & _ & _ & _ & _ & _ & Hm0 & Hm1 & _ & _); [|done|done|done|].
    { rewrite Z.shiftr_div_pow2 by done. Z.div_mod_to_equations. lia. }
    assert (Hf : ∃ f, entry_made m1 u1 p (get_vpn dest) f).
    { assert (Hcase : get_vpn dest = 2 * Z.shiftr dest 13 ∨ get_vpn dest = 2 * Z.shiftr dest 13 + 1).
      { rewrite get_vpn_div, Z.shiftr_div_pow2 by done. unfold PAGE_SIZE. Z.div_mod_to_equations. lia. }
      destruct Hcase as [-> | ->]; eauto. }
    destruct Hf as [f Hm]. destruct Hex as [Hok1 Hpt1 _ _ _].
    destruct (copy_mapped k q p f dest src buf size m1 u1 Hq Hok1 Hpt1)
      as (m2 & Hto & [Hok2 Hpt2 _ _ _] & Hm2 & Hfrom); [lia|done|done|done|done|done|].
    exists m2, u1, f. split; [|done]. rewrite <- Hto. unfold copy_to_user.
    change (Z.shiftr dest 12) with (get_vpn dest).
    replace (querry_PTE k (get_vpn dest) q m) with (Ok (A := option Z) None).
    2: { unfold querry_PTE. by rewrite Hq, bind_Ok, Hnone. }
    rewrite bind_Ok, Hadd, bind_Ok.
    destruct (maps_entry k q p _ f m1 u1 Hq Hpt1 Hok1 Hm) as (a & -> & _). by rewrite !bind_Ok.
  - destruct (copy_mapped k q p f dest src buf size m used Hq Hok Hpt)
      as (m2 & Hto & [Hok2 Hpt2 _ _ _] & Hm2 & Hfrom); [lia|done|done|done|done|done|].
    by exists m2, used, f.
Qed.

(** Two ways in which a user page is written over the kernel's memory at
    [0xa0000000].  The frames from number 1808 of the pool on lie above 16 MB,
    and the entry that maps a page to one of them leads to frame [i - 1808] of
    that low memory.  A page whose table exists because of a neighbour is taken
    for mapped, and what [copy_to_user] is given for it goes to frame 0. *)
Theorem low_memory_written k q p dest src size m :
  get_proc_by_pid k q = Ok (Some p) →
  0 ≤ dest < 2 ^ 31 → 0 ≤ size ≤ Z.of_nat (length src) →
  (∀ i, 1808 ≤ i < FRAME_NUM → alias (frame_at i) = 0xa0000000 + PAGE_SIZE * (i - 1808)) ∧
  (∀ w, pte m p (get_vpn dest) = Some (w, 0) →
    ∃ r, copy_to_user k src dest q size m = Ok (m <| ram := r |>) ∧
      ∀ i c, 0 ≤ i < size → src !! Z.to_nat i = Some c →
        r (0xa0000000 + dest mod PAGE_SIZE + i) = c).
Proof.
  intros Hq Hd Hs. split.
  - intros i Hi. unfold alias, frame_at, PAGE_SIZE, FRAME_NUM in *. Z.div_mod_to_equations. lia.
  - intros w Hw. unfold pte in Hw.
    destruct (get_pt m (Some p) (get_first_level_index (get_vpn dest))) as [a| |] eqn:Ha; [|done|done].
    destruct (Z.eqb_spec a 0) as [->|H0]; [done|]. injection Hw as _ He.
    unfold copy_to_user. change (Z.shiftr dest 12) with (get_vpn dest).
    rewrite (querry_PTE_maps k q p _ m a Hq Ha H0), !bind_Ok. cbn [deref]. rewrite bind_Ok.
    unfold unmapped_of. rewrite He. change (u32 (Z.shiftl (Z.land 0 _) 6)) with 0.
    rewrite Z.lor_0_l. change 0xfff with (2 ^ 12 - 1). rewrite land_ones_mod by done.
    change (2 ^ 12) with PAGE_SIZE. assert (0 ≤ dest mod PAGE_SIZE < PAGE_SIZE) by (by apply Z.mod_pos_bound).
    replace (Z.lor (dest mod PAGE_SIZE) 0xa0000000) with (0xa0000000 + dest mod PAGE_SIZE).
    2: { rewrite Z.lor_comm. change 0xa0000000 with (5 * 2 ^ 29). symmetry. apply lor_add; [done|].
         unfold PAGE_SIZE in *. lia. }
    destruct (copy_out src (0xa0000000 + dest mod PAGE_SIZE) size m) as (r & -> & Hr & _); [lia|].
    exists r. split; [done|exact Hr].
Qed.

(** ** Witnesses *)

Definition init_mm : mm_t := boot_mm <| empty_frame := pool |> <| top := 0 |>.

Lemma init_mm_frames : frames_ok init_mm [].
Proof. exact (frames_ok_init boot_mm). Qed.

Lemma get_pt_init p i a : get_pt init_mm (Some p) i = Ok a → a = 0.
Proof.
  unfold get_pt. cbn [deref]. rewrite bind_Ok. intros (t & Ht & Ha)%bind_Ok_inv.
  apply aget_Ok in Ht as [_ Ht], Ha as [_ Ha].
  change (secondary_pt init_mm) with (replicate 16 (fill FIRST_PTE_NUM 0)) in Ht.
  apply lookup_replicate in Ht as [-> _]. unfold fill in Ha. by apply lookup_replicate in Ha as [-> _].
Qed.

Lemma init_mm_tables : pt_ok init_mm [].
Proof.
  split.
  - exact eq_refl.
  - apply Forall_replicate, length_fill. done.
  - intros p i a Ha H0. by apply get_pt_init in Ha.
  - intros p i p' i' a Ha _ H0. by apply get_pt_init in Ha.
Qed.

Lemma three_ready_0 :
  ∃ x, aget (pcb three_ready) 0 = Ok x ∧ get_proc_by_pid three_ready (p_pid x) = Ok (Some 0).
Proof. eexists. split; vm_compute; reflexivity. Qed.

Lemma three_ready_2 : get_proc_by_pid three_ready 2 = Ok (Some 2).
Proof. vm_compute. reflexivity. Qed.

Lemma page_miss_correct_witness :
  ∃ m' f0 f1, page_miss_handler three_ready 5 init_mm = Ok m' ∧ f0 ≠ f1 ∧
    maps m' 0 10 (if decide (f0 < 0xa1000000) then f0 else f0 - 0x1000000) ∧
    maps m' 0 11 (if decide (f1 < 0xa1000000) then f1 else f1 - 0x1000000).
Proof.
  destruct three_ready_0 as (x & Hx & Hp).
  assert (Ht : top init_mm + 4 < FRAME_NUM) by exact eq_refl.
  destruct (page_miss_correct three_ready 0 x 0 5 init_mm [] eq_refl Hx Hp ltac:(lia)
    init_mm_frames init_mm_tables Ht)
    as (m' & used' & f0 & f1 & Hrun & _ & _ & _ & Hne & _ & _ & _ & _ & _ & _ & Hm0 & Hm1 & _).
  exists m', f0, f1. split; [exact Hrun|]. split; [exact Hne|].
  split; [exact Hm0|exact Hm1].
Defined.

Lemma copy_roundtrip_witness :
  ∃ m', copy_to_user three_ready (str "hello") 0x10ffa 2 5 init_mm = Ok m' ∧
    copy_from_user three_ready 0x10ffa (replicate 8 0) 2 5 m' = Ok (str "hello" ++ [0; 0; 0]).
Proof.
  assert (Ht : top init_mm + 4 < FRAME_NUM) by exact eq_refl.
  destruct (copy_roundtrip three_ready 2 2 0x10ffa (str "hello") (replicate 8 0) 5 init_mm []
    three_ready_2 init_mm_frames init_mm_tables Ht ltac:(lia) ltac:(lia) ltac:(done) ltac:(done)
    ltac:(done) (or_introl eq_refl)) as (m' & used' & f & Hto & _ & _ & _ & Hfrom).
  exists m'. split; [exact Hto|exact Hfrom].
Defined.

(** Page 11 of process 2 has a table, because page 12 was added, but no frame. *)
Lemma low_memory_written_witness :
  alias (frame_at 2000) = 0xa00c0000 ∧
  ∃ m r, pte m 2 11 = Some (0, 0) ∧
    copy_to_user three_ready (str "hello") 0xb123 2 5 m = Ok (m <| ram := r |>) ∧
    r 0xa0000123 = 104.
Proof.
  set (table := frame_at 0).
  set (m := Mm pool 1 (λ _, 0) (<[2%nat := <[0%nat := table]> (fill FIRST_PTE_NUM 0)]>
    (replicate 16 (fill FIRST_PTE_NUM 0))) []).
  assert (Hpte : pte m 2 11 = Some (0, 0)) by (vm_compute; reflexivity).
  destruct (low_memory_written three_ready 2 2 0xb123 (str "hello") 5 m three_ready_2 ltac:(lia)
    ltac:(cbn; lia)) as [Halias Hcopy].
  destruct (Hcopy 0 Hpte) as (r & Hrun & Hr).
  split; [rewrite Halias; [done|unfold FRAME_NUM; lia]|].
  exists m, r. split; [exact Hpte|]. split; [exact Hrun|].
  rewrite <- (Hr 0 104 ltac:(lia) eq_refl). apply (f_equal r). vm_compute. reflexivity.
Defined.
