(* ===== verification/Mac.v ===== *)
(** * The network driver: [drivers/mac.c]

    Rings of DMA descriptors in memory and the registers of the MAC and of its
    DMA engine.  The engine is not part of the repository: it is a parameter,
    one step of which can happen between any two reads of the driver's waiting
    loops; what the driver relies on is the class [EngineLaws]. *)

From S2P Require Import Prelude CString Printk Queue Kstate Sched Lock Process.

Definition GMAC_BASE_ADDR : Z := 0xbfe10000.
Definition DMA_BASE_ADDR : Z := 0xbfe11000.
Definition PSIZE : Z := 256.
Definition PNUM : Z := 64.
Definition GmacAddr0Low : Z := 0x44.
Definition GmacAddr0High : Z := 0x40.
Definition DmaStatus : Z := 0x14.
Definition DmaInterrupt : Z := 0x1c.
Definition DmaIntDisable : Z := 0.
Definition INT1_EN : Z := 0xbfd0105c.
Definition INT1_CLR : Z := 0xbfd01064.
Definition INT1_POL : Z := 0xbfd01068.
Definition INT1_EDGE : Z := 0xbfd0106c.
Definition LS1C_MAC_IRQ : Z := 8.

Record desc_t := Desc { d_tdes0 : Z; tdes1 : Z; tdes2 : Z; tdes3 : Z }.

Definition desc_eta (d : desc_t) := Desc (d_tdes0 d) (tdes1 d) (tdes2 d) (tdes3 d).
#[export] Instance upd_d_tdes0 : Update d_tdes0 := ltac:(derive_update desc_eta d_tdes0).

(** The driver's stores to the device, in their order. *)
Inductive store := RegStore (a v : Z) | OwnStore (d : addr).

(** [hw_regs] is what reading a register returns. *)
Record net := Net { descs : gmap addr desc_t; hw_regs : Z → Z; bus : list store }.

Definition net_eta (n : net) := Net (descs n) (hw_regs n) (bus n).
#[export] Instance upd_descs : Update descs := ltac:(derive_update net_eta descs).
#[export] Instance upd_hw_regs : Update hw_regs := ltac:(derive_update net_eta hw_regs).
#[export] Instance upd_bus : Update bus := ltac:(derive_update net_eta bus).

Definition OWN : Z := 0x80000000.
Definition owned (d : desc_t) : bool := negb (Z.land (d_tdes0 d) OWN =? 0).
Definition end_of_ring (d : desc_t) : bool := negb (Z.land (tdes1 d) (2 ^ 25) =? 0).

(** ** Registers *)

Definition reg_read_32 (a : Z) (n : net) : Z := hw_regs n a.
Definition read_register (base offset : Z) (n : net) : Z := hw_regs n (base + offset).

Definition reg_write_32 (a v : Z) (n : net) : net :=
  n <| hw_regs ::= (λ r x, if x =? a then v else r x) |> <| bus ::= (.++ [RegStore a v]) |>.

Definition gmac_get_mac_addr (n : net) : list Z :=
  let a := read_register GMAC_BASE_ADDR GmacAddr0Low n in
  let b := read_register GMAC_BASE_ADDR GmacAddr0High n in
  map (λ k, Z.land (Z.shiftr a k) 0xff) [0; 8; 16; 24] ++
  map (λ k, Z.land (Z.shiftr b k) 0xff) [0; 8].

(** [mac_addr] is the base address of the MAC. *)
Definition set_mac_addr (mac_addr : Z) (n : net) : outcome net :=
  let MacAddr := [0x00; 0x55; 0x7b; 0xb5; 0x7d; 0xf7] in
  b ← mapM (aget MacAddr) [0; 1; 2; 3; 4; 5];
  match b with
  | [b0; b1; b2; b3; b4; b5] =>
      let n := reg_write_32 (mac_addr + 0x40) (Z.lor (Z.shiftl b5 8) b4) n in
      Ok (reg_write_32 (mac_addr + 0x44)
        (u32 (Z.lor (Z.lor (Z.lor (Z.shiftl b3 24) (Z.shiftl b2 16)) (Z.shiftl b1 8)) b0)) n)
  | _ => Fault OutOfBounds
  end.

Definition disable_interrupt_all (dma_addr : Z) (n : net) : net :=
  reg_write_32 (dma_addr + DmaInterrupt) DmaIntDisable n.

Definition set_sram_ctr (n : net) : net := reg_write_32 0xbfd00420 0x8000 n.

Definition irq_enable (n : net) : net := reg_write_32 INT1_EN LS1C_MAC_IRQ n.

(** The bytes of the word at [x]: the loop reads one past the last. *)
Definition reverse (x : bytes) : outcome bytes :=
  for_range 0 4 (λ i buf, c ← aget x (4 - i); aset buf i c) (replicate 4 0).

(** ** Descriptors *)

Definition get_desc (a : addr) (n : net) : outcome desc_t :=
  match descs n !! a with Some d => Ok d | None => Fault BadPointer end.

(** [cur->tdes0 = 0x80000000] *)
Definition give (a : addr) (n : net) : outcome net :=
  d ← get_desc a n;
  Ok (n <| descs ::= (<[a := d <| d_tdes0 := OWN |>]>) |> <| bus ::= (.++ [OwnStore a]) |>).

Section engine.
Variable engine : net → net.

(** The loop that reads [tdes0] until OWN is clear, the engine moving between the
    reads. *)
Fixpoint wait_own (fuel : nat) (a : addr) (n : net) : outcome net :=
  match fuel with
  | O => OutOfFuel
  | S fuel => d ← get_desc a n; if owned d then wait_own fuel a (engine n) else Ok n
  end.

(** [wait] bounds the rounds of each inner loop, [fuel] those of the outer. *)
Fixpoint send_loop (wait fuel : nat) (cur : addr) (n : net) : outcome net :=
  match fuel with
  | O => OutOfFuel
  | S fuel =>
      n ← give cur n;
      let n := reg_write_32 (DMA_BASE_ADDR + 0x4) 1 n in
      n ← wait_own wait cur n;
      d ← get_desc cur n;
      if end_of_ring d then Ok n
      else send_loop wait fuel (Z.lor (tdes3 d) 0xa0000000) n
  end.

Definition do_net_send (wait fuel : nat) (td td_phy : Z) (n : net) : outcome net :=
  let n := reg_write_32 (DMA_BASE_ADDR + 0x10) td_phy n in
  let n := reg_write_32 GMAC_BASE_ADDR (Z.lor (reg_read_32 GMAC_BASE_ADDR n) 0x8) n in
  let n := reg_write_32 (DMA_BASE_ADDR + 0x18)
    (Z.lor (reg_read_32 (DMA_BASE_ADDR + 0x18) n) 0x02202000) n in
  let n := reg_write_32 (DMA_BASE_ADDR + 0x1c) (Z.lor 0x10001 (Z.shiftl 1 6)) n in
  send_loop wait fuel td n.

Fixpoint recv_loop (fuel : nat) (cur : addr) (n : net) : outcome net :=
  match fuel with
  | O => OutOfFuel
  | S fuel =>
      n ← give cur n;
      let n := reg_write_32 (DMA_BASE_ADDR + 0x8) 1 n in
      d ← get_desc cur n;
      let cur := Z.lor (tdes3 d) 0xa0000000 in
      d ← get_desc cur n;
      if end_of_ring d then Ok n else recv_loop fuel cur n
  end.

(** The operation mode is read from the MAC, not from the DMA engine. *)
Definition do_net_recv (fuel : nat) (rd rd_phy : Z) (n : net) : outcome (Z * net) :=
  let n := reg_write_32 (DMA_BASE_ADDR + 0xc) rd_phy n in
  let n := reg_write_32 GMAC_BASE_ADDR (Z.lor (reg_read_32 GMAC_BASE_ADDR n) 0x4) n in
  let n := reg_write_32 (DMA_BASE_ADDR + 0x18)
    (Z.lor (reg_read_32 (GMAC_BASE_ADDR + 0x18) n) 0x02200002) n in
  let n := reg_write_32 (DMA_BASE_ADDR + 0x1c) (Z.lor 0x10001 (Z.shiftl 1 6)) n in
  n ← recv_loop fuel rd n; Ok (0, n).

(** [while (reg_read_32(mac->dma_addr) & 0x01)]; the inner loop counts down and
    gives the engine time. *)
Fixpoint reset_loop (fuel : nat) (dma_addr : Z) (n : net) : outcome net :=
  match fuel with
  | O => OutOfFuel
  | S fuel =>
      if Z.land (reg_read_32 dma_addr n) 1 =? 0 then Ok n
      else reset_loop fuel dma_addr (engine (reg_write_32 dma_addr 1 n))
  end.

Definition s_reset (fuel : nat) (dma_addr : Z) (n : net) : outcome net :=
  reset_loop fuel dma_addr (engine (reg_write_32 dma_addr 1 n)).

Definition do_init_mac (fuel : nat) (n : net) : outcome net :=
  let n := set_sram_ctr n in
  n ← s_reset fuel DMA_BASE_ADDR n;
  let n := disable_interrupt_all DMA_BASE_ADDR n in
  n ← set_mac_addr GMAC_BASE_ADDR n;
  let n := reg_write_32 INT1_CLR 0xfffffff n in
  let n := reg_write_32 INT1_POL 0xfffffff n in
  Ok (reg_write_32 INT1_EDGE 0 n).
End engine.

(** ** Waiting for a packet *)

(** One round of the loop of [do_wait_recv_package]: [true] when it has left the
    loop, [false] when the process gave the processor away and will run the next
    round when it is selected again. *)
Definition wait_recv (waiting : addr) (s : kstate) : outcome (bool * kstate) :=
  w ← (match tdes0 s !! waiting with Some w => Ok w | None => Fault BadPointer end);
  if Z.land w OWN =? 0 then Ok (true, s)
  else s ← do_block s QRecv; Ok (false, s).

Definition do_wait_recv_package (waiting : addr) (s : kstate) : outcome (bool * kstate) :=
  s ← upd_proc s (current_running s) (λ x, x <| waiting_desc := Some waiting |>);
  wait_recv waiting s.

(** [clear_interrupt] writes the status back that it reads. *)
Definition clear_interrupt (n : net) : net :=
  reg_write_32 (DMA_BASE_ADDR + DmaStatus) (reg_read_32 (DMA_BASE_ADDR + DmaStatus) n) n.

Definition mac_irq_handle_recv (s : kstate) (n : net) : outcome (kstate * net) :=
  '(proc, s) ← k_dequeue s QRecv;
  s ← (match proc with Some _ => invoke_blocked_proc s proc | None => Ok s end);
  Ok (s, clear_interrupt n).

(** ** What the driver relies on *)

(** Transmission is started: bit 13 of the operation mode. *)
Definition running (n : net) : bool := Z.testbit (hw_regs n (DMA_BASE_ADDR + 0x18)) 13.

(** The engine writes only the first word of descriptors, never gives a
    descriptor back to itself, leaves the operation mode alone, and, while
    started, sooner or later completes every descriptor it owns. *)
Class EngineLaws (engine : net → net) := {
  el_same n a d : descs n !! a = Some d →
    ∃ w, descs (engine n) !! a = Some (d <| d_tdes0 := w |>) ∧
      (owned d = false → owned (d <| d_tdes0 := w |>) = false);
  el_bus n : bus (engine n) = bus n;
  el_mode n : hw_regs (engine n) (DMA_BASE_ADDR + 0x18) = hw_regs n (DMA_BASE_ADDR + 0x18);
  el_completes n a d : running n = true → descs n !! a = Some d → owned d = true →
    ∃ k d', descs (Nat.iter k engine n) !! a = Some d' ∧ owned d' = false;
}.

(** ** Rings *)

(** [l] are the addresses of the descriptors from [a] to the end of the ring. *)
Inductive ring (m : gmap addr desc_t) : addr → list addr → Prop :=
  | ring_last a d : m !! a = Some d → end_of_ring d = true → ring m a [a]
  | ring_next a d l : m !! a = Some d → end_of_ring d = false →
      ring m (Z.lor (tdes3 d) 0xa0000000) l → ring m a (a :: l).

Lemma ring_fun m a l l' : ring m a l → ring m a l' → l = l'.
Proof.
  intros H. revert l'. induction H as [a d Hd He|a d l Hd He Hl IH];
    intros l' H'; inversion H'; simplify_eq; try congruence; f_equal; by apply IH.
Qed.

Lemma ring_suffix m a l b :
  ring m a l → b ∈ l → ∃ l', ring m b l' ∧ (length l' ≤ length l)%nat.
Proof.
  induction 1 as [a d Hd He|a d l Hd He Hl IH].
  - intros ->%list_elem_of_singleton. exists [a]. split; [by eapply ring_last|done].
  - intros [->|Hb]%elem_of_cons; [exists (a :: l); split; [by eapply ring_next|done]|].
    destruct (IH Hb) as (l' & ? & ?). exists l'. split; [done|]. cbn. lia.
Qed.

Lemma ring_NoDup m a l : ring m a l → NoDup l.
Proof.
  induction 1 as [a d Hd He|a d l Hd He Hl IH]; [apply NoDup_singleton|].
  apply NoDup_cons. split; [|done]. intros Ha.
  destruct (ring_suffix m _ l a Hl Ha) as (l' & Hl' & Hlen).
  assert (l' = a :: l) as -> by (eapply ring_fun; [done|by eapply ring_next]). cbn in Hlen. lia.
Qed.

(** Changes of the first words of descriptors. *)
Definition same_links (n n' : net) : Prop :=
  ∀ a d, descs n !! a = Some d → ∃ w, descs n' !! a = Some (d <| d_tdes0 := w |>).

Lemma same_links_trans n1 n2 n3 : same_links n1 n2 → same_links n2 n3 → same_links n1 n3.
Proof.
  intros H1 H2 a d Hd. destruct (H1 a d Hd) as (w & Hw). destruct (H2 _ _ Hw) as (w' & Hw').
  by exists w'.
Qed.

Lemma ring_same n n' a l : same_links n n' → ring (descs n) a l → ring (descs n') a l.
Proof.
  intros Hs. induction 1 as [a d Hd He|a d l Hd He Hl IH];
    destruct (Hs _ _ Hd) as (w & Hw).
  - by eapply ring_last.
  - eapply ring_next; [exact Hw|done|done].
Qed.

Lemma give_spec a d n :
  descs n !! a = Some d →
  ∃ n', give a n = Ok n' ∧ descs n' !! a = Some (d <| d_tdes0 := OWN |>) ∧
    (∀ b, b ≠ a → descs n' !! b = descs n !! b) ∧ hw_regs n' = hw_regs n ∧
    bus n' = bus n ++ [OwnStore a] ∧ same_links n n'.
Proof.
  intros Hd. unfold give, get_desc. rewrite Hd, bind_Ok. eexists. split; [done|].
  split_and!; try done.
  - apply lookup_insert_eq.
  - intros b Hb. by apply lookup_insert_ne.
  - intros b d' Hb. destruct (decide (b = a)) as [->|Hne].
    + exists OWN. rewrite Hd in Hb. injection Hb as <-. apply lookup_insert_eq.
    + exists (d_tdes0 d'). etransitivity; [by apply lookup_insert_ne|].
      rewrite Hb. by destruct d'.
Qed.

Section laws.
Context {engine : net → net} {laws : EngineLaws engine}.

Lemma iter_same k n a d : descs n !! a = Some d →
  ∃ w, descs (Nat.iter k engine n) !! a = Some (d <| d_tdes0 := w |>) ∧
    (owned d = false → owned (d <| d_tdes0 := w |>) = false).
Proof.
  intros Hd. induction k as [|k IH].
  - exists (d_tdes0 d). cbn. rewrite Hd. by destruct d.
  - destruct IH as (w & Hw & Ho). destruct (el_same _ _ _ Hw) as (w' & Hw' & Ho').
    exists w'. split; [exact Hw'|]. intros H. by apply Ho', Ho.
Qed.

Lemma iter_links k n : same_links n (Nat.iter k engine n).
Proof. intros a d Hd. destruct (iter_same k n a d Hd) as (w & ? & _). by exists w. Qed.

Lemma iter_bus k n : bus (Nat.iter k engine n) = bus n.
Proof. induction k as [|k IH]; [done|]. cbn. by rewrite el_bus. Qed.

Lemma iter_running k n : running (Nat.iter k engine n) = running n.
Proof. induction k as [|k IH]; [done|]. cbn. unfold running in *. by rewrite el_mode. Qed.

(** The inner loop ends, however long the engine takes. *)
Lemma wait_own_ends n a d : running n = true → descs n !! a = Some d →
  ∃ k d', descs (Nat.iter k engine n) !! a = Some d' ∧ owned d' = false ∧
    ∀ wait, (k < wait)%nat → wait_own engine wait a n = Ok (Nat.iter k engine n).
Proof.
  intros Hr Hd.
  assert (Hex : ∃ k d', descs (Nat.iter k engine n) !! a = Some d' ∧ owned d' = false).
  { destruct (owned d) eqn:Ho; [|by exists 0%nat, d]. by apply (el_completes n a d). }
  destruct Hex as (k & d' & Hk & Ho). revert n d Hr Hd Hk.
  induction k as [|k IH]; intros n d Hr Hd Hk.
  - exists 0%nat, d'. split_and!; [done|done|]. intros [|wait] Hw; [lia|]. cbn in *.
    unfold get_desc. by rewrite Hk, bind_Ok, Ho.
  - destruct (owned d) eqn:Hod.
    + destruct (el_same _ _ _ Hd) as (w & Hw & _). rewrite Nat.iter_succ_r in Hk.
      destruct (IH (engine n) (d <| d_tdes0 := w |>)) as (j & e & Hj & Hoe & Hrun); [|done|done|].
      { unfold running in *. by rewrite el_mode. }
      exists (S j), e. rewrite Nat.iter_succ_r. split_and!; [done|done|].
      intros [|wait] Hlt; [lia|]. cbn. unfold get_desc. rewrite Hd, bind_Ok, Hod. apply Hrun. lia.
    + exists 0%nat, d. split_and!; [done|done|]. intros [|wait] Hlt; [lia|]. cbn.
      unfold get_desc. by rewrite Hd, bind_Ok, Hod.
Qed.

Definition handed (a : addr) : list store := [OwnStore a; RegStore (DMA_BASE_ADDR + 0x4) 1].

Lemma send_loop_spec l a n :
  running n = true → ring (descs n) a l →
  ∃ W n', (∀ wait, (W < wait)%nat → send_loop engine wait (length l) a n = Ok n') ∧
    bus n' = bus n ++ flat_map handed l ∧ running n' = true ∧ same_links n n' ∧
    (∀ b d, b ∉ l → descs n !! b = Some d → owned d = false →
      ∃ d', descs n' !! b = Some d' ∧ owned d' = false) ∧
    (∀ b, b ∈ l → ∃ d, descs n' !! b = Some d ∧ owned d = false).
Proof.
  revert a n. induction l as [|x l IH]; intros a n Hr Hl; [by inversion Hl|].
  pose proof (ring_NoDup _ _ _ Hl) as [Hx _]%NoDup_cons.
  assert (x = a) as -> by (by inversion Hl).
  assert (Hd : is_Some (descs n !! a)) by (inversion Hl; eauto). destruct Hd as [d Hd].
  destruct (give_spec a d n Hd) as (n1 & Hg & Hd1 & Hne1 & Hreg1 & Hb1 & Hs1).
  set (n2 := reg_write_32 (DMA_BASE_ADDR + 0x4) 1 n1).
  assert (Hr2 : running n2 = true).
  { unfold running, n2. cbn. by rewrite Hreg1. }
  destruct (wait_own_ends n2 a (d <| d_tdes0 := OWN |>) Hr2 Hd1) as (k & d' & Hk & Ho & Hwait).
  set (n3 := Nat.iter k engine n2) in *.
  assert (Hs3 : same_links n n3) by (apply (same_links_trans _ n1); [done|apply (iter_links k n2)]).
  destruct (Hs3 a d Hd) as (w & Hw). rewrite Hk in Hw. injection Hw as ->.
  assert (Hkeep : ∀ b e, b ≠ a → descs n !! b = Some e → owned e = false →
    ∃ e', descs n3 !! b = Some e' ∧ owned e' = false).
  { intros b e Hba He Hoe. rewrite <- Hne1 in He by done.
    destruct (iter_same k n2 b e He) as (v & Hv & Hov). eexists. split; [exact Hv|by apply Hov]. }
  assert (Hb3 : bus n3 = bus n ++ handed a).
  { unfold n3. rewrite iter_bus. unfold n2. cbn. rewrite Hb1. by rewrite <- (assoc_L (++)). }
  assert (Hunfold : ∀ wait, (k < wait)%nat → send_loop engine wait (length (a :: l)) a n =
    if end_of_ring d then Ok n3 else send_loop engine wait (length l) (Z.lor (tdes3 d) 0xa0000000) n3).
  { intros wait Hlt. cbn [length send_loop]. rewrite Hg, bind_Ok. fold n2.
    rewrite (Hwait wait Hlt), bind_Ok. unfold get_desc. by rewrite Hk, bind_Ok. }
  inversion Hl as [? d0 Hd0 He0|? d0 l0 Hd0 He0 Hl0]; simplify_eq.
  - exists k, n3. split; [intros wait Hlt; by rewrite Hunfold, He0|]. split_and!.
    + by rewrite Hb3.
    + unfold n3. by rewrite iter_running.
    + done.
    + intros b e Hb. apply Hkeep. set_solver.
    + intros b ->%list_elem_of_singleton. by eexists.
  - destruct (IH (Z.lor (tdes3 d) 0xa0000000) n3) as (W & n4 & Hrun & Hb4 & Hr4 & Hs4 & Hk4 & Hin4);
      [unfold n3; by rewrite iter_running|by eapply ring_same|].
    exists (k `max` W)%nat, n4. split; [intros wait Hlt; rewrite Hunfold, He0 by lia; apply Hrun; lia|].
    split_and!; [|done|by apply (same_links_trans _ n3)| |].
    + rewrite Hb4, Hb3. cbn. by rewrite <- (assoc_L (++)).
    + intros b e Hb He Hoe. destruct (Hkeep b e) as (e' & He' & Hoe'); [set_solver|done|done|].
      apply (Hk4 b e'); [set_solver|done|done].
    + intros b [->|Hb]%elem_of_cons; [|by apply Hin4]. by apply (Hk4 a _ Hx Hk).
Qed.
End laws.

(** More rounds than needed change nothing. *)
Lemma send_loop_fuel engine wait f f' a n n' : (f ≤ f')%nat →
  send_loop engine wait f a n = Ok n' → send_loop engine wait f' a n = Ok n'.
Proof.
  revert f' a n. induction f as [|f IH]; intros [|f'] a n Hf; [done|done|lia|]. cbn [send_loop].
  intros H. apply bind_Ok_inv in H as (n1 & -> & H). rewrite bind_Ok.
  apply bind_Ok_inv in H as (n2 & -> & H). rewrite bind_Ok.
  apply bind_Ok_inv in H as (d & -> & H). rewrite bind_Ok.
  destruct (end_of_ring d); [done|]. apply IH; [lia|done].
Qed.

Lemma do_net_send_fuel engine wait f f' td td_phy n n' : (f ≤ f')%nat →
  do_net_send engine wait f td td_phy n = Ok n' → do_net_send engine wait f' td td_phy n = Ok n'.
Proof. apply send_loop_fuel. Qed.

(** ** Sending *)

Definition send_setup (td_phy : Z) (n : net) : list store :=
  [RegStore (DMA_BASE_ADDR + 0x10) td_phy;
   RegStore GMAC_BASE_ADDR (Z.lor (hw_regs n GMAC_BASE_ADDR) 0x8);
   RegStore (DMA_BASE_ADDR + 0x18) (Z.lor (hw_regs n (DMA_BASE_ADDR + 0x18)) 0x02202000);
   RegStore (DMA_BASE_ADDR + 0x1c) 0x10041].

Lemma do_net_send_spec engine (laws : EngineLaws engine) td td_phy l n :
  ring (descs n) td l →
  ∃ W n', (∀ wait, (W < wait)%nat → do_net_send engine wait (length l) td td_phy n = Ok n') ∧
    bus n' = bus n ++ send_setup td_phy n ++ flat_map handed l ∧
    same_links n n' ∧ ∀ a, a ∈ l → ∃ d, descs n' !! a = Some d ∧ owned d = false.
Proof.
  intros Hl. set (n0 := n <| bus ::= (.++ send_setup td_phy n) |>
    <| hw_regs := hw_regs (reg_write_32 (DMA_BASE_ADDR + 0x1c) 0x10041
        (reg_write_32 (DMA_BASE_ADDR + 0x18) (Z.lor (hw_regs n (DMA_BASE_ADDR + 0x18)) 0x02202000)
          (reg_write_32 GMAC_BASE_ADDR (Z.lor (hw_regs n GMAC_BASE_ADDR) 0x8)
            (reg_write_32 (DMA_BASE_ADDR + 0x10) td_phy n)))) |>).
  assert (Hr : running n0 = true).
  { unfold running, n0. change (hw_regs _ _) with (Z.lor (hw_regs n (DMA_BASE_ADDR + 0x18)) 0x02202000).
    rewrite Z.lor_spec. apply orb_true_iff. by right. }
  destruct (send_loop_spec l td n0 Hr Hl) as (W & n' & Hrun & Hb & _ & Hs & _ & Hin).
  exists W, n'. split; [|split; [|by split]].
  - intros wait Hw. rewrite <- (Hrun wait Hw). unfold do_net_send. f_equal.
    destruct n as [ds rg bs]. unfold n0. cbv [reg_write_32 update upd_bus upd_hw_regs]. cbn [descs hw_regs bus].
    f_equal. by rewrite <- !(assoc_L (++)).
  - rewrite Hb. unfold n0. cbn. by rewrite <- (assoc_L (++)).
Qed.

(** C32. For every DMA engine that, once started, sooner or later completes the
    descriptors it owns, [do_net_send] returns: it starts the engine, hands over
    each descriptor of the ring once and in the order of the links, with a poll
    demand after each, and when it returns the engine has completed them all. *)
Theorem do_net_send_correct engine (laws : EngineLaws engine) td td_phy l n :
  ring (descs n) td l →
  ∃ W n', (∀ wait, (W < wait)%nat → do_net_send engine wait (length l) td td_phy n = Ok n') ∧
    bus n' = bus n ++ send_setup td_phy n ++ flat_map handed l ∧
    ∀ a, a ∈ l → ∃ d, descs n' !! a = Some d ∧ owned d = false.
Proof.
  intros Hl. destruct (do_net_send_spec engine laws td td_phy l n Hl) as (W & n' & H1 & H2 & _ & H3).
  by exists W, n'.
Qed.

(** An engine that completes everything in one step. *)
Definition quick_engine (n : net) : net :=
  if running n then n <| descs ::= fmap (λ d, d <| d_tdes0 := 0 |>) |> else n.

#[export] Instance quick_engine_laws : EngineLaws quick_engine.
Proof.
  split; unfold quick_engine.
  - intros n a d Hd. destruct (running n).
    + exists 0. split; [|done]. cbn. by rewrite lookup_fmap, Hd.
    + exists (d_tdes0 d). rewrite Hd. by destruct d.
  - intros n. by destruct (running n).
  - intros n. by destruct (running n).
  - intros n a d Hr Hd _. exists 1%nat, (d <| d_tdes0 := 0 |>).
    change (Nat.iter 1 _ n) with (quick_engine n). unfold quick_engine. rewrite Hr.
    split; [|done]. cbn. by rewrite lookup_fmap, Hd.
Qed.

(** Two linked descriptors, the second with the end bit. *)
Definition two_descs : net :=
  Net (<[0xa0001000 := Desc 0 0 0 0x1010]> {[0xa0001010 := Desc 0 (2 ^ 25) 0 0x1000]}) (λ _, 0) [].

Lemma two_descs_ring : ring (descs two_descs) 0xa0001000 [0xa0001000; 0xa0001010].
Proof.
  eapply ring_next; [reflexivity|reflexivity|]. eapply ring_last; reflexivity.
Qed.

Lemma do_net_send_correct_witness :
  ∃ W n', do_net_send quick_engine W 2 0xa0001000 0x1000 two_descs = Ok n' ∧
    drop 4 (bus n') = handed 0xa0001000 ++ handed 0xa0001010.
Proof.
  destruct (do_net_send_correct quick_engine _ 0xa0001000 0x1000 _ two_descs two_descs_ring)
    as (W & n' & Hrun & Hb & _).
  exists (S W), n'. split; [apply Hrun; constructor|]. by rewrite Hb.
Defined.

(** ** Receiving *)

Definition armed (a : addr) : list store := [OwnStore a; RegStore (DMA_BASE_ADDR + 0x8) 1].

Lemma recv_loop_spec l a n :
  ring (descs n) a l → (2 ≤ length l)%nat →
  ∃ n' b, recv_loop (length l) a n = Ok n' ∧ last l = Some b ∧
    bus n' = bus n ++ flat_map armed (removelast l) ∧
    same_links n n' ∧ (∀ c, c ∉ removelast l → descs n' !! c = descs n !! c).
Proof.
  revert a n. induction l as [|x l IH]; intros a n Hl Hlen; [by inversion Hl|].
  assert (x = a) as -> by (by inversion Hl).
  pose proof (ring_NoDup _ _ _ Hl) as [Hx _]%NoDup_cons.
  inversion Hl as [? d Hd He|? d l0 Hd He Hl0]; simplify_eq; [cbn in Hlen; lia|].
  destruct (give_spec a d n Hd) as (n1 & Hg & Hd1 & Hne1 & Hreg1 & Hb1 & Hs1).
  set (n2 := reg_write_32 (DMA_BASE_ADDR + 0x8) 1 n1).
  set (nxt := Z.lor (tdes3 d) 0xa0000000) in *.
  assert (Hl2 : ring (descs n2) nxt l) by (by apply (ring_same n)).
  assert (Hb2 : bus n2 = bus n ++ armed a).
  { unfold n2. cbn. rewrite Hb1. by rewrite <- (assoc_L (++)). }
  assert (Hnext : ∃ e, descs n2 !! nxt = Some e ∧ (end_of_ring e = true ↔ l = [nxt])).
  { inversion Hl2 as [? e Hde Hee|? e l1 Hde Hee Hl1]; simplify_eq.
    - by exists e.
    - exists e. split; [done|]. rewrite Hee. split; [done|]. intros [= ->]. by inversion Hl1. }
  destruct Hnext as (e & Hde & Hend).
  assert (Hunfold : recv_loop (length (a :: l)) a n =
    if end_of_ring e then Ok n2 else recv_loop (length l) nxt n2).
  { cbn [length recv_loop]. rewrite Hg, bind_Ok. fold n2. unfold get_desc.
    change (descs n2 !! a) with (descs n1 !! a). rewrite Hd1, bind_Ok.
    change (tdes3 (d <| d_tdes0 := OWN |>)) with (tdes3 d). fold nxt. by rewrite Hde, bind_Ok. }
  rewrite Hunfold. destruct (end_of_ring e) eqn:Hee.
  - assert (l = [nxt]) as -> by (by apply Hend). exists n2, nxt. split_and!; [done|done|by rewrite Hb2|done|].
    intros c Hc. apply Hne1. set_solver.
  - destruct (IH nxt n2 Hl2) as (n3 & b & Hrun & Hlast & Hb3 & Hs3 & Hc3).
    { inversion Hl2 as [? d0 Hd0 He0|? d0 l1 Hd0 He0 Hl1]; simplify_eq; [congruence|].
      inversion Hl1; cbn; lia. }
    assert (l ≠ []) by (by intros ->). destruct l as [|y l]; [done|].
    exists n3, b. split_and!; [done|done| |by apply (same_links_trans _ n2)|].
    + rewrite Hb3, Hb2. change (removelast (a :: y :: l)) with (a :: removelast (y :: l)).
      cbn [flat_map]. by rewrite <- (assoc_L (++)).
    + change (removelast (a :: y :: l)) with (a :: removelast (y :: l)).
      intros c [Hca Hc]%not_elem_of_cons. rewrite Hc3 by done. by apply Hne1.
Qed.

Definition recv_setup (rd_phy : Z) (n : net) : list store :=
  [RegStore (DMA_BASE_ADDR + 0xc) rd_phy;
   RegStore GMAC_BASE_ADDR (Z.lor (hw_regs n GMAC_BASE_ADDR) 0x4);
   RegStore (DMA_BASE_ADDR + 0x18) (Z.lor (hw_regs n (GMAC_BASE_ADDR + 0x18)) 0x02200002);
   RegStore (DMA_BASE_ADDR + 0x1c) 0x10041].

(** [do_net_recv] on a ring of at least two descriptors returns 0 and hands
    over to the engine, in the order of the links, all of them but the last: the
    loop looks for the end bit after it has moved on.  It also sets the engine's
    operation mode from a register of the MAC. *)
Theorem do_net_recv_correct rd rd_phy l n :
  ring (descs n) rd l → (2 ≤ length l)%nat →
  ∃ n' b, do_net_recv (length l) rd rd_phy n = Ok (0, n') ∧ last l = Some b ∧
    bus n' = bus n ++ recv_setup rd_phy n ++ flat_map armed (removelast l) ∧
    same_links n n' ∧ descs n' !! b = descs n !! b.
Proof.
  intros Hl Hlen. pose proof (ring_NoDup _ _ _ Hl) as Hnd.
  set (n0 := n <| bus ::= (.++ recv_setup rd_phy n) |>
    <| hw_regs := hw_regs (reg_write_32 (DMA_BASE_ADDR + 0x1c) 0x10041
        (reg_write_32 (DMA_BASE_ADDR + 0x18) (Z.lor (hw_regs n (GMAC_BASE_ADDR + 0x18)) 0x02200002)
          (reg_write_32 GMAC_BASE_ADDR (Z.lor (hw_regs n GMAC_BASE_ADDR) 0x4)
            (reg_write_32 (DMA_BASE_ADDR + 0xc) rd_phy n)))) |>).
  destruct (recv_loop_spec l rd n0 Hl Hlen) as (n' & b & Hrun & Hlast & Hb & Hs & Hc).
  exists n', b. split; [|split; [done|split; [|split; [done|]]]].
  - transitivity (n ← recv_loop (length l) rd n0; Ok (0, n)); [|by rewrite Hrun].
    unfold do_net_recv. f_equal. f_equal.
    destruct n as [ds rg bs]. unfold n0. cbv [reg_write_32 update upd_bus upd_hw_regs]. cbn [descs hw_regs bus].
    f_equal. by rewrite <- !(assoc_L (++)).
  - rewrite Hb. unfold n0. cbn. by rewrite <- (assoc_L (++)).
  - rewrite Hc; [done|]. apply last_Some in Hlast as [l' ->].
    rewrite removelast_last. apply NoDup_app in Hnd as (_ & Hd & _).
    intros Hb'. apply (Hd b Hb'). by apply list_elem_of_singleton.
Qed.

Lemma do_net_recv_correct_witness :
  ∃ n', do_net_recv 2 0xa0001000 0x1000 two_descs = Ok (0, n') ∧
    drop 4 (bus n') = armed 0xa0001000.
Proof.
  destruct (do_net_recv_correct 0xa0001000 0x1000 _ two_descs two_descs_ring ltac:(cbn; lia))
    as (n' & b & Hrun & _ & Hb & _).
  exists n'. split; [exact Hrun|]. by rewrite Hb.
Defined.

(** ** The address of the interface, and [reverse] *)

Lemma set_mac_addr_get n :
  ∃ n', set_mac_addr GMAC_BASE_ADDR n = Ok n' ∧
    gmac_get_mac_addr n' = [0x00; 0x55; 0x7b; 0xb5; 0x7d; 0xf7].
Proof. eexists. split; [done|]. reflexivity. Qed.

Lemma reverse_out_of_bounds x : length x = 4%nat → reverse x = Fault OutOfBounds.
Proof.
  intros Hx. unfold reverse. rewrite for_range_cons by lia.
  replace (aget x (4 - 0)) with (@Fault Z OutOfBounds); [done|].
  unfold aget. rewrite decide_False by lia. rewrite lookup_ge_None_2; [done|lia].
Qed.

Lemma recv_loop_fuel f f' a n n' : (f ≤ f')%nat → recv_loop f a n = Ok n' → recv_loop f' a n = Ok n'.
Proof.
  revert f' a n. induction f as [|f IH]; intros [|f'] a n Hf; [done|done|lia|]. cbn [recv_loop].
  intros H. apply bind_Ok_inv in H as (n1 & -> & H). rewrite bind_Ok.
  apply bind_Ok_inv in H as (d & -> & H). rewrite bind_Ok.
  apply bind_Ok_inv in H as (e & -> & H). rewrite bind_Ok.
  destruct (end_of_ring e); [done|]. apply IH; [lia|done].
Qed.

Lemma do_net_recv_fuel f f' rd rd_phy n r : (f ≤ f')%nat →
  do_net_recv f rd rd_phy n = Ok r → do_net_recv f' rd rd_phy n = Ok r.
Proof.
  intros Hf H. apply bind_Ok_inv in H as (n' & H & Hr).
  unfold do_net_recv. by rewrite (recv_loop_fuel f f' _ _ _ Hf H).
Qed.

(** Waiting for a packet ends at once when the hardware is done with the
    descriptor. *)
Lemma wait_recv_done a w s :
  tdes0 s !! a = Some w → Z.land w OWN = 0 → wait_recv a s = Ok (true, s).
Proof. intros Hw Ho. unfold wait_recv. by rewrite Hw, bind_Ok, Ho. Qed.

(** Otherwise the process joins the queue of those that wait for a packet, with
    the descriptor in its entry, and another process is selected.  It stays in a
    queue, so that it is not lost. *)
Lemma wait_recv_blocks s Q c x d w :
  sched_wf s Q → current_running s = Some c → aget (pcb s) c = Ok x → unqueued Q c →
  tdes0 s !! d = Some w → Z.land w OWN ≠ 0 →
  ∃ s1 s' Q', do_wait_recv_package d s = Ok (false, s') ∧ scheduler s1 = Ok s' ∧
    sched_wf s1 (qset Q QRecv (Q QRecv ++ [c])) ∧
    aget (pcb s1) c = Ok (x <| waiting_desc := Some d |> <| status := TASK_BLOCKED |>) ∧
    sched_wf s' Q' ∧ queued Q' c.
Proof.
  intros Hwf Hc Hx Hun Hd Hw. pose proof (aget_pcb_ok _ _ _ _ Hwf Hx) as Hp.
  set (x1 := x <| waiting_desc := Some d |>).
  set (s0 := s <| pcb := <[Z.to_nat c := x1]> (pcb s) |>).
  pose proof (aget_bound _ _ _ Hx) as Hb.
  assert (aget (pcb s0) c = Ok x1) as Hx0 by (by apply aget_insert_eq).
  assert (sched_wf s0 Q) as Hwf0.
  { destruct Hwf as [[Q1 Q2 Q3] H1 H2 H3 H4 H5 H6].
    assert (∀ p y, aget (pcb s0) p = Ok y → p = c ∧ y = x1 ∨ aget (pcb s) p = Ok y) as Hcase.
    { intros p y Hy. destruct (decide (p = c)) as [->|]; [left; split; congruence|right].
      rewrite <- Hy. symmetry. apply (aget_insert_ne (pcb s) c p x1); [lia|congruence]. }
    split; [by split|by cbn; rewrite length_insert|done|done|done| |].
    - intros p y [[-> ->]|Hy]%Hcase; [by apply (H5 c x)|by eapply H5].
    - intros p y Hpq [[-> ->]|Hy]%Hcase; [by destruct (Hun QRecv)|by eapply H6]. }
  destruct (do_block_lemma s0 Q QRecv c x1 Hwf0 Hc Hx0) as (s1 & Hbl & Hwf1 & Hcur).
  - intros q' Hq. by destruct (Hun q').
  - intros j [=].
  - intros _. by exists d, w.
  - unfold joined in Hwf1, Hcur. rewrite decide_False in Hwf1, Hcur by apply Hun.
    destruct (scheduler_spec s1 _ c _ Hwf1 Hcur) as (s' & Q' & i & r & rest & Hs & Hwf' & _ & _ & _ & Hr).
    exists s1, s', Q'. split_and!; [|done|done|by apply Hcur|done|].
    + unfold do_wait_recv_package. rewrite Hc. unfold upd_proc. cbn [deref].
      rewrite bind_Ok, Hx, bind_Ok, aset_total, !bind_Ok by done.
      change (s <| pcb := <[Z.to_nat c := x <| waiting_desc := Some d |>]> (pcb s) |>) with s0.
      unfold wait_recv. change (tdes0 s0) with (tdes0 s). rewrite Hd, bind_Ok.
      apply Z.eqb_neq in Hw. rewrite Hw, Hbl, Hs. done.
    + assert (c ∈ qset (qset Q QRecv (Q QRecv ++ [c])) (QReady i) rest QRecv) as Hin.
      { unfold qset. rewrite decide_False, decide_True by done. apply elem_of_app. right. by apply list_elem_of_singleton. }
      destruct r as [p|].
      * destruct Hr as (_ & _ & _ & Hq). apply Hq. left. by exists QRecv.
      * destruct Hr as (_ & _ & Hq). exists QRecv. by rewrite Hq.
Qed.
