(* ===== verification/Mailbox.v ===== *)
(** * Mailboxes: [libs/mailbox.c], [include/libs/mailbox.h]

    The table of mailboxes, and one mailbox used by any number of processes.
    [mbox_send] and [mbox_recv] are split at every access to the mailbox; the
    semaphores and the mutex are what [Lock.v] shows of them: a [down] passes as
    often as the initial value and the [up]s allow, and one process holds the
    mutex.  A run is a list of the processes that move. *)

From S2P Require Import Prelude CString.

Definition MAILBOX_MSG_MAX_LEN : Z := 64.
Definition MAILBOX_MSG_MAX_NUM : Z := 2.
Definition MAILBOX_MAX_NUM : Z := 8.

(** [name] is a pointer into the memory of the process that opened the box. *)
Record mailbox_t := Mailbox {
  msg : list bytes;
  head : Z;
  tail : Z;
  mailbox_lock : option nat;      (* the process that holds it *)
  mailbox_empty : Z;              (* passes that remain *)
  mailbox_full : Z;
  name : Z;
  valid : Z;
}.

Definition mailbox_eta (b : mailbox_t) := Mailbox (msg b) (head b) (tail b) (mailbox_lock b)
  (mailbox_empty b) (mailbox_full b) (name b) (valid b).
#[export] Instance upd_msg : Update msg := ltac:(derive_update mailbox_eta msg).
#[export] Instance upd_head : Update head := ltac:(derive_update mailbox_eta head).
#[export] Instance upd_tail : Update tail := ltac:(derive_update mailbox_eta tail).
#[export] Instance upd_mailbox_lock : Update mailbox_lock :=
  ltac:(derive_update mailbox_eta mailbox_lock).
#[export] Instance upd_mailbox_empty : Update mailbox_empty :=
  ltac:(derive_update mailbox_eta mailbox_empty).
#[export] Instance upd_mailbox_full : Update mailbox_full :=
  ltac:(derive_update mailbox_eta mailbox_full).
#[export] Instance upd_name : Update name := ltac:(derive_update mailbox_eta name).
#[export] Instance upd_valid : Update valid := ltac:(derive_update mailbox_eta valid).

(** ** The table of mailboxes *)

(** One round of the outer loop of [mbox_init], for a box whose lock and
    semaphores have not been initialised before. *)
Definition init_box (b : mailbox_t) : outcome mailbox_t :=
  m ← for_range 0 MAILBOX_MSG_MAX_LEN (λ j, for_range 0 MAILBOX_MSG_MAX_NUM (λ k m,
    l ← aget m k; l ← aset l j 0; aset m k l)) (msg b);
  Ok (b <| msg := m |> <| valid := 0 |> <| name := 0 |> <| head := 0 |> <| tail := 0 |>
    <| mailbox_lock := None |> <| mailbox_empty := MAILBOX_MSG_MAX_NUM |> <| mailbox_full := 0 |>).

Definition mbox_init (bs : list mailbox_t) : outcome (list mailbox_t) :=
  for_range 0 MAILBOX_MAX_NUM (λ i bs, b ← aget bs i; b ← init_box b; aset bs i b) bs.

(** [mem] is the memory in which names lie; the result is the index of the box. *)
Definition mbox_open (mem : Z → bytes) (nm : Z) (bs : list mailbox_t) :
    outcome (option Z * list mailbox_t) :=
  found ← find_range 0 MAILBOX_MAX_NUM (λ i,
    b ← aget bs i;
    if valid b =? 0 then Ok false else c ← strcmp (mem nm) (mem (name b)); Ok (c =? 0));
  match found with
  | Some i => Ok (Some i, bs)
  | None =>
      free ← find_range 0 MAILBOX_MAX_NUM (λ i, b ← aget bs i; Ok (valid b =? 0));
      match free with
      | Some i => b ← aget bs i; bs ← aset bs i (b <| name := nm |> <| valid := 1 |>); Ok (Some i, bs)
      | None => Ok (None, bs)
      end
  end.

Definition mbox_close (i : Z) (bs : list mailbox_t) : outcome (list mailbox_t) :=
  b ← aget bs i; aset bs i (b <| valid := 0 |>).

(** ** Sending and receiving *)

(** A call: the sender's message, or the receiver's buffer, and the length. *)
Inductive call := Send (m : bytes) (len : Z) | Recv (buf : bytes) (len : Z).

(** Where a process stands in its call. *)
Inductive place :=
  | BeforeDown | BeforeLock | InBox | Copying (cnt i : Z) | BeforeRelease | BeforeUp | Returned.

Record process := Process { p_call : call; p_place : place }.

(** [sent] and [received] are histories: the length and the bytes of each message
    in the order in which the slots are filled and emptied; with a message sent,
    what its slot then holds. *)
Record mstate := MState {
  box : mailbox_t;
  procs : list process;
  sent : list (Z * bytes * bytes);
  received : list (Z * bytes);
}.

Definition is_send (c : call) : bool := match c with Send _ _ => true | Recv _ _ => false end.
Definition msg_length (c : call) : Z := match c with Send _ n | Recv _ n => n end.

(** One byte between the message or buffer and slot [cnt]. *)
Definition copy_byte (cnt i : Z) (c : call) (b : mailbox_t) : outcome (call * mailbox_t) :=
  l ← aget (msg b) cnt;
  match c with
  | Send m len =>
      x ← aget m i; l ← aset l i x; ms ← aset (msg b) cnt l; Ok (c, b <| msg := ms |>)
  | Recv buf len => x ← aget l i; buf ← aset buf i x; Ok (Recv buf len, b)
  end.

(** The call has left its loop. *)
Definition record_message (cnt : Z) (c : call) (s : mstate) : outcome mstate :=
  match c with
  | Send m len => l ← aget (msg (box s)) cnt;
                  Ok (MState (box s) (procs s) (sent s ++ [(len, m, l)]) (received s))
  | Recv buf len => Ok (MState (box s) (procs s) (sent s) (received s ++ [(len, buf)]))
  end.

(** The next step of process [p], or [None] when it has to wait. *)
Definition mbox_step (p : nat) (s : mstate) : outcome (option mstate) :=
  match procs s !! p with
  | None => Ok None
  | Some (Process c pl) =>
      let b := box s in
      let go b c pl := MState b (<[p := Process c pl]> (procs s)) (sent s) (received s) in
      match pl with
      | BeforeDown =>
          if is_send c then
            if 0 <? mailbox_empty b then
              Ok (Some (go (b <| mailbox_empty ::= λ n, n - 1 |>) c BeforeLock)) else Ok None
          else
            if 0 <? mailbox_full b then
              Ok (Some (go (b <| mailbox_full ::= λ n, n - 1 |>) c BeforeLock)) else Ok None
      | BeforeLock =>
          match mailbox_lock b with
          | None => Ok (Some (go (b <| mailbox_lock := Some p |>) c InBox))
          | Some _ => Ok None
          end
      | InBox =>
          if is_send c then
            let t := Z.rem (tail b + 1) MAILBOX_MSG_MAX_NUM in
            Ok (Some (go (b <| tail := t |>) c (Copying t 0)))
          else
            let h := Z.rem (head b + 1) MAILBOX_MSG_MAX_NUM in
            Ok (Some (go (b <| head := h |>) c (Copying h 0)))
      | Copying cnt i =>
          if (msg_length c <=? MAILBOX_MSG_MAX_LEN) && (i <? msg_length c) then
            '(c, b) ← copy_byte cnt i c b; Ok (Some (go b c (Copying cnt (i + 1))))
          else s ← record_message cnt c (go b c BeforeRelease); Ok (Some s)
      | BeforeRelease => Ok (Some (go (b <| mailbox_lock := None |>) c BeforeUp))
      | BeforeUp =>
          if is_send c then Ok (Some (go (b <| mailbox_full ::= λ n, n + 1 |>) c Returned))
          else Ok (Some (go (b <| mailbox_empty ::= λ n, n + 1 |>) c Returned))
      | Returned => Ok None
      end
  end.

Fixpoint mbox_run (schedule : list nat) (s : mstate) : outcome mstate :=
  match schedule with
  | [] => Ok s
  | p :: schedule => r ← mbox_step p s; mbox_run schedule (default s r)
  end.

Definition zero_box : mailbox_t :=
  Mailbox (replicate 2 (replicate 64 0)) 0 0 None MAILBOX_MSG_MAX_NUM 0 0 0.

(** Calls that have not started. *)
Definition calls (cs : list call) : mstate :=
  MState zero_box (map (λ c, Process c BeforeDown) cs) [] [].

(** The message or the buffer is as long as the call says. *)
Definition call_ok (c : call) : Prop :=
  match c with Send m len => 0 ≤ len ≤ Z.of_nat (length m) | Recv b len => 0 ≤ len ≤ Z.of_nat (length b) end.

Definition ex_run : outcome mstate :=
  mbox_run (concat (replicate 40 [0; 1; 2; 3]%nat))
    (calls [Send (str "hi") 2; Recv (replicate 3 9) 3; Send (str "abc") 3; Recv (replicate 3 9) 2]).

Example ex_run_received :
  received <$> ex_run = Ok [(3, [104; 105; 0]); (2, [97; 98; 9])].
Proof. reflexivity. Qed.

(** ** Counting processes *)

Definition total (f : process → Z) (l : list process) : Z := foldr (λ t n, f t + n) 0 l.

Lemma total_cons f x l : total f (x :: l) = f x + total f l.
Proof. done. Qed.

Lemma total_insert f l p t t' :
  l !! p = Some t → total f (<[p := t']> l) = total f l - f t + f t'.
Proof.
  revert p. induction l as [|x l IH]; intros [|p]; [done|done| |].
  - intros [= ->]. change (<[0%nat := t']> (t :: l)) with (t' :: l). rewrite !total_cons. lia.
  - intros Hp. change (<[S p := t']> (x :: l)) with (x :: <[p := t']> l).
    rewrite !total_cons, (IH p Hp). lia.
Qed.

Lemma total_le f g l : (∀ t, f t ≤ g t) → total f l ≤ total g l.
Proof.
  intros H. induction l as [|x l IH]; [done|]. rewrite !total_cons. pose proof (H x). lia.
Qed.

Lemma total_eq f g l : (∀ p t, l !! p = Some t → f t = g t) → total f l = total g l.
Proof.
  induction l as [|x l IH]; intros H; [done|]. rewrite !total_cons, (H 0%nat x) by done.
  f_equal. apply IH. intros p. apply (H (S p)).
Qed.

Lemma total_single f g l p t :
  l !! p = Some t → (∀ q t', q ≠ p → l !! q = Some t' → f t' = g t') →
  total f l - f t = total g l - g t.
Proof.
  revert p. induction l as [|x l IH]; intros [|p]; [done|done| |].
  - intros [= ->] H. rewrite !total_cons.
    rewrite (total_eq f g l); [lia|]. intros q t'. by apply (H (S q)).
  - intros Hp H. rewrite !total_cons, (H 0%nat x) by done.
    pose proof (IH p Hp (λ q t' Hq, H (S q) t' ltac:(congruence))). lia.
Qed.

Lemma total_nonneg f l : (∀ t, 0 ≤ f t) → 0 ≤ total f l.
Proof.
  intros H. induction l as [|x l IH]; [done|]. rewrite total_cons. pose proof (H x). lia.
Qed.

(** How far a process is: past [semaphore_down], past the change of [head] or
    [tail], past the loop, past [semaphore_up]. *)
Definition progress (pl : place) : Z :=
  match pl with
  | BeforeDown => 0 | BeforeLock | InBox => 1 | Copying _ _ => 2
  | BeforeRelease | BeforeUp => 3 | Returned => 4
  end.

Definition past (snd : bool) (n : Z) (t : process) : Z :=
  if Bool.eqb (is_send (p_call t)) snd && (n <=? progress (p_place t)) then 1 else 0.

Lemma past_nonneg snd n t : 0 ≤ past snd n t ≤ 1.
Proof. unfold past. destruct (_ && _); lia. Qed.

Lemma past_mono snd n m t : n ≤ m → past snd m t ≤ past snd n t.
Proof.
  intros Hnm. unfold past. destruct (Bool.eqb _ _); cbn; [|done].
  destruct (Z.leb_spec m (progress (p_place t))), (Z.leb_spec n (progress (p_place t))); lia.
Qed.

Definition count (snd : bool) (n : Z) (s : mstate) : Z := total (past snd n) (procs s).

Lemma count_mono snd n m s : n ≤ m → count snd m s ≤ count snd n s.
Proof. intros. apply total_le. intros. by apply past_mono. Qed.

(** ** The invariant *)

(** The place of a process that holds the lock. *)
Definition in_section (pl : place) : bool :=
  match pl with InBox | Copying _ _ | BeforeRelease => true | _ => false end.

Definition slot_of (k : Z) : Z := Z.rem k MAILBOX_MSG_MAX_NUM.

(** What a process in its loop has copied: sender number [k] to its slot, or from
    the slot of message number [k]. *)
Definition copying_ok (s : mstate) (c : call) (cnt i : Z) : Prop :=
  0 ≤ i ≤ msg_length c ∧ (i = 0 ∨ msg_length c ≤ MAILBOX_MSG_MAX_LEN) ∧
  match c with
  | Send m len => cnt = slot_of (count true 2 s) ∧
      ∃ l, msg (box s) !! Z.to_nat cnt = Some l ∧ take (Z.to_nat i) l = take (Z.to_nat i) m
  | Recv buf len => cnt = slot_of (count false 2 s) ∧
      ∃ l, msg (box s) !! Z.to_nat cnt = Some l ∧ take (Z.to_nat i) buf = take (Z.to_nat i) l
  end.

(** The message that the history of a sender holds is the message, and that of a
    receiver is what was sent. *)
Definition sent_ok (e : Z * bytes * bytes) : Prop :=
  let '(len, m, l) := e in
  0 ≤ len ∧ (len ≤ MAILBOX_MSG_MAX_LEN → take (Z.to_nat len) l = take (Z.to_nat len) m).

Definition received_ok (s : mstate) (k : nat) (e : Z * bytes) : Prop :=
  let '(len, buf) := e in
  ∃ e', sent s !! k = Some e' ∧
    (len ≤ MAILBOX_MSG_MAX_LEN → take (Z.to_nat len) buf = take (Z.to_nat len) e'.2).

Record mbox_inv (s : mstate) : Prop := {
  mi_slots : Forall (λ l : bytes, length l = 64%nat) (msg (box s)) ∧ length (msg (box s)) = 2%nat;
  mi_empty : mailbox_empty (box s) = 2 - count true 1 s + count false 4 s;
  mi_full : mailbox_full (box s) = count true 4 s - count false 1 s;
  mi_passes : 0 ≤ mailbox_empty (box s) ∧ 0 ≤ mailbox_full (box s);
  mi_tail : tail (box s) = slot_of (count true 2 s);
  mi_head : head (box s) = slot_of (count false 2 s);
  mi_lock p t : procs s !! p = Some t →
    (in_section (p_place t) = true ↔ mailbox_lock (box s) = Some p);
  mi_calls p t : procs s !! p = Some t → call_ok (p_call t);
  mi_copy p c cnt i : procs s !! p = Some (Process c (Copying cnt i)) → copying_ok s c cnt i;
  mi_sent : Z.of_nat (length (sent s)) = count true 3 s ∧ Forall sent_ok (sent s);
  mi_received : Z.of_nat (length (received s)) = count false 3 s ∧
    ∀ k e, received s !! k = Some e → received_ok s k e;
  (* the messages not yet received are in their slots *)
  mi_content k e : sent s !! k = Some e → count false 3 s ≤ Z.of_nat k →
    msg (box s) !! Z.to_nat (slot_of (Z.of_nat k + 1)) = Some e.2;
}.

(** ** Steps of a process outside the loop *)

Definition moved (s : mstate) (p : nat) (c : call) (pl : place) (b : mailbox_t) : mstate :=
  MState b (<[p := Process c pl]> (procs s)) (sent s) (received s).

Lemma count_moved snd n s p c pl c' pl' b :
  procs s !! p = Some (Process c pl) →
  count snd n (moved s p c' pl' b) =
    count snd n s - past snd n (Process c pl) + past snd n (Process c' pl').
Proof. intros Hp. unfold count, moved. cbn [procs]. by rewrite (total_insert _ _ _ _ _ Hp). Qed.

Lemma procs_moved s p c pl c' pl' b q t :
  procs s !! p = Some (Process c pl) → procs (moved s p c' pl' b) !! q = Some t →
  (q = p ∧ t = Process c' pl') ∨ (q ≠ p ∧ procs s !! q = Some t).
Proof.
  intros Hp. unfold moved. cbn [procs]. destruct (decide (q = p)) as [->|Hq].
  - rewrite list_lookup_insert_eq by (by eapply lookup_lt_Some). intros [= <-]. by left.
  - rewrite list_lookup_insert_ne by done. by right.
Qed.

(** Levels 2 and 3 count the same processes as before. *)
Definition same_levels (pl pl' : place) : Prop :=
  (2 <=? progress pl) = (2 <=? progress pl') ∧ (3 <=? progress pl) = (3 <=? progress pl') ∧
  (∀ cnt i, pl' ≠ Copying cnt i).

Lemma past_level snd n c pl pl' :
  (n <=? progress pl) = (n <=? progress pl') → past snd n (Process c pl) = past snd n (Process c pl').
Proof. intros H. unfold past. cbn. by rewrite H. Qed.

Lemma mbox_inv_outside s p c pl pl' b' :
  mbox_inv s → procs s !! p = Some (Process c pl) → same_levels pl pl' →
  msg b' = msg (box s) → head b' = head (box s) → tail b' = tail (box s) →
  let s' := moved s p c pl' b' in
  mailbox_empty b' = 2 - count true 1 s' + count false 4 s' →
  mailbox_full b' = count true 4 s' - count false 1 s' →
  0 ≤ mailbox_empty b' ∧ 0 ≤ mailbox_full b' →
  (∀ q t, procs s' !! q = Some t → (in_section (p_place t) = true ↔ mailbox_lock b' = Some q)) →
  mbox_inv s'.
Proof.
  intros [H1 H2 H3 H4 H5 H6 H7 H8 H9 H10 H11 H12] Hp (Hl2 & Hl3 & Hnc) Hm Hh Ht s' He Hf Hpos Hlock.
  assert (Hc2 : ∀ snd, count snd 2 s' = count snd 2 s).
  { intros snd. unfold s'. rewrite (count_moved _ _ _ _ _ _ _ _ _ Hp).
    rewrite (past_level snd 2 c pl pl') by done. lia. }
  assert (Hc3 : ∀ snd, count snd 3 s' = count snd 3 s).
  { intros snd. unfold s'. rewrite (count_moved _ _ _ _ _ _ _ _ _ Hp).
    rewrite (past_level snd 3 c pl pl') by done. lia. }
  split; cbn [box sent received s' moved]; rewrite ?Hm, ?Hh, ?Ht, ?Hc2, ?Hc3; try done.
  - intros q t Hq. destruct (procs_moved _ _ _ _ _ _ _ _ _ Hp Hq) as [[-> ->]|[_ Hq']]; [|by eapply H8].
    by apply (H8 _ _ Hp).
  - intros q c' cnt i Hq. destruct (procs_moved _ _ _ _ _ _ _ _ _ Hp Hq) as [[-> [= <- ?]]|[_ Hq']].
    + by destruct (Hnc cnt i).
    + specialize (H9 _ _ _ _ Hq'). unfold copying_ok in *. cbn [box s' moved]. rewrite Hm, !Hc2. done.
Qed.

(** While [p] holds the lock, the others are neither in their loops nor before
    them. *)
Lemma section_counts snd s p c pl :
  mbox_inv s → procs s !! p = Some (Process c pl) → in_section pl = true →
  count snd 2 s = count snd 3 s + past snd 2 (Process c pl) - past snd 3 (Process c pl).
Proof.
  intros Hinv Hp Hsec. unfold count.
  pose proof (proj1 (mi_lock _ Hinv p _ Hp) Hsec) as Hlock.
  assert (Hoth : ∀ q t, q ≠ p → procs s !! q = Some t → past snd 2 t = past snd 3 t).
  { intros q [c' pl'] Hqp Hq. unfold past. cbn.
    destruct pl'; try done. pose proof (proj1 (mi_lock _ Hinv q _ Hq) eq_refl). congruence. }
  pose proof (total_single (past snd 2) (past snd 3) (procs s) p _ Hp Hoth). lia.
Qed.

Ltac count_moved Hp := rewrite !(count_moved _ _ _ _ _ _ _ _ _ Hp).

Lemma lock_moved s p c pl c' pl' b' :
  mbox_inv s → procs s !! p = Some (Process c pl) → in_section pl = in_section pl' →
  mailbox_lock b' = mailbox_lock (box s) →
  ∀ q t, procs (moved s p c' pl' b') !! q = Some t →
    (in_section (p_place t) = true ↔ mailbox_lock b' = Some q).
Proof.
  intros Hinv Hp Hs Hl q t Hq. rewrite Hl.
  destruct (procs_moved _ _ _ _ _ _ _ _ _ Hp Hq) as [[-> ->]|[_ Hq']].
  - cbn. rewrite <- Hs. exact (mi_lock _ Hinv p _ Hp).
  - exact (mi_lock _ Hinv q _ Hq').
Qed.

Lemma down_inv s p c :
  mbox_inv s → procs s !! p = Some (Process c BeforeDown) →
  (is_send c = true → 0 < mailbox_empty (box s) →
    mbox_inv (moved s p c BeforeLock (box s <| mailbox_empty ::= λ n, n - 1 |>))) ∧
  (is_send c = false → 0 < mailbox_full (box s) →
    mbox_inv (moved s p c BeforeLock (box s <| mailbox_full ::= λ n, n - 1 |>))).
Proof.
  intros Hinv Hp. pose proof Hinv as [_ He Hf Hpos _ _ _ _ _ _ _ _].
  split; intros Hs Hpass; (apply (mbox_inv_outside s p c BeforeDown); [done|done| | | | | | | |]);
    try done; try (count_moved Hp; unfold past; cbn; rewrite ?Hs; cbn; lia); try (cbn; lia);
    by apply (lock_moved s p c BeforeDown).
Qed.

Lemma up_inv s p c :
  mbox_inv s → procs s !! p = Some (Process c BeforeUp) →
  (is_send c = true →
    mbox_inv (moved s p c Returned (box s <| mailbox_full ::= λ n, n + 1 |>))) ∧
  (is_send c = false →
    mbox_inv (moved s p c Returned (box s <| mailbox_empty ::= λ n, n + 1 |>))).
Proof.
  intros Hinv Hp. pose proof Hinv as [_ He Hf Hpos _ _ _ _ _ _ _ _].
  split; intros Hs; (apply (mbox_inv_outside s p c BeforeUp); [done|done| | | | | | | |]);
    try done; try (count_moved Hp; unfold past; cbn; rewrite ?Hs; cbn; lia); try (cbn; lia);
    by apply (lock_moved s p c BeforeUp).
Qed.

Lemma lock_inv s p c :
  mbox_inv s → procs s !! p = Some (Process c BeforeLock) → mailbox_lock (box s) = None →
  mbox_inv (moved s p c InBox (box s <| mailbox_lock := Some p |>)).
Proof.
  intros Hinv Hp Hl. pose proof Hinv as [_ He Hf Hpos _ _ _ _ _ _ _ _].
  apply (mbox_inv_outside s p c BeforeLock); try done;
    try (count_moved Hp; unfold past; destruct (is_send c); cbn; lia).
  intros q t Hq. destruct (procs_moved _ _ _ _ _ _ _ _ _ Hp Hq) as [[-> ->]|[Hqp Hq']]; [done|].
  pose proof (mi_lock _ Hinv q _ Hq') as H. rewrite Hl in H. cbn. rewrite H. naive_solver.
Qed.

Lemma release_inv s p c :
  mbox_inv s → procs s !! p = Some (Process c BeforeRelease) →
  mbox_inv (moved s p c BeforeUp (box s <| mailbox_lock := None |>)).
Proof.
  intros Hinv Hp. pose proof Hinv as [_ He Hf Hpos _ _ _ _ _ _ _ _].
  apply (mbox_inv_outside s p c BeforeRelease); try done;
    try (count_moved Hp; unfold past; destruct (is_send c); cbn; lia).
  intros q t Hq. destruct (procs_moved _ _ _ _ _ _ _ _ _ Hp Hq) as [[-> ->]|[Hqp Hq']]; [done|].
  pose proof (mi_lock _ Hinv q _ Hq') as H. pose proof (proj1 (mi_lock _ Hinv p _ Hp) eq_refl) as Hlp.
  rewrite Hlp in H. cbn. rewrite H. split; [|done]. by intros [= ->].
Qed.

(** ** Steps inside *)

Lemma slot_succ k : 0 ≤ k → Z.rem (slot_of k + 1) MAILBOX_MSG_MAX_NUM = slot_of (k + 1).
Proof.
  intros Hk. unfold slot_of, MAILBOX_MSG_MAX_NUM. pose proof (Z.mod_pos_bound k 2).
  rewrite (Z.rem_mod_nonneg k 2), (Z.rem_mod_nonneg (k + 1) 2), Z.rem_mod_nonneg by lia.
  by rewrite Z.add_mod_idemp_l.
Qed.

Lemma slot_range k : 0 ≤ k → 0 ≤ slot_of k < 2.
Proof. intros. unfold slot_of, MAILBOX_MSG_MAX_NUM. rewrite Z.rem_mod_nonneg by lia. apply Z.mod_pos_bound. lia. Qed.

Lemma slot_next k : 0 ≤ k → slot_of (k + 1) ≠ slot_of k.
Proof.
  intros. unfold slot_of, MAILBOX_MSG_MAX_NUM. rewrite !Z.rem_mod_nonneg by lia.
  Z.div_mod_to_equations. lia.
Qed.

Lemma count_nonneg snd n s : 0 ≤ count snd n s.
Proof. apply total_nonneg. intros. by apply past_nonneg. Qed.

Lemma slot_lookup s k : mbox_inv s → 0 ≤ k →
  ∃ l, msg (box s) !! Z.to_nat (slot_of k) = Some l ∧ length l = 64%nat.
Proof.
  intros Hinv Hk. destruct (mi_slots _ Hinv) as [Hall Hlen]. pose proof (slot_range k Hk).
  destruct (lookup_lt_is_Some_2 (msg (box s)) (Z.to_nat (slot_of k))) as [l Hl]; [lia|].
  exists l. split; [done|]. rewrite Forall_forall in Hall. apply Hall. by eapply list_elem_of_lookup_2.
Qed.

(** Nobody else copies while [p] is in its section. *)
Lemma alone s p c pl q c' cnt i :
  mbox_inv s → procs s !! p = Some (Process c pl) → in_section pl = true → q ≠ p →
  procs s !! q ≠ Some (Process c' (Copying cnt i)).
Proof.
  intros Hinv Hp Hs Hq Hc. pose proof (proj1 (mi_lock _ Hinv p _ Hp) Hs).
  pose proof (proj1 (mi_lock _ Hinv q _ Hc) eq_refl). congruence.
Qed.

(** Entering the loop, with the next slot. *)
Lemma enter_inv s p c b' cnt :
  mbox_inv s → procs s !! p = Some (Process c InBox) →
  cnt = slot_of (count (is_send c) 2 s + 1) →
  b' = (if is_send c then box s <| tail := cnt |> else box s <| head := cnt |>) →
  mbox_inv (moved s p c (Copying cnt 0) b').
Proof.
  intros Hinv Hp Hcnt Hb. pose proof Hinv as [H1 H2 H3 H4 H5 H6 H7 H8 H9 H10 H11 H12].
  assert (Hm : msg b' = msg (box s)) by (subst b'; by destruct (is_send c)).
  assert (Hl : mailbox_lock b' = mailbox_lock (box s)) by (subst b'; by destruct (is_send c)).
  assert (He : mailbox_empty b' = mailbox_empty (box s)) by (subst b'; by destruct (is_send c)).
  assert (Hf : mailbox_full b' = mailbox_full (box s)) by (subst b'; by destruct (is_send c)).
  assert (Hcount : ∀ snd n, n ≠ 2 → 0 ≤ n →
    count snd n (moved s p c (Copying cnt 0) b') = count snd n s).
  { intros snd n Hn Hn0. count_moved Hp. unfold past. cbn.
    destruct (Bool.eqb _ _); cbn; [|lia]. destruct (Z.leb_spec n 1), (Z.leb_spec n 2); lia. }
  assert (Hc2 : ∀ snd, count snd 2 (moved s p c (Copying cnt 0) b') =
    if Bool.eqb (is_send c) snd then count snd 2 s + 1 else count snd 2 s).
  { intros snd. count_moved Hp. unfold past. cbn. destruct (Bool.eqb _ _); cbn; lia. }
  split; cbn [box sent received moved]; rewrite ?Hm, ?Hcount, ?Hc2, ?He, ?Hf by done; try done.
  - subst b'. destruct (is_send c); [exact Hcnt|exact H5].
  - subst b'. destruct (is_send c); [exact H6|exact Hcnt].
  - by apply (lock_moved s p c InBox).
  - intros q t Hq. destruct (procs_moved _ _ _ _ _ _ _ _ _ Hp Hq) as [[-> ->]|[_ Hq']]; [|by eapply H8].
    by apply (H8 _ _ Hp).
  - intros q c' cnt' i Hq. destruct (procs_moved _ _ _ _ _ _ _ _ _ Hp Hq) as [[-> [= -> -> ->]]|[Hqp Hq']].
    + pose proof (H8 _ _ Hp) as Hok. cbn in Hok. unfold copying_ok. cbn [box moved].
      assert (0 ≤ msg_length c) by (destruct c; cbn in *; lia).
      split; [lia|]. split; [by left|].
      destruct (slot_lookup s (count (is_send c) 2 s + 1)) as (l & Hl1 & _);
        [done|pose proof (count_nonneg (is_send c) 2 s); lia|].
      destruct c as [m len|buf len]; cbn [is_send Bool.eqb] in *;
        (split; [by rewrite Hc2|exists l; rewrite Hm, Hcnt; done]).
    + by destruct (alone s p c InBox q c' cnt' i Hinv Hp eq_refl Hqp).
Qed.

Lemma take_insert_next {A} (i : nat) (x : A) l1 l2 :
  take i l1 = take i l2 → l2 !! i = Some x → (i < length l1)%nat →
  take (S i) (<[i := x]> l1) = take (S i) l2.
Proof.
  intros Ht Hx Hi. rewrite (take_S_r _ _ x) by (by apply list_lookup_insert_eq).
  rewrite (take_S_r l2 _ x) by done. rewrite take_insert_ge by done. by rewrite Ht.
Qed.

Lemma count_same_kind snd n s p c pl c' pl' b :
  procs s !! p = Some (Process c pl) → is_send c = is_send c' → progress pl = progress pl' →
  count snd n (moved s p c' pl' b) = count snd n s.
Proof. intros Hp Hs Hpl. count_moved Hp. unfold past. cbn. rewrite Hs, Hpl. lia. Qed.

(** The messages not yet received are not in the slot that is being written. *)
Lemma unread_slot s p c cnt i k e :
  mbox_inv s → procs s !! p = Some (Process c (Copying cnt i)) → is_send c = true →
  sent s !! k = Some e → count false 3 s ≤ Z.of_nat k →
  slot_of (Z.of_nat k + 1) ≠ slot_of (count true 2 s).
Proof.
  intros Hinv Hp Hs Hk Hge.
  pose proof (section_counts true s p c (Copying cnt i) Hinv Hp eq_refl) as H23.
  unfold past in H23. cbn in H23. rewrite Hs in H23. cbn in H23.
  destruct (mi_sent _ Hinv) as [Hlen _]. apply lookup_lt_Some in Hk.
  pose proof (mi_empty _ Hinv). pose proof (mi_passes _ Hinv).
  pose proof (count_mono true 1 2 s ltac:(lia)). pose proof (count_mono false 3 4 s ltac:(lia)).
  replace (count true 2 s) with (Z.of_nat k + 1 + 1) by lia.
  apply not_eq_sym, slot_next. lia.
Qed.

Lemma copy_inv s p c cnt i :
  mbox_inv s → procs s !! p = Some (Process c (Copying cnt i)) →
  msg_length c ≤ MAILBOX_MSG_MAX_LEN → i < msg_length c →
  ∃ c' b', copy_byte cnt i c (box s) = Ok (c', b') ∧
    mbox_inv (moved s p c' (Copying cnt (i + 1)) b').
Proof.
  intros Hinv Hp Hlen Hi. pose proof Hinv as [H1 H2 H3 H4 H5 H6 H7 H8 H9 H10 H11 H12].
  destruct (H9 _ _ _ _ Hp) as (Hi0 & _ & Hc). pose proof (H8 _ _ Hp) as Hok. cbn in Hok.
  pose proof (count_nonneg true 2 s) as Hn1. pose proof (count_nonneg false 2 s) as Hn2.
  assert (Hcnt : ∃ k, 0 ≤ k ∧ cnt = slot_of k) by (destruct c; destruct Hc as [-> _]; eauto).
  assert (Hr : 0 ≤ cnt < 2) by (destruct Hcnt as (k & Hk & ->); by apply slot_range).
  destruct H1 as [Hall Hl2].
  assert (Hgoal : ∀ c' ms, call_ok c' → is_send c' = is_send c →
    Forall (λ l : bytes, length l = 64%nat) ms → length ms = 2%nat →
    copying_ok (moved s p c' (Copying cnt (i + 1)) (box s <| msg := ms |>)) c' cnt (i + 1) →
    (∀ k e, sent s !! k = Some e → count false 3 s ≤ Z.of_nat k →
      ms !! Z.to_nat (slot_of (Z.of_nat k + 1)) = Some e.2) →
    mbox_inv (moved s p c' (Copying cnt (i + 1)) (box s <| msg := ms |>))).
  { intros c' ms Hok' Hs Hms Hlms Hcopy Hcont.
    assert (Hcount : ∀ snd n, count snd n (moved s p c' (Copying cnt (i + 1)) (box s <| msg := ms |>)) = count snd n s)
      by (intros; by apply (count_same_kind _ _ _ _ c (Copying cnt i))).
    split; cbn [box sent received moved]; rewrite ?Hcount; try done.
    - by apply (lock_moved s p c (Copying cnt i)).
    - intros q t Hq. destruct (procs_moved _ _ _ _ _ _ _ _ _ Hp Hq) as [[-> ->]|[_ Hq']]; [done|by eapply H8].
    - intros q c1 cnt' j Hq. destruct (procs_moved _ _ _ _ _ _ _ _ _ Hp Hq) as [[-> [= -> -> ->]]|[Hqp Hq']].
      + done.
      + by destruct (alone s p c (Copying cnt i) q c1 cnt' j Hinv Hp eq_refl Hqp). }
  destruct c as [m len|buf len]; cbn [msg_length is_send call_ok] in *;
    destruct Hc as (Hslot & l & Hl & Htake);
    (assert (Hll : length l = 64%nat) by (rewrite Forall_forall in Hall; apply Hall; by eapply list_elem_of_lookup_2));
    (assert (Hget : aget (msg (box s)) cnt = Ok l) by (apply aget_Ok; split; [lia|exact Hl]));
    unfold copy_byte; rewrite Hget, bind_Ok.
  - destruct (aget_total m i) as (x & Hx); [lia|]. rewrite Hx, bind_Ok.
    rewrite aset_total, bind_Ok by (unfold MAILBOX_MSG_MAX_LEN in *; lia).
    rewrite aset_total, bind_Ok by lia. eexists _, _. split; [done|].
    apply aget_Ok in Hx as [_ Hx]. apply Hgoal; [done|done| |by rewrite length_insert| |].
    + apply Forall_insert; [done|by rewrite length_insert].
    + split; [cbn; lia|]. split; [right; done|]. cbn [box moved].
      rewrite (count_same_kind _ _ _ _ _ (Copying cnt i)) by done. split; [done|].
      eexists. split; [apply list_lookup_insert_eq; lia|].
      replace (Z.to_nat (i + 1)) with (S (Z.to_nat i)) by lia.
      apply take_insert_next; [done|done|]. unfold MAILBOX_MSG_MAX_LEN in *. lia.
    + intros k e Hk Hge. rewrite list_lookup_insert_ne; [by apply H12|].
      pose proof (unread_slot s p _ cnt i k e Hinv Hp eq_refl Hk Hge).
      pose proof (slot_range (Z.of_nat k + 1) ltac:(lia)). lia.
  - destruct (aget_total l i) as (x & Hx); [unfold MAILBOX_MSG_MAX_LEN in *; lia|]. rewrite Hx, bind_Ok.
    rewrite aset_total, bind_Ok by lia. apply aget_Ok in Hx as [_ Hx].
    eexists (Recv (<[Z.to_nat i := x]> buf) len), (box s <| msg := msg (box s) |>).
    split; [by destruct (box s)|]. apply Hgoal; [cbn; by rewrite length_insert|done|done|done| |done].
    split; [cbn; lia|]. split; [right; done|]. cbn [box moved].
    rewrite (count_same_kind _ _ _ _ (Recv buf len) (Copying cnt i)) by done. split; [done|].
    exists l. split; [done|]. replace (Z.to_nat (i + 1)) with (S (Z.to_nat i)) by lia.
    apply take_insert_next; [done|done|lia].
Qed.

(** Leaving the loop: the message is complete. *)
Lemma finish_inv s p c cnt i :
  mbox_inv s → procs s !! p = Some (Process c (Copying cnt i)) →
  (MAILBOX_MSG_MAX_LEN < msg_length c ∨ msg_length c ≤ i) →
  ∃ s', record_message cnt c (moved s p c BeforeRelease (box s)) = Ok s' ∧ mbox_inv s'.
Proof.
  intros Hinv Hp Hend. pose proof Hinv as [H1 H2 H3 H4 H5 H6 H7 H8 H9 H10 H11 H12].
  destruct (H9 _ _ _ _ Hp) as (Hi0 & _ & Hc). pose proof (H8 _ _ Hp) as Hok. cbn in Hok.
  pose proof (count_nonneg true 2 s) as Hn1. pose proof (count_nonneg false 2 s) as Hn2.
  pose proof (section_counts (is_send c) s p c (Copying cnt i) Hinv Hp eq_refl) as H23.
  unfold past in H23. cbn in H23. rewrite Bool.eqb_reflx in H23. cbn in H23.
  set (s1 := moved s p c BeforeRelease (box s)).
  assert (Hcount : ∀ snd n, n ≠ 3 → count snd n s1 = count snd n s).
  { intros snd n Hn. unfold s1. count_moved Hp. unfold past. cbn.
    destruct (Bool.eqb _ _); cbn; [|lia]. destruct (Z.leb_spec n 2), (Z.leb_spec n 3); lia. }
  assert (Hc3 : ∀ snd, count snd 3 s1 = if Bool.eqb (is_send c) snd then count snd 3 s + 1 else count snd 3 s).
  { intros snd. unfold s1. count_moved Hp. unfold past. cbn. destruct (Bool.eqb _ _); cbn; lia. }
  assert (Hgoal : ∀ sn rc, Z.of_nat (length sn) = count true 3 s1 ∧ Forall sent_ok sn →
    let s' := MState (box s) (procs s1) sn rc in
    (Z.of_nat (length rc) = count false 3 s1 ∧ ∀ k e, rc !! k = Some e → received_ok s' k e) →
    (∀ k e, sn !! k = Some e → count false 3 s1 ≤ Z.of_nat k →
      msg (box s) !! Z.to_nat (slot_of (Z.of_nat k + 1)) = Some e.2) → mbox_inv s').
  { intros sn rc Hsn s' Hrc Hcont.
    assert (Hs' : ∀ snd n, count snd n s' = count snd n s1) by done.
    split; cbn [box sent received s' procs s1 moved]; rewrite ?Hs', ?(Hcount _ 1), ?(Hcount _ 2), ?(Hcount _ 4) by done; try done.
    - by apply (lock_moved s p c (Copying cnt i)).
    - intros q t Hq. destruct (procs_moved s p c _ c BeforeRelease (box s) q _ Hp Hq) as [[-> ->]|[_ Hq']]; [done|by eapply H8].
    - intros q c1 cnt' j Hq. destruct (procs_moved s p c _ c BeforeRelease (box s) q _ Hp Hq) as [[_ [=]]|[Hqp Hq']].
      by destruct (alone s p c (Copying cnt i) q c1 cnt' j Hinv Hp eq_refl Hqp). }
  destruct H10 as [Hls Hso], H11 as [Hlr Hro].
  destruct c as [m len|buf len]; cbn [msg_length is_send call_ok Bool.eqb] in *; unfold record_message;
    destruct Hc as (Hslot & l & Hl & Htake).
  - replace (aget (msg (box s1)) cnt) with (Ok l).
    2: { symmetry. apply aget_Ok. split; [rewrite Hslot; by apply slot_range|exact Hl]. }
    rewrite bind_Ok. eexists. split; [done|]. apply Hgoal.
    + rewrite Hc3. cbn [sent s1 moved]. rewrite length_app. cbn [length]. split; [lia|].
      apply Forall_app. split; [done|]. apply Forall_singleton. split; [lia|]. intros Hle.
      replace len with i by lia. done.
    + rewrite Hc3. split; [done|]. intros k [rl b] Hk. destruct (Hro _ _ Hk) as (e' & He' & Hb).
      exists e'. split; [|done]. by apply lookup_app_l_Some.
    + rewrite Hc3. intros k e Hk Hge. cbn [sent s1 moved] in Hk.
      apply lookup_app_Some in Hk as [Hk|[Hge' Hk]]; [by apply H12|].
      apply list_lookup_singleton_Some in Hk as [Hk <-].
      replace (Z.of_nat k + 1) with (count true 2 s) by lia. by rewrite <- Hslot.
  - eexists. split; [done|]. apply Hgoal.
    + rewrite Hc3. done.
    + rewrite Hc3. cbn [received s1 moved]. rewrite length_app. cbn [length]. split; [lia|].
      intros k e Hk. apply lookup_app_Some in Hk as [Hk|[Hge Hk]]; [by apply Hro|].
      apply list_lookup_singleton_Some in Hk as [Hk <-].
      destruct (lookup_lt_is_Some_2 (sent s) k) as [e' He'].
      { pose proof (count_mono true 3 4 s ltac:(lia)). pose proof (count_mono false 1 2 s ltac:(lia)). lia. }
      exists e'. split; [exact He'|]. intros Hle. replace len with i by lia. rewrite Htake.
      f_equal. apply (inj Some). rewrite <- (H12 k e' He') by lia.
      replace (Z.of_nat k + 1) with (count false 2 s) by lia. by rewrite <- Hslot.
    + rewrite Hc3. intros k e Hk Hge. apply H12; [done|lia].
Qed.

Lemma mbox_step_inv s p :
  mbox_inv s → ∃ r, mbox_step p s = Ok r ∧ mbox_inv (default s r).
Proof.
  intros Hinv. unfold mbox_step.
  destruct (procs s !! p) as [[c pl]|] eqn:Hp; [|by exists None].
  pose proof (count_nonneg (is_send c) 2 s) as Hn. destruct pl as [| | |cnt i| | |].
  - destruct (down_inv s p c Hinv Hp) as [Hs Hr]. destruct (is_send c).
    + destruct (Z.ltb_spec 0 (mailbox_empty (box s))); [|by exists None].
      eexists. split; [done|]. by apply Hs.
    + destruct (Z.ltb_spec 0 (mailbox_full (box s))); [|by exists None].
      eexists. split; [done|]. by apply Hr.
  - destruct (mailbox_lock (box s)) eqn:Hl; [by exists None|].
    eexists. split; [done|]. by apply lock_inv.
  - destruct (is_send c) eqn:Hs; (eexists; split; [done|]); apply enter_inv; try done; rewrite Hs; try done.
    + rewrite (mi_tail _ Hinv). by apply slot_succ.
    + rewrite (mi_head _ Hinv). by apply slot_succ.
  - destruct (Z.leb_spec (msg_length c) MAILBOX_MSG_MAX_LEN), (Z.ltb_spec i (msg_length c)); cbn [andb].
    + destruct (copy_inv s p c cnt i) as (c' & b' & -> & Hinv'); [done|done|done|done|].
      rewrite bind_Ok. by eexists.
    + destruct (finish_inv s p c cnt i) as (s' & Hrec & Hinv'); [done|done|by right|].
      unfold moved in Hrec. rewrite Hrec, bind_Ok. by eexists.
    + destruct (finish_inv s p c cnt i) as (s' & Hrec & Hinv'); [done|done|by left|].
      unfold moved in Hrec. rewrite Hrec, bind_Ok. by eexists.
    + destruct (finish_inv s p c cnt i) as (s' & Hrec & Hinv'); [done|done|by left|].
      unfold moved in Hrec. rewrite Hrec, bind_Ok. by eexists.
  - eexists. split; [done|]. by apply release_inv.
  - destruct (up_inv s p c Hinv Hp) as [Hs Hr]. destruct (is_send c); (eexists; split; [done|]); auto.
  - by exists None.
Qed.

Lemma mbox_run_inv schedule s : mbox_inv s → ∃ s', mbox_run schedule s = Ok s' ∧ mbox_inv s'.
Proof.
  revert s. induction schedule as [|p schedule IH]; intros s Hinv; [by exists s|].
  destruct (mbox_step_inv s p Hinv) as (r & Hr & Hinv'). cbn [mbox_run]. rewrite Hr, bind_Ok.
  by apply IH.
Qed.

Lemma calls_inv cs : Forall call_ok cs → mbox_inv (calls cs).
Proof.
  intros Hcs.
  assert (H0 : ∀ snd n, 1 ≤ n → count snd n (calls cs) = 0).
  { intros snd n Hn. unfold count, calls. cbn [procs]. clear Hcs. induction cs as [|c cs IH]; [done|].
    cbn [map]. rewrite total_cons, IH. unfold past. cbn. destruct (Z.leb_spec n 0); [lia|].
    by rewrite andb_false_r. }
  assert (Hpr : ∀ p t, procs (calls cs) !! p = Some t → p_place t = BeforeDown ∧ call_ok (p_call t)).
  { intros p t Hp. cbn in Hp. apply list_lookup_fmap_Some in Hp as (c & -> & Hc). split; [done|].
    rewrite Forall_forall in Hcs. apply Hcs. by eapply list_elem_of_lookup_2. }
  split; rewrite ?H0 by lia; try done.
  - split; [by repeat constructor|done].
  - intros p t Hp. destruct (Hpr p t Hp) as [-> _]. done.
  - intros p t Hp. by apply (Hpr p t).
  - intros p c cnt i Hp. by destruct (Hpr _ _ Hp).
Qed.

(** C25. Whatever processes send and receive through a mailbox, and in whatever
    order they run: no access leaves the mailbox or a message; at most two
    messages are sent and not yet received; and messages are received in the
    order in which they are sent, each once, with the bytes they were sent with,
    as far as both calls ask for them and neither asks for more than 64. *)
Theorem mailbox_fifo cs schedule :
  Forall call_ok cs →
  ∃ s, mbox_run schedule (calls cs) = Ok s ∧
    (length (received s) ≤ length (sent s) ≤ length (received s) + 2)%nat ∧
    ∀ k rlen buf, received s !! k = Some (rlen, buf) →
      ∃ slen m l, sent s !! k = Some (slen, m, l) ∧
        (0 ≤ rlen ≤ slen → slen ≤ MAILBOX_MSG_MAX_LEN →
          take (Z.to_nat rlen) buf = take (Z.to_nat rlen) m).
Proof.
  intros Hcs. destruct (mbox_run_inv schedule _ (calls_inv cs Hcs)) as (s & Hrun & Hinv).
  exists s. split; [done|]. destruct (mi_sent _ Hinv) as [Hls Hso], (mi_received _ Hinv) as [Hlr Hro].
  pose proof (mi_empty _ Hinv). pose proof (mi_full _ Hinv). pose proof (mi_passes _ Hinv).
  pose proof (count_mono true 1 3 s ltac:(lia)). pose proof (count_mono true 3 4 s ltac:(lia)).
  pose proof (count_mono false 1 3 s ltac:(lia)). pose proof (count_mono false 3 4 s ltac:(lia)).
  split; [lia|]. intros k rlen buf Hk. destruct (Hro _ _ Hk) as ([[slen m] l] & He & Hb).
  exists slen, m, l. split; [exact He|]. intros Hle Hmax. rewrite Hb by lia. cbn [snd].
  rewrite Forall_forall in Hso. destruct (Hso (slen, m, l)) as [_ Hm].
  { by eapply list_elem_of_lookup_2. }
  specialize (Hm Hmax). apply (f_equal (take (Z.to_nat rlen))) in Hm.
  by rewrite !take_take, !Nat.min_l in Hm by lia.
Qed.

(** Two senders and two receivers: the second message received is the second
    sent, cut to the two bytes asked for. *)
Lemma mailbox_fifo_witness :
  ∃ s slen m l, ex_run = Ok s ∧ sent s !! 1%nat = Some (slen, m, l) ∧
    (slen ≤ MAILBOX_MSG_MAX_LEN → 2 ≤ slen → take 2 m = [97; 98]).
Proof.
  destruct (mailbox_fifo [Send (str "hi") 2; Recv (replicate 3 9) 3; Send (str "abc") 3; Recv (replicate 3 9) 2]
    (concat (replicate 40 [0; 1; 2; 3]%nat))) as (s & Hrun & _ & Hfifo).
  { repeat constructor; cbn; lia. }
  assert (Hr : received s = [(3, [104; 105; 0]); (2, [97; 98; 9])]).
  { assert (H : received <$> ex_run = Ok (received s)) by (unfold ex_run; rewrite Hrun; exact eq_refl).
    rewrite ex_run_received in H. exact (eq_sym (inj Ok _ _ H)). }
  destruct (Hfifo 1%nat 2 [97; 98; 9]) as (slen & m & l & He & Ht); [rewrite Hr; exact eq_refl|].
  exists s, slen, m, l. split; [exact Hrun|]. split; [exact He|]. intros Hle H2.
  exact (eq_sym (Ht (conj (Z.le_0_2) H2) Hle)).
Defined.
