(* ===== verification/Syscall.v ===== *)
(** * System calls: [kernel/syscall/syscall.c], [include/sys/syscall.h],
    [init_syscall] of [init/main.c] and [libs/input.c]

    The stubs that user programs call, the table of handlers, and the kernel as
    the composition of the components that the handlers change. *)

From S2P Require Import Prelude CString Printk Queue Kstate Sched Lock Process FsLayout Fs Screen Mac.

(** An argument register holds a number, or a pointer to what it points to: a
    string, a queue, a task, a buffer, an array of locks.  The null pointer is
    [Int 0]. *)
Inductive word :=
  | Int (z : Z)
  | Str (s : bytes)
  | QueuePtr (q : qid)
  | TaskPtr (t : task_info_t)
  | Buf (b : bytes)
  | LockArray (l : list addr).

Definition IGNORE : word := Int 0.
Definition NUM_SYSCALLS : Z := 128.

(** The numbers of [include/sys/syscall.h]. *)
Inductive syscall_name :=
  | SYSCALL_SLEEP | SYSCALL_BLOCK | SYSCALL_UNBLOCK_ONE | SYSCALL_UNBLOCK_ALL | SYSCALL_WRITE
  | SYSCALL_READ | SYSCALL_CURSOR | SYSCALL_REFLUSH | SYSCALL_MUTEX_LOCK_INIT
  | SYSCALL_MUTEX_LOCK_ACQUIRE | SYSCALL_MUTEX_LOCK_RELEASE
  | SYSCALL_MUTEX_LOCK_RELEASE_MULTIPLE | SYSCALL_CLEAR | SYSCALL_PS | SYSCALL_SPAWN
  | SYSCALL_SPAWN_PRIORITY | SYSCALL_EXIT | SYSCALL_GET_PID | SYSCALL_WAIT | SYSCALL_EXEC
  | SYSCALL_KILL | SYSCALL_GETCHAR | SYSCALL_SEMAPHORE_INIT | SYSCALL_SEMAPHORE_UP
  | SYSCALL_SEMAPHORE_DOWN | SYSCALL_COND_INIT | SYSCALL_COND_WAIT | SYSCALL_COND_SIGNAL
  | SYSCALL_COND_BROADCAST | SYSCALL_BARRIER_INIT | SYSCALL_BARRIER_WAIT | SYSCALL_REBOOT
  | SYSCALL_MAC_INIT | SYSCALL_NET_SEND | SYSCALL_NET_RECV | SYSCALL_NET_WAIT_RECV_PKG
  | SYSCALL_MKFS | SYSCALL_MKDIR | SYSCALL_RMDIR | SYSCALL_READ_DIR | SYSCALL_FS_INFO
  | SYSCALL_CHANGE_DIR | SYSCALL_MKNOD | SYSCALL_CAT | SYSCALL_FOPEN | SYSCALL_FREAD
  | SYSCALL_FWRITE | SYSCALL_FCLOSE | SYSCALL_FSEEK | SYSCALL_LINK | SYSCALL_FIND
  | SYSCALL_RENAME.

Definition number (c : syscall_name) : Z :=
  match c with
  | SYSCALL_SLEEP => 2 | SYSCALL_BLOCK => 10 | SYSCALL_UNBLOCK_ONE => 11
  | SYSCALL_UNBLOCK_ALL => 12 | SYSCALL_WRITE => 20 | SYSCALL_READ => 21 | SYSCALL_CURSOR => 22
  | SYSCALL_REFLUSH => 23 | SYSCALL_MUTEX_LOCK_INIT => 30 | SYSCALL_MUTEX_LOCK_ACQUIRE => 31
  | SYSCALL_MUTEX_LOCK_RELEASE => 32 | SYSCALL_MUTEX_LOCK_RELEASE_MULTIPLE => 33
  | SYSCALL_CLEAR => 34 | SYSCALL_PS => 35 | SYSCALL_SPAWN => 36 | SYSCALL_SPAWN_PRIORITY => 37
  | SYSCALL_EXIT => 38 | SYSCALL_GET_PID => 39 | SYSCALL_WAIT => 40 | SYSCALL_EXEC => 41
  | SYSCALL_KILL => 42 | SYSCALL_GETCHAR => 43 | SYSCALL_SEMAPHORE_INIT => 44
  | SYSCALL_SEMAPHORE_UP => 45 | SYSCALL_SEMAPHORE_DOWN => 46 | SYSCALL_COND_INIT => 47
  | SYSCALL_COND_WAIT => 48 | SYSCALL_COND_SIGNAL => 49 | SYSCALL_COND_BROADCAST => 50
  | SYSCALL_BARRIER_INIT => 51 | SYSCALL_BARRIER_WAIT => 52 | SYSCALL_REBOOT => 53
  | SYSCALL_MAC_INIT => 54 | SYSCALL_NET_SEND => 55 | SYSCALL_NET_RECV => 56
  | SYSCALL_NET_WAIT_RECV_PKG => 57 | SYSCALL_MKFS => 58 | SYSCALL_MKDIR => 59
  | SYSCALL_RMDIR => 60 | SYSCALL_READ_DIR => 61 | SYSCALL_FS_INFO => 62
  | SYSCALL_CHANGE_DIR => 63 | SYSCALL_MKNOD => 64 | SYSCALL_CAT => 65 | SYSCALL_FOPEN => 66
  | SYSCALL_FREAD => 67 | SYSCALL_FWRITE => 68 | SYSCALL_FCLOSE => 69 | SYSCALL_FSEEK => 70
  | SYSCALL_LINK => 71 | SYSCALL_FIND => 72 | SYSCALL_RENAME => 73
  end.

(** The functions the table holds. *)
Inductive handler :=
  | Do_sleep | Do_block | Do_unblock_one | Do_unblock_all | Screen_write | Screen_move_cursor
  | Screen_reflush | Do_mutex_lock_init | Do_mutex_lock_acquire | Do_mutex_lock_release
  | Do_mutex_lock_release_multiple | Screen_clear | Do_ps | Do_spawn | Do_spawn_with_priority
  | Do_exit | Do_get_pid | Do_waitpid | Do_exec | Do_kill | Do_getchar | Do_semaphore_init
  | Do_semaphore_up | Do_semaphore_down | Do_condition_init | Do_condition_wait
  | Do_condition_signal | Do_condition_broadcast | Do_barrier_init | Do_barrier_wait
  | Do_reboot | Do_init_mac | Do_net_send | Do_net_recv | Do_wait_recv_package | Do_mkfs
  | Do_mkdir | Do_rm | Do_ls | Do_print_fs_info | Do_cd | Do_touch | Do_cat | Do_fopen
  | Do_fread | Do_fwrite | Do_fclose | Do_fseek | Do_link | Do_find | Do_rename.

#[export] Instance handler_eq_dec : EqDecision handler.
Proof. solve_decision. Defined.

(** [init_syscall] fills the table in this order. *)
Definition init_syscall_stores : list (syscall_name * handler) :=
  [
   (SYSCALL_SLEEP, Do_sleep); (SYSCALL_BLOCK, Do_block); (SYSCALL_UNBLOCK_ONE, Do_unblock_one);
   (SYSCALL_UNBLOCK_ALL, Do_unblock_all); (SYSCALL_WRITE, Screen_write);
   (SYSCALL_CURSOR, Screen_move_cursor); (SYSCALL_REFLUSH, Screen_reflush);
   (SYSCALL_MUTEX_LOCK_INIT, Do_mutex_lock_init);
   (SYSCALL_MUTEX_LOCK_ACQUIRE, Do_mutex_lock_acquire);
   (SYSCALL_MUTEX_LOCK_RELEASE, Do_mutex_lock_release);
   (SYSCALL_MUTEX_LOCK_RELEASE_MULTIPLE, Do_mutex_lock_release_multiple);
   (SYSCALL_CLEAR, Screen_clear); (SYSCALL_PS, Do_ps); (SYSCALL_SPAWN, Do_spawn);
   (SYSCALL_SPAWN_PRIORITY, Do_spawn_with_priority); (SYSCALL_EXIT, Do_exit);
   (SYSCALL_GET_PID, Do_get_pid); (SYSCALL_WAIT, Do_waitpid); (SYSCALL_EXEC, Do_exec);
   (SYSCALL_KILL, Do_kill); (SYSCALL_GETCHAR, Do_getchar);
   (SYSCALL_SEMAPHORE_INIT, Do_semaphore_init); (SYSCALL_SEMAPHORE_UP, Do_semaphore_up);
   (SYSCALL_SEMAPHORE_DOWN, Do_semaphore_down); (SYSCALL_COND_INIT, Do_condition_init);
   (SYSCALL_COND_WAIT, Do_condition_wait); (SYSCALL_COND_SIGNAL, Do_condition_signal);
   (SYSCALL_COND_BROADCAST, Do_condition_broadcast); (SYSCALL_BARRIER_INIT, Do_barrier_init);
   (SYSCALL_BARRIER_WAIT, Do_barrier_wait); (SYSCALL_REBOOT, Do_reboot);
   (SYSCALL_MAC_INIT, Do_init_mac); (SYSCALL_NET_SEND, Do_net_send);
   (SYSCALL_NET_RECV, Do_net_recv); (SYSCALL_NET_WAIT_RECV_PKG, Do_wait_recv_package);
   (SYSCALL_MKFS, Do_mkfs); (SYSCALL_FS_INFO, Do_print_fs_info); (SYSCALL_READ_DIR, Do_ls);
   (SYSCALL_MKDIR, Do_mkdir); (SYSCALL_RMDIR, Do_rm); (SYSCALL_CHANGE_DIR, Do_cd);
   (SYSCALL_MKNOD, Do_touch); (SYSCALL_CAT, Do_cat); (SYSCALL_FOPEN, Do_fopen);
   (SYSCALL_FREAD, Do_fread); (SYSCALL_FWRITE, Do_fwrite); (SYSCALL_FCLOSE, Do_fclose);
   (SYSCALL_FSEEK, Do_fseek); (SYSCALL_LINK, Do_link); (SYSCALL_FIND, Do_find);
   (SYSCALL_RENAME, Do_rename)].

(** Registers at the trap. *)
Record trap := Trap { fn : Z; arg1 : word; arg2 : word; arg3 : word }.

Definition invoke_syscall (c : syscall_name) (a1 a2 a3 : word) : trap := Trap (number c) a1 a2 a3.

(** ** The stubs *)

Definition sys_sleep (time : Z) : trap := invoke_syscall SYSCALL_SLEEP (Int time) IGNORE IGNORE.
Definition sys_block (q : qid) : trap := invoke_syscall SYSCALL_BLOCK (QueuePtr q) IGNORE IGNORE.
Definition sys_unblock_one (q : qid) : trap :=
  invoke_syscall SYSCALL_UNBLOCK_ONE (QueuePtr q) IGNORE IGNORE.
Definition sys_unblock_all (q : qid) : trap :=
  invoke_syscall SYSCALL_UNBLOCK_ALL (QueuePtr q) IGNORE IGNORE.
Definition sys_write (buff : bytes) : trap := invoke_syscall SYSCALL_WRITE (Str buff) IGNORE IGNORE.
Definition sys_reflush : trap := invoke_syscall SYSCALL_REFLUSH IGNORE IGNORE IGNORE.
Definition sys_clear : trap := invoke_syscall SYSCALL_CLEAR (Int 0) (Int SCREEN_HEIGHT) IGNORE.
Definition sys_move_cursor (x y : Z) : trap := invoke_syscall SYSCALL_CURSOR (Int x) (Int y) IGNORE.
Definition mutex_lock_init (lock : addr) : trap :=
  invoke_syscall SYSCALL_MUTEX_LOCK_INIT (Int lock) IGNORE IGNORE.
Definition mutex_lock_acquire (lock : addr) : trap :=
  invoke_syscall SYSCALL_MUTEX_LOCK_ACQUIRE (Int lock) IGNORE IGNORE.
Definition mutex_lock_release (lock : addr) : trap :=
  invoke_syscall SYSCALL_MUTEX_LOCK_RELEASE (Int lock) IGNORE IGNORE.
Definition mutex_lock_release_multiple (locks : list addr) (num : Z) : trap :=
  invoke_syscall SYSCALL_MUTEX_LOCK_RELEASE_MULTIPLE (LockArray locks) (Int num) IGNORE.
Definition sys_ps : trap := invoke_syscall SYSCALL_PS IGNORE IGNORE IGNORE.
Definition sys_exit : trap := invoke_syscall SYSCALL_EXIT IGNORE IGNORE IGNORE.
Definition sys_spawn (task : task_info_t) (arg : word) : trap :=
  invoke_syscall SYSCALL_SPAWN (TaskPtr task) arg IGNORE.
Definition sys_spawn_with_priority (task : task_info_t) (prio : Z) (arg : word) : trap :=
  invoke_syscall SYSCALL_SPAWN_PRIORITY (TaskPtr task) (Int prio) arg.
Definition sys_get_pid (entry result : Z) : trap :=
  invoke_syscall SYSCALL_GET_PID (Int entry) (Int result) IGNORE.
Definition sys_waitpid (p : Z) : trap := invoke_syscall SYSCALL_WAIT (Int p) IGNORE IGNORE.
Definition sys_exec (task_id : Z) (arg : word) : trap :=
  invoke_syscall SYSCALL_EXEC (Int task_id) arg IGNORE.
Definition sys_kill (p : Z) : trap := invoke_syscall SYSCALL_KILL (Int p) IGNORE IGNORE.
Definition sys_getchar (s : Z) : trap := invoke_syscall SYSCALL_GETCHAR (Int s) IGNORE IGNORE.
Definition semaphore_init (sem val : Z) : trap :=
  invoke_syscall SYSCALL_SEMAPHORE_INIT (Int sem) (Int val) IGNORE.
Definition semaphore_up (sem : addr) : trap :=
  invoke_syscall SYSCALL_SEMAPHORE_UP (Int sem) IGNORE IGNORE.
Definition semaphore_down (sem : addr) : trap :=
  invoke_syscall SYSCALL_SEMAPHORE_DOWN (Int sem) IGNORE IGNORE.
Definition condition_init (cond : addr) : trap :=
  invoke_syscall SYSCALL_COND_INIT (Int cond) IGNORE IGNORE.
Definition condition_wait (lock cond : addr) : trap :=
  invoke_syscall SYSCALL_COND_WAIT (Int lock) (Int cond) IGNORE.
Definition condition_signal (cond : addr) : trap :=
  invoke_syscall SYSCALL_COND_SIGNAL (Int cond) IGNORE IGNORE.
Definition condition_broadcast (cond : addr) : trap :=
  invoke_syscall SYSCALL_COND_BROADCAST (Int cond) IGNORE IGNORE.
Definition barrier_init (barrier bound : Z) : trap :=
  invoke_syscall SYSCALL_BARRIER_INIT (Int barrier) (Int bound) IGNORE.
Definition barrier_wait (barrier : addr) : trap :=
  invoke_syscall SYSCALL_BARRIER_WAIT (Int barrier) IGNORE IGNORE.
Definition sys_reboot : trap := invoke_syscall SYSCALL_REBOOT IGNORE IGNORE IGNORE.
Definition sys_init_mac : trap := invoke_syscall SYSCALL_MAC_INIT IGNORE IGNORE IGNORE.
Definition sys_net_send (td td_phy : Z) : trap :=
  invoke_syscall SYSCALL_NET_SEND (Int td) (Int td_phy) IGNORE.

(** It returns 0 whatever the handler returns. *)
Definition sys_net_recv (rd rd_phy daddr : Z) : trap * Z :=
  (invoke_syscall SYSCALL_NET_RECV (Int rd) (Int rd_phy) (Int daddr), 0).
Definition sys_wait_recv_package (d : addr) : trap :=
  invoke_syscall SYSCALL_NET_WAIT_RECV_PKG (Int d) IGNORE IGNORE.
Definition sys_mkfs : trap := invoke_syscall SYSCALL_MKFS IGNORE IGNORE IGNORE.
Definition sys_statfs : trap := invoke_syscall SYSCALL_FS_INFO IGNORE IGNORE IGNORE.
Definition sys_ls (name : word) : trap := invoke_syscall SYSCALL_READ_DIR name IGNORE IGNORE.
Definition sys_mkdir (name : word) : trap := invoke_syscall SYSCALL_MKDIR name IGNORE IGNORE.
Definition sys_rm (name : word) : trap := invoke_syscall SYSCALL_RMDIR name IGNORE IGNORE.
Definition sys_cd (name : word) : trap := invoke_syscall SYSCALL_CHANGE_DIR name IGNORE IGNORE.
Definition sys_touch (name : word) : trap := invoke_syscall SYSCALL_MKNOD name IGNORE IGNORE.
Definition sys_cat (name : word) : trap := invoke_syscall SYSCALL_CAT name IGNORE IGNORE.

(** It returns 0 whatever the handler does. *)
Definition sys_fopen (name : word) (access : Z) : trap * Z :=
  (invoke_syscall SYSCALL_FOPEN name (Int access) IGNORE, 0).
Definition sys_fwrite (fd : Z) (buf : bytes) (sz : Z) : trap :=
  invoke_syscall SYSCALL_FWRITE (Int fd) (Buf buf) (Int (i32 sz)).
Definition sys_fread (fd : Z) (buf : bytes) (sz : Z) : trap :=
  invoke_syscall SYSCALL_FREAD (Int fd) (Buf buf) (Int (i32 sz)).
Definition sys_fclose (fd : Z) : trap := invoke_syscall SYSCALL_FCLOSE (Int fd) IGNORE IGNORE.

(** It does not pass the position on. *)
Definition sys_fseek (fd pos : Z) : trap := invoke_syscall SYSCALL_FSEEK (Int fd) IGNORE IGNORE.
Definition sys_link (master servant : word) (link_type : Z) : trap :=
  invoke_syscall SYSCALL_LINK master servant (Int (i32 link_type)).
Definition sys_find (path name : word) : trap := invoke_syscall SYSCALL_FIND path name IGNORE.
Definition sys_rename (old new : word) : trap := invoke_syscall SYSCALL_RENAME old new IGNORE.

(** ** The table *)

Definition init_syscall (table : list (option handler)) : outcome (list (option handler)) :=
  foldl (λ t '(c, h), t ← t; aset t (number c) (Some h)) (Ok table) init_syscall_stores.

(** The static table before [init_syscall]. *)
Definition empty_table : list (option handler) := replicate 128 None.

(** ** The kernel *)

Record kernel {D : Type} := Kernel {
  k_sched : kstate;
  k_screen : screen;
  k_fs : fs D;
  k_net : net;
  k_uart : bytes;        (* characters that wait in the serial port *)
  k_reboots : nat;       (* jumps to the reset vector *)
}.
Arguments kernel : clear implicits.

(** What a call gives back to its caller: a number or bytes that the handler
    stores through a pointer, or the point where the caller will continue. *)
Inductive response :=
  | Return
  | Value (v : Z)
  | Data (b : bytes)
  | Waiting (c : control)
  | WaitingPackage (d : addr).

Section kernel.
Context {D : Type} {dev : BlockDev D}.

(** Uninitialised stack memory, bounds for the loops, the DMA engine, and the
    addresses and tables that the linker determines. *)
Context (junk1 junk2 : bytes) (fuel wait : nat) (engine : net → net)
  (exception_handler_exit nodes_addr : Z) (test_tasks : list task_info_t).
Implicit Types (k : kernel D).

Definition kernel_eta (k : kernel D) : kernel D :=
  Kernel D (k_sched k) (k_screen k) (k_fs k) (k_net k) (k_uart k) (k_reboots k).
#[export] Instance upd_k_sched : Update (@k_sched D) := ltac:(derive_update kernel_eta (@k_sched D)).
#[export] Instance upd_k_screen : Update (@k_screen D) :=
  ltac:(derive_update kernel_eta (@k_screen D)).
#[export] Instance upd_k_fs : Update (@k_fs D) := ltac:(derive_update kernel_eta (@k_fs D)).
#[export] Instance upd_k_net : Update (@k_net D) := ltac:(derive_update kernel_eta (@k_net D)).
#[export] Instance upd_k_uart : Update (@k_uart D) := ltac:(derive_update kernel_eta (@k_uart D)).
#[export] Instance upd_k_reboots : Update (@k_reboots D) :=
  ltac:(derive_update kernel_eta (@k_reboots D)).

(** What the scheduler shares with the drivers: the cursor is one pair of
    variables, which the screen driver moves and the scheduler saves and restores,
    and the scheduler reads the first words of the DMA descriptors. *)
Definition sched_in k : kstate :=
  k_sched k <| Kstate.screen_cursor_x := Screen.screen_cursor_x (k_screen k) |>
            <| Kstate.screen_cursor_y := Screen.screen_cursor_y (k_screen k) |>
            <| tdes0 := d_tdes0 <$> descs (k_net k) |>.

Definition sched_out (s : kstate) k : kernel D :=
  k <| k_sched := s |> <| k_screen ::= screen_move_cursor (Kstate.screen_cursor_x s) (Kstate.screen_cursor_y s) |>.

Definition on_sched (f : kstate → outcome kstate) k : outcome (response * kernel D) :=
  s ← f (sched_in k); Ok (Return, sched_out s k).

Definition on_sched_wait (f : kstate → outcome (control * kstate)) k : outcome (response * kernel D) :=
  '(c, s) ← f (sched_in k); Ok (if decide (c = Done) then Return else Waiting c, sched_out s k).

Definition on_screen (f : screen → outcome screen) k : outcome (response * kernel D) :=
  s ← f (k_screen k); Ok (Return, k <| k_screen := s |>).

Definition on_fs (f : fs D → outcome (fs D)) k : outcome (response * kernel D) :=
  s ← f (k_fs k); Ok (Return, k <| k_fs := s |>).

(** [do_getchar] takes everything that waits in the serial port and stores the
    last character, or 0. *)
Definition do_getchar k : outcome (response * kernel D) :=
  Ok (Value (default 0 (last (k_uart k))), k <| k_uart := [] |>).

(** Arguments that are strings, and those of which a null pointer is a case. *)
Definition as_str (w : word) : outcome bytes :=
  match w with Str s => Ok s | Int z => if z =? 0 then Fault NullPointer else Fault BadPointer
  | _ => Fault BadPointer end.
Definition as_opt (w : word) : outcome (option bytes) :=
  match w with Str s => Ok (Some s) | Int z => if z =? 0 then Ok None else Fault BadPointer
  | _ => Fault BadPointer end.
Definition as_int (w : word) : outcome Z :=
  match w with Int z => Ok z | _ => Fault BadPointer end.
Definition as_queue (w : word) : outcome qid :=
  match w with QueuePtr q => Ok q | _ => Fault BadPointer end.
Definition as_task (w : word) : outcome task_info_t :=
  match w with TaskPtr t => Ok t | _ => Fault BadPointer end.
Definition as_buf (w : word) : outcome bytes :=
  match w with Buf b => Ok b | _ => Fault BadPointer end.
Definition as_locks (w : word) : outcome (list addr) :=
  match w with LockArray l => Ok l | _ => Fault BadPointer end.

(** A call of the function in a table entry with the three argument registers. *)
Definition call (h : handler) (w1 w2 w3 : word) k : outcome (response * kernel D) :=
  match h with
  | Do_sleep => t ← as_int w1; on_sched (λ s, do_sleep s t) k
  | Do_block => q ← as_queue w1; on_sched (λ s, do_block s q) k
  | Do_unblock_one => q ← as_queue w1; on_sched (λ s, do_unblock_one s q) k
  | Do_unblock_all => q ← as_queue w1; on_sched (λ s, do_unblock_all s q) k
  | Screen_write => b ← as_str w1; on_screen (screen_write b) k
  | Screen_move_cursor => x ← as_int w1; y ← as_int w2; on_screen (λ s, Ok (screen_move_cursor x y s)) k
  | Screen_reflush => on_screen screen_reflush k
  | Do_mutex_lock_init => a ← as_int w1; on_sched (λ s, do_mutex_lock_init s a) k
  | Do_mutex_lock_acquire => a ← as_int w1; on_sched_wait (λ s, do_mutex_lock_acquire s a) k
  | Do_mutex_lock_release => a ← as_int w1; on_sched (λ s, do_mutex_lock_release s a) k
  | Do_mutex_lock_release_multiple =>
      l ← as_locks w1; n ← as_int w2;
      on_sched (λ s, do_mutex_lock_release_multiple fuel s (take (Z.to_nat n) l)) k
  | Screen_clear => a ← as_int w1; b ← as_int w2; on_screen (screen_clear a b) k
  | Do_ps => on_sched do_ps k
  | Do_spawn => t ← as_task w1; on_sched (λ s, do_spawn exception_handler_exit s t) k
  | Do_spawn_with_priority =>
      t ← as_task w1; p ← as_int w2;
      on_sched (λ s, do_spawn_with_priority exception_handler_exit s t p) k
  | Do_exit => on_sched do_exit k
  | Do_get_pid => e ← as_int w1; p ← do_get_pid (k_sched k) e; Ok (Value p, k)
  | Do_waitpid => p ← as_int w1; on_sched (λ s, do_waitpid s p) k
  | Do_exec => t ← as_int w1; on_sched (λ s, do_exec exception_handler_exit test_tasks s t) k
  | Do_kill => p ← as_int w1; on_sched (λ s, do_kill s p) k
  | Do_getchar => do_getchar k
  | Do_semaphore_init => a ← as_int w1; v ← as_int w2; on_sched (λ s, do_semaphore_init s a v) k
  | Do_semaphore_up => a ← as_int w1; on_sched (λ s, do_semaphore_up s a) k
  | Do_semaphore_down => a ← as_int w1; on_sched_wait (λ s, do_semaphore_down s a) k
  | Do_condition_init => a ← as_int w1; on_sched (λ s, do_condition_init s a) k
  | Do_condition_wait => l ← as_int w1; a ← as_int w2; on_sched_wait (λ s, do_condition_wait s l a) k
  | Do_condition_signal => a ← as_int w1; on_sched (λ s, do_condition_signal s a) k
  | Do_condition_broadcast => a ← as_int w1; on_sched (λ s, do_condition_broadcast s a) k
  | Do_barrier_init => a ← as_int w1; b ← as_int w2; on_sched (λ s, do_barrier_init s a b) k
  | Do_barrier_wait => a ← as_int w1; on_sched_wait (λ s, do_barrier_wait s a) k
  | Do_reboot => Ok (Return, k <| k_reboots ::= S |>)
  | Do_init_mac => n ← do_init_mac engine wait (k_net k); Ok (Return, k <| k_net := n |>)
  | Do_net_send =>
      a ← as_int w1; b ← as_int w2;
      n ← do_net_send engine wait fuel a b (k_net k); Ok (Return, k <| k_net := n |>)
  | Do_net_recv =>
      a ← as_int w1; b ← as_int w2;
      '(v, n) ← do_net_recv fuel a b (k_net k); Ok (Value v, k <| k_net := n |>)
  | Do_wait_recv_package =>
      d ← as_int w1; '(b, s) ← do_wait_recv_package d (sched_in k);
      Ok (if b : bool then Return else WaitingPackage d, sched_out s k)
  | Do_mkfs => on_fs (λ s, do_mkfs s junk1) k
  | Do_print_fs_info => on_fs do_print_fs_info k
  | Do_ls => n ← as_opt w1; on_fs (λ s, do_ls s n junk1) k
  | Do_mkdir => n ← as_opt w1; on_fs (λ s, do_mkdir s n junk1 junk2) k
  | Do_rm => n ← as_str w1; on_fs (λ s, do_rm fuel s n junk1) k
  | Do_cd => n ← as_opt w1; on_fs (λ s, do_cd s n junk1) k
  | Do_touch => n ← as_opt w1; on_fs (λ s, do_touch s n junk1) k
  | Do_cat => n ← as_opt w1; on_fs (λ s, do_cat s n junk1) k
  | Do_fopen => n ← as_opt w1; a ← as_int w2; on_fs (λ s, do_fopen s n a junk1) k
  | Do_fread =>
      i ← as_int w1; b ← as_buf w2; n ← as_int w3;
      '(b, s) ← do_fread fuel (k_fs k) i b (u32 n); Ok (Data b, k <| k_fs := s |>)
  | Do_fwrite =>
      i ← as_int w1; b ← as_buf w2; n ← as_int w3;
      on_fs (λ s, do_fwrite fuel nodes_addr s i b (u32 n)) k
  | Do_fclose => i ← as_int w1; on_fs (λ s, do_fclose s i) k
  | Do_fseek => i ← as_int w1; p ← as_int w2; on_fs (λ s, do_fseek s i p) k
  | Do_link => a ← as_str w1; b ← as_str w2; t ← as_int w3; on_fs (λ s, do_link s a b (u32 t) junk1) k
  | Do_find => a ← as_opt w1; b ← as_str w2; on_fs (λ s, do_find fuel s a b junk1) k
  | Do_rename => a ← as_str w1; b ← as_str w2; on_fs (λ s, do_rename s a b junk1) k
  end.

(** [syscall[fn](arg1, arg2, arg3)]: an entry that was never stored is null. *)
Definition system_call_helper (table : list (option handler)) (t : trap) k :
    outcome (response * kernel D) :=
  h ← aget table (fn t);
  h ← deref h;
  call h (arg1 t) (arg2 t) (arg3 t) k.

(** ** What the calls are for *)

(** The calls that a program can make. *)
Inductive api :=
  | A_sleep (t : Z)
  | A_block (q : qid)
  | A_unblock_one (q : qid)
  | A_unblock_all (q : qid)
  | A_write (b : bytes)
  | A_reflush
  | A_clear
  | A_move_cursor (x y : Z)
  | A_mutex_lock_init (a : addr)
  | A_mutex_lock_acquire (a : addr)
  | A_mutex_lock_release (a : addr)
  | A_mutex_lock_release_multiple (l : list addr)
  | A_ps
  | A_exit
  | A_spawn (t : task_info_t) (arg : word)
  | A_spawn_with_priority (t : task_info_t) (p : Z) (arg : word)
  | A_get_pid (entry result : Z)
  | A_waitpid (p : Z)
  | A_exec (t : Z) (arg : word)
  | A_kill (p : Z)
  | A_getchar (result : Z)
  | A_semaphore_init (a v : Z)
  | A_semaphore_up (a : addr)
  | A_semaphore_down (a : addr)
  | A_condition_init (a : addr)
  | A_condition_wait (lock a : addr)
  | A_condition_signal (a : addr)
  | A_condition_broadcast (a : addr)
  | A_barrier_init (a bound : Z)
  | A_barrier_wait (a : addr)
  | A_reboot
  | A_init_mac
  | A_net_send (td td_phy : Z)
  | A_net_recv (rd rd_phy daddr : Z)
  | A_wait_recv_package (d : addr)
  | A_mkfs
  | A_statfs
  | A_ls (n : option bytes)
  | A_mkdir (n : option bytes)
  | A_rm (n : bytes)
  | A_cd (n : option bytes)
  | A_touch (n : option bytes)
  | A_cat (n : option bytes)
  | A_fopen (n : option bytes) (access : Z)
  | A_fread (fd : Z) (b : bytes) (sz : Z)
  | A_fwrite (fd : Z) (b : bytes) (sz : Z)
  | A_fclose (fd : Z)
  | A_fseek (fd pos : Z)
  | A_link (a b : bytes) (t : Z)
  | A_find (path : option bytes) (n : bytes)
  | A_rename (a b : bytes).

Definition ptr (s : option bytes) : word :=
  match s with Some s => Str s | None => Int 0 end.

Definition stub (a : api) : trap :=
  match a with
  | A_sleep t => sys_sleep t
  | A_block q => sys_block q
  | A_unblock_one q => sys_unblock_one q
  | A_unblock_all q => sys_unblock_all q
  | A_write b => sys_write b
  | A_reflush => sys_reflush
  | A_clear => sys_clear
  | A_move_cursor x y => sys_move_cursor x y
  | A_mutex_lock_init a => mutex_lock_init a
  | A_mutex_lock_acquire a => mutex_lock_acquire a
  | A_mutex_lock_release a => mutex_lock_release a
  | A_mutex_lock_release_multiple l => mutex_lock_release_multiple l (Z.of_nat (length l))
  | A_ps => sys_ps
  | A_exit => sys_exit
  | A_spawn t arg => sys_spawn t arg
  | A_spawn_with_priority t p arg => sys_spawn_with_priority t p arg
  | A_get_pid entry result => sys_get_pid entry result
  | A_waitpid p => sys_waitpid p
  | A_exec t arg => sys_exec t arg
  | A_kill p => sys_kill p
  | A_getchar result => sys_getchar result
  | A_semaphore_init a v => semaphore_init a v
  | A_semaphore_up a => semaphore_up a
  | A_semaphore_down a => semaphore_down a
  | A_condition_init a => condition_init a
  | A_condition_wait lock a => condition_wait lock a
  | A_condition_signal a => condition_signal a
  | A_condition_broadcast a => condition_broadcast a
  | A_barrier_init a bound => barrier_init a bound
  | A_barrier_wait a => barrier_wait a
  | A_reboot => sys_reboot
  | A_init_mac => sys_init_mac
  | A_net_send td td_phy => sys_net_send td td_phy
  | A_net_recv rd rd_phy daddr => (sys_net_recv rd rd_phy daddr).1
  | A_wait_recv_package d => sys_wait_recv_package d
  | A_mkfs => sys_mkfs
  | A_statfs => sys_statfs
  | A_ls n => sys_ls (ptr n)
  | A_mkdir n => sys_mkdir (ptr n)
  | A_rm n => sys_rm (Str n)
  | A_cd n => sys_cd (ptr n)
  | A_touch n => sys_touch (ptr n)
  | A_cat n => sys_cat (ptr n)
  | A_fopen n access => (sys_fopen (ptr n) access).1
  | A_fread fd b sz => sys_fread fd b sz
  | A_fwrite fd b sz => sys_fwrite fd b sz
  | A_fclose fd => sys_fclose fd
  | A_fseek fd pos => sys_fseek fd pos
  | A_link a b t => sys_link (Str a) (Str b) t
  | A_find path n => sys_find (ptr path) (Str n)
  | A_rename a b => sys_rename (Str a) (Str b)
  end.

(** The kernel function that each call stands for, with the caller's arguments.
    [sys_fseek] stands for a seek to the start. *)
Definition intended (a : api) k : outcome (response * kernel D) :=
  match a with
  | A_sleep t => on_sched (λ s, do_sleep s t) k
  | A_block q => on_sched (λ s, do_block s q) k
  | A_unblock_one q => on_sched (λ s, do_unblock_one s q) k
  | A_unblock_all q => on_sched (λ s, do_unblock_all s q) k
  | A_write b => on_screen (screen_write b) k
  | A_reflush => on_screen screen_reflush k
  | A_clear => on_screen (screen_clear 0 SCREEN_HEIGHT) k
  | A_move_cursor x y => on_screen (λ s, Ok (screen_move_cursor x y s)) k
  | A_mutex_lock_init a => on_sched (λ s, do_mutex_lock_init s a) k
  | A_mutex_lock_acquire a => on_sched_wait (λ s, do_mutex_lock_acquire s a) k
  | A_mutex_lock_release a => on_sched (λ s, do_mutex_lock_release s a) k
  | A_mutex_lock_release_multiple l => on_sched (λ s, do_mutex_lock_release_multiple fuel s l) k
  | A_ps => on_sched do_ps k
  | A_exit => on_sched do_exit k
  | A_spawn t _ => on_sched (λ s, do_spawn exception_handler_exit s t) k
  | A_spawn_with_priority t p _ =>
      on_sched (λ s, do_spawn_with_priority exception_handler_exit s t p) k
  | A_get_pid entry _ => p ← do_get_pid (k_sched k) entry; Ok (Value p, k)
  | A_waitpid p => on_sched (λ s, do_waitpid s p) k
  | A_exec t _ => on_sched (λ s, do_exec exception_handler_exit test_tasks s t) k
  | A_kill p => on_sched (λ s, do_kill s p) k
  | A_getchar _ => do_getchar k
  | A_semaphore_init a v => on_sched (λ s, do_semaphore_init s a v) k
  | A_semaphore_up a => on_sched (λ s, do_semaphore_up s a) k
  | A_semaphore_down a => on_sched_wait (λ s, do_semaphore_down s a) k
  | A_condition_init a => on_sched (λ s, do_condition_init s a) k
  | A_condition_wait lock a => on_sched_wait (λ s, do_condition_wait s lock a) k
  | A_condition_signal a => on_sched (λ s, do_condition_signal s a) k
  | A_condition_broadcast a => on_sched (λ s, do_condition_broadcast s a) k
  | A_barrier_init a bound => on_sched (λ s, do_barrier_init s a bound) k
  | A_barrier_wait a => on_sched_wait (λ s, do_barrier_wait s a) k
  | A_reboot => Ok (Return, k <| k_reboots ::= S |>)
  | A_init_mac => n ← do_init_mac engine wait (k_net k); Ok (Return, k <| k_net := n |>)
  | A_net_send td td_phy =>
      n ← do_net_send engine wait fuel td td_phy (k_net k); Ok (Return, k <| k_net := n |>)
  | A_net_recv rd rd_phy _ =>
      '(v, n) ← do_net_recv fuel rd rd_phy (k_net k); Ok (Value v, k <| k_net := n |>)
  | A_wait_recv_package d =>
      '(b, s) ← do_wait_recv_package d (sched_in k);
      Ok (if b : bool then Return else WaitingPackage d, sched_out s k)
  | A_mkfs => on_fs (λ s, do_mkfs s junk1) k
  | A_statfs => on_fs do_print_fs_info k
  | A_ls n => on_fs (λ s, do_ls s n junk1) k
  | A_mkdir n => on_fs (λ s, do_mkdir s n junk1 junk2) k
  | A_rm n => on_fs (λ s, do_rm fuel s n junk1) k
  | A_cd n => on_fs (λ s, do_cd s n junk1) k
  | A_touch n => on_fs (λ s, do_touch s n junk1) k
  | A_cat n => on_fs (λ s, do_cat s n junk1) k
  | A_fopen n access => on_fs (λ s, do_fopen s n access junk1) k
  | A_fread fd b sz =>
      '(b, s) ← do_fread fuel (k_fs k) fd b (u32 sz); Ok (Data b, k <| k_fs := s |>)
  | A_fwrite fd b sz => on_fs (λ s, do_fwrite fuel nodes_addr s fd b (u32 sz)) k
  | A_fclose fd => on_fs (λ s, do_fclose s fd) k
  | A_fseek fd _ => on_fs (λ s, do_fseek s fd 0) k
  | A_link a b t => on_fs (λ s, do_link s a b (u32 t) junk1) k
  | A_find path n => on_fs (λ s, do_find fuel s path n junk1) k
  | A_rename a b => on_fs (λ s, do_rename s a b junk1) k
  end.


(** The table that [init_syscall] builds. *)
Definition syscall_table : list (option handler) :=
  match init_syscall empty_table with Ok t => t | _ => [] end.

Lemma syscall_table_Ok : init_syscall empty_table = Ok syscall_table.
Proof. vm_compute. reflexivity. Qed.

Lemma syscall_table_stored i h : aget syscall_table i = Ok (Some h) →
  ∃ c, (c, h) ∈ init_syscall_stores ∧ number c = i.
Proof.
  intros [Hi Hh]%aget_Ok.
  assert (Hall : forallb (λ i, match syscall_table !! i with
    | Some (Some h) => existsb (λ e, bool_decide (e.2 = h) && (number e.1 =? Z.of_nat i)) init_syscall_stores
    | _ => true end) (seq 0 128) = true) by (vm_compute; reflexivity).
  rewrite forallb_forall in Hall. pose proof (lookup_lt_Some _ _ _ Hh) as Hlt.
  change (length syscall_table) with 128%nat in Hlt.
  specialize (Hall (Z.to_nat i)). rewrite Hh in Hall.
  apply existsb_exists in Hall as ([c h'] & Hin & [Heq Hn]%andb_true_iff).
  - apply bool_decide_eq_true in Heq as <-. apply Z.eqb_eq in Hn. cbn in *.
    exists c. split; [by apply list_elem_of_In|lia].
  - apply in_seq. lia.
Qed.

(** A stub's trap reaches the function it stands for. *)
Lemma stub_calls a k : system_call_helper syscall_table (stub a) k = intended a k.
Proof.
  destruct a as [| | | | | | | | | | |l| | | | | | | | | | | | | | | | | | | | | | | | | |n|n|n|n|n|n|n ?|
    fd b sz|fd b sz| | |m n t|path n|]; try reflexivity; try (by destruct n); try (by destruct path).
  - transitivity (on_sched (λ s, do_mutex_lock_release_multiple fuel s
      (take (Z.to_nat (Z.of_nat (length l))) l)) k); [done|]. by rewrite Nat2Z.id, firstn_all.
  - transitivity ('(b, s) ← do_fread fuel (k_fs k) fd b (u32 (i32 sz)); Ok (Data b, k <| k_fs := s |>));
      [done|]. by rewrite u32_i32.
  - transitivity (on_fs (λ s, do_fwrite fuel nodes_addr s fd b (u32 (i32 sz))) k); [done|].
    by rewrite u32_i32.
  - transitivity (on_fs (λ s, do_link s m n (u32 (i32 t)) junk1) k); [done|]. by rewrite u32_i32.
Qed.

(** C13. With the table that [init_syscall] builds, every call reaches the kernel
    function it stands for with the caller's arguments in their order, and the
    kernel changes as that function says; only [sys_fseek] loses its position and
    always seeks to the start.  A trap with any other number is not refused but
    calls through a null pointer or from outside the table. *)
Theorem system_calls_correct :
  ∃ table, init_syscall empty_table = Ok table ∧
    (∀ a k, system_call_helper table (stub a) k = intended a k) ∧
    (∀ t k, (∀ c h, (c, h) ∈ init_syscall_stores → number c ≠ fn t) →
      system_call_helper table t k = Fault NullPointer ∨
      system_call_helper table t k = Fault OutOfBounds).
Proof.
  exists syscall_table. split; [exact syscall_table_Ok|]. split.
  - exact stub_calls.
  - intros t k Hno. unfold system_call_helper.
    destruct (aget_cases syscall_table (fn t)) as [[[h|] Hget]|Hget]; rewrite Hget.
    + destruct (syscall_table_stored _ _ Hget) as (c & Hc & Hn). by destruct (Hno c h Hc).
    + by left.
    + by right.
Qed.
End kernel.
