(* ===== verification/Shell.v ===== *)
(** * The shell: [kernel/shell/shell.c], [include/shell/shell.h], [getchar]

    A user process: it reaches the kernel by system calls only, apart from two
    kernel variables that it reads.  The typeclass [Os] is what it uses; the
    kernel of [Syscall.v] is one instance, a log of the calls another. *)

From S2P Require Import Prelude CString Printk Process FsLayout Fs Screen Syscall.

Definition COMMAND_BUFFER_SIZE : Z := 1024.
Definition COMMAND_FIELD_MAX_NUM : Z := 64.
Definition COMMAND_IMPL_NUM : Z := 17.
Definition SOLVE_COMMAND_ERROR : Z := -1.
Definition SOLVE_COMMAND_OK : Z := 1.
Definition O_RDWR : Z := 3.

Class Os (K : Type) := {
  os_call : trap → K → outcome (response * K);
  os_cwd_str : K → bytes;        (* [cwd_str] *)
  os_cursor : K → Z * Z;         (* [screen_cursor_x], [screen_cursor_y] *)
}.

Inductive command :=
  | Cmd_exec | Cmd_kill | Cmd_clear | Cmd_echo | Cmd_ps | Cmd_reboot | Cmd_mkfs | Cmd_statfs
  | Cmd_ls | Cmd_mkdir | Cmd_rm | Cmd_cd | Cmd_touch | Cmd_cat | Cmd_ln | Cmd_find | Cmd_rename.

#[export] Instance command_eq_dec : EqDecision command.
Proof. solve_decision. Defined.

Definition shell_cmd : list (bytes * command) :=
  [(cstr "exec", Cmd_exec); (cstr "kill", Cmd_kill); (cstr "clear", Cmd_clear);
   (cstr "echo", Cmd_echo); (cstr "ps", Cmd_ps); (cstr "reboot", Cmd_reboot);
   (cstr "mkfs", Cmd_mkfs); (cstr "statfs", Cmd_statfs); (cstr "ls", Cmd_ls);
   (cstr "mkdir", Cmd_mkdir); (cstr "rm", Cmd_rm); (cstr "cd", Cmd_cd);
   (cstr "touch", Cmd_touch); (cstr "cat", Cmd_cat); (cstr "ln", Cmd_ln);
   (cstr "find", Cmd_find); (cstr "rename", Cmd_rename)].

Section shell.
Context {K : Type} {os : Os K}.

(** The local arrays of [printf]. *)
Context (junk_buff junk_bf : bytes).
Implicit Types (k : K).

Definition sys (t : trap) k : outcome K := '(_, k) ← os_call t k; Ok k.

Definition printf (fmt : bytes) (args : list arg) k : outcome K :=
  '(_, k) ← printx (λ b, sys (sys_write b)) junk_buff junk_bf fmt args k; Ok k.

Definition getchar k : outcome (Z * K) :=
  '(r, k) ← os_call (sys_getchar 0) k;
  match r with Value c => Ok (c, k) | _ => Fault Uninitialised end.

(** ** The commands *)

(** [argv[i]]: a field is the offset of a word in the line, once it is set. *)
Definition argument (cmd : bytes) (field : list (option Z)) (i : Z) : outcome bytes :=
  o ← aget field i;
  match o with Some o => Ok (drop (Z.to_nat o) cmd) | None => Fault Uninitialised end.

(** [strcmp(s, constant) == 0] *)
Definition is_str (s : bytes) (c : string) : outcome bool := r ← strcmp s (cstr c); Ok (r =? 0).

Section commands.
Context (argc : Z) (argv : Z → outcome bytes).

Definition cmd_reboot k : outcome K :=
  if argc =? 1 then a ← argv 0; b ← is_str a "reboot"; if b : bool then sys sys_reboot k else Ok k
  else Ok k.

Definition cmd_exec k : outcome (Z * K) :=
  a ← argv 1;
  task_id ← atoi a;
  k ← sys (sys_exec task_id (Buf a)) k; Ok (SOLVE_COMMAND_OK, k).

Definition cmd_kill k : outcome (Z * K) :=
  a ← argv 1;
  p ← atoi a;
  if (p <? 0) || (Kstate.NUM_MAX_TASK <? p) then
    k ← printf (str "Incorrect pid: %d" ++ [10; 0]) [ArgInt p] k; Ok (SOLVE_COMMAND_ERROR, k)
  else k ← sys (sys_kill p) k; Ok (SOLVE_COMMAND_OK, k).

Definition cmd_mkfs k : outcome K := sys sys_mkfs k.
Definition cmd_statfs k : outcome K := sys sys_statfs k.
Definition cmd_mkdir k : outcome K := name ← argv 1; sys (sys_mkdir (Str name)) k.
Definition cmd_cd k : outcome K := name ← argv 1; sys (sys_cd (Str name)) k.
Definition cmd_rm k : outcome K := name ← argv 1; sys (sys_rm (Str name)) k.
Definition cmd_touch k : outcome K := name ← argv 1; sys (sys_touch (Str name)) k.
Definition cmd_cat k : outcome K := name ← argv 1; sys (sys_cat (Str name)) k.

Definition cmd_ln_usage k : outcome K :=
  printf (str "Usage: ln [-s] a b" ++ [10; 9] ++ str " Create link from a to b" ++ [10; 9] ++
    str "-s means it is a soft link" ++ [10; 0]) [] k.

Definition cmd_ln k : outcome K :=
  if argc =? 3 then
    master ← argv 1; servant ← argv 2; sys (sys_link (Str master) (Str servant) HARD_LINK) k
  else if argc =? 4 then
    swc ← argv 1; master ← argv 2; servant ← argv 3;
    b ← is_str swc "-s";
    if b : bool then sys (sys_link (Str master) (Str servant) SOFT_LINK) k else cmd_ln_usage k
  else cmd_ln_usage k.

Definition cmd_find k : outcome K :=
  path ← argv 1; name ← argv 2; sys (sys_find (Str path) (Str name)) k.

Definition cmd_rename k : outcome K :=
  old ← argv 1; new ← argv 2; sys (sys_rename (Str old) (Str new)) k.

(** The line [-----COMMAND-----] of [cmd_clear] and [shell_init]. *)
Definition banner k : outcome K :=
  let dashes := for_range 0 ((SCREEN_WIDTH - 7) / 2 - 2) (λ _, printf (cstr "-") []) in
  k ← dashes k; k ← printf (cstr "COMMAND") [] k; k ← dashes k; printf [10; 0] [] k.

Definition cmd_clear k : outcome K :=
  k ← sys sys_clear k; k ← sys (sys_move_cursor 0 (SCREEN_HEIGHT - 15)) k; banner k.

Definition cmd_echo k : outcome K :=
  if argc =? 2 then a ← argv 1; printf (str "%s" ++ [10; 0]) [ArgStr a] k
  else if argc =? 4 then
    c ← argv 2;
    b ← is_str c ">";
    if b : bool then
      name ← argv 3;
      let '(t, fd) := sys_fopen (Str name) O_RDWR in
      k ← sys t k;
      a ← argv 1; n ← strlen a;
      k ← sys (sys_fwrite fd a n) k;
      sys (sys_fclose fd) k
    else Ok k
  else Ok k.

Definition cmd_ps k : outcome K := sys sys_ps k.

Definition cmd_ls k : outcome K :=
  if argc =? 1 then sys (sys_ls (Int 0)) k
  else if argc =? 2 then a ← argv 1; sys (sys_ls (Str a)) k
  else Ok k.

(** [shell_cmd[which_cmd].func(...)], whose result is not used. *)
Definition run_command (c : command) k : outcome K :=
  match c with
  | Cmd_exec => '(_, k) ← cmd_exec k; Ok k
  | Cmd_kill => '(_, k) ← cmd_kill k; Ok k
  | Cmd_clear => cmd_clear k | Cmd_echo => cmd_echo k | Cmd_ps => cmd_ps k
  | Cmd_reboot => cmd_reboot k | Cmd_mkfs => cmd_mkfs k | Cmd_statfs => cmd_statfs k
  | Cmd_ls => cmd_ls k | Cmd_mkdir => cmd_mkdir k | Cmd_rm => cmd_rm k | Cmd_cd => cmd_cd k
  | Cmd_touch => cmd_touch k | Cmd_cat => cmd_cat k | Cmd_ln => cmd_ln k
  | Cmd_find => cmd_find k | Cmd_rename => cmd_rename k
  end.
End commands.

Definition shell_init k : outcome K :=
  k ← sys (sys_move_cursor 0 (SCREEN_HEIGHT - 20)) k;
  k ← banner k;
  k ← printf (str "[SHELL] Shell initialization ends." ++ [10; 0]) [] k;
  printf (str "[SHELL] Shell would be clear soon." ++ [10; 0]) [] k.

(** ** Running a line *)

(** The variables of the loop that splits the line. *)
Record split_state := SplitState {
  sp_cmd : bytes; sp_field : list (option Z); sp_cnt : Z; last_is_blank : bool
}.

Definition split_step (i : Z) (s : split_state) : outcome split_state :=
  c ← aget (sp_cmd s) i;
  if c =? 32 then
    cmd ← aset (sp_cmd s) i 0; Ok (SplitState cmd (sp_field s) (sp_cnt s) true)
  else if last_is_blank s then
    f ← aset (sp_field s) (sp_cnt s) (Some i);
    Ok (SplitState (sp_cmd s) f (sp_cnt s + 1) false)
  else Ok s.

Definition split_line (cmd : bytes) (len : Z) : outcome split_state :=
  for_range 0 len split_step
    (SplitState cmd (replicate (Z.to_nat COMMAND_FIELD_MAX_NUM) None) 0 true).

Definition which_command (f0 : bytes) : outcome (option Z) :=
  find_range 0 COMMAND_IMPL_NUM (λ i, e ← aget shell_cmd i; r ← strcmp f0 e.1; Ok (r =? 0)).

(** The line is changed in place; the second result is what it holds then. *)
Definition solve_cmd (cmd : bytes) (len : Z) k : outcome (Z * bytes * K) :=
  cmd ← aset cmd len 0;
  s ← split_line cmd len;
  let argv := argument (sp_cmd s) (sp_field s) in
  f0 ← argv 0;
  which_cmd ← which_command f0;
  match which_cmd with
  | None => Ok (SOLVE_COMMAND_ERROR, sp_cmd s, k)
  | Some i =>
      e ← aget shell_cmd i;
      k ← run_command (sp_cnt s) argv e.2 k;
      Ok (SOLVE_COMMAND_OK, sp_cmd s, k)
  end.

(** ** The main loop *)

Record shell_state := ShellState { command_buffer : bytes; cnt : Z }.

Definition prompt k : outcome K :=
  printf (cstr "LinHe@RUAOS %s ") [ArgStr (os_cwd_str k)] k.

(** One round after [getchar]. *)
Definition shell_char (ch : Z) (st : shell_state) k : outcome (shell_state * K) :=
  if ch =? 0 then Ok (st, k)
  else if (ch =? 10) || (ch =? 13) then
    b ← aset (command_buffer st) (cnt st) 10;
    k ← printf [10; 0] [] k;
    '(_, b, k) ← solve_cmd b (cnt st) k;
    k ← prompt k;
    Ok (ShellState b 0, k)
  else if (ch =? 8) || (ch =? 127) then
    if negb (cnt st =? 0) then
      k ← sys (sys_move_cursor (i32 ((os_cursor k).1 - 1)) (os_cursor k).2) k;
      k ← printf (cstr " ") [] k;
      k ← sys (sys_move_cursor (i32 ((os_cursor k).1 - 1)) (os_cursor k).2) k;
      Ok (ShellState (command_buffer st) (cnt st - 1), k)
    else Ok (st, k)
  else
    b ← aset (command_buffer st) (cnt st) ch;
    k ← printf (cstr "%c") [ArgInt ch] k;
    Ok (ShellState b (cnt st + 1), k).

(** [fuel] rounds of [while (1)]; [buffer] is the memory of the local array. *)
Fixpoint shell_loop (fuel : nat) (st : shell_state) k : outcome (shell_state * K) :=
  match fuel with
  | O => Ok (st, k)
  | S fuel => '(ch, k) ← getchar k; '(st, k) ← shell_char ch st k; shell_loop fuel st k
  end.

Definition shell (fuel : nat) (buffer : bytes) k : outcome (shell_state * K) :=
  k ← shell_init k;
  k ← cmd_clear k;
  k ← prompt k;
  shell_loop fuel (ShellState buffer 0) k.
End shell.

(** ** The words of a line *)

(** [w] is the part of the current word that has been read. *)
Fixpoint words_from (w s : bytes) : list bytes :=
  match s with
  | [] => if decide (w = []) then [] else [w]
  | c :: s =>
      if c =? 32 then if decide (w = []) then words_from [] s else w :: words_from [] s
      else words_from (w ++ [c]) s
  end.

Definition words : bytes → list bytes := words_from [].

Example words_ex : words (str "  mkdir a/b  c") = [str "mkdir"; str "a/b"; str "c"].
Proof. reflexivity. Qed.

(** The first word's command. *)
Definition command_of (w : bytes) : option command :=
  snd <$> (snd <$> list_find (λ e : bytes * command, e.1 = w ++ [0]) shell_cmd).

(** Where the words of [s] start, [s] being at offset [i] and [b] telling whether
    a blank precedes it. *)
Fixpoint word_starts (b : bool) (i : Z) (s : bytes) : list Z :=
  match s with
  | [] => []
  | c :: s =>
      if c =? 32 then word_starts true (i + 1) s
      else if b then i :: word_starts false (i + 1) s else word_starts false (i + 1) s
  end.

Definition zero_blanks (s : bytes) : bytes := map (λ c, if c =? 32 then 0 else c) s.

Lemma zero_blanks_length s : length (zero_blanks s) = length s.
Proof. apply length_map. Qed.

Definition fields (os : list Z) (m : nat) : list (option Z) := map Some os ++ replicate m None.

Lemma fields_length os m : length (fields os m) = (length os + m)%nat.
Proof. unfold fields. by rewrite length_app, length_map, length_replicate. Qed.

Lemma fields_set os m i :
  aset (fields os m) (Z.of_nat (length os)) (Some i) =
    match m with S m => Ok (fields (os ++ [i]) m) | O => Fault OutOfBounds end.
Proof.
  unfold fields. destruct m as [|m].
  - unfold aset. rewrite app_nil_r, length_map, decide_False by lia. done.
  - cbn [replicate]. rewrite <- (length_map Some os), aset_app_length.
    by rewrite map_app, <- (assoc_L (++)).
Qed.

Lemma aget_middle (pre : bytes) c rest : aget (pre ++ c :: rest) (Z.of_nat (length pre)) = Ok c.
Proof.
  apply aget_Ok. split; [lia|]. rewrite Nat2Z.id, lookup_app_r, Nat.sub_diag by lia. done.
Qed.

Lemma split_step_at pre c rest f n b :
  split_step (Z.of_nat (length pre)) (SplitState (pre ++ c :: rest) f n b) =
    if c =? 32 then Ok (SplitState (pre ++ 0 :: rest) f n true)
    else if b then f ← aset f n (Some (Z.of_nat (length pre))); Ok (SplitState (pre ++ c :: rest) f (n + 1) false)
    else Ok (SplitState (pre ++ c :: rest) f n b).
Proof.
  unfold split_step. cbn [sp_cmd sp_field sp_cnt last_is_blank]. rewrite aget_middle, bind_Ok.
  by rewrite aset_app_length.
Qed.

(** Whether a blank comes before the end of [s]. *)
Fixpoint ends_blank (b : bool) (s : bytes) : bool :=
  match s with [] => b | c :: s => ends_blank (c =? 32) s end.

(** The loop on the part [s] of the line. *)
Lemma split_loop s : ∀ pre rest os m b,
  for_range (Z.of_nat (length pre)) (Z.of_nat (length pre) + Z.of_nat (length s)) split_step
    (SplitState (pre ++ s ++ rest) (fields os m) (Z.of_nat (length os)) b) =
  let new := word_starts b (Z.of_nat (length pre)) s in
  if decide (length new ≤ m)%nat then
    Ok (SplitState (pre ++ zero_blanks s ++ rest) (fields (os ++ new) (m - length new))
      (Z.of_nat (length (os ++ new))) (ends_blank b s))
  else Fault OutOfBounds.
Proof.
  induction s as [|c s IH]; intros pre rest os m b.
  - rewrite for_range_nil by (cbn; lia). cbn. rewrite !app_nil_r, Nat.sub_0_r. done.
  - rewrite for_range_cons by (cbn [length]; lia).
    assert (Hmove : ∀ c', (pre ++ c' :: s ++ rest) = ((pre ++ [c']) ++ s ++ rest))
      by (intros; by rewrite <- (assoc_L (++))).
    assert (Hpre : ∀ c', Z.of_nat (length pre) + 1 = Z.of_nat (length (pre ++ [c'])))
      by (intros; rewrite length_app; cbn; lia).
    assert (Hend : ∀ c', Z.of_nat (length pre) + Z.of_nat (length (c :: s)) =
      Z.of_nat (length (pre ++ [c'])) + Z.of_nat (length s)) by (intros; rewrite length_app; cbn; lia).
    change ((c :: s) ++ rest) with (c :: s ++ rest). rewrite split_step_at.
    cbn [word_starts zero_blanks map ends_blank]. destruct (Z.eqb_spec c 32) as [->|Hc].
    + rewrite bind_Ok, Hmove, (Hpre 0), (Hend 0), IH. cbv zeta.
      rewrite <- (assoc_L (++) pre). done.
    + destruct b.
      * rewrite fields_set. destruct m as [|m]; cbn [word_starts].
        { rewrite decide_False by (cbn; lia). done. }
        rewrite !bind_Ok, Hmove.
        replace (Z.of_nat (length os) + 1) with (Z.of_nat (length (os ++ [Z.of_nat (length pre)])))
          by (rewrite length_app; cbn; lia).
        rewrite (Hend c), (Hpre c), IH. cbv zeta.
        cbn [length]. rewrite <- !(assoc_L (++)). cbn [app].
        repeat case_decide; try lia; done.
      * rewrite bind_Ok, Hmove, (Hend c), (Hpre c), IH. cbv zeta.
        rewrite <- (assoc_L (++) pre). done.
Qed.

(** Each start is the address of its word, which the zeroed blank or the end of
    the line terminates; [w] is the part of a word before [s]. *)
Lemma starts_words s : ∀ pre w rest, 0 ∉ s → 0 ∉ w →
  Forall2 (λ o w', string_at (drop (Z.to_nat o) (pre ++ w ++ zero_blanks s ++ 0 :: rest)) w')
    ((if decide (w = []) then [] else [Z.of_nat (length pre)]) ++
      word_starts (bool_decide (w = [])) (Z.of_nat (length (pre ++ w))) s)
    (words_from w s).
Proof.
  induction s as [|c s IH]; intros pre w rest Hs Hw; cbn [word_starts words_from zero_blanks map app].
  - destruct (decide (w = [])); [constructor|]. cbn [app].
    constructor; [|constructor]. rewrite Nat2Z.id, drop_app_length. by apply string_at_app.
  - assert (Hs' : 0 ∉ s) by set_solver. destruct (Z.eqb_spec c 32) as [->|Hc].
    + specialize (IH (pre ++ w ++ [0]) [] rest Hs' ltac:(set_solver)).
      rewrite !app_nil_r in IH. cbn [app decide bool_decide] in IH.
      rewrite <- !(assoc_L (++)) in IH. cbn [app] in IH.
      assert (Hlen : Z.of_nat (length (pre ++ w)) + 1 = Z.of_nat (length (pre ++ w ++ [0])))
        by (rewrite !length_app; cbn; lia).
      rewrite Hlen. destruct (decide (w = [])) as [->|Hne]; [exact IH|].
      constructor; [|exact IH]. rewrite Nat2Z.id, drop_app_length. by apply string_at_app.
    + specialize (IH pre (w ++ [c]) rest Hs' ltac:(set_solver)).
      rewrite decide_False in IH by (by intros []%app_nil).
      rewrite bool_decide_false in IH by (by intros []%app_nil).
      rewrite <- !(assoc_L (++)) in IH. cbn [app] in IH.
      assert (Hlen : Z.of_nat (length (pre ++ w)) + 1 = Z.of_nat (length (pre ++ w ++ [c])))
        by (rewrite !length_app; cbn; lia).
      rewrite Hlen. destruct (decide (w = [])) as [->|Hne].
      * rewrite bool_decide_true by done. rewrite app_nil_r. exact IH.
      * rewrite bool_decide_false by done. exact IH.
Qed.

Lemma words_nonzero s : ∀ w, 0 ∉ s → 0 ∉ w → all_bytes s → all_bytes w →
  Forall (λ w', 0 ∉ w' ∧ all_bytes w') (words_from w s).
Proof.
  induction s as [|c s IH]; intros w Hs Hw Hbs Hbw; cbn [words_from].
  - case_decide; repeat constructor; done.
  - apply Forall_cons in Hbs as [Hbc Hbs]. assert (Hs' : 0 ∉ s) by set_solver.
    assert (Hnil : 0 ∉ ([] : bytes)) by set_solver.
    destruct (c =? 32).
    + case_decide; [apply IH; auto|]. constructor; [done|]. apply IH; auto.
    + apply IH; [done|set_solver|done|]. apply Forall_app. auto.
Qed.

(** ** Finding the command *)

Lemma shell_cmd_names i e : shell_cmd !! i = Some e → ∃ n, e.1 = n ++ [0] ∧ 0 ∉ n ∧ all_bytes n.
Proof.
  assert (Hall : Forall (λ e : bytes * command, 0 ∉ removelast e.1 ∧ all_bytes (removelast e.1) ∧
    e.1 = removelast e.1 ++ [0]) shell_cmd).
  { apply (bool_decide_unpack _). vm_compute. exact I. }
  intros Hi. rewrite Forall_lookup in Hall. destruct (Hall _ _ Hi) as (? & ? & ?). eauto.
Qed.

Lemma which_command_correct p w : string_at p w → all_bytes w →
  which_command p = Ok (Z.of_nat ∘ fst <$> list_find (λ e : bytes * command, e.1 = w ++ [0]) shell_cmd).
Proof.
  intros Hp Hb. unfold which_command.
  set (q := λ i : Z, match shell_cmd !! Z.to_nat i with
    | Some e => bool_decide (e.1 = w ++ [0]) | None => false end).
  assert (Hq : ∀ i, 0 ≤ i < COMMAND_IMPL_NUM →
    (e ← aget shell_cmd i; r ← strcmp p e.1; Ok (r =? 0)) = Ok (q i)).
  { intros i Hi. unfold q. destruct (lookup_lt_is_Some_2 shell_cmd (Z.to_nat i)) as [e He].
    { change (length shell_cmd) with 17%nat. unfold COMMAND_IMPL_NUM in Hi. lia. }
    rewrite He. rewrite (proj2 (aget_Ok shell_cmd i e)) by (split; [lia|done]). rewrite bind_Ok.
    destruct (shell_cmd_names _ _ He) as (n & Hn & Hz & Hbn). rewrite Hn.
    destruct (strcmp_eq p (n ++ [0]) w n Hp (string_at_app n [] Hz) Hb Hbn) as (r & -> & Hr).
    rewrite bind_Ok, Hr. f_equal. apply bool_decide_ext.
    split; [congruence|]. by intros ->%(inj (.++ [0])). }
  destruct (list_find _ shell_cmd) as [[i e]|] eqn:Hf; cbn.
  - apply list_find_Some in Hf as (Hi & He & Hbefore). apply find_range_first with (q := q); [done| | |].
    + apply lookup_lt_Some in Hi. change (length shell_cmd) with 17%nat in Hi.
      unfold COMMAND_IMPL_NUM. lia.
    + unfold q. rewrite Nat2Z.id, Hi. by rewrite bool_decide_true.
    + intros j Hj. unfold q. destruct (shell_cmd !! Z.to_nat j) as [e'|] eqn:Hj'; [|done].
      apply bool_decide_eq_false. apply (Hbefore _ _ Hj'). lia.
  - apply list_find_None in Hf. destruct (find_range_spec _ _ _ q Hq) as (r & -> & Hr).
    destruct r as [i|]; [|done]. destruct Hr as (_ & Hi & _). unfold q in Hi.
    destruct (shell_cmd !! Z.to_nat i) as [e'|] eqn:Hi'; [|done].
    apply bool_decide_eq_true in Hi. rewrite Forall_lookup in Hf. by destruct (Hf _ _ Hi').
Qed.

(** ** Running a line *)

Lemma fields_get os m i :
  aget (fields os m) (Z.of_nat i) =
    if decide (i < length os)%nat then Ok (os !! i)
    else if decide (i < length os + m)%nat then Ok None else Fault OutOfBounds.
Proof.
  rewrite aget_lookup. unfold fields.
  destruct (decide (i < length os)%nat) as [Hi|Hi].
  - rewrite lookup_app_l by (rewrite length_map; lia).
    destruct (lookup_lt_is_Some_2 os i Hi) as [o Ho]. rewrite Ho.
    change (map Some os) with (Some <$> os). by rewrite list_lookup_fmap, Ho.
  - rewrite lookup_app_r by (rewrite length_map; lia). rewrite length_map.
    case_decide; [rewrite lookup_replicate_2 by lia; done|].
    assert (replicate m (@None Z) !! (i - length os)%nat = None) as -> by (apply lookup_replicate_None; lia).
    done.
Qed.

(** [argv] holds the words [ws] and nothing beyond. *)
Record argv_of (argv : Z → outcome bytes) (ws : list bytes) : Prop := {
  av_word i w : ws !! i = Some w → ∃ p, argv (Z.of_nat i) = Ok p ∧ string_at p w;
  av_none i : Z.of_nat (length ws) ≤ i < COMMAND_FIELD_MAX_NUM → argv i = Fault Uninitialised;
}.

Lemma split_line_correct s rest : 0 ∉ s →
  (length (words s) ≤ Z.to_nat COMMAND_FIELD_MAX_NUM)%nat →
  ∃ f b, split_line (s ++ 0 :: rest) (Z.of_nat (length s)) =
    Ok (SplitState (zero_blanks s ++ 0 :: rest) f (Z.of_nat (length (words s))) b) ∧
    argv_of (argument (zero_blanks s ++ 0 :: rest) f) (words s).
Proof.
  intros Hs Hle. pose proof (starts_words s [] [] rest Hs ltac:(set_solver)) as Hw.
  cbn [app length] in Hw. rewrite (bool_decide_true ([] = [])) in Hw by done.
  rewrite decide_True in Hw by done. cbn [app] in Hw. change (Z.of_nat 0) with 0 in Hw.
  pose proof (Forall2_length _ _ _ Hw) as Hlen. fold (words s) in Hw, Hlen.
  pose proof (split_loop s [] (0 :: rest) [] (Z.to_nat COMMAND_FIELD_MAX_NUM) true) as Hrun.
  cbn [app length] in Hrun. cbv zeta in Hrun. change (Z.of_nat 0) with 0 in Hrun.
  rewrite decide_True, Z.add_0_l in Hrun by lia.
  unfold split_line. change (replicate (Z.to_nat COMMAND_FIELD_MAX_NUM) None)
    with (fields [] (Z.to_nat COMMAND_FIELD_MAX_NUM)). rewrite Hrun, Hlen.
  do 2 eexists. split; [reflexivity|]. split.
  - intros i w Hi. destruct (Forall2_lookup_r _ _ _ _ _ Hw Hi) as (o & Ho & Hat).
    exists (drop (Z.to_nat o) (zero_blanks s ++ 0 :: rest)). split; [|done].
    unfold argument. rewrite fields_get, decide_True by (apply lookup_lt_Some in Ho; lia).
    rewrite Ho. done.
  - intros i Hi. unfold argument. rewrite <- (Z2Nat.id i) by lia.
    rewrite fields_get, decide_False by lia. unfold COMMAND_FIELD_MAX_NUM in *.
    rewrite decide_True by lia. done.
Qed.

Lemma split_line_overflow s rest : 0 ∉ s →
  (Z.to_nat COMMAND_FIELD_MAX_NUM < length (words s))%nat →
  split_line (s ++ 0 :: rest) (Z.of_nat (length s)) = Fault OutOfBounds.
Proof.
  intros Hs Hlt. pose proof (starts_words s [] [] rest Hs ltac:(set_solver)) as Hw.
  cbn [app length] in Hw. rewrite (bool_decide_true ([] = [])) in Hw by done.
  rewrite decide_True in Hw by done. cbn [app] in Hw. change (Z.of_nat 0) with 0 in Hw.
  pose proof (Forall2_length _ _ _ Hw) as Hlen. fold (words s) in Hw, Hlen.
  pose proof (split_loop s [] (0 :: rest) [] (Z.to_nat COMMAND_FIELD_MAX_NUM) true) as Hrun.
  cbn [app length] in Hrun. cbv zeta in Hrun. change (Z.of_nat 0) with 0 in Hrun.
  rewrite decide_False, Z.add_0_l in Hrun by lia. exact Hrun.
Qed.

Section run.
Context {K : Type} {os : Os K} (junk_buff junk_bf : bytes).

Lemma solve_cmd_spec s c rest (k : K) :
  0 ∉ s → all_bytes s →
  let line := zero_blanks s ++ 0 :: rest in
  let r := solve_cmd junk_buff junk_bf (s ++ c :: rest) (Z.of_nat (length s)) k in
  match words s with
  | [] => r = Fault Uninitialised
  | w :: ws =>
      if decide (length (w :: ws) ≤ Z.to_nat COMMAND_FIELD_MAX_NUM)%nat then
        match command_of w with
        | None => r = Ok (SOLVE_COMMAND_ERROR, line, k)
        | Some f => ∃ argv, argv_of argv (w :: ws) ∧
            r = (k' ← run_command junk_buff junk_bf (Z.of_nat (length (w :: ws))) argv f k;
                 Ok (SOLVE_COMMAND_OK, line, k'))
        end
      else r = Fault OutOfBounds
  end.
Proof.
  intros Hs Hb line r. unfold r, solve_cmd. rewrite aset_app_length, bind_Ok.
  pose proof (words_nonzero s [] Hs ltac:(set_solver) Hb ltac:(constructor)) as Hnz.
  fold (words s) in Hnz.
  destruct (decide (length (words s) ≤ Z.to_nat COMMAND_FIELD_MAX_NUM)%nat) as [Hle|Hgt].
  - destruct (split_line_correct s rest Hs Hle) as (f & b & -> & Hargv). rewrite bind_Ok.
    cbn [sp_cmd sp_field sp_cnt]. cbv zeta. destruct (words s) as [|w ws] eqn:Hws.
    + rewrite (av_none _ _ Hargv) by (cbn; done). done.
    + rewrite decide_True by done. destruct (av_word _ _ Hargv 0%nat w eq_refl) as (p & Hp & Hat).
      change (Z.of_nat 0) with 0 in Hp. rewrite Hp, bind_Ok.
      apply Forall_cons in Hnz as [[_ Hbw] _]. rewrite (which_command_correct p w Hat Hbw), bind_Ok.
      unfold command_of. destruct (list_find _ shell_cmd) as [[i e]|] eqn:Hf; cbn [fmap option_fmap option_map compose fst snd]; [|done].
      apply list_find_Some in Hf as (Hi & _).
      rewrite (proj2 (aget_Ok shell_cmd _ e)) by (rewrite Nat2Z.id; split; [lia|done]).
      rewrite bind_Ok. eexists. split; [exact Hargv|done].
  - rewrite split_line_overflow by (done || lia). destruct (words s); [cbn in Hgt; lia|].
    by rewrite decide_False.
Qed.
End run.

(** ** Editing a line *)

(** What the line holds after the keys, in a buffer of [n] characters. *)
Fixpoint edit (n : nat) (line : bytes) (keys : list Z) : option bytes :=
  match keys with
  | [] => Some line
  | c :: keys =>
      if c =? 0 then edit n line keys
      else if (c =? 8) || (c =? 127) then edit n (removelast line) keys
      else if decide (length line < n)%nat then edit n (line ++ [c]) keys else None
  end.

Example edit_ex : edit 1024 [] (str "lsx" ++ [127; 0] ++ str " a") = Some (str "ls a").
Proof. reflexivity. Qed.

(** The calls with which the shell talks to its user return, and [sys_getchar]
    gives the keys in the order of their being pressed. *)
Class ConsoleLaws (K : Type) {os : Os K} := {
  pending : K → list Z;
  law_getchar k c cs : pending k = c :: cs →
    ∃ k', os_call (sys_getchar 0) k = Ok (Value c, k') ∧ pending k' = cs;
  law_write k b s : string_at b s →
    ∃ r k', os_call (sys_write b) k = Ok (r, k') ∧ pending k' = pending k;
  law_move_cursor k x y :
    ∃ r k', os_call (sys_move_cursor x y) k = Ok (r, k') ∧ pending k' = pending k;
}.

Section printing.
Context {K : Type} {os : Os K} (junk_buff junk_bf : bytes).
Context (Hbuff : length junk_buff = 256%nat) (Hbf : length junk_bf = 24%nat).
Implicit Types (k : K).

(** Printing is one call of [sys_write], of the text and a null character. *)
Lemma printf_writes fmt va items text k :
  all_bytes fmt → parse fmt = Ok items → render items va = Ok text →
  (length text < 256)%nat → 0 ∉ text →
  ∃ rest, string_at (text ++ 0 :: rest) text ∧
    printf junk_buff junk_bf fmt va k = sys (sys_write (text ++ 0 :: rest)) k.
Proof.
  intros Hf Hp Hr Hl Hz.
  destruct (mini_vsnprintf_spec junk_buff junk_bf fmt va items text)
    as (b & n & Hrun & Hlen & -> & Htake); [rewrite ?Hbuff; lia..|done|done|done|done|].
  rewrite Hbuff in *. rewrite Z.min_l in * by lia. rewrite Nat2Z.id, firstn_all in Htake.
  assert (Hb : b = text ++ drop (length text) b) by (by rewrite <- Htake at 1; rewrite take_drop).
  destruct (drop (length text) b) as [|c rest] eqn:Hd.
  { apply (f_equal length) in Hb. rewrite length_app in Hb. cbn in Hb. lia. }
  exists rest. split; [by apply string_at_app|].
  unfold printf, printx. change 256 with (Z.of_nat 256). rewrite Hrun, bind_Ok.
  rewrite Hb, aset_app_length, bind_Ok. by destruct (sys _ k).
Qed.
End printing.

Section line.
Context {K : Type} {os : Os K} {laws : ConsoleLaws K} (junk_buff junk_bf : bytes).
Context (Hbuff : length junk_buff = 256%nat) (Hbf : length junk_bf = 24%nat).
Implicit Types (k : K).

Lemma printf_returns fmt va items text k :
  all_bytes fmt → parse fmt = Ok items → render items va = Ok text →
  (length text < 256)%nat → 0 ∉ text →
  ∃ k', printf junk_buff junk_bf fmt va k = Ok k' ∧ pending k' = pending k.
Proof.
  intros Hf Hp Hr Hl Hz.
  destruct (printf_writes junk_buff junk_bf Hbuff Hbf fmt va items text k) as (rest & Hs & ->); [done..|].
  destruct (law_write k (text ++ 0 :: rest) text Hs) as (r & k' & Hk' & Hpend).
  exists k'. split; [|done]. unfold sys. by rewrite Hk'.
Qed.

Lemma printf_newline k :
  ∃ k', printf junk_buff junk_bf [10; 0] [] k = Ok k' ∧ pending k' = pending k.
Proof.
  apply (printf_returns _ _ [Char 10] [10]); try done; [|cbn; lia|set_solver].
  by apply (bool_decide_unpack _).
Qed.

Lemma printf_blank k :
  ∃ k', printf junk_buff junk_bf (cstr " ") [] k = Ok k' ∧ pending k' = pending k.
Proof.
  apply (printf_returns _ _ [Char 32] [32]); try done; [|cbn; lia|set_solver].
  by apply (bool_decide_unpack _).
Qed.

Lemma printf_char c k : is_byte c → c ≠ 0 →
  ∃ k', printf junk_buff junk_bf (cstr "%c") [ArgInt c] k = Ok k' ∧ pending k' = pending k.
Proof.
  intros Hc Hz. assert (u8 c = c) as Hu by (unfold u8, is_byte in *; by rewrite Z.mod_small).
  apply (printf_returns _ _ [Conv 0 99] [c]); [by apply (bool_decide_unpack _)|done| |cbn; lia|set_solver].
  cbn. by rewrite Hu.
Qed.

Lemma sys_move_cursor_returns k x y :
  ∃ k', sys (sys_move_cursor x y) k = Ok k' ∧ pending k' = pending k.
Proof.
  destruct (law_move_cursor k x y) as (r & k' & Hk & Hp). exists k'. unfold sys. by rewrite Hk.
Qed.

(** One key that does not end the line. *)
Lemma shell_char_edits c line rest k :
  is_byte c → c ≠ 10 → c ≠ 13 →
  let n := length (line ++ rest) in
  match edit n line [c] with
  | Some line' => ∃ rest' k', length (line' ++ rest') = n ∧ pending k' = pending k ∧
      shell_char junk_buff junk_bf c (ShellState (line ++ rest) (Z.of_nat (length line))) k =
        Ok (ShellState (line' ++ rest') (Z.of_nat (length line')), k')
  | None => shell_char junk_buff junk_bf c (ShellState (line ++ rest) (Z.of_nat (length line))) k =
      Fault OutOfBounds
  end.
Proof.
  intros Hc H10 H13 n. unfold shell_char. cbn [edit command_buffer cnt].
  destruct (Z.eqb_spec c 0) as [->|Hc0]; [by exists rest, k|].
  rewrite (proj2 (Z.eqb_neq c 10)), (proj2 (Z.eqb_neq c 13)) by done. cbn [orb].
  destruct ((c =? 8) || (c =? 127)) eqn:Hback.
  - destruct (decide (line = [])) as [->|[l [x ->]]%exists_last].
    + exists rest, k. done.
    + rewrite removelast_last. 
      assert ((Z.of_nat (length (l ++ [x])) =? 0) = false) as ->
        by (apply Z.eqb_neq; rewrite length_app; cbn; lia).
      cbn [negb].
      match goal with |- context [sys (sys_move_cursor ?x ?y) k] =>
        destruct (sys_move_cursor_returns k x y) as (k1 & -> & Hp1) end. rewrite bind_Ok.
      destruct (printf_blank k1) as (k2 & -> & Hp2). rewrite bind_Ok.
      match goal with |- context [sys (sys_move_cursor ?x ?y) k2] =>
        destruct (sys_move_cursor_returns k2 x y) as (k3 & -> & Hp3) end. rewrite bind_Ok.
      exists (x :: rest), k3. rewrite <- (assoc_L (++)). split; [|split; [congruence|]].
      * unfold n. by rewrite <- (assoc_L (++)).
      * do 3 f_equal. rewrite length_app. cbn. lia.
  - case_decide as Hl.
    + destruct rest as [|y rest]; [unfold n in Hl; rewrite length_app in Hl; cbn in Hl; lia|].
      rewrite aset_app_length, bind_Ok. destruct (printf_char c k Hc Hc0) as (k1 & -> & Hp1).
      rewrite bind_Ok. exists rest, k1. rewrite <- (assoc_L (++)). split; [|split; [done|]].
      * unfold n. rewrite !length_app. done.
      * do 3 f_equal. rewrite length_app. cbn. lia.
    + unfold aset. rewrite decide_False; [done|]. fold n. lia.
Qed.

Lemma edit_cons n line c keys :
  edit n line (c :: keys) = (line' ← edit n line [c]; edit n line' keys).
Proof. cbn. by repeat case_match. Qed.

Lemma edit_chars n keys : ∀ line line',
  all_bytes keys → all_bytes line → 0 ∉ line → edit n line keys = Some line' →
  all_bytes line' ∧ 0 ∉ line'.
Proof.
  induction keys as [|c keys IH]; intros line line' Hk Hb Hz; [by intros [= <-]|].
  apply Forall_cons in Hk as [Hc Hk]. cbn. destruct (Z.eqb_spec c 0); [by apply IH|].
  destruct ((c =? 8) || (c =? 127)).
  - destruct (decide (line = [])) as [->|[l [x ->]]%exists_last]; [by apply IH|].
    rewrite removelast_last. apply Forall_app in Hb as [Hb _]. apply IH; [done|done|set_solver].
  - case_decide; [|done]. apply IH; [done| |set_solver]. apply Forall_app. auto.
Qed.

Lemma shell_loop_app m1 m2 st k :
  shell_loop junk_buff junk_bf (m1 + m2) st k =
    ('(st, k) ← shell_loop junk_buff junk_bf m1 st k; shell_loop junk_buff junk_bf m2 st k).
Proof.
  revert st k. induction m1 as [|m1 IH]; intros st k; [done|]. cbn [Nat.add shell_loop].
  destruct (getchar k) as [[c k1]| |]; [rewrite !bind_Ok|done|done].
  destruct (shell_char junk_buff junk_bf c st k1) as [[st' k2]| |]; [rewrite !bind_Ok|done|done]. apply IH.
Qed.

Definition ends_line (c : Z) : Prop := c = 10 ∨ c = 13.

#[export] Instance ends_line_dec c : Decision (ends_line c).
Proof. unfold ends_line. apply _. Defined.

Lemma getchar_pending k c cs :
  pending k = c :: cs → ∃ k', getchar k = Ok (c, k') ∧ pending k' = cs.
Proof.
  intros (k' & Hk & Hp)%law_getchar. exists k'. unfold getchar. by rewrite Hk.
Qed.

Lemma shell_loop_edits keys : ∀ line rest k more,
  all_bytes keys → Forall (λ c, ¬ ends_line c) keys → pending k = keys ++ more →
  let st := ShellState (line ++ rest) (Z.of_nat (length line)) in
  match edit (length (line ++ rest)) line keys with
  | Some line' => ∃ rest' k', length (line' ++ rest') = length (line ++ rest) ∧ pending k' = more ∧
      shell_loop junk_buff junk_bf (length keys) st k =
        Ok (ShellState (line' ++ rest') (Z.of_nat (length line')), k')
  | None => shell_loop junk_buff junk_bf (length keys) st k = Fault OutOfBounds
  end.
Proof.
  induction keys as [|c keys IH]; intros line rest k more Hb Hn Hp st.
  { by exists rest, k. }
  apply Forall_cons in Hb as [Hc Hb]. apply Forall_cons in Hn as [Hcn Hn].
  rewrite edit_cons. destruct (getchar_pending _ _ _ Hp) as (k1 & Hk1 & Hp1).
  unfold ends_line in Hcn.
  pose proof (shell_char_edits c line rest k1 Hc ltac:(tauto) ltac:(tauto)) as Hstep. cbv zeta in Hstep.
  cbn [length shell_loop]. rewrite Hk1, bind_Ok.
  destruct (edit _ line [c]) as [line1|]; cbn [mbind option_bind].
  - destruct Hstep as (rest1 & k2 & Hl1 & Hp2 & Hrun). unfold st. rewrite Hrun, bind_Ok.
    rewrite <- Hl1. apply (IH line1 rest1 k2 more Hb Hn). by rewrite Hp2, Hp1.
  - unfold st. by rewrite Hstep.
Qed.

Lemma shell_line_spec keys c buffer k :
  all_bytes keys → Forall (λ c, ¬ ends_line c) keys → ends_line c → pending k = keys ++ [c] →
  let run := shell_loop junk_buff junk_bf (length keys + 1) (ShellState buffer 0) k in
  match edit (length buffer) [] keys with
  | Some line =>
      if decide (length line < length buffer)%nat then
        ∃ rest k', pending k' = [] ∧ length (line ++ 10 :: rest) = length buffer ∧
          run = ('(_, b, k) ← solve_cmd junk_buff junk_bf (line ++ 10 :: rest) (Z.of_nat (length line)) k';
                 k ← prompt junk_buff junk_bf k; Ok (ShellState b 0, k))
      else run = Fault OutOfBounds
  | None => run = Fault OutOfBounds
  end.
Proof.
  intros Hb Hn Hc Hp run. unfold run. rewrite shell_loop_app.
  pose proof (shell_loop_edits keys [] buffer k [c] Hb Hn Hp) as Hrun. cbn [app length] in Hrun. cbv zeta in Hrun.
  change (Z.of_nat 0) with 0 in Hrun. destruct (edit _ [] keys) as [line|]; [|by rewrite Hrun].
  destruct Hrun as (rest & k1 & Hl & Hp1 & ->). rewrite bind_Ok. cbn [shell_loop].
  destruct (getchar_pending _ _ _ Hp1) as (k2 & Hk2 & Hp2). rewrite Hk2, bind_Ok.
  unfold shell_char. cbn [command_buffer cnt].
  assert ((c =? 0) = false) as -> by (by destruct Hc as [-> | ->]).
  assert ((c =? 10) || (c =? 13) = true) as -> by (by destruct Hc as [-> | ->]).
  rewrite length_app in Hl. case_decide as Hlt.
  - destruct rest as [|x rest]; [cbn in Hl; lia|]. rewrite aset_app_length, bind_Ok.
    destruct (printf_newline k2) as (k3 & -> & Hp3). rewrite bind_Ok.
    exists rest, k3. split; [congruence|]. split; [by rewrite length_app|].
    destruct (solve_cmd _ _ _ _ _) as [[[r b] k4]| |]; [rewrite !bind_Ok|done|done].
    destruct (prompt _ _ _) as [k5| |]; [by rewrite !bind_Ok|done|done].
  - unfold aset. rewrite decide_False; [done|]. rewrite length_app. lia.
Qed.
End line.

(** ** A log of the calls *)

(** A kernel that gives the keys one by one and notes the other calls. *)
Record log := Log { log_keys : list Z; log_calls : list trap }.

#[export] Instance log_os : Os log := {
  os_call t k :=
    if fn t =? number SYSCALL_GETCHAR then
      match log_keys k with
      | c :: cs => Ok (Value c, Log cs (log_calls k))
      | [] => Ok (Value 0, k)
      end
    else Ok (Return, Log (log_keys k) (log_calls k ++ [t]));
  os_cwd_str _ := cstr "/";
  os_cursor _ := (0, 0);
}.

#[export] Program Instance log_laws : ConsoleLaws log := { pending := log_keys }.
Next Obligation.
  intros [cs calls] c cs' Hp. cbn in Hp. subst. by eexists.
Qed.
Next Obligation.
  intros k b s Hb. do 2 eexists. by split.
Qed.
Next Obligation.
  intros k x y. do 2 eexists. by split.
Qed.

(** ** Theorems *)

Section theorems.
Context {K : Type} {os : Os K} (junk_buff junk_bf : bytes).

(** C28.  Running a line of the shell: the line is split at its blanks; when its
    first word names a command, that command is called with the number of the
    words and an argument vector that holds the words and is not initialised
    beyond them.  Another first word is an error with no effect.  A line with no
    word makes the shell read an uninitialised field, and a line with more than
    64 words makes it store outside the array of fields. *)
Theorem solve_cmd_correct s c rest (k : K) :
  0 ∉ s → all_bytes s →
  let line := zero_blanks s ++ 0 :: rest in
  let r := solve_cmd junk_buff junk_bf (s ++ c :: rest) (Z.of_nat (length s)) k in
  match words s with
  | [] => r = Fault Uninitialised
  | w :: ws =>
      if decide (length (w :: ws) ≤ Z.to_nat COMMAND_FIELD_MAX_NUM)%nat then
        match command_of w with
        | None => r = Ok (SOLVE_COMMAND_ERROR, line, k)
        | Some f => ∃ argv, argv_of argv (w :: ws) ∧
            r = (k' ← run_command junk_buff junk_bf (Z.of_nat (length (w :: ws))) argv f k;
                 Ok (SOLVE_COMMAND_OK, line, k'))
        end
      else r = Fault OutOfBounds
  end.
Proof. apply solve_cmd_spec. Qed.

Context {laws : ConsoleLaws K}.

(** Typing a line: the buffer holds what the keys make of the line when each
    character is appended, a backspace or delete key takes the last one away (and
    does nothing on an empty line) and a zero is ignored; the key that ends the
    line has it run, with the line's length, and the next line starts empty.  When
    a line does not fit in the buffer the shell stores outside it. *)
Theorem shell_line_correct keys c buffer (k : K) :
  length junk_buff = 256%nat → length junk_bf = 24%nat →
  all_bytes keys → Forall (λ c, ¬ ends_line c) keys → ends_line c → pending k = keys ++ [c] →
  let run := shell_loop junk_buff junk_bf (length keys + 1) (ShellState buffer 0) k in
  match edit (length buffer) [] keys with
  | Some line =>
      if decide (length line < length buffer)%nat then
        ∃ rest k', pending k' = [] ∧ length (line ++ 10 :: rest) = length buffer ∧
          run = ('(_, b, k) ← solve_cmd junk_buff junk_bf (line ++ 10 :: rest) (Z.of_nat (length line)) k';
                 k ← prompt junk_buff junk_bf k; Ok (ShellState b 0, k))
      else run = Fault OutOfBounds
  | None => run = Fault OutOfBounds
  end.
Proof. intros ??. by apply shell_line_spec. Qed.
End theorems.

Lemma solve_cmd_correct_witness :
  (0 ∉ str " mkdir  a") ∧
  ∃ argv, argv_of argv [str "mkdir"; str "a"] ∧
    solve_cmd [] [] (str " mkdir  a" ++ [10; 7]) 9 (Log [] []) =
      (k ← run_command [] [] 2 argv Cmd_mkdir (Log [] []);
       Ok (1, [0] ++ cstr "mkdir" ++ [0; 97; 0; 7], k)).
Proof.
  assert (Hs : 0 ∉ str " mkdir  a") by (vm_compute; set_solver).
  split; [exact Hs|].
  refine (solve_cmd_correct [] [] (str " mkdir  a") 10 [7] (Log [] []) Hs _).
  apply (bool_decide_unpack _). vm_compute. exact I.
Defined.

Lemma shell_line_correct_witness :
  edit 8 [] (str "lsx" ++ [127]) = Some (str "ls") ∧
  ∃ rest k', pending k' = [] ∧ length (str "ls" ++ 10 :: rest) = 8%nat ∧
    shell_loop (fill 256 0) (fill 24 0) 5 (ShellState (fill 8 0) 0) (Log (str "lsx" ++ [127; 13]) []) =
      ('(_, b, k) ← solve_cmd (fill 256 0) (fill 24 0) (str "ls" ++ 10 :: rest) 2 k';
       k ← prompt (fill 256 0) (fill 24 0) k; Ok (ShellState b 0, k)).
Proof.
  split; [reflexivity|].
  refine (shell_line_correct (fill 256 0) (fill 24 0) (str "lsx" ++ [127]) 13 (fill 8 0)
    (Log (str "lsx" ++ [127; 13]) []) _ _ _ _ _ _).
  - reflexivity.
  - reflexivity.
  - apply (bool_decide_unpack _). vm_compute. exact I.
  - apply (bool_decide_unpack _). vm_compute. exact I.
  - right. reflexivity.
  - reflexivity.
Defined.
