(* ===== verification/Session.v ===== *)
(** * The shell on the kernel

    The kernel of [Syscall.v] as the system under the shell of [Shell.v]: what
    the command lines do, through the stubs, the table and the handlers, to the
    state of the kernel and to the tree of directories. *)

From S2P Require Import Prelude CString Printk Kstate Sched Process.
From S2P Require Import FsLayout Fs FsDisk FsPath FsOps FsTree Screen Mac Syscall Shell.

(** ** The command language *)

(** The call that the words of a line stand for: a string argument is a pointer
    to its word. *)
Inductive command_call : list bytes → api → Prop :=
  | Call_reboot : command_call [str "reboot"] A_reboot
  | Call_exec n p ws : n ≠ [] → Forall decimal n → string_at p n →
      command_call (str "exec" :: n :: ws) (A_exec (i32 (decimal_value n)) (Buf p))
  | Call_kill n p ws : n ≠ [] → Forall decimal n → decimal_value n ≤ NUM_MAX_TASK →
      string_at p n → command_call (str "kill" :: n :: ws) (A_kill (decimal_value n))
  | Call_mkfs ws : command_call (str "mkfs" :: ws) A_mkfs
  | Call_statfs ws : command_call (str "statfs" :: ws) A_statfs
  | Call_ps ws : command_call (str "ps" :: ws) A_ps
  | Call_ls : command_call [str "ls"] (A_ls None)
  | Call_ls_dir n p : string_at p n → command_call [str "ls"; n] (A_ls (Some p))
  | Call_mkdir n p ws : string_at p n → command_call (str "mkdir" :: n :: ws) (A_mkdir (Some p))
  | Call_rm n p ws : string_at p n → command_call (str "rm" :: n :: ws) (A_rm p)
  | Call_cd n p ws : string_at p n → command_call (str "cd" :: n :: ws) (A_cd (Some p))
  | Call_touch n p ws : string_at p n → command_call (str "touch" :: n :: ws) (A_touch (Some p))
  | Call_cat n p ws : string_at p n → command_call (str "cat" :: n :: ws) (A_cat (Some p))
  | Call_ln a b p q : string_at p a → string_at q b →
      command_call [str "ln"; a; b] (A_link p q HARD_LINK)
  | Call_ln_s a b p q : string_at p a → string_at q b →
      command_call [str "ln"; str "-s"; a; b] (A_link p q SOFT_LINK)
  | Call_find a b p q ws : string_at p a → string_at q b →
      command_call (str "find" :: a :: b :: ws) (A_find (Some p) q)
  | Call_rename a b p q ws : string_at p a → string_at q b →
      command_call (str "rename" :: a :: b :: ws) (A_rename p q).

Section session.
Context {D : Type} {dev : BlockDev D}.
Context (junk1 junk2 junk_buff junk_bf : bytes) (fuel wait : nat) (engine : net → net)
  (exception_handler_exit nodes_addr : Z) (test_tasks : list task_info_t).
Implicit Types (k : kernel D).

Definition kernel_call : trap → kernel D → outcome (response * kernel D) :=
  system_call_helper junk1 junk2 fuel wait engine exception_handler_exit nodes_addr test_tasks
    syscall_table.

Definition intended_call : api → kernel D → outcome (response * kernel D) :=
  intended junk1 junk2 fuel wait engine exception_handler_exit nodes_addr test_tasks.

Instance kernel_os : Os (kernel D) := {
  os_call := kernel_call;
  os_cwd_str k := cwd_str (k_fs k);
  os_cursor k := (Screen.screen_cursor_x (k_screen k), Screen.screen_cursor_y (k_screen k));
}.

(** The line [s] is run as [shell_char] does it, in a buffer that goes on with
    [rest] behind the character that ended the line. *)
Definition run_line (s rest : bytes) k : outcome (Z * bytes * kernel D) :=
  solve_cmd junk_buff junk_bf (s ++ 10 :: rest) (Z.of_nat (length s)) k.

Lemma sys_stub a k : sys (stub a) k = ('(_, k) ← intended_call a k; Ok k).
Proof. unfold sys. cbn [os_call kernel_os]. unfold kernel_call. by rewrite stub_calls. Qed.

Lemma is_str_correct p w n : string_at p w → all_bytes w → 0 ∉ str n → all_bytes (str n) →
  is_str p n = Ok (bool_decide (w = str n)).
Proof.
  intros Hp Hw Hz Hb. unfold is_str.
  destruct (strcmp_eq p (cstr n) w (str n)) as (r & -> & Hr); [done|by apply string_at_app|done|done|].
  by rewrite bind_Ok, Hr.
Qed.

Lemma decimal_value_range n : Forall decimal n → 0 ≤ decimal_value n.
Proof.
  unfold decimal_value. assert (∀ a, 0 ≤ a → Forall decimal n → 0 ≤ foldl (λ a c, a * 10 + (c - 48)) a n) as H.
  { induction n as [|c n IH]; intros a Ha Hn; [done|]. apply Forall_cons in Hn as [Hc Hn]. cbn.
    apply IH; [|done]. unfold decimal in Hc. lia. }
  intros Hn. by apply H.
Qed.

Lemma atoi_word p n : n ≠ [] → Forall decimal n → string_at p n → atoi p = Ok (i32 (decimal_value n)).
Proof. intros Hne Hn [_ [r ->]]. by apply atoi_decimal. Qed.

(** Bring in the pointer to a word of the line. *)
Ltac take_word Hargv i p Hp :=
  destruct (av_word _ _ Hargv i _ eq_refl) as (p & Hp & ?);
  let z := eval vm_compute in (Z.of_nat i) in change (Z.of_nat i) with z in Hp.

Lemma run_sys f a k (r : outcome (kernel D)) :
  r = sys f k → f = stub a → r = ('(_, k) ← intended_call a k; Ok k).
Proof. intros -> ->. apply sys_stub. Qed.

(** A command that is the one system call [t]. *)
Ltac one_call f a t :=
  exists f, a; split_and!; [reflexivity|by constructor|]; apply (run_sys t); [|done];
  cbn [run_command].

Lemma run_command_call argv ws a k :
  argv_of argv ws → Forall (λ w, all_bytes w) ws → command_call ws a →
  ∃ f a', head ws ≫= command_of = Some f ∧ command_call ws a' ∧
    run_command junk_buff junk_bf (Z.of_nat (length ws)) argv f k =
      ('(_, k) ← intended_call a' k; Ok k).
Proof.
  intros Hargv Hb Hcall. destruct Hcall.
  - exists Cmd_reboot, A_reboot. split_and!; [reflexivity|constructor|]. take_word Hargv 0%nat p0 Hp0.
    cbn [run_command]. unfold cmd_reboot. change (Z.of_nat 1 =? 1) with true. cbn iota.
    rewrite Hp0, bind_Ok. rewrite (is_str_correct p0 (str "reboot")).
    + rewrite bind_Ok, bool_decide_true by done. by apply (run_sys sys_reboot).
    + done.
    + by apply Forall_cons in Hb as [? _].
    + vm_compute. set_solver.
    + by apply Forall_cons in Hb as [? _].
  - take_word Hargv 1%nat p1 Hp1. exists Cmd_exec, (A_exec (i32 (decimal_value n)) (Buf p1)).
    split_and!; [reflexivity|by constructor|]. cbn [run_command]. unfold cmd_exec.
    rewrite Hp1, bind_Ok, (atoi_word p1 n), bind_Ok by done.
    change (sys_exec (i32 (decimal_value n)) (Buf p1)) with (stub (A_exec (i32 (decimal_value n)) (Buf p1))).
    rewrite sys_stub. by destruct (intended_call _ _) as [[]| |].
  - take_word Hargv 1%nat p1 Hp1. exists Cmd_kill, (A_kill (decimal_value n)).
    split_and!; [reflexivity|by econstructor|]. cbn [run_command]. unfold cmd_kill.
    pose proof (decimal_value_range n ltac:(done)).
    assert (i32 (decimal_value n) = decimal_value n) as Hv
      by (apply i32_small; unfold NUM_MAX_TASK in *; lia).
    rewrite Hp1, bind_Ok, (atoi_word p1 n), bind_Ok, Hv by done.
    rewrite (proj2 (Z.ltb_ge _ 0)), (proj2 (Z.ltb_ge _ _)) by lia. cbn [orb].
    change (sys_kill (decimal_value n)) with (stub (A_kill (decimal_value n))).
    rewrite sys_stub. by destruct (intended_call _ _) as [[]| |].
  - one_call Cmd_mkfs A_mkfs sys_mkfs. done.
  - one_call Cmd_statfs A_statfs sys_statfs. done.
  - one_call Cmd_ps A_ps sys_ps. done.
  - one_call Cmd_ls (A_ls None) (sys_ls (Int 0)). done.
  - take_word Hargv 1%nat p1 Hp1. one_call Cmd_ls (A_ls (Some p1)) (sys_ls (Str p1)).
    unfold cmd_ls. change (Z.of_nat (length [str "ls"; n])) with 2. cbn.
    by rewrite Hp1.
  - take_word Hargv 1%nat p1 Hp1. one_call Cmd_mkdir (A_mkdir (Some p1)) (sys_mkdir (Str p1)).
    unfold cmd_mkdir. by rewrite Hp1.
  - take_word Hargv 1%nat p1 Hp1. one_call Cmd_rm (A_rm p1) (sys_rm (Str p1)).
    unfold cmd_rm. by rewrite Hp1.
  - take_word Hargv 1%nat p1 Hp1. one_call Cmd_cd (A_cd (Some p1)) (sys_cd (Str p1)).
    unfold cmd_cd. by rewrite Hp1.
  - take_word Hargv 1%nat p1 Hp1. one_call Cmd_touch (A_touch (Some p1)) (sys_touch (Str p1)).
    unfold cmd_touch. by rewrite Hp1.
  - take_word Hargv 1%nat p1 Hp1. one_call Cmd_cat (A_cat (Some p1)) (sys_cat (Str p1)).
    unfold cmd_cat. by rewrite Hp1.
  - take_word Hargv 1%nat p1 Hp1. take_word Hargv 2%nat p2 Hp2. one_call Cmd_ln (A_link p1 p2 HARD_LINK) (sys_link (Str p1) (Str p2) HARD_LINK).
    unfold cmd_ln. change (Z.of_nat (length _) =? 3) with true. cbn iota.
    by rewrite Hp1, bind_Ok, Hp2.
  - take_word Hargv 1%nat p1 Hp1. take_word Hargv 2%nat p2 Hp2. take_word Hargv 3%nat p3 Hp3.
    one_call Cmd_ln (A_link p2 p3 SOFT_LINK) (sys_link (Str p2) (Str p3) SOFT_LINK).
    unfold cmd_ln. change (Z.of_nat (length _) =? 3) with false.
    change (Z.of_nat (length _) =? 4) with true. cbn iota.
    rewrite Hp1, bind_Ok, Hp2, bind_Ok, Hp3, bind_Ok. rewrite (is_str_correct p1 (str "-s")).
    + rewrite bind_Ok, bool_decide_true by done. done.
    + done.
    + by apply Forall_cons in Hb as [_ [? _]%Forall_cons].
    + vm_compute. set_solver.
    + by apply Forall_cons in Hb as [_ [? _]%Forall_cons].
  - take_word Hargv 1%nat p1 Hp1. take_word Hargv 2%nat p2 Hp2. one_call Cmd_find (A_find (Some p1) p2) (sys_find (Str p1) (Str p2)).
    unfold cmd_find. by rewrite Hp1, bind_Ok, Hp2.
  - take_word Hargv 1%nat p1 Hp1. take_word Hargv 2%nat p2 Hp2. one_call Cmd_rename (A_rename p1 p2) (sys_rename (Str p1) (Str p2)).
    unfold cmd_rename. by rewrite Hp1, bind_Ok, Hp2.
Qed.

Lemma run_line_calls s rest k :
  0 ∉ s → all_bytes s → (length (words s) ≤ Z.to_nat COMMAND_FIELD_MAX_NUM)%nat →
  (∃ a, command_call (words s) a) →
  ∃ a, command_call (words s) a ∧
    run_line s rest k =
      ('(_, k) ← intended_call a k; Ok (SOLVE_COMMAND_OK, zero_blanks s ++ 0 :: rest, k)).
Proof.
  intros Hs Hb Hle [a Hcall]. unfold run_line. pose proof (solve_cmd_spec junk_buff junk_bf s 10 rest k Hs Hb) as Hrun.
  pose proof (words_nonzero s [] Hs ltac:(set_solver) Hb ltac:(constructor)) as Hw. fold (words s) in Hw.
  cbv zeta in Hrun. destruct (words s) as [|w ws]; [inversion Hcall|].
  rewrite decide_True in Hrun by done.
  assert (Hbytes : Forall (λ w, all_bytes w) (w :: ws)) by (eapply Forall_impl; [exact Hw|by intros ? []]).
  destruct (command_of w) as [f|] eqn:Hf.
  - destruct Hrun as (argv & Hargv & ->).
    destruct (run_command_call argv (w :: ws) a k Hargv Hbytes Hcall) as (f' & a' & Hf' & Hcall' & Hr).
    change (command_of w = Some f') in Hf'. rewrite Hf in Hf'. injection Hf' as <-. exists a'. split; [done|]. rewrite Hr.
    by destruct (intended_call a' k) as [[]| |].
  - inversion Hcall; subst; discriminate Hf.
Qed.

(** A command line does what it says: the line of a command with the words it
    needs runs exactly one system call, the one its words stand for, whose string
    arguments are pointers to the words; the shell changes nothing else. *)
Theorem shell_commands_correct s rest k :
  0 ∉ s → all_bytes s → (length (words s) ≤ Z.to_nat COMMAND_FIELD_MAX_NUM)%nat →
  (∃ a, command_call (words s) a) →
  ∃ a, command_call (words s) a ∧
    run_line s rest k =
      ('(_, k) ← intended_call a k; Ok (SOLVE_COMMAND_OK, zero_blanks s ++ 0 :: rest, k)).
Proof. apply run_line_calls. Qed.

Context {laws : BlockDevLaws D}.

(** From the keyboard to the disk: a line with the words [mkdir] and [nm]
    makes the directory [nm] in the current directory: the shell splits the line,
    the stub and the table reach [do_mkdir], and the tree of directories gets the
    new directory and its entry, in memory and on the disk, while the rest of the
    kernel stays as it was. *)
Theorem shell_mkdir_correct s rest k nm T blk num b es :
  0 ∉ s → all_bytes s → words s = [str "mkdir"; nm] →
  fs_inv (k_fs k) T blk → T !! cwd (k_fs k) = Some es → name_ok nm →
  DENTRY_SIZE * (Z.of_nat (length es) + 1) ≤ BLOCK_SIZE →
  Z.of_nat (length junk1) = BLOCK_SIZE → Z.of_nat (length junk2) = BLOCK_SIZE →
  find_first_zero_bit (inode_bit_map (k_fs k)) INODE_BIT_MAP_SIZE = Ok num →
  find_first_zero_bit (block_bit_map (k_fs k)) DATA_BLOCK_BIT_MAP_SIZE = Ok b →
  ∃ fs', run_line s rest k =
      Ok (SOLVE_COMMAND_OK, zero_blanks s ++ 0 :: rest, k <| k_fs := fs' |>) ∧
    fs_inv fs' (mkdir_map T (cwd (k_fs k)) num es nm) (λ i, if decide (i = num) then b else blk i) ∧
    type (node fs' num) = dir ∧ cwd fs' = cwd (k_fs k).
Proof.
  intros Hs Hb Hw Hinv Hc Hnm Hle Hj1 Hj2 Hn Hf.
  destruct (run_line_calls s rest k Hs Hb) as (a & Hcall & ->).
  { rewrite Hw. cbn. unfold COMMAND_FIELD_MAX_NUM. lia. }
  { rewrite Hw. eexists. apply (Call_mkdir nm (nm ++ [0])). apply string_at_app. apply Hnm. }
  rewrite Hw in Hcall. inversion Hcall as [| | | | | | | |? p ? Hp| | | | | | | |]; subst; clear Hcall.
  destruct Hp as [_ [r ->]].
  destruct (mkdir_spec (k_fs k) T blk nm r junk1 junk2 num b es) as (fs' & Hrun & Hinv' & _ & Hcwd & Ht & _);
    [done..|].
  exists fs'. split; [|done]. unfold intended_call, intended, on_fs. by rewrite Hrun.
Qed.
(** ** A session *)

(** The lines of the operations of the abstract tree. *)
Definition op_words (op : tree_op) : list bytes :=
  match op with
  | Mkdir nm => [str "mkdir"; nm]
  | Touch nm => [str "touch"; nm]
  | Cd nm => [str "cd"; nm]
  end.

Definition line_of (s : bytes) (op : tree_op) : Prop :=
  0 ∉ s ∧ all_bytes s ∧ words s = op_words op ∧ name_ok (op_name op).

(** Lines typed one after the other; [rest] is what the buffer holds behind. *)
Fixpoint run_lines (ls : list bytes) (rest : bytes) k : outcome (kernel D) :=
  match ls with
  | [] => Ok k
  | s :: ls => '(_, _, k) ← run_line s rest k; run_lines ls rest k
  end.

Context (Hj1 : Z.of_nat (length junk1) = BLOCK_SIZE) (Hj2 : Z.of_nat (length junk2) = BLOCK_SIZE).

Lemma line_refines s rest k t op t' :
  line_of s op → tree_rep (k_fs k) t → tree_step t op = Some t' →
  ∃ r b fs', run_line s rest k = Ok (r, b, k <| k_fs := fs' |>) ∧ tree_rep fs' t'.
Proof.
  intros (Hs & Hb & Hw & Hnm) Hrep Hstep.
  assert (Hcmd : ∃ a, command_call (words s) a).
  { rewrite Hw. destruct op as [nm|nm|nm]; eexists;
      [apply (Call_mkdir nm (nm ++ [0]))|apply (Call_touch nm (nm ++ [0]))|apply (Call_cd nm (nm ++ [0]))];
      by apply string_at_app, Hnm. }
  destruct (run_line_calls s rest k Hs Hb) as (a & Hcall & ->); [|done|].
  { rewrite Hw. destruct op; cbn; unfold COMMAND_FIELD_MAX_NUM; lia. }
  rewrite Hw in Hcall.
  assert (∃ p, string_at p (op_name op) ∧
    intended_call a k = on_fs (run_op junk1 junk2 op p) k) as (p & Hp & ->)
    by (destruct op; inversion Hcall; subst; by eexists).
  destruct (step_refines junk1 junk2 Hj1 Hj2 (k_fs k) t op p t' Hrep Hnm Hp Hstep) as (fs' & Hrun & Hrep').
  unfold on_fs. rewrite Hrun. by eexists _, _, fs'.
Qed.

(** C7. A session at the prompt: lines with the commands [mkdir], [touch] and [cd],
    typed one after the other, do to the kernel what the abstract tree says: the
    shell splits them, the stubs and the table reach the file system, nothing
    else in the kernel changes, and the prompt shows the path of the abstract
    current directory. *)
Theorem shell_session_correct ls ops rest k t t' :
  Forall2 line_of ls ops → tree_rep (k_fs k) t → tree_steps t ops = Some t' →
  ∃ fs', run_lines ls rest k = Ok (k <| k_fs := fs' |>) ∧ tree_rep fs' t' ∧
    string_at (cwd_str fs') (path_string (t_stack t')).
Proof.
  intros Hls. revert k t. induction Hls as [|s op ls ops Hl _ IH]; intros k t Hrep Hs; cbn [run_lines tree_steps] in *.
  { injection Hs as <-. exists (k_fs k). split; [by destruct k|]. split; [done|apply Hrep]. }
  destruct (tree_step t op) as [t1|] eqn:Ht; [|done].
  destruct (line_refines s rest k t op t1 Hl Hrep Ht) as (r & b & fs1 & -> & Hrep1).
  rewrite bind_Ok. specialize (IH (k <| k_fs := fs1 |>) t1). destruct k as [k1 k2 k3 k4 k5 k6].
  destruct (IH Hrep1 Hs) as (fs2 & H1 & H2 & H3). exists fs2. split; [exact H1|done].
Qed.
End session.

(** ** Witnesses *)

Definition idle_kernel (s : fs memdisk) : kernel memdisk :=
  Kernel memdisk idle_state (Screen 0 0 [] [] []) s (Net ∅ (λ _, 0) []) [] 0.

Lemma shell_commands_correct_witness :
  ∃ k k' : kernel memdisk, k_reboots k = 0%nat ∧ k_reboots k' = 1%nat ∧
    run_line [] [] [] [] 0 0 quick_engine 0 0 [] (str "reboot") [] k =
      Ok (1, cstr "reboot", k').
Proof.
  assert (Hs : 0 ∉ str "reboot") by (vm_compute; set_solver).
  assert (Hb : all_bytes (str "reboot")) by (apply (bool_decide_unpack _); vm_compute; exact I).
  destruct (shell_commands_correct [] [] [] [] 0 0 quick_engine 0 0 [] (str "reboot") []
    (idle_kernel boot_fs) Hs Hb) as (a & Hcall & Hrun).
  - apply Nat.leb_le. reflexivity.
  - exists A_reboot. exact Call_reboot.
  - change (words (str "reboot")) with [str "reboot"] in Hcall. inversion Hcall; subst.
    exists (idle_kernel boot_fs), (idle_kernel boot_fs <| k_reboots := 1%nat |>).
    split; [reflexivity|]. split; [reflexivity|]. exact Hrun.
Defined.

Lemma shell_mkdir_correct_witness :
  ∃ k k' : kernel memdisk, fs_inv (k_fs k) {[ 0 := dots 0 0 ]} (λ _, 0) ∧
    run_line (fill BLOCK_SIZE 0) (fill BLOCK_SIZE 7) [] [] 0 0 quick_engine 0 0 [] (str "mkdir d") [] k = Ok (1, cstr "mkdir" ++ cstr "d", k') ∧
    fs_inv (k_fs k') (mkdir_map {[ 0 := dots 0 0 ]} 0 1 (dots 0 0) (str "d"))
      (λ i, if decide (i = 1) then 1 else 0).
Proof.
  destruct made_fs as (s & Hinv & Hc & Hi & Hb).
  destruct (shell_mkdir_correct (fill BLOCK_SIZE 0) (fill BLOCK_SIZE 7) [] [] 0 0 quick_engine 0 0 []
    (str "mkdir d") [] (idle_kernel s) (str "d") {[ 0 := dots 0 0 ]} (λ _, 0) 1 1 (dots 0 0))
    as (s' & Hrun & Hinv' & _).
  - vm_compute. set_solver.
  - apply (bool_decide_unpack _). vm_compute. exact I.
  - reflexivity.
  - exact Hinv.
  - unfold idle_kernel. cbn [k_fs]. rewrite Hc. apply lookup_singleton_eq.
  - by apply small_name.
  - by apply Z.leb_le.
  - by apply length_fill.
  - by apply length_fill.
  - exact Hi.
  - exact Hb.
  - exists (idle_kernel s), (idle_kernel s <| k_fs := s' |>). split; [exact Hinv|].
    split; [exact Hrun|]. unfold idle_kernel in Hinv' at 1. cbn [k_fs] in Hinv'. rewrite Hc in Hinv'.
    exact Hinv'.
Defined.


(** The shell's lines of a small session. *)
Definition session_lines : list bytes := [str "mkdir d"; str "cd  d"; str "touch f"; str "cd .."; str "cd d"].
Definition session_ops : list tree_op :=
  [Mkdir (str "d"); Cd (str "d"); Touch (str "f"); Cd (str ".."); Cd (str "d")].

Lemma session_lines_ops : Forall2 line_of session_lines session_ops.
Proof.
  unfold session_lines, session_ops, line_of.
  repeat (apply Forall2_cons; split); [..|apply Forall2_nil_2]; cbn [op_name];
    (split; [by vm_compute; set_solver|split; [by apply (bool_decide_unpack _)|split; [reflexivity|]]]);
    first [exact dotdot_ok|apply small_name; [intros [=]|by vm_compute..]].
Qed.

Lemma shell_session_correct_witness :
  ∃ (s0 s' : fs memdisk), tree_rep s0 new_tree ∧
    run_lines (fill BLOCK_SIZE 0) (fill BLOCK_SIZE 7) [] [] 0 0 quick_engine 0 0 [] session_lines []
      (idle_kernel s0) = Ok (idle_kernel s') ∧ string_at (cwd_str s') (str "/d/").
Proof.
  destruct (mkfs_tree boot_fs (fill BLOCK_SIZE 0)) as (s0 & _ & Hrep).
  - apply boot_ok.
  - by apply length_fill.
  - by apply length_replicate.
  - rewrite node_boot. intros [=].
  - intros k _ _. apply boot_saved.
  - destruct (tree_steps new_tree session_ops) as [t'|] eqn:Ht; [|vm_compute in Ht; discriminate Ht].
    destruct (shell_session_correct (fill BLOCK_SIZE 0) (fill BLOCK_SIZE 7) [] [] 0 0 quick_engine 0 0 []
      (length_fill BLOCK_SIZE 0 ltac:(done)) (length_fill BLOCK_SIZE 7 ltac:(done))
      session_lines session_ops [] (idle_kernel s0) new_tree t' session_lines_ops Hrep Ht)
      as (s' & H1 & _ & H2).
    exists s0, s'. split; [exact Hrep|]. split; [exact H1|].
    assert (Hp : option_map (λ t, path_string (t_stack t)) (tree_steps new_tree session_ops) = Some (str "/d/"))
      by (vm_compute; reflexivity).
    rewrite Ht in Hp. apply (inj Some) in Hp. cbn beta in Hp. rewrite <- Hp. exact H2.
Defined.
