(* ===== verification/Programs.v ===== *)
(** * The programs under [test/]

    [test_net/test_mac3.c] drives the network interface: it lays out the rings of
    DMA descriptors on which the calls of [drivers/mac.c] work, and writes to the
    registers of the device itself.  [test_fs/test_fs.c] writes a file and reads
    it back.  They run on the kernel of [Session.v]; [Direct] is the memory that
    a program shares with the kernel. *)

From S2P Require Import Prelude CString Printk Queue Kstate Sched Process FsLayout Fs FsDisk.
From S2P Require Import FsPath FsOps FsFiles FsTree Screen Mac Syscall Shell Session.

(** What a program touches without a call: the device and the variables of the
    scheduler, since it runs in the kernel's segments. *)
Class Direct (K : Type) := {
  get_net : K → net;
  put_net : net → K → K;
  get_vars : K → kstate;
  put_vars : kstate → K → K;
}.

(** ** The descriptors *)

Definition BUFFER_SIZE : Z := 1024.
Definition DmaControl : Z := 0x18.
Definition DmaStoreAndForward : Z := 0x00200000.
Definition DmaRxThreshCtrl128 : Z := 0x00000018.
Definition DmaTxSecondFrame : Z := 0x00000004.

Record mac_t := Mac {
  psize : Z; pnum : Z; mac_addr : Z; dma_addr : Z;
  saddr : Z; daddr : Z; saddr_phy : Z; daddr_phy : Z;
  td : Z; rd : Z; td_phy : Z; rd_phy : Z;
}.

Definition mac_eta (m : mac_t) :=
  Mac (psize m) (pnum m) (mac_addr m) (dma_addr m) (saddr m) (daddr m) (saddr_phy m) (daddr_phy m)
    (td m) (rd m) (td_phy m) (rd_phy m).
#[export] Instance upd_psize : Update psize := ltac:(derive_update mac_eta psize).
#[export] Instance upd_pnum : Update pnum := ltac:(derive_update mac_eta pnum).
#[export] Instance upd_mac_addr : Update mac_addr := ltac:(derive_update mac_eta mac_addr).
#[export] Instance upd_dma_addr : Update dma_addr := ltac:(derive_update mac_eta dma_addr).
#[export] Instance upd_saddr : Update saddr := ltac:(derive_update mac_eta saddr).
#[export] Instance upd_saddr_phy : Update saddr_phy := ltac:(derive_update mac_eta saddr_phy).
#[export] Instance upd_td : Update td := ltac:(derive_update mac_eta td).
#[export] Instance upd_rd : Update rd := ltac:(derive_update mac_eta rd).
#[export] Instance upd_td_phy : Update td_phy := ltac:(derive_update mac_eta td_phy).
#[export] Instance upd_rd_phy : Update rd_phy := ltac:(derive_update mac_eta rd_phy).

(** The physical address of something in the kernel's segments. *)
Definition phys (a : Z) : Z := Z.land (u32 a) 0x1fffffff.

(** The words of a descriptor behind the first. *)
Definition set_words (a : addr) (w1 w2 w3 : Z) (n : net) : outcome net :=
  d ← get_desc a n; Ok (n <| descs ::= (<[a := Desc (d_tdes0 d) w1 w2 w3]>) |>).

Section descriptors.

(** Where the linker puts [descriptor_pool], [buffer] and [r_buffer]. *)
Context (pool buffer r_buffer : addr).

Definition pool_addr (i : Z) : addr := pool + 16 * i.

(** An access to [descriptor_pool[i]]. *)
Definition pool_entry (i : Z) : outcome addr :=
  if decide (0 ≤ i < PNUM) then Ok (pool_addr i) else Fault OutOfBounds.

Definition last_desc (mac : mac_t) (i : Z) : bool := i =? pnum mac - 1.

Definition send_tdes1 (mac : mac_t) (i : Z) : Z :=
  Z.lor (u32 (Z.shiftl (if last_desc mac i then 0 else 1) 31))
    (Z.lor (Z.shiftl 1 30) (Z.lor (Z.shiftl 1 29)
      (Z.lor (Z.shiftl (if last_desc mac i then 1 else 0) 25) (Z.lor (Z.shiftl 1 24) (4 * PSIZE))))).

Definition recv_tdes1 (mac : mac_t) (i : Z) : Z :=
  Z.lor (u32 (Z.shiftl (if last_desc mac i then 0 else 1) 31))
    (Z.lor (Z.shiftl (if last_desc mac i then 1 else 0) 25) (Z.lor (Z.shiftl 1 24) BUFFER_SIZE)).

(** One round of the loops of [mac_send_desc_init] and [mac_recv_desc_init]. *)
Definition init_desc (mac : mac_t) (w1 w2 : Z) (i : Z) (n : net) : outcome net :=
  a ← pool_entry i;
  n ← give a n;
  set_words a w1 w2 (phys (pool_addr (if last_desc mac i then 0 else i + 1))) n.

Definition mac_send_desc_init (mac : mac_t) (n : net) : outcome (mac_t * net) :=
  n ← for_range 0 (pnum mac) (λ i, init_desc mac (send_tdes1 mac i) (phys buffer) i) n;
  Ok (mac <| saddr := buffer |> <| saddr_phy := phys buffer |>
          <| td := pool_addr 0 |> <| td_phy := phys (pool_addr 0) |>, n).

Definition mac_recv_desc_init (mac : mac_t) (n : net) : outcome (mac_t * net) :=
  n ← for_range 0 (pnum mac)
        (λ i, init_desc mac (recv_tdes1 mac i) (phys (r_buffer + BUFFER_SIZE * i)) i) n;
  Ok (mac <| rd := pool_addr 0 |> <| rd_phy := phys (pool_addr 0) |>, n).

Definition mii_dul_force (mac : mac_t) (n : net) : net :=
  let n := reg_write_32 (dma_addr mac) 0x80 n in
  let conf := 0xc800 in
  let n := reg_write_32 (mac_addr mac)
    (Z.lor (Z.lor (reg_read_32 (mac_addr mac) n) conf) (Z.shiftl 1 8)) n in
  reg_write_32 (mac_addr mac + 0x4) (Z.lor (reg_read_32 (mac_addr mac + 0x4) n) 0x80000001) n.

Definition dma_control_init (mac : mac_t) (init_value : Z) (n : net) : net :=
  reg_write_32 (dma_addr mac + DmaControl) init_value n.

(** The functions that [mac_int_handler] is made to point to. *)
Inductive irq_handler := Mac_irq_handle_send | Mac_irq_handle_recv.

Definition register_irq_handler (num : Z) (handler : irq_handler) (mac_int_handler : option irq_handler) :
    option irq_handler :=
  if num =? LS1C_MAC_IRQ then Some handler else mac_int_handler.

(** The variables of the network programs. *)
Record mac_vars := MacVars { mac_int_handler : option irq_handler; ch_flag : Z; recv_flag : list Z }.

Section programs.
Context {K : Type} {os : Os K} {direct : Direct K} (junk_buff junk_bf : bytes).
Implicit Types (k : K) (v : mac_vars).

Definition on_net (f : net → net) k : K := put_net (f (get_net k)) k.

Definition test_mac (junk : mac_t) : mac_t :=
  junk <| mac_addr := 0xbfe10000 |> <| dma_addr := 0xbfe11000 |>
       <| psize := PSIZE * 4 |> <| pnum := PNUM |>.

(** What both tasks do with the device: lines 135-142 and 174-181. *)
Definition mac_setup (mac : mac_t) (handler : irq_handler) v k : mac_vars * K :=
  let k := on_net (dma_control_init mac
    (Z.lor (Z.lor DmaStoreAndForward DmaTxSecondFrame) DmaRxThreshCtrl128)) k in
  let k := on_net clear_interrupt k in
  let k := on_net (mii_dul_force mac) k in
  let v := MacVars (register_irq_handler LS1C_MAC_IRQ handler (mac_int_handler v)) (ch_flag v) (recv_flag v) in
  (v, on_net irq_enable k).

(** The descriptors are printed between [#if 0] and [#endif] only. *)
Definition print_tx_dscrb (mac : mac_t) k : outcome K :=
  k ← printf junk_buff junk_bf (cstr "send buffer mac->saddr=0x%x ") [ArgInt (saddr mac)] k;
  k ← printf junk_buff junk_bf (cstr "mac->saddr_phy=0x%x ") [ArgInt (saddr_phy mac)] k;
  printf junk_buff junk_bf (str "send discrb mac->td_phy=0x%x" ++ [10; 0]) [ArgInt (td_phy mac)] k.

Definition print_rx_dscrb (mac : mac_t) k : outcome K :=
  k ← printf junk_buff junk_bf (cstr "recieve buffer add mac->daddr=0x%x ") [ArgInt (daddr mac)] k;
  k ← printf junk_buff junk_bf (cstr "mac->daddr_phy=0x%x ") [ArgInt (daddr_phy mac)] k;
  printf junk_buff junk_bf (str "recieve discrb add mac->rd_phy=0x%x" ++ [10; 0]) [ArgInt (rd_phy mac)] k.

Definition move_to (print_location : Z) k : outcome K := sys (sys_move_cursor 1 print_location) k.

(** [while (i > 0)] *)
Fixpoint send_rounds (i : nat) (mac : mac_t) (cnt : Z) k : outcome K :=
  match i with
  | O => Ok k
  | S i =>
      k ← sys (sys_net_send (td mac) (td_phy mac)) k;
      let cnt := u32 (cnt + PNUM) in
      k ← move_to 2 k;
      k ← printf junk_buff junk_bf
            (str "> [MAC SEND TASK] totally send package %d !        " ++ [10; 0]) [ArgInt cnt] k;
      send_rounds i mac cnt k
  end.

(** [junk] is the local [test_mac] before it is filled in. *)
Definition mac_send_task (junk : mac_t) v k : outcome (mac_vars * K) :=
  '(mac, n) ← mac_send_desc_init (test_mac junk) (get_net k);
  let '(v, k) := mac_setup mac Mac_irq_handle_send v (put_net n k) in
  k ← move_to 2 k;
  k ← printf junk_buff junk_bf
        (str "> [MAC SEND TASK] start send package.               " ++ [10; 0]) [] k;
  k ← send_rounds 4 mac 0 k;
  k ← sys sys_exit k;
  Ok (v, k).

(** [mac_recv_task] up to [sys_wait_recv_package], whose response it gives
    back ([Return] when it is not called): lines 162-204.  [before_test] and
    [before_wait] are what the DMA engine does, and the processes that run when a
    timer tick suspends this one, from the return of [sys_net_recv] to the test of
    the descriptor and from the test to the call. *)
Definition mac_recv_task (before_test before_wait : K → K) (junk : mac_t) v k :
    outcome (response * mac_vars * K) :=
  '(mac, n) ← mac_recv_desc_init (test_mac junk) (get_net k);
  let '(v, k) := mac_setup mac Mac_irq_handle_recv v (put_net n k) in
  let k := put_vars (get_vars k <| queues ::= <[QRecv := queue_init]> |>) k in
  k ← move_to 1 k;
  k ← printf junk_buff junk_bf
        (str "> [MAC RECV TASK] start recv:                    " ++ [10; 0]) [] k;
  k ← sys (sys_net_recv (rd mac) (rd_phy mac) (daddr mac)).1 k;
  let k := before_test k in
  flags ← for_range 0 PNUM (λ i l, aset l i 0) (recv_flag v);
  let v := MacVars (mac_int_handler v) 0 flags in
  let Recv_desc := rd mac + (PNUM - 1) * 16 in
  d ← get_desc Recv_desc (get_net k);
  if Z.land (d_tdes0 d) 0x80000000 =? 0x80000000 then
    k ← move_to 1 k;
    k ← printf junk_buff junk_bf
          (str "> [MAC RECV TASK] waiting receive package." ++ [10; 0]) [] k;
    '(r, k) ← os_call (sys_wait_recv_package Recv_desc) (before_wait k);
    Ok (r, v, k)
  else Ok (Return, v, k).

Definition mac_init_task k : outcome K :=
  k ← move_to 1 k;
  k ← printf junk_buff junk_bf
        (str "> [MAC INIT TASK] Waiting for MAC initialization ." ++ [10; 0]) [] k;
  k ← sys sys_init_mac k;
  k ← move_to 1 k;
  k ← printf junk_buff junk_bf
        (str "> [MAC INIT TASK] MAC initialization succeeded.           " ++ [10; 0]) [] k;
  sys sys_exit k.

Definition le_word (b : Z → Z) : Z := b 0 + 2 ^ 8 * b 1 + 2 ^ 16 * b 2 + 2 ^ 24 * b 3.

(** [mem] is what reading a byte of the receive buffers gives.  The bytes of a
    word are read one place too far. *)
Fixpoint printf_recv_buffer (fuel : nat) (mem : addr → Z) (read_buffer : addr) (cnt : Z) k : outcome K :=
  match fuel with
  | O => OutOfFuel
  | S fuel =>
      if bool_decide (Forall (λ i, mem (read_buffer + i) = 0) [0; 1; 2; 3]) then Ok k
      else
        let re i := mem (read_buffer + (4 - i)) in
        k ← printf junk_buff junk_bf (cstr "%x ") [ArgInt (le_word re)] k;
        let cnt := cnt + 1 in
        k ← (if Z.land cnt 7 =? 0 then printf junk_buff junk_bf [10; 0] [] k else Ok k);
        printf_recv_buffer fuel mem (read_buffer + 4) cnt k
  end.

(** One round of the loop that prints what was received: [None] when it has
    printed the last buffer, the next descriptor when it sleeps. *)
Definition recv_round (fuel : nat) (mem : addr → Z) (cur : addr) k : outcome (option addr * K) :=
  d ← get_desc cur (get_net k);
  let recv_buff := Z.lor (tdes2 d) 0xa0000000 in
  k ← move_to 5 k;
  k ← printf_recv_buffer fuel mem recv_buff 0 k;
  k ← printf junk_buff junk_bf [10; 0] [] k;
  d ← get_desc cur (get_net k);
  if negb (Z.land (tdes1 d) (Z.shiftl 1 25) =? 0) then Ok (None, k)
  else k ← sys (sys_sleep 200) k; Ok (Some (Z.lor (tdes3 d) 0xa0000000), k).

(** What it prints before: lines 206-210. *)
Definition recv_received k : outcome K :=
  k ← printf junk_buff junk_bf
        (str "> [MAC RECV TASK] now received all package." ++ [10; 0]) [] k;
  k ← move_to 4 k;
  printf junk_buff junk_bf (str "> [MAC RECV TASK] print them in order." ++ [10; 0]) [] k.

(** What it does afterwards. *)
Definition recv_end k : outcome K :=
  k ← printf junk_buff junk_bf (str "> [MAC RECV TASK] receive end." ++ [10; 0]) [] k;
  sys sys_exit k.

(** ** The program of [test_fs.c] *)

Definition hello : bytes := str "hello world!" ++ [10; 0].

Definition test_fs_write k : outcome K := sys (sys_fwrite 0 hello 13) k.

(** [buff] is the static buffer. *)
Definition test_fs_read (buff : bytes) k : outcome (bytes * K) :=
  '(r, k) ← os_call (sys_fread 0 buff 13) k;
  buff ← (match r with Data b => Ok b | _ => Fault Uninitialised end);
  k ← for_range 0 13 (λ j k,
        c ← aget buff j; printf junk_buff junk_bf (cstr "%c") [ArgInt (i8 c)] k) k;
  Ok (buff, k).

Definition test_fs (buff : bytes) k : outcome (bytes * K) :=
  k ← move_to 1 k;
  k ← printf junk_buff junk_bf (str "[TEST] TESTING FS" ++ [10; 0]) [] k;
  k ← sys (sys_fopen (Str (cstr "1.txt")) O_RDWR).1 k;
  k ← for_range 0 10 (λ _, test_fs_write) k;
  k ← sys (sys_fseek 0 0) k;
  '(buff, k) ← for_range 0 10 (λ _ '(buff, k), test_fs_read buff k) (buff, k);
  k ← sys (sys_fclose 0) k;
  k ← sys sys_exit k;
  Ok (buff, k).

(** [sys_getpid] of [syscall.c]: [INVALID_PID] is what [pid] would hold. *)
Definition sys_getpid k : outcome (Z * K) :=
  x ← get_pcb (get_vars k) (current_running (get_vars k));
  '(r, k) ← os_call (sys_get_pid (entry_point x) 0) k;
  match r with Value p => Ok (p, k) | _ => Fault Uninitialised end.
End programs.

(** ** The table of [test.c] *)

(** The table that [do_exec] is given; [entry] is the address of [test_fs]. *)
Definition fs_task (entry : Z) : task_info_t := TaskInfo (str "test_fs") entry USER_PROCESS.
Definition test_tasks (entry : Z) : list task_info_t := [fs_task entry].

(** ** What the loops build *)

Context (Hlo : 0xa0000000 ≤ pool) (Hhi : pool + 16 * PNUM ≤ 0xc0000000).

Definition pool_addrs : list addr := map pool_addr (seqZ 0 PNUM).

(** The driver finds the next descriptor from its physical address. *)
Lemma phys_back i : 0 ≤ i < PNUM → Z.lor (phys (pool_addr i)) 0xa0000000 = pool_addr i.
Proof.
  intros Hi. unfold PNUM in *. unfold phys, pool_addr. rewrite u32_small by lia.
  change 0x1fffffff with (Z.ones 29). rewrite Z.land_ones by lia.
  assert (0 ≤ pool + 16 * i - 0xa0000000 < 2 ^ 29) as Hr by lia.
  replace (pool + 16 * i) with (pool + 16 * i - 0xa0000000 + 5 * 2 ^ 29) at 1 by lia.
  rewrite Z.mod_add, Z.mod_small by lia.
  rewrite Z.lor_comm. change 0xa0000000 with (5 * 2 ^ 29) at 1. rewrite lor_add by lia. lia.
Qed.

Lemma pool_addr_inj i j : pool_addr i = pool_addr j → i = j.
Proof. unfold pool_addr. lia. Qed.

Lemma elem_of_ring_pool a : a ∈ pool_addrs ↔ ∃ i, 0 ≤ i < PNUM ∧ a = pool_addr i.
Proof.
  unfold pool_addrs. rewrite list_elem_of_fmap. setoid_rewrite elem_of_seqZ. naive_solver lia.
Qed.

(** The descriptors that exist and the stores that were made after [i] rounds. *)
Record laid (t1 t2 : Z → Z) (n0 : net) (k : Z) (n : net) : Prop := {
  ld_there i : 0 ≤ i < PNUM → is_Some (descs n !! pool_addr i);
  ld_words i : 0 ≤ i < k →
    descs n !! pool_addr i = Some (Desc OWN (t1 i) (t2 i) (phys (pool_addr (if i =? PNUM - 1 then 0 else i + 1))));
  ld_other a : a ∉ pool_addrs → descs n !! a = descs n0 !! a;
  ld_regs : hw_regs n = hw_regs n0;
  ld_bus : bus n = bus n0 ++ map (λ i, OwnStore (pool_addr i)) (seqZ 0 k);
}.

Lemma set_words_spec a w1 w2 w3 n d : descs n !! a = Some d →
  set_words a w1 w2 w3 n = Ok (n <| descs ::= (<[a := Desc (d_tdes0 d) w1 w2 w3]>) |>).
Proof. intros Hd. unfold set_words, get_desc. by rewrite Hd, bind_Ok. Qed.

Lemma init_desc_spec mac t1 t2 n0 k n :
  pnum mac = PNUM → 0 ≤ k < PNUM → laid t1 t2 n0 k n →
  ∃ n', init_desc mac (t1 k) (t2 k) k n = Ok n' ∧ laid t1 t2 n0 (k + 1) n'.
Proof.
  intros Hp Hk [Hth Hw Ho Hr Hb]. destruct (Hth k Hk) as [d Hd].
  destruct (give_spec _ _ _ Hd) as (n1 & Hg & Hd1 & Hne & Hr1 & Hb1 & _).
  unfold init_desc, pool_entry. rewrite decide_True, bind_Ok, Hg, bind_Ok by done.
  rewrite (set_words_spec _ _ _ _ _ _ Hd1). eexists. split; [done|].
  unfold last_desc. rewrite Hp. change (d_tdes0 (d <| d_tdes0 := OWN |>)) with OWN.
  set (e := Desc _ _ _ _).
  assert (∀ i, i ≠ k → <[pool_addr k := e]> (descs n1) !! pool_addr i = descs n !! pool_addr i) as Hki.
  { intros i Hi. assert (pool_addr i ≠ pool_addr k) as Hne' by (by intros ?%pool_addr_inj).
    rewrite lookup_insert_ne by congruence. by apply Hne. }
  split; cbn [descs hw_regs bus update upd_descs].
  - intros i Hi. change (is_Some (<[pool_addr k := e]> (descs n1) !! pool_addr i)).
    destruct (decide (i = k)) as [->|]; [rewrite lookup_insert_eq; by eexists|].
    rewrite Hki by done. by apply Hth.
  - intros i Hi. change (<[pool_addr k := e]> (descs n1) !! pool_addr i = Some (Desc OWN (t1 i) (t2 i)
      (phys (pool_addr (if i =? PNUM - 1 then 0 else i + 1))))).
    destruct (decide (i = k)) as [->|]; [by rewrite lookup_insert_eq|].
    rewrite Hki by done. apply Hw. lia.
  - intros a Ha. assert (a ≠ pool_addr k) as Hak by (intros ->; apply Ha, elem_of_ring_pool; by exists k).
    change (<[pool_addr k := e]> (descs n1) !! a = descs n0 !! a).
    rewrite lookup_insert_ne by congruence. rewrite Hne by done. by apply Ho.
  - by rewrite Hr1.
  - rewrite Hb1, Hb. rewrite seqZ_app by lia.
    rewrite map_app, Z.add_0_l, (assoc_L (++)). done.
Qed.

Lemma init_loop_spec mac t1 t2 n :
  pnum mac = PNUM → (∀ a, a ∈ pool_addrs → is_Some (descs n !! a)) →
  ∃ n', for_range 0 (pnum mac) (λ i, init_desc mac (t1 i) (t2 i) i) n = Ok n' ∧ laid t1 t2 n PNUM n'.
Proof.
  intros Hp Hth. rewrite Hp. apply (for_range_inv (λ k n', laid t1 t2 n k n')); [done| |].
  - split; [|lia|done|done|by rewrite app_nil_r].
    intros i Hi. apply Hth, elem_of_ring_pool. by exists i.
  - intros k n' Hk Hl. by apply init_desc_spec.
Qed.

(** What is laid out is a ring, whose last descriptor alone has the end bit. *)
Lemma laid_ring t1 t2 n0 n :
  laid t1 t2 n0 PNUM n →
  (∀ i, 0 ≤ i < PNUM → Z.land (t1 i) (2 ^ 25) = if i =? PNUM - 1 then 2 ^ 25 else 0) →
  ring (descs n) (pool_addr 0) pool_addrs.
Proof.
  intros [_ Hw _ _ _] Hend.
  assert (∀ m i, 0 ≤ i → i + Z.of_nat m = PNUM - 1 →
    ring (descs n) (pool_addr i) (map pool_addr (seqZ i (PNUM - i)))) as H.
  { induction m as [|m IH]; intros i Hi Hm.
    - assert (i = PNUM - 1) as -> by lia. change (map _ _) with [pool_addr (PNUM - 1)].
      eapply ring_last; [by apply Hw|]. unfold end_of_ring. cbn [tdes1]. rewrite Hend by done.
      by rewrite Z.eqb_refl.
    - rewrite seqZ_cons by lia. cbn [map].
      assert (i =? PNUM - 1 = false) as Hne by lia.
      eapply ring_next; [apply Hw; lia| |].
      + unfold end_of_ring. cbn [tdes1]. rewrite Hend, Hne by lia. done.
      + cbn [tdes3]. rewrite Hne, phys_back by lia.
        replace (Z.pred (PNUM - i)) with (PNUM - (i + 1)) by lia. apply IH; lia. }
  apply (H (Z.to_nat (PNUM - 1)) 0); [lia|]. unfold PNUM. lia.
Qed.
End descriptors.

(** ** The programs on the kernel *)

(** The descriptors that were given to the engine. *)
Definition own_stores (b : list store) : list addr :=
  omap (λ e, match e with OwnStore a => Some a | RegStore _ _ => None end) b.

Lemma own_stores_app b b' : own_stores (b ++ b') = own_stores b ++ own_stores b'.
Proof. apply omap_app. Qed.

Lemma own_stores_handed l : own_stores (flat_map handed l) = l.
Proof. induction l as [|a l IH]; [done|]. cbn. by f_equal. Qed.

Lemma own_stores_armed l : own_stores (flat_map armed l) = l.
Proof. induction l as [|a l IH]; [done|]. cbn. by f_equal. Qed.

Lemma own_stores_map {A} (f : A → addr) l : own_stores (map (λ i, OwnStore (f i)) l) = map f l.
Proof. induction l as [|a l IH]; [done|]. cbn. by f_equal. Qed.

(** Writes to registers only. *)
Definition quiet (n n' : net) : Prop :=
  descs n' = descs n ∧ own_stores (bus n') = own_stores (bus n).

Lemma quiet_trans n1 n2 n3 : quiet n1 n2 → quiet n2 n3 → quiet n1 n3.
Proof. unfold quiet. intros [-> ->] [-> ->]. done. Qed.

Lemma quiet_write a v n : quiet n (reg_write_32 a v n).
Proof. split; [done|]. cbn. by rewrite own_stores_app, app_nil_r. Qed.

Section layout.
Context (pool buffer r_buffer : addr).

(** What [mac_send_desc_init] leaves behind. *)
Lemma send_desc_init_spec mac n :
  pnum mac = PNUM → (∀ a, a ∈ pool_addrs pool → is_Some (descs n !! a)) →
  ∃ n', mac_send_desc_init pool buffer mac n =
      Ok (mac <| saddr := buffer |> <| saddr_phy := phys buffer |>
        <| td := pool_addr pool 0 |> <| td_phy := phys (pool_addr pool 0) |>, n') ∧
    laid pool (send_tdes1 mac) (λ _, phys buffer) n PNUM n'.
Proof.
  intros Hp Hth. destruct (init_loop_spec pool mac (send_tdes1 mac) (λ _, phys buffer) n Hp Hth)
    as (n' & Hrun & Hl).
  exists n'. split; [|done]. unfold mac_send_desc_init. by rewrite Hrun.
Qed.

Lemma recv_desc_init_spec mac n :
  pnum mac = PNUM → (∀ a, a ∈ pool_addrs pool → is_Some (descs n !! a)) →
  ∃ n', mac_recv_desc_init pool r_buffer mac n =
      Ok (mac <| rd := pool_addr pool 0 |> <| rd_phy := phys (pool_addr pool 0) |>, n') ∧
    laid pool (recv_tdes1 mac) (λ i, phys (r_buffer + BUFFER_SIZE * i)) n PNUM n'.
Proof.
  intros Hp Hth. destruct (init_loop_spec pool mac (recv_tdes1 mac)
    (λ i, phys (r_buffer + BUFFER_SIZE * i)) n Hp Hth) as (n' & Hrun & Hl).
  exists n'. split; [|done]. unfold mac_recv_desc_init. by rewrite Hrun.
Qed.

Lemma laid_there t1 t2 n0 n a :
  laid pool t1 t2 n0 PNUM n → is_Some (descs n0 !! a) → is_Some (descs n !! a).
Proof.
  intros Hl Ha. destruct (decide (a ∈ pool_addrs pool)) as [(i & Hi & ->)%elem_of_ring_pool|Hn].
  - by apply (ld_there _ _ _ _ _ _ Hl).
  - by rewrite (ld_other _ _ _ _ _ _ Hl).
Qed.

Lemma laid_stores t1 t2 n0 n :
  laid pool t1 t2 n0 PNUM n → own_stores (bus n) = own_stores (bus n0) ++ pool_addrs pool.
Proof. intros Hl. by rewrite (ld_bus _ _ _ _ _ _ Hl), own_stores_app, own_stores_map. Qed.

End layout.

Section kernel.
Context {D : Type} {dev : BlockDev D}.
Context (junk1 junk2 junk_buff junk_bf : bytes) (fuel wait : nat) (engine : net → net)
  (exception_handler_exit nodes_addr : Z) (tasks : list task_info_t).
Implicit Types (k : kernel D).

Local Instance os : Os (kernel D) :=
  kernel_os junk1 junk2 fuel wait engine exception_handler_exit nodes_addr tasks.

#[export] Instance kernel_direct : Direct (kernel D) := {
  get_net := k_net;
  put_net n k := k <| k_net := n |>;
  get_vars := k_sched;
  put_vars s k := k <| k_sched := s |>;
}.

Lemma os_call_stub a k : os_call (stub a) k = intended junk1 junk2 fuel wait engine
  exception_handler_exit nodes_addr tasks a k.
Proof. apply stub_calls. Qed.

Lemma call_stub a k : sys (stub a) k = ('(_, k) ← intended_call junk1 junk2 fuel wait engine exception_handler_exit
    nodes_addr tasks a k; Ok k).
Proof. apply sys_stub. Qed.

(** [k'] is [k] with other contents of the screen. *)
Record only_screen k k' : Prop := {
  os_same : k' = k <| k_screen := k_screen k' |>;
  os_bounds : in_bounds (k_screen k) → in_bounds (k_screen k');
}.

Lemma only_screen_trans k1 k2 k3 : only_screen k1 k2 → only_screen k2 k3 → only_screen k1 k3.
Proof. intros [-> H1] [-> H2]. split; [by destruct k1|]. auto. Qed.

Lemma move_to_spec y k : 0 ≤ y < SCREEN_HEIGHT →
  ∃ k', move_to y k = Ok k' ∧ only_screen k k'.
Proof.
  intros Hy. unfold move_to. change (sys_move_cursor 1 y) with (stub (A_move_cursor 1 y)).
  rewrite call_stub. eexists. split; [done|]. split; [by destruct k|]. intros [H1 H2 H3 H4]. by split.
Qed.

Context (Hbuff : length junk_buff = 256%nat) (Hbf : length junk_bf = 24%nat).

(** Printing types the text. *)
Lemma printf_types fmt va items text k :
  all_bytes fmt → parse fmt = Ok items → render items va = Ok text →
  (length text < 256)%nat → 0 ∉ text → in_bounds (k_screen k) →
  printf junk_buff junk_bf fmt va k = Ok (k <| k_screen := foldl type_char (k_screen k) text |>).
Proof.
  intros Hf Hp Hr Hl Hz Hb.
  destruct (printf_writes junk_buff junk_bf Hbuff Hbf fmt va items text k) as (rest & Hs & ->); [done..|].
  change (sys_write (text ++ 0 :: rest)) with (stub (A_write (text ++ 0 :: rest))).
  rewrite call_stub. unfold intended_call, intended, on_screen. by rewrite (screen_write_spec _ text).
Qed.

Lemma printf_spec fmt va items text k :
  all_bytes fmt → parse fmt = Ok items → render items va = Ok text →
  (length text < 256)%nat → 0 ∉ text → in_bounds (k_screen k) →
  ∃ k', printf junk_buff junk_bf fmt va k = Ok k' ∧ only_screen k k'.
Proof.
  intros Hf Hp Hr Hl Hz Hb. eexists. split; [by apply (printf_types _ _ items text)|].
  split; [by destruct k|]. intros _. by apply type_text_bounds.
Qed.

(** The messages of the programs. *)
Ltac prints Hb k' H :=
  lazymatch goal with |- context [printf ?jb ?jf ?f ?a ?k] =>
    let Hx := fresh in
    assert (∃ k', printf jb jf f a k = Ok k' ∧ only_screen k k') as (k' & Hx & H);
    [ eapply printf_spec;
      [ by apply (bool_decide_unpack _) | vm_compute; reflexivity | vm_compute; reflexivity
      | by apply Nat.ltb_lt | by apply (bool_decide_unpack _) | exact Hb ]
    | rewrite Hx, ?bind_Ok; clear Hx ]
  end.

Ltac moves k' H :=
  lazymatch goal with |- context [move_to ?y ?k] =>
    let Hx := fresh in
    destruct (move_to_spec y k) as (k' & Hx & H); [by split|]; rewrite Hx, bind_Ok; clear Hx
  end.

(** ** Sending *)

(** What the rounds of [mac_send_task] do to the device. *)
Fixpoint net_rounds (i : nat) (td td_phy : Z) (n : net) : outcome net :=
  match i with
  | O => Ok n
  | S i => n ← do_net_send engine wait fuel td td_phy n; net_rounds i td td_phy n
  end.

Lemma send_call td td_phy k n' :
  do_net_send engine wait fuel td td_phy (k_net k) = Ok n' →
  sys (sys_net_send td td_phy) k = Ok (k <| k_net := n' |>).
Proof.
  intros Hn. change (sys_net_send td td_phy) with (stub (A_net_send td td_phy)).
  rewrite call_stub. unfold intended_call, intended. by rewrite Hn.
Qed.

Lemma send_rounds_spec i mac k n' : (i ≤ 4)%nat →
  in_bounds (k_screen k) → net_rounds i (td mac) (td_phy mac) (k_net k) = Ok n' →
  ∃ k', send_rounds junk_buff junk_bf i mac (PNUM * (4 - Z.of_nat i)) k = Ok k' ∧
    only_screen (k <| k_net := n' |>) k'.
Proof.
  revert k. induction i as [|i IH]; intros k Hi Hb Hn; cbn [net_rounds send_rounds] in *.
  - injection Hn as <-. exists k. split; [done|]. split; [by destruct k|done].
  - apply bind_Ok_inv in Hn as (n1 & Hn1 & Hn). rewrite (send_call _ _ _ _ Hn1), bind_Ok.
    moves k1 H1. assert (in_bounds (k_screen k1)) as Hb1 by (by apply H1).
    assert (∃ k2, printf junk_buff junk_bf
        (str "> [MAC SEND TASK] totally send package %d !        " ++ [10; 0])
        [ArgInt (u32 (PNUM * (4 - Z.of_nat (S i)) + PNUM))] k1 = Ok k2 ∧ only_screen k1 k2)
      as (k2 & Hx & H2).
    { do 4 (destruct i as [|i]; [cbn [Z.of_nat Pos.of_succ_nat Pos.succ]; eapply printf_spec;
        [ by apply (bool_decide_unpack _) | vm_compute; reflexivity | vm_compute; reflexivity
        | by apply Nat.ltb_lt | by apply (bool_decide_unpack _) | exact Hb1 ]|]). lia. }
    rewrite Hx, bind_Ok. clear Hx. assert (u32 (PNUM * (4 - Z.of_nat (S i)) + PNUM) = PNUM * (4 - Z.of_nat i)) as ->.
    { rewrite u32_small; unfold PNUM; lia. }
    assert (only_screen (k <| k_net := n1 |>) k2) as H12 by (by eapply only_screen_trans).
    destruct H12 as [Hs12 Hb12]. destruct (IH k2) as (k' & Hrun & H'); [lia|by apply Hb12| |].
    { rewrite Hs12. done. }
    exists k'. split; [done|]. eapply only_screen_trans; [|exact H'].
    split; [by rewrite Hs12|exact Hb12].
Qed.

Lemma mac_setup_spec mac h v k :
  ∃ n, quiet (k_net k) n ∧
    mac_setup mac h v k = (MacVars (Some h) (ch_flag v) (recv_flag v), k <| k_net := n |>).
Proof.
  eexists. split; [|by unfold mac_setup, on_net; destruct k].
  unfold irq_enable, mii_dul_force, clear_interrupt, dma_control_init.
  do 6 (eapply quiet_trans; [|apply quiet_write]). by split.
Qed.

(** ** Ending *)

(** The scheduler's part of the state does not depend on what a program did to
    the screen and to the contents of the descriptors. *)
Lemma sched_in_wf k k' Q :
  k_sched k' = k_sched k →
  (∀ a, is_Some (descs (k_net k) !! a) → is_Some (descs (k_net k') !! a)) →
  sched_wf (sched_in k) Q → sched_wf (sched_in k') Q.
Proof.
  intros Hs Hd [[Q1 Q2 Q3] H1 H2 H3 H4 H5 H6]. unfold sched_in in *. rewrite Hs.
  split; [by split|done..|]. intros p x Hp Hx. destruct (H6 p x Hp Hx) as (d & w & Hw & Hd').
  change (tdes0 _) with (d_tdes0 <$> descs (k_net k)) in Hd'.
  change (tdes0 _) with (d_tdes0 <$> descs (k_net k')).
  rewrite lookup_fmap in Hd'. apply fmap_Some in Hd' as (e & He & ->).
  destruct (Hd d (ex_intro _ e He)) as [e' He']. exists d, (d_tdes0 e').
  split; [done|]. rewrite lookup_fmap, He'. done.
Qed.

(** A process that can run a program to its end. *)
Record running_proc k (Q : queue_map) (c : pid) (x : pcb_t) : Prop := {
  rp_screen : in_bounds (k_screen k);
  rp_wf : sched_wf (sched_in k) Q;
  rp_current : current_running (k_sched k) = Some c;
  rp_entry : aget (pcb (k_sched k)) c = Ok x;
  rp_unqueued : unqueued Q c;
  rp_locks : length (locks x) = 8%nat;
  rp_mutexes a : Some a ∈ locks x → is_Some (mutexes (k_sched k) !! a);
}.

Lemma running_proc_keeps k k' Q c x :
  k_sched k' = k_sched k → (in_bounds (k_screen k) → in_bounds (k_screen k')) →
  (∀ a, is_Some (descs (k_net k) !! a) → is_Some (descs (k_net k') !! a)) →
  running_proc k Q c x → running_proc k' Q c x.
Proof.
  intros Hs Hb Hd [H1 H2 H3 H4 H5 H6 H7].
  split; rewrite ?Hs; [by apply Hb|by apply (sched_in_wf k)|done..].
Qed.

Lemma exit_spec k Q c x :
  running_proc k Q c x →
  ∃ s' Q', sys sys_exit k = Ok (sched_out s' k) ∧ do_exit (sched_in k) = Ok s' ∧
    sched_wf s' Q' ∧ unqueued Q' c.
Proof.
  intros [Hb Hwf Hc Hx Hun Hl Hm].
  destruct (do_exit_spec (sched_in k) Q c x) as (s1 & Q1 & x1 & s' & Q' & _ & _ & He & Hwf' & Hun');
    [done..|].
  exists s', Q'. split; [|done]. change sys_exit with (stub A_exit). rewrite call_stub.
  unfold intended_call, intended, on_sched. by rewrite He.
Qed.

(** The sending program once the rounds of the driver are known. *)
Lemma mac_send_task_run pool buffer junk v k n1 mac n2 n3 Q c x :
  mac_send_desc_init pool buffer (test_mac junk) (k_net k) = Ok (mac, n1) →
  mac_setup mac Mac_irq_handle_send v (k <| k_net := n1 |>) =
    (MacVars (Some Mac_irq_handle_send) (ch_flag v) (recv_flag v), k <| k_net := n2 |>) →
  net_rounds 4 (td mac) (td_phy mac) n2 = Ok n3 →
  (∀ a, is_Some (descs (k_net k) !! a) → is_Some (descs n3 !! a)) →
  running_proc k Q c x →
  ∃ k' Q', mac_send_task pool buffer junk_buff junk_bf junk v k
      = Ok (MacVars (Some Mac_irq_handle_send) (ch_flag v) (recv_flag v), k') ∧
    k_net k' = n3 ∧ k_fs k' = k_fs k ∧ sched_wf (k_sched k') Q' ∧ unqueued Q' c.
Proof.
  intros Hinit Hsetup Hrounds Hd Hrp. unfold mac_send_task. cbn [get_net kernel_direct put_net].
  rewrite Hinit, bind_Ok, Hsetup. cbv iota beta.
  assert (in_bounds (k_screen (k <| k_net := n2 |>))) as Hb2 by apply Hrp.
  moves k3 H3. assert (in_bounds (k_screen k3)) as Hb3 by (by apply H3).
  prints Hb3 k4 H4. assert (in_bounds (k_screen k4)) as Hb4 by (by apply H4).
  assert (only_screen (k <| k_net := n2 |>) k4) as [Hs4 _] by (by eapply only_screen_trans).
  destruct (send_rounds_spec 4 mac k4 n3) as (k5 & Hrun5 & [Hs5 Hb5]); [lia|done|by rewrite Hs4|].
  change (PNUM * (4 - Z.of_nat 4)) with 0 in Hrun5. rewrite Hrun5, bind_Ok.
  assert (running_proc k5 Q c x) as Hrp5.
  { apply (running_proc_keeps k); [by rewrite Hs5, Hs4| |by rewrite Hs5|done].
    intros _. by apply Hb5. }
  destruct (exit_spec _ _ _ _ Hrp5)
    as (s' & Q' & -> & _ & Hwf & Hun).
  exists (sched_out s' k5), Q'. split; [done|]. split_and!; [by rewrite Hs5|by rewrite Hs5, Hs4|done|done].
Qed.

(** ** Receiving *)

Lemma recv_call rd rd_phy daddr k n' :
  do_net_recv fuel rd rd_phy (k_net k) = Ok (0, n') →
  sys (sys_net_recv rd rd_phy daddr).1 k = Ok (k <| k_net := n' |>).
Proof.
  intros Hn. change (sys_net_recv rd rd_phy daddr).1 with (stub (A_net_recv rd rd_phy daddr)).
  rewrite call_stub. unfold intended_call, intended. by rewrite Hn.
Qed.

Lemma clear_flags (l : list Z) : length l = 64%nat →
  for_range 0 PNUM (λ i l, aset l i 0) l = Ok (replicate 64 0).
Proof.
  intros Hl. destruct (for_range_inv (λ i l', length l' = 64%nat ∧ ∀ j, (Z.of_nat j < i) → l' !! j = Some 0)
    0 PNUM (λ i l, aset l i 0) l) as (l' & -> & Hlen & Hz); [done|split; [done|lia]| |].
  - intros i l' Hi [Hlen Hz]. unfold PNUM in Hi. rewrite aset_total by lia. eexists. split; [done|].
    split; [by rewrite length_insert|]. intros j Hj. destruct (decide (j = Z.to_nat i)) as [->|].
    + apply list_lookup_insert_eq. lia.
    + rewrite list_lookup_insert_ne by done. apply Hz. lia.
  - f_equal. apply list_eq. intros j. destruct (decide (j < 64)%nat).
    + rewrite Hz by (unfold PNUM; lia). by rewrite lookup_replicate_2.
    + rewrite !lookup_ge_None_2; [done|rewrite length_replicate; lia|lia].
Qed.

(** Emptying a queue that is empty. *)
Lemma recv_queue_init k Q :
  sched_wf (sched_in k) Q → Q QRecv = [] →
  sched_wf (sched_in (k <| k_sched := k_sched k <| queues ::= <[QRecv := queue_init]> |> |>)) Q.
Proof.
  intros [[Q1 Q2 Q3] H1 H2 H3 H4 H5 H6] Hq. split; [split|done..]; [done| |done].
  intros q. pose proof (Q2 q) as Hrep.
  change (queue_rep (plinks (k_sched k))
    (get_queue (k_sched k <| queues ::= <[QRecv := queue_init]> |>) q) (Q q)).
  unfold get_queue. cbn [queues update upd_queues]. destruct (decide (q = QRecv)) as [->|Hne].
  - rewrite Hq. change (queue_rep (plinks (k_sched k))
      (default queue_init (<[QRecv := queue_init]> (queues (k_sched k)) !! QRecv)) []).
    rewrite lookup_insert_eq. apply queue_rep_init.
  - change (queue_rep (plinks (k_sched k))
      (default queue_init (<[QRecv := queue_init]> (queues (k_sched k)) !! q)) (Q q)).
    by rewrite lookup_insert_ne by congruence.
Qed.

Lemma wait_call d k Q c x w :
  running_proc k Q c x → tdes0 (sched_in k) !! d = Some w → Z.land w OWN ≠ 0 →
  ∃ s1 s' Q', os_call (sys_wait_recv_package d) k = Ok (WaitingPackage d, sched_out s' k) ∧
    scheduler s1 = Ok s' ∧ sched_wf s1 (qset Q QRecv (Q QRecv ++ [c])) ∧
    aget (pcb s1) c = Ok (x <| waiting_desc := Some d |> <| status := TASK_BLOCKED |>) ∧
    sched_wf s' Q' ∧ queued Q' c.
Proof.
  intros [Hb Hwf Hc Hx Hun Hl Hm] Hd Hw.
  destruct (wait_recv_blocks (sched_in k) Q c x d w) as (s1 & s' & Q' & Hrun & H); [done..|].
  exists s1, s', Q'. split; [|done]. change (sys_wait_recv_package d) with (stub (A_wait_recv_package d)).
  rewrite os_call_stub. unfold intended. by rewrite Hrun.
Qed.

Lemma wait_call_done d k Q c x w :
  running_proc k Q c x → tdes0 (sched_in k) !! d = Some w → Z.land w OWN = 0 →
  ∃ s', os_call (sys_wait_recv_package d) k = Ok (Return, sched_out s' k).
Proof.
  intros [Hb Hwf Hc Hx Hun Hl Hm] Hd Hw.
  exists (sched_in k <| pcb := <[Z.to_nat c := x <| waiting_desc := Some d |>]> (pcb (k_sched k)) |>).
  change (sys_wait_recv_package d) with (stub (A_wait_recv_package d)). rewrite os_call_stub.
  unfold intended, do_wait_recv_package. change (current_running (sched_in k)) with (current_running (k_sched k)).
  rewrite Hc. unfold upd_proc. cbn [deref]. change (pcb (sched_in k)) with (pcb (k_sched k)).
  rewrite bind_Ok, Hx, bind_Ok, aset_total, !bind_Ok by (by apply (aget_bound _ _ _ Hx)).
  unfold wait_recv. change (tdes0 (sched_in k <| pcb := _ |>)) with (tdes0 (sched_in k)).
  by rewrite Hd, bind_Ok, Hw.
Qed.

(** What goes on while process [c] is ready or interrupted: it is the current
    process again, and no descriptor disappears. *)
Definition interlude (c : pid) (f : kernel D → kernel D) : Prop :=
  ∀ k Q x, running_proc k Q c x → ∃ Q' x', running_proc (f k) Q' c x' ∧
    ∀ a, is_Some (descs (k_net k) !! a) → is_Some (descs (k_net (f k)) !! a).

(** The end of the wait of process [c] for descriptor [a], which starts in [k]:
    over at once, or the process is last in the queue and others run. *)
Definition wait_ends (a : addr) (c : pid) v k (res : outcome (response * mac_vars * kernel D)) : Prop :=
  ∃ d, descs (k_net k) !! a = Some d ∧
    if owned d then
      ∃ s1 k' Q Q' x, res = Ok (WaitingPackage a, v, k') ∧ k_net k' = k_net k ∧
        aget (pcb (k_sched k)) c = Ok x ∧ sched_wf (sched_in k) Q ∧
        sched_wf s1 (qset Q QRecv (Q QRecv ++ [c])) ∧
        aget (pcb s1) c = Ok (x <| waiting_desc := Some a |> <| status := TASK_BLOCKED |>) ∧
        scheduler s1 = Ok (k_sched k') ∧ sched_wf (k_sched k') Q' ∧ queued Q' c
    else ∃ k', res = Ok (Return, v, k') ∧ k_net k' = k_net k.

Lemma wait_ends_call a c v k Q x :
  running_proc k Q c x → is_Some (descs (k_net k) !! a) →
  wait_ends a c v k ('(r, k) ← os_call (sys_wait_recv_package a) k; Ok (r, v, k)).
Proof.
  intros Hrp [d Hd]. exists d. split; [done|].
  assert (tdes0 (sched_in k) !! a = Some (d_tdes0 d)) as Hw.
  { change (tdes0 (sched_in k)) with (d_tdes0 <$> descs (k_net k)). by rewrite lookup_fmap, Hd. }
  unfold owned. destruct (Z.eqb_spec (Z.land (d_tdes0 d) OWN) 0) as [Ho|Ho]; cbn [negb].
  - destruct (wait_call_done a k Q c x _ Hrp Hw Ho) as (s' & ->). by exists (sched_out s' k).
  - destruct (wait_call a k Q c x _ Hrp Hw Ho) as (s1 & s' & Q' & -> & Hs & Hwf1 & Hx1 & Hwf' & Hq).
    exists s1, (sched_out s' k), Q, Q', x. split; [done|]. split; [done|].
    split; [apply Hrp|]. split; [apply Hrp|]. done.
Qed.

(** The test of the program and that of the kernel. *)
Lemma owned_test d : (Z.land (d_tdes0 d) 0x80000000 =? 0x80000000) = owned d.
Proof.
  unfold owned, OWN. pose proof (land_bit (d_tdes0 d) 31 ltac:(lia)) as Hb.
  change (Z.shiftl 1 31) with 0x80000000 in Hb. rewrite Hb.
  destruct (Z.testbit (d_tdes0 d) 31) eqn:Ht.
  - apply Z.eqb_eq, Z.bits_inj'. intros i Hi. rewrite Z.land_spec. change 0x80000000 with (2 ^ 31).
    rewrite Z.pow2_bits_eqb by lia. destruct (Z.eqb_spec 31 i) as [<-|]; [by rewrite Ht|by rewrite andb_false_r].
  - apply negb_false_iff, Z.eqb_eq in Hb. by rewrite Hb.
Qed.

(** The receiving program once the driver's loop is known. *)
Lemma mac_recv_task_run pool r_buffer before_test before_wait junk v k n1 mac n2 n3 Q c x :
  mac_recv_desc_init pool r_buffer (test_mac junk) (k_net k) = Ok (mac, n1) →
  mac_setup mac Mac_irq_handle_recv v (k <| k_net := n1 |>) =
    (MacVars (Some Mac_irq_handle_recv) (ch_flag v) (recv_flag v), k <| k_net := n2 |>) →
  do_net_recv fuel (rd mac) (rd_phy mac) n2 = Ok (0, n3) →
  let a := rd mac + (PNUM - 1) * 16 in
  is_Some (descs n3 !! a) → (∀ a, is_Some (descs (k_net k) !! a) → is_Some (descs n3 !! a)) →
  length (recv_flag v) = 64%nat → Q QRecv = [] → running_proc k Q c x →
  interlude c before_test → interlude c before_wait →
  let res := mac_recv_task pool r_buffer junk_buff junk_bf before_test before_wait junk v k in
  let v' := MacVars (Some Mac_irq_handle_recv) 0 (replicate 64 0) in
  ∃ k1 d, k_net k1 = n3 ∧ descs (k_net (before_test k1)) !! a = Some d ∧
    if owned d then
      ∃ k2, only_screen (before_test k1) k2 ∧ wait_ends a c v' (before_wait k2) res
    else res = Ok (Return, v', before_test k1).
Proof.
  intros Hinit Hsetup Hrecv a Ha Hthere Hflags Hq Hrp Htest Hwait. cbv zeta. unfold mac_recv_task.
  cbn [get_net kernel_direct put_net]. rewrite Hinit, bind_Ok, Hsetup. cbv iota beta.
  set (k2 := put_vars _ _). assert (in_bounds (k_screen k2)) as Hb2 by apply Hrp.
  moves k3 H3. assert (in_bounds (k_screen k3)) as Hb3 by (by apply H3).
  prints Hb3 k4 H4. assert (only_screen k2 k4) as [Hs4 Hb4] by (by eapply only_screen_trans).
  rewrite (recv_call _ _ _ _ n3) by (by rewrite Hs4). rewrite bind_Ok. cbv zeta.
  set (k5 := k4 <| k_net := n3 |>).
  assert (running_proc k5 Q c x) as Hrp5.
  { destruct Hrp as [R1 R2 R3 R4 R5 R6 R7]. pose proof (recv_queue_init k Q R2 Hq) as Hwf.
    unfold k5. rewrite Hs4. split; [by apply Hb4| |done..].
    destruct Hwf as [[Q1 Q2 Q3] W1 W2 W3 W4 W5 W6]. split; [by split|done..|].
    intros p y Hp. rewrite Hq in Hp. by apply elem_of_nil in Hp. }
  destruct (Htest k5 Q x Hrp5) as (Q6 & x6 & Hrp6 & Hd6). set (k6 := before_test k5) in *.
  destruct (Hd6 a Ha) as [d Hd]. exists k5, d. split; [done|]. split; [done|].
  rewrite clear_flags, bind_Ok by done. unfold get_desc. cbn [get_net kernel_direct].
  fold a. rewrite Hd, bind_Ok, owned_test. destruct (owned d); [|done].
  assert (in_bounds (k_screen k6)) as Hb6 by apply Hrp6.
  moves k7 H7. assert (in_bounds (k_screen k7)) as Hb7 by (by apply H7).
  prints Hb7 k8 H8. assert (only_screen k6 k8) as Hs8 by (by eapply only_screen_trans).
  exists k8. split; [done|].
  assert (running_proc k8 Q6 c x6) as Hrp8.
  { destruct Hs8 as [Hs8 Hb8]. apply (running_proc_keeps k6); [by rewrite Hs8|done|by rewrite Hs8|done]. }
  destruct (Hwait k8 Q6 x6 Hrp8) as (Q9 & x9 & Hrp9 & Hd9).
  apply (wait_ends_call _ _ _ _ Q9 x9 Hrp9), Hd9.
  destruct Hs8 as [-> _]. by exists d.
Qed.

(** What a buffer is printed as: the words from [a], each read one byte too far,
    eight to a line. *)
Fixpoint buffer_text (n : nat) (mem : addr → Z) (a cnt : Z) : bytes :=
  match n with
  | O => []
  | S n =>
      itoa_text (i32 (le_word (λ i, mem (a + (4 - i))))) 16 false true 0 ++ [32] ++
      (if Z.land (cnt + 1) 7 =? 0 then [10] else []) ++ buffer_text n mem (a + 4) (cnt + 1)
  end.

Lemma hex_text v : (length (itoa_text (i32 v) 16 false true 0) < 255)%nat ∧
  0 ∉ itoa_text (i32 v) 16 false true 0.
Proof.
  split.
  - pose proof (itoa_text_length (i32 v) 16 false true 0 10 ltac:(lia) (i32_range v) ltac:(lia)
      ltac:(by apply Z.leb_le) ltac:(lia)). lia.
  - unfold itoa_text. rewrite andb_false_r. cbn [app]. intros [Hz|Hz]%elem_of_app.
    + by apply elem_of_replicate in Hz as [? _].
    + apply elem_of_reverse, list_elem_of_fmap in Hz as (d & Hd & Hin).
      pose proof (digits_bound 33 16 (u32 (i32 v)) ltac:(lia)) as Hr.
      rewrite Forall_forall in Hr. specialize (Hr d Hin). pose proof (digit_char_byte false d Hr). lia.
Qed.

Lemma render_hex v :
  render [Conv 0 120; Char 32] [ArgInt v] = Ok (itoa_text (i32 v) 16 false true 0 ++ [32]).
Proof. with_strategy opaque [itoa_text] reflexivity. Qed.

Lemma printf_line k : in_bounds (k_screen k) →
  printf junk_buff junk_bf [10; 0] [] k = Ok (k <| k_screen := foldl type_char (k_screen k) [10] |>).
Proof.
  apply (printf_types _ _ [Char 10] [10]); [by apply (bool_decide_unpack _)|done|done|cbn; lia|].
  by apply (bool_decide_unpack _).
Qed.

Lemma printf_recv_buffer_types n mem a cnt k :
  (∀ j, 0 ≤ j < Z.of_nat n → ¬ Forall (λ i, mem (a + 4 * j + i) = 0) [0; 1; 2; 3]) →
  Forall (λ i, mem (a + 4 * Z.of_nat n + i) = 0) [0; 1; 2; 3] → in_bounds (k_screen k) →
  printf_recv_buffer junk_buff junk_bf (S n) mem a cnt k =
    Ok (k <| k_screen := foldl type_char (k_screen k) (buffer_text n mem a cnt) |>).
Proof.
  revert a cnt k. induction n as [|n IH]; intros a cnt k Hne Hz Hb.
  - cbn [printf_recv_buffer buffer_text]. rewrite Z.mul_0_r, Z.add_0_r in Hz.
    rewrite bool_decide_true by done. by destruct k.
  - remember (S n) as m. cbn [printf_recv_buffer]. subst m.
    specialize (Hne 0 ltac:(lia)) as H0. rewrite Z.mul_0_r, Z.add_0_r in H0.
    rewrite bool_decide_false by done.
    set (w := le_word _). destruct (hex_text w) as [Hlen Hnz]. cbn [buffer_text]. fold w.
    set (t := itoa_text (i32 w) 16 false true 0) in *.
    rewrite (printf_types _ _ [Conv 0 120; Char 32] (t ++ [32])); 
      [|by apply (bool_decide_unpack _)|done|apply render_hex| | |done].
    2: { rewrite length_app. clearbody t. cbn. lia. }
    2: { clearbody t. intros [?|?%list_elem_of_singleton]%elem_of_app; done. }
    rewrite bind_Ok. set (k1 := k <| k_screen := _ |>).
    assert (in_bounds (k_screen k1)) as Hb1 by (by apply type_text_bounds).
    set (nl := if Z.land (cnt + 1) 7 =? 0 then [10] else []).
    assert ((if Z.land (cnt + 1) 7 =? 0 then printf junk_buff junk_bf [10; 0] [] k1 else Ok k1) =
      Ok (k1 <| k_screen := foldl type_char (k_screen k1) nl |>)) as ->.
    { subst nl. clearbody k1. destruct (Z.land (cnt + 1) 7 =? 0); [by apply printf_line|by destruct k1]. }
    rewrite bind_Ok, IH.
    + unfold k1. rewrite !foldl_app. by destruct k.
    + intros j Hj. specialize (Hne (j + 1) ltac:(lia)). by replace (a + 4 + 4 * j) with (a + 4 * (j + 1)) by lia.
    + by replace (a + 4 + 4 * Z.of_nat n) with (a + 4 * Z.of_nat (S n)) by lia.
    + by apply type_text_bounds.
Qed.

(** ** The file program *)

Lemma fopen_call nm access k s' :
  do_fopen (k_fs k) (Some nm) access junk1 = Ok s' →
  sys (sys_fopen (Str nm) access).1 k = Ok (k <| k_fs := s' |>).
Proof.
  intros Hs. change (sys_fopen (Str nm) access).1 with (stub (A_fopen (Some nm) access)).
  rewrite call_stub. unfold intended_call, intended, on_fs. by rewrite Hs.
Qed.

(** The first write to an empty file that was just opened has to grow it. *)
Lemma write_grows k num access (k' : kernel D) :
  fs_ok (k_fs k) → 0 ≤ num < INODE_MAX_NUMBER → size (node (k_fs k) num) = 0 →
  aget (fd (k_fs k)) 0 = Ok (FileDesc 0 (Some num) access) →
  INODE_MAX_NUMBER ≤ nodes_addr → nodes_addr + INODE_SIZE * INODE_MAX_NUMBER < 2 ^ 32 →
  test_fs_write k ≠ Ok k'.
Proof.
  intros Hok Hn Hsz Hd H1 H2 Hrun. unfold test_fs_write in Hrun.
  change (sys_fwrite 0 hello 13) with (stub (A_fwrite 0 hello 13)) in Hrun.
  rewrite call_stub in Hrun. unfold intended_call, intended, on_fs in Hrun.
  apply bind_Ok_inv in Hrun as (r & Hrun & _). apply bind_Ok_inv in Hrun as (s' & Hrun & _).
  destruct fuel as [|f]; [done|]. cbn [do_fwrite] in Hrun. rewrite Hd, bind_Ok in Hrun.
  cbn [ifile pos] in Hrun. rewrite get_node_spec, bind_Ok in Hrun by done.
  assert (blocks_of (size (node (k_fs k) num)) < blocks_of 13) as Hg by (by rewrite Hsz).
  change (u32 (0 + u32 13)) with 13 in Hrun. rewrite (proj2 (Z.ltb_lt _ _) Hg) in Hrun.
  apply bind_Ok_inv in Hrun as (s1 & Hr & _).
  by apply (growth_out_of_bounds nodes_addr (k_fs k) num 13 Hok Hn H1 H2 Hg s1).
Qed.
End kernel.

(** Every round hands over the whole ring, and the engine completes it. *)
Lemma net_rounds_spec engine (laws : EngineLaws engine) fuel td td_phy l i n :
  ring (descs n) td l → (length l ≤ fuel)%nat →
  ∃ W n', (∀ wait, (W < wait)%nat → net_rounds fuel wait engine i td td_phy n = Ok n') ∧
    own_stores (bus n') = own_stores (bus n) ++ concat (replicate i l) ∧ same_links n n' ∧
    (i ≠ 0%nat → ∀ a, a ∈ l → ∃ d, descs n' !! a = Some d ∧ owned d = false).
Proof.
  intros Hr Hf. revert n Hr. induction i as [|i IH]; intros n Hr.
  - exists 0%nat, n. split_and!; [done|by rewrite app_nil_r| |done].
    intros a d Hd. exists (d_tdes0 d). rewrite Hd. by destruct d.
  - destruct (do_net_send_spec engine laws td td_phy l n Hr) as (W1 & n1 & Hrun1 & Hb1 & Hs1 & Hd1).
    destruct (IH n1) as (W2 & n2 & Hrun2 & Hb2 & Hs2 & Hd2); [by eapply ring_same|].
    exists (W1 `max` W2)%nat, n2. split_and!.
    + intros wait Hw. cbn [net_rounds].
      rewrite (do_net_send_fuel _ _ (length l) fuel _ _ _ n1), bind_Ok; [|done|apply Hrun1; lia].
      apply Hrun2. lia.
    + rewrite Hb2, Hb1, own_stores_app, own_stores_app, own_stores_handed. cbn [replicate concat].
      change (own_stores (send_setup td_phy n)) with (@nil addr). cbn [app].
      by rewrite <- (assoc_L (++)).
    + by eapply same_links_trans.
    + intros _. destruct i as [|i]; [|by apply Hd2].
      assert (n1 = n2) as <- by (apply (inj Ok), (Hrun2 (S W2)); lia). exact Hd1.
Qed.

(** ** The sending program *)

Lemma send_tdes1_end mac i : pnum mac = PNUM →
  Z.land (send_tdes1 mac i) (2 ^ 25) = if i =? PNUM - 1 then 2 ^ 25 else 0.
Proof. intros Hp. unfold send_tdes1, last_desc. rewrite Hp. by destruct (i =? PNUM - 1). Qed.

Lemma recv_tdes1_end mac i : pnum mac = PNUM →
  Z.land (recv_tdes1 mac i) (2 ^ 25) = if i =? PNUM - 1 then 2 ^ 25 else 0.
Proof. intros Hp. unfold recv_tdes1, last_desc. rewrite Hp. by destruct (i =? PNUM - 1). Qed.

Lemma length_pool pool : length (pool_addrs pool) = 64%nat.
Proof. unfold pool_addrs. by rewrite length_map, length_seqZ. Qed.


(** C10.  The program [mac_send_task], on the kernel and for every DMA engine that
    completes what it owns: the descriptors that it lays out form a ring through
    the whole pool; it gives the ring to the engine once when it lays it out and
    once in each of its four rounds, in the order of the pool; every wait ends,
    and when the program has ended the engine has completed every descriptor, and
    each points to the buffer.  The process is then in no queue, the scheduler's
    invariant holds, and the file system is untouched. *)
Theorem mac_send_task_correct {D} {dev : BlockDev D} junk1 junk2 junk_buff junk_bf fuel engine
    exception_handler_exit nodes_addr tasks pool buffer junk v (k : kernel D) Q c x :
  EngineLaws engine → length junk_buff = 256%nat → length junk_bf = 24%nat → (64 ≤ fuel)%nat →
  0xa0000000 ≤ pool → pool + 16 * PNUM ≤ 0xc0000000 →
  (∀ a, a ∈ pool_addrs pool → is_Some (descs (k_net k) !! a)) → running_proc k Q c x →
  ∃ W n, own_stores (bus n) = own_stores (bus (k_net k)) ++ concat (replicate 5 (pool_addrs pool)) ∧
    ring (descs n) (pool_addr pool 0) (pool_addrs pool) ∧
    (∀ a, a ∈ pool_addrs pool → ∃ d, descs n !! a = Some d ∧ owned d = false ∧ tdes2 d = phys buffer) ∧
    ∀ wait, (W < wait)%nat → ∃ k' Q',
      mac_send_task (os := os junk1 junk2 fuel wait engine exception_handler_exit nodes_addr tasks)
        pool buffer junk_buff junk_bf junk v k
      = Ok (MacVars (Some Mac_irq_handle_send) (ch_flag v) (recv_flag v), k') ∧
      k_net k' = n ∧ k_fs k' = k_fs k ∧ sched_wf (k_sched k') Q' ∧ unqueued Q' c.
Proof.
  intros laws Hbuff Hbf Hfuel Hlo Hhi Hth Hrp.
  destruct (send_desc_init_spec pool buffer (test_mac junk) (k_net k) eq_refl Hth) as (n1 & Hinit & Hl).
  match type of Hinit with _ = Ok (?m, _) => set (mac := m) in * end.
  destruct (mac_setup_spec mac Mac_irq_handle_send v (k <| k_net := n1 |>)) as (n2 & [Hd2 Hb2] & Hsetup).
  change (k_net (k <| k_net := n1 |>)) with n1 in *.
  pose proof (laid_ring pool Hlo Hhi _ _ _ _ Hl) as Hring.
  specialize (Hring (λ i _, send_tdes1_end (test_mac junk) i eq_refl)). rewrite <- Hd2 in Hring.
  destruct (net_rounds_spec engine laws fuel (td mac) (td_phy mac) (pool_addrs pool) 4 n2)
    as (W & n3 & Hrun & Hb3 & Hs3 & Hdone); [done|by rewrite length_pool|].
  exists W, n3. split; [|split; [by eapply ring_same|split]].
  - rewrite Hb3, Hb2, (laid_stores _ _ _ _ _ Hl). by rewrite <- (assoc_L (++)).
  - intros a Ha. destruct (Hdone ltac:(done) a Ha) as (d & Hd & Ho). exists d. split_and!; [done..|].
    apply elem_of_ring_pool in Ha as (i & Hi & ->). pose proof (ld_words _ _ _ _ _ _ Hl i Hi) as Hw.
    rewrite <- Hd2 in Hw. destruct (Hs3 _ _ Hw) as (w & Hw3). rewrite Hd in Hw3. by injection Hw3 as ->.
  - intros wait Hw. eapply mac_send_task_run; [done|done|exact Hinit|exact Hsetup|by apply Hrun| |exact Hrp].
    intros a Ha. apply (laid_there _ _ _ _ _ _ Hl) in Ha as [d Hd].
    rewrite <- Hd2 in Hd. destruct (Hs3 _ _ Hd) as (w & Hw3). by eexists.
Qed.

(** C38.  The program [mac_recv_task], up to its wait, started with no process
    waiting for a packet: the descriptors that it lays out form a ring, each
    pointing to a receive buffer of its own, and are given to the engine;
    [sys_net_recv] gives them once more, but for the last one, which the engine
    still owns.  Then the engine and
    other processes may do anything that leaves this process the current one.  If
    the last descriptor is the program's at that time, the program goes on without
    waiting.  Otherwise it prints and, after another interlude, asks the kernel to
    wait for this descriptor: the call returns at once if the descriptor has been
    completed in the meantime; if not, the process blocks: before the switch it is
    the last of those that wait for a packet, with the descriptor in its entry, and
    after the switch it still is in a queue. *)
Theorem mac_recv_task_blocks {D} {dev : BlockDev D} junk1 junk2 junk_buff junk_bf fuel wait engine
    exception_handler_exit nodes_addr tasks pool r_buffer before_test before_wait junk v (k : kernel D) Q c x :
  length junk_buff = 256%nat → length junk_bf = 24%nat → (64 ≤ fuel)%nat →
  0xa0000000 ≤ pool → pool + 16 * PNUM ≤ 0xc0000000 →
  (∀ a, a ∈ pool_addrs pool → is_Some (descs (k_net k) !! a)) →
  length (recv_flag v) = 64%nat → Q QRecv = [] → running_proc k Q c x →
  interlude c before_test → interlude c before_wait →
  let last_addr := pool_addr pool 63 in
  let res := mac_recv_task (os := os junk1 junk2 fuel wait engine exception_handler_exit nodes_addr tasks)
      pool r_buffer junk_buff junk_bf before_test before_wait junk v k in
  let v' := MacVars (Some Mac_irq_handle_recv) 0 (replicate 64 0) in
  ∃ k1 d,
    own_stores (bus (k_net k1)) =
      own_stores (bus (k_net k)) ++ pool_addrs pool ++ removelast (pool_addrs pool) ∧
    ring (descs (k_net k1)) (pool_addr pool 0) (pool_addrs pool) ∧
    (∀ i, 0 ≤ i < PNUM → ∃ d, descs (k_net k1) !! pool_addr pool i = Some d ∧
      tdes2 d = phys (r_buffer + BUFFER_SIZE * i)) ∧
    (∃ e, descs (k_net k1) !! last_addr = Some e ∧ owned e = true) ∧
    descs (k_net (before_test k1)) !! last_addr = Some d ∧
    if owned d then
      ∃ k2, only_screen (before_test k1) k2 ∧ wait_ends last_addr c v' (before_wait k2) res
    else res = Ok (Return, v', before_test k1).
Proof.
  intros Hbuff Hbf Hfuel Hlo Hhi Hth Hflags Hq Hrp Htest Hwait last_addr. cbv zeta.
  destruct (recv_desc_init_spec pool r_buffer (test_mac junk) (k_net k) eq_refl Hth) as (n1 & Hinit & Hl).
  match type of Hinit with _ = Ok (?m, _) => set (mac := m) in * end.
  destruct (mac_setup_spec mac Mac_irq_handle_recv v (k <| k_net := n1 |>)) as (n2 & [Hd2 Hb2] & Hsetup).
  change (k_net (k <| k_net := n1 |>)) with n1 in *.
  pose proof (laid_ring pool Hlo Hhi _ _ _ _ Hl) as Hring.
  specialize (Hring (λ i _, recv_tdes1_end (test_mac junk) i eq_refl)). rewrite <- Hd2 in Hring.
  destruct (do_net_recv_correct (rd mac) (rd_phy mac) (pool_addrs pool) n2 Hring)
    as (n3 & b & Hrun & Hlast & Hb3 & Hs3 & Hkeep); [rewrite length_pool; lia|].
  assert (rd mac + (PNUM - 1) * 16 = last_addr) as Hdesc.
  { change (rd mac) with (pool_addr pool 0). unfold last_addr, pool_addr, PNUM. lia. }
  assert (Hall : ∀ a, is_Some (descs (k_net k) !! a) → is_Some (descs n3 !! a)).
  { intros a Ha. apply (laid_there _ _ _ _ _ _ Hl) in Ha as [e He].
    rewrite <- Hd2 in He. destruct (Hs3 _ _ He) as (w & Hw3). by eexists. }
  assert (b = last_addr) as ->.
  { assert (last (pool_addrs pool) = Some last_addr) as Hl' by reflexivity. congruence. }
  pose proof (ld_words _ _ _ _ _ _ Hl 63 ltac:(split; [done|by apply Z.ltb_lt])) as Hw.
  fold last_addr in Hw. rewrite <- Hd2, <- Hkeep in Hw.
  rewrite length_pool in Hrun. apply (do_net_recv_fuel _ fuel) in Hrun; [|done].
  destruct (mac_recv_task_run junk1 junk2 junk_buff junk_bf fuel wait engine exception_handler_exit
    nodes_addr tasks Hbuff Hbf pool r_buffer before_test before_wait junk v k n1 mac n2 n3 Q c x
    Hinit Hsetup Hrun) as (k1 & d & Hn & Hd & Hcase); [|exact Hall|done..|].
  { rewrite Hdesc. apply Hall, Hth, elem_of_ring_pool. exists 63. split; [split; [done|by apply Z.ltb_lt]|done]. }
  rewrite Hdesc in *. exists k1, d. rewrite Hn. split; [|split; [by eapply ring_same|split; [|split; [by eexists|done]]]].
  - rewrite Hb3, !own_stores_app, own_stores_armed, Hb2, (laid_stores _ _ _ _ _ Hl).
    by rewrite <- (assoc_L (++)).
  - intros i Hi. pose proof (ld_words _ _ _ _ _ _ Hl i Hi) as Hwi. rewrite <- Hd2 in Hwi.
    destruct (Hs3 _ _ Hwi) as (w & ?). by eexists.
Qed.

(** ** The process's own number *)

(** The first entry of the table with an entry point, up to [n]. *)
Definition first_entry (s : kstate) (entry n : Z) (r : option Z) : Prop :=
  match r with
  | None => ∀ j z, 0 ≤ j < n → aget (pcb s) j = Ok z → entry_point z ≠ entry
  | Some p => ∃ i y, 0 ≤ i < n ∧ aget (pcb s) i = Ok y ∧ entry_point y = entry ∧ p = p_pid y ∧
      ∀ j z, 0 ≤ j < i → aget (pcb s) j = Ok z → entry_point z ≠ entry
  end.

Lemma do_get_pid_spec s entry :
  Z.of_nat (length (pcb s)) = NUM_MAX_TASK →
  ∃ r, do_get_pid s entry = Ok (default INVALID_PID r) ∧ first_entry s entry NUM_MAX_TASK r.
Proof.
  intros Hlen. unfold do_get_pid.
  match goal with |- context [for_range 0 NUM_MAX_TASK ?f None] =>
    destruct (for_range_inv (first_entry s entry) 0 NUM_MAX_TASK f None) as (r & -> & Hr) end.
  - done.
  - intros j z Hj. lia.
  - intros i [p|] Hi Hr.
    + exists (Some p). split; [done|]. destruct Hr as (j & y & Hj & H). exists j, y. split; [lia|done].
    + destruct (aget_total (pcb s) i) as [x Hx]; [lia|]. rewrite Hx, bind_Ok.
      destruct (Z.eqb_spec (entry_point x) entry) as [He|He]; eexists; (split; [done|]).
      * exists i, x. split; [lia|done].
      * intros j z Hj Hz. destruct (decide (j = i)) as [->|]; [congruence|]. apply (Hr j z); [lia|done].
  - by exists r.
Qed.

(** [sys_getpid] gives the number of the first process of the table that was
    started at the same entry point: of two processes that run the same program,
    the second is given the number of the first. *)
Theorem sys_getpid_first {D} {dev : BlockDev D} junk1 junk2 fuel wait engine exception_handler_exit
    nodes_addr tasks (k : kernel D) c x :
  Z.of_nat (length (pcb (k_sched k))) = NUM_MAX_TASK →
  current_running (k_sched k) = Some c → aget (pcb (k_sched k)) c = Ok x →
  ∃ i y, 0 ≤ i ≤ c ∧ aget (pcb (k_sched k)) i = Ok y ∧ entry_point y = entry_point x ∧
    (∀ j z, 0 ≤ j < i → aget (pcb (k_sched k)) j = Ok z → entry_point z ≠ entry_point x) ∧
    sys_getpid (os := os junk1 junk2 fuel wait engine exception_handler_exit nodes_addr tasks) k =
      Ok (p_pid y, k).
Proof.
  intros Hlen Hc Hx. destruct (do_get_pid_spec (k_sched k) (entry_point x) Hlen) as (r & Hr & Hf).
  pose proof (aget_bound _ _ _ Hx) as Hb. destruct r as [p|]; [|by destruct (Hf c x ltac:(lia) Hx)].
  destruct Hf as (i & y & Hi & Hy & He & -> & Hmin). exists i, y. split_and!; [lia| |done|done|done|].
  { apply Z.nlt_ge. intros Hlt. by apply (Hmin c x ltac:(lia) Hx). }
  unfold sys_getpid. cbn [get_vars kernel_direct]. rewrite Hc. unfold get_pcb. cbn [deref].
  rewrite bind_Ok, Hx, bind_Ok. change (sys_get_pid (entry_point x) 0) with (stub (A_get_pid (entry_point x) 0)).
  rewrite os_call_stub. unfold intended. by rewrite Hr.
Qed.

(** C39.  The program [test_fs], in a directory that does not have its file: the
    file is made and opened, and the first write, which has to grow it, has no
    defined result, since [do_resize] marks an inode outside the table.  So the
    program never completes. *)
Theorem test_fs_undefined {D} {dev : BlockDev D} {laws : BlockDevLaws D} junk1 junk2 junk_buff junk_bf
    fuel wait engine exception_handler_exit nodes_addr tasks buff (k : kernel D) t es t' :
  length junk_buff = 256%nat → length junk_bf = 24%nat → Z.of_nat (length junk1) = BLOCK_SIZE →
  INODE_MAX_NUMBER ≤ nodes_addr → nodes_addr + INODE_SIZE * INODE_MAX_NUMBER < 2 ^ 32 →
  in_bounds (k_screen k) → tree_rep (k_fs k) t → t_dirs t !! t_cwd t = Some es →
  lookup_name es (str "1.txt") = None → step_at t es (Touch (str "1.txt")) = Some t' →
  fd (k_fs k) ≠ [] →
  (∃ s' num, do_fopen (k_fs k) (Some (cstr "1.txt")) O_RDWR junk1 = Ok s' ∧ tree_rep s' t' ∧
    t_dirs t' !! t_cwd t' = Some (es ++ [Dentry file num (str "1.txt")])) ∧
  ∀ r, test_fs (os := os junk1 junk2 fuel wait engine exception_handler_exit nodes_addr tasks)
    junk_buff junk_bf buff k ≠ Ok r.
Proof.
  intros Hbuff Hbf Hj Hn1 Hn2 Hb Hrep Hc Hl Hstep Hfd.
  assert (name_ok (str "1.txt")) as Hnm.
  { split; [done|split; [by vm_compute; set_solver|by apply (bool_decide_unpack _)]|by vm_compute; set_solver|done]. }
  destruct (fopen_new junk1 [] Hj (k_fs k) t es (str "1.txt") [] O_RDWR t' Hrep Hc Hnm Hl Hstep Hfd)
    as (s' & num & Hrun & Hrep' & Hdir & Hnum & Hty & Hsz & Hfd').
  change (str "1.txt" ++ [0]) with (cstr "1.txt") in Hrun.
  split; [by exists s', num|]. intros r Htest. unfold test_fs in Htest.
  destruct (move_to_spec junk1 junk2 fuel wait engine exception_handler_exit nodes_addr tasks 1 k)
    as (k1 & Hk1 & H1); [done|]. rewrite Hk1, bind_Ok in Htest.
  destruct (printf_spec junk1 junk2 junk_buff junk_bf fuel wait engine exception_handler_exit nodes_addr
    tasks Hbuff Hbf (str "[TEST] TESTING FS" ++ [10; 0]) [] (map Char (str "[TEST] TESTING FS" ++ [10]))
    (str "[TEST] TESTING FS" ++ [10]) k1) as (k2 & Hk2 & H2);
    [by apply (bool_decide_unpack _)|done|done|by apply Nat.ltb_lt|by apply (bool_decide_unpack _)|by apply H1|].
  rewrite Hk2, bind_Ok in Htest. destruct (only_screen_trans _ _ _ H1 H2) as [Hs2 _].
  assert (k_fs k2 = k_fs k) as Hf2 by (by rewrite Hs2). rewrite <- Hf2 in Hrun.
  rewrite (fopen_call _ _ _ _ _ _ _ _ _ _ _ _ Hrun), bind_Ok in Htest.
  apply bind_Ok_inv in Htest as (k3 & Hw & _). rewrite for_range_cons in Hw by done.
  apply bind_Ok_inv in Hw as (k4 & Hw & _). revert Hw.
  pose proof Hrep' as [_ [blk I] _ _ _ _ _].
  apply (write_grows _ _ _ _ _ _ _ _ _ num O_RDWR); [apply (fi_ok _ _ _ I)|done|done| |done|done].
  change (aget (fd s') 0 = Ok (FileDesc 0 (Some num) O_RDWR)). rewrite Hfd'.
  destruct (fd (k_fs k)); [done|]. by apply aget_Ok.
Qed.

(** ** Witnesses *)

(** Process 0 of [demo_state] runs; the pool is at [0xa0900000]. *)
Definition demo_pool : addr := 0xa0900000.

Definition demo_net : net :=
  Net (list_to_map (map (λ a, (a, Desc 0 0 0 0)) (pool_addrs demo_pool))) (λ _, 0) [].

Definition demo_kernel : kernel memdisk := Kernel memdisk demo_state blank_screen boot_fs demo_net [] 0.

Lemma demo_net_there a : a ∈ pool_addrs demo_pool → is_Some (descs demo_net !! a).
Proof.
  intros Ha. unfold demo_net. cbn [descs]. exists (Desc 0 0 0 0). apply elem_of_list_to_map_1.
  - rewrite <- list_fmap_compose. apply (NoDup_fmap_2 _). apply NoDup_fmap_2; [|apply NoDup_seqZ].
    intros i j. apply pool_addr_inj.
  - apply list_elem_of_fmap. by exists a.
Qed.

Lemma demo_running : running_proc demo_kernel demo_queues 0 (no_pcb 0 <| status := TASK_RUNNING |>).
Proof.
  split.
  - apply blank_screen_bounds.
  - destruct demo_wf as [[Q1 Q2 Q3] H1 H2 H3 H4 H5 H6]. split; [by split|done..|].
    intros p x Hp. exfalso. revert Hp. change (demo_queues QRecv) with (@nil pid). apply not_elem_of_nil.
  - reflexivity.
  - apply demo_current.
  - by apply demo_current.
  - reflexivity.
  - intros a [[=] _]%elem_of_replicate.
Qed.

Lemma mac_send_task_correct_witness :
  ∃ wait v k', mac_send_task (os := os [] [] 64 wait quick_engine 0 0 []) demo_pool 0xa0a00000
      (replicate 256 0) (replicate 24 0) (Mac 0 0 0 0 0 0 0 0 0 0 0 0) (MacVars None 0 []) demo_kernel
    = Ok (v, k') ∧ length (own_stores (bus (k_net k'))) = 320%nat.
Proof.
  destruct (mac_send_task_correct [] [] (replicate 256 0) (replicate 24 0) 64 quick_engine 0 0 [] demo_pool
    0xa0a00000 (Mac 0 0 0 0 0 0 0 0 0 0 0 0) (MacVars None 0 []) demo_kernel _ _ _ quick_engine_laws
    eq_refl eq_refl (le_n 64) ltac:(by apply Z.leb_le) ltac:(by apply Z.leb_le) demo_net_there demo_running)
    as (W & n & Hb & _ & _ & Hrun).
  destruct (Hrun (S W) (le_n _)) as (k' & Q' & Hk & Hn & _).
  exists (S W), (MacVars (Some Mac_irq_handle_send) 0 []), k'. split; [exact Hk|].
  rewrite Hn, Hb. reflexivity.
Defined.

(** The engine is done with every descriptor. *)
Definition all_done (k : kernel memdisk) : kernel memdisk :=
  k <| k_net ::= λ n, n <| descs ::= fmap (λ d, d <| d_tdes0 := 0 |>) |> |>.

Lemma interlude_nothing c : interlude (D := memdisk) c id.
Proof. intros k Q x H. by exists Q, x. Qed.

Lemma interlude_done c : interlude c all_done.
Proof.
  intros k Q x H.
  assert (∀ a, is_Some (descs (k_net k) !! a) → is_Some (descs (k_net (all_done k)) !! a)) as Hd.
  { intros a [d Hd]. eexists. change (descs (k_net (all_done k))) with
      ((λ d, d <| d_tdes0 := 0 |>) <$> descs (k_net k)). by rewrite lookup_fmap, Hd. }
  exists Q, x. split; [|exact Hd]. by apply (running_proc_keeps k).
Qed.

(** Nothing happens in between, and the program blocks; or the engine is quick,
    and it does not wait. *)
Lemma mac_recv_task_blocks_witness :
  let task f := mac_recv_task (os := os [] [] 64 0 quick_engine 0 0 []) demo_pool 0xa0a00000
      (replicate 256 0) (replicate 24 0) f id (Mac 0 0 0 0 0 0 0 0 0 0 0 0) (MacVars None 0 (replicate 64 1))
      demo_kernel in
  (∃ v k', task id = Ok (WaitingPackage 0xa09003f0, v, k')) ∧
  ∃ v k', task all_done = Ok (Return, v, k').
Proof.
  intros task. split.
  - destruct (mac_recv_task_blocks [] [] (replicate 256 0) (replicate 24 0) 64 0 quick_engine 0 0 [] demo_pool
      0xa0a00000 id id (Mac 0 0 0 0 0 0 0 0 0 0 0 0) (MacVars None 0 (replicate 64 1)) demo_kernel _ _ _
      eq_refl eq_refl (le_n 64) ltac:(by apply Z.leb_le) ltac:(by apply Z.leb_le) demo_net_there
      eq_refl eq_refl demo_running (interlude_nothing 0) (interlude_nothing 0))
      as (k1 & d & _ & _ & _ & (e & He & Ho) & Hd & Hcase).
    assert (d = e) as -> by exact (Some_inj _ _ (eq_trans (eq_sym Hd) He)).
    rewrite Ho in Hcase. destruct Hcase as (k2 & [Hs _] & d2 & Hd2 & Hcase).
    assert (d2 = e) as ->.
    { refine (Some_inj _ _ (eq_trans (eq_sym Hd2) (eq_trans (f_equal (λ k, descs (k_net k) !! _) Hs) He))). }
    rewrite Ho in Hcase. destruct Hcase as (s1 & k' & Q1 & Q2 & y & Hres & _).
    eexists _, k'. exact Hres.
  - destruct (mac_recv_task_blocks [] [] (replicate 256 0) (replicate 24 0) 64 0 quick_engine 0 0 [] demo_pool
      0xa0a00000 all_done id (Mac 0 0 0 0 0 0 0 0 0 0 0 0) (MacVars None 0 (replicate 64 1)) demo_kernel _ _ _
      eq_refl eq_refl (le_n 64) ltac:(by apply Z.leb_le) ltac:(by apply Z.leb_le) demo_net_there
      eq_refl eq_refl demo_running (interlude_done 0) (interlude_nothing 0))
      as (k1 & d & _ & _ & _ & (e & He & _) & Hd & Hcase).
    assert (owned d = false) as Ho.
    { change (descs (k_net (all_done k1))) with ((λ d, d <| d_tdes0 := 0 |>) <$> descs (k_net k1)) in Hd.
      rewrite lookup_fmap, He in Hd. injection Hd as <-. reflexivity. }
    rewrite Ho in Hcase. eexists _, _. exact Hcase.
Defined.

Lemma sys_getpid_first_witness :
  ∃ y, sys_getpid (os := os [] [] 64 0 quick_engine 0 0 []) demo_kernel = Ok (p_pid y, demo_kernel).
Proof.
  destruct (sys_getpid_first [] [] 64 0 quick_engine 0 0 [] demo_kernel 0 _ eq_refl eq_refl
    (rp_entry _ _ _ _ demo_running)) as (i & y & _ & _ & _ & _ & H).
  by exists y.
Defined.

Lemma test_fs_undefined_witness :
  ∃ k : kernel memdisk, tree_rep (k_fs k) new_tree ∧
    ∀ fuel r, test_fs (os := os (fill BLOCK_SIZE 0) [] fuel 0 quick_engine 0 demo_pool [])
      (replicate 256 0) (replicate 24 0) (replicate 64 0) k ≠ Ok r.
Proof.
  destruct (mkfs_tree boot_fs (fill BLOCK_SIZE 0)) as (s & _ & Hrep).
  - apply boot_ok.
  - apply length_fill. done.
  - by apply length_replicate.
  - rewrite node_boot. intros [=].
  - intros k _ _. apply boot_saved.
  - assert (step_at new_tree (dots 0 0) (Touch (str "1.txt")) ≠ None) as Hstep by (vm_compute; intros [=]).
    destruct (step_at new_tree (dots 0 0) (Touch (str "1.txt"))) as [t'|] eqn:Ht; [|by destruct Hstep].
    set (f := s <| fd := [FileDesc 0 None 0] |>).
    assert (tree_rep f new_tree) as Hf by (by apply tree_rep_fd).
    exists (Kernel memdisk demo_state blank_screen f demo_net [] 0). split; [exact Hf|]. intros fuel.
    apply (test_fs_undefined (fill BLOCK_SIZE 0) [] (replicate 256 0) (replicate 24 0) fuel 0 quick_engine 0
      demo_pool [] (replicate 64 0) (Kernel memdisk demo_state blank_screen f demo_net [] 0) new_tree
      (dots 0 0) t' eq_refl eq_refl (length_fill BLOCK_SIZE 0 ltac:(done))).
    + by apply Z.leb_le.
    + by apply Z.ltb_lt.
    + apply blank_screen_bounds.
    + exact Hf.
    + reflexivity.
    + reflexivity.
    + exact Ht.
    + intros [=].
Defined.
