(* ===== verification/Boot.v ===== *)
(** * Starting the kernel: [_start], [init_exception] and the initialisations
    of [init/main.c]

    The kernel's entry, up to the loop in which it then waits for interrupts:
    the exception vectors, the table of system calls, the process table, the
    screen and the file system.  [asm_start] and [enable_int] set registers of
    the processor, of which the model has the interrupt flag. *)

From S2P Require Import Prelude CString Printk Queue Kstate Sched Lock Process Life.
From S2P Require Import FsLayout Fs FsDisk FsPath FsOps Screen Terminal Memory Mac Syscall.

Record machine {D : Type} := Machine {
  m_mem : Z → Z;                              (* bytes by address *)
  m_table : list (option handler);            (* [syscall] *)
  m_kernel : kernel D;
  m_int : bool;                               (* interrupts are enabled *)
}.
Arguments machine : clear implicits.

Section boot.
Context {D : Type} {dev : BlockDev D}.

Definition machine_eta (m : machine D) : machine D :=
  Machine D (m_mem m) (m_table m) (m_kernel m) (m_int m).
#[export] Instance upd_m_mem : Update (@m_mem D) := ltac:(derive_update machine_eta (@m_mem D)).
#[export] Instance upd_m_table : Update (@m_table D) := ltac:(derive_update machine_eta (@m_table D)).
#[export] Instance upd_m_kernel : Update (@m_kernel D) :=
  ltac:(derive_update machine_eta (@m_kernel D)).
#[export] Instance upd_m_int : Update (@m_int D) := ltac:(derive_update machine_eta (@m_int D)).

(** Addresses of code: the two jumps of entry.S that are copied, the exit of the
    exception handler, and the shell.  [junk] is uninitialised stack memory. *)
Context (jmp_exception_handler_entry jmp_TLB_exception_handler_entry exception_handler_exit shell : Z)
  (junk : bytes).
Implicit Types (m : machine D).

Definition copy_code (dest src n : Z) : (Z → Z) → outcome (Z → Z) :=
  for_range 0 n (λ i mem, Ok (store8 (dest + i) (mem (src + i)) mem)).

Definition init_exception (mem : Z → Z) : outcome (Z → Z) :=
  mem ← copy_code 0x80000180 jmp_exception_handler_entry 256 mem;
  copy_code 0x80000000 jmp_TLB_exception_handler_entry 180 mem.

Definition printk (text : string) m : machine D :=
  m <| m_kernel ::= λ k, k <| k_sched ::= λ s, say s (Printk (str text ++ [10; 0]) []) |> |>.

(** A step on the kernel. *)
Definition on_kernel (f : kernel D → outcome (response * kernel D)) m : outcome (machine D) :=
  '(_, k) ← f (m_kernel m); Ok (m <| m_kernel := k |>).

Definition _start m : outcome (machine D) :=
  let m := m <| m_int := false |> in   (* asm_start *)
  mem ← init_exception (m_mem m);
  let m := printk "> [INIT] Interrupt processing initialization succeeded." (m <| m_mem := mem |>) in
  table ← init_syscall (m_table m);
  let m := printk "> [INIT] System call initialized successfully." (m <| m_table := table |>) in
  m ← on_kernel (on_sched init_pready_queue) m;
  let m := printk "> [INIT] Priority ready queue initialized successfully." m in
  m ← on_kernel (on_sched (init_pcb exception_handler_exit shell)) m;
  let m := printk "> [INIT] PCB initialization succeeded." m in
  m ← on_kernel (on_screen init_screen) m;
  let m := printk "> [INIT] SCREEN initialization succeeded." m in
  let m := printk "> [INIT] Mount RUA-FS if it exists." m in
  m ← on_kernel (on_fs (λ s, mount_fs s junk)) m;
  Ok (m <| m_int := true |>).
End boot.

(** ** Copying the exception vectors *)

Lemma copy_code_spec dest src n mem :
  0 ≤ n → (∀ i j, 0 ≤ i < n → 0 ≤ j < n → dest + i ≠ src + j) →
  ∃ mem', copy_code dest src n mem = Ok mem' ∧
    ∀ x, mem' x = if decide (dest ≤ x < dest + n) then mem (src + (x - dest)) else mem x.
Proof.
  intros Hn Hsep.
  set (P := λ (k : Z) (mem' : Z → Z),
    ∀ x, mem' x = if decide (dest ≤ x < dest + k) then mem (src + (x - dest)) else mem x).
  change (∃ mem', copy_code dest src n mem = Ok mem' ∧ P n mem'). apply for_range_inv; unfold P.
  - done.
  - intros x. by rewrite decide_False by lia.
  - intros i mem' Hi Hmem. eexists. split; [done|]. intros x. unfold store8.
    rewrite (Hmem (src + i)). rewrite (decide_False (P := dest ≤ src + i < dest + i)).
    2:{ intros Hx. apply (Hsep (src + i - dest) i); lia. }
    destruct (Z.eqb_spec x (dest + i)) as [->|Hne].
    + rewrite decide_True by lia. f_equal. lia.
    + rewrite Hmem. repeat case_decide; (reflexivity || lia).
Qed.

(** ** The process table *)

Definition zero_regs : regs_context_t := RegsContext (replicate 32 0) 0 0 0 0 0 0 0.

Definition zero_pcb : pcb_t :=
  Pcb zero_regs zero_regs 0 0 0 [] 0 (replicate 8 None) KERNEL_PROCESS TASK_BLOCKED 0 0 0 0 None.

(** The variables of [sched.c] and [lock.c] before the kernel runs; [ds] are the
    first words of the DMA descriptors. *)
Definition boot_kstate (ds : gmap addr Z) (last : Z) (log : list message) : kstate :=
  KState (replicate 16 zero_pcb) (replicate 16 (Link None None)) ∅ (replicate 5 0) (replicate 5 0)
    last 0 5 None 0 0 0 ∅ 0 ∅ ∅ ∅ ds log.

(** The entry after [init_entry]. *)
Definition fresh (i : Z) (x : pcb_t) : Prop :=
  status x = TASK_CREATE ∧ regs_ok x ∧ waiting_desc x = None ∧
  kernel_stack_top x = STK_UNMAPPED_BASE - STK_MAX_OCC * i ∧
  user_stack_top x = STK_UNMAPPED_BASE - STK_MAX_OCC * (16 + i).

Record table_init (s : kstate) (n : Z) : Prop := {
  ti_wf : sched_wf s (λ _, []);
  ti_fresh i : 0 ≤ i < n → ∃ x, aget (pcb s) i = Ok x ∧ fresh i x;
  ti_zero i : n ≤ i < NUM_MAX_TASK → aget (pcb s) i = Ok zero_pcb;
}.

Lemma boot_table ds log : table_init (boot_kstate ds 0 log) 0.
Proof.
  split.
  - split; try done.
    + split; [done| |by intros ??? ?%elem_of_nil]. intros q. apply queue_rep_init.
    + intros p x [_ Hx]%aget_Ok. change (pcb _) with (replicate 16 zero_pcb) in Hx.
      apply lookup_replicate in Hx as [-> _]. done.
    + by intros ?? ?%elem_of_nil.
  - lia.
  - intros i Hi. apply aget_Ok. split; [lia|]. apply lookup_replicate_2. unfold NUM_MAX_TASK in Hi. lia.
Qed.

Lemma reset_pcb_wf s i :
  sched_wf s (λ _, []) → aget (pcb s) i = Ok zero_pcb →
  ∃ s', reset_pcb s i = Ok s' ∧ sched_wf s' (λ _, []) ∧
    pcb s' = <[Z.to_nat i := reset_entry zero_pcb]> (pcb s).
Proof.
  intros Hwf Hx. pose proof (aget_bound _ _ _ Hx) as Hb. unfold reset_pcb, upd_proc. cbn [deref].
  rewrite bind_Ok, Hx, bind_Ok, aset_total, bind_Ok by done. destruct Hwf as [[H1 H2 H3] H4 H5 H6 H7 H8 H9].
  rewrite bind_Ok. cbn [plinks update upd_pcb].
  rewrite aset_total by (rewrite H1, <- H4; done). rewrite bind_Ok.
  eexists. split; [done|]. split; [|done]. split; try done.
  - split; [cbn; by rewrite length_insert| |done].
    intros q. rewrite get_queue_set. case_decide; [apply queue_rep_init|].
    destruct (H2 q) as [Q1 Q2 Q3 Q4]. by split.
  - cbn. by rewrite length_insert.
  - intros p x. cbn. destruct (decide (p = i)) as [->|].
    + rewrite aget_insert_eq by done. by intros [= <-].
    + rewrite aget_insert_ne by lia. apply H8.
  - by intros ?? ?%elem_of_nil.
Qed.

Lemma init_entry_spec s i :
  0 ≤ i < NUM_MAX_TASK → table_init s i → ∃ s', init_entry i s = Ok s' ∧ table_init s' (i + 1).
Proof.
  intros Hi [Hwf Hfresh Hzero]. pose proof (Hzero i ltac:(lia)) as Hx.
  pose proof (aget_bound _ _ _ Hx) as Hb.
  destruct (reset_pcb_wf s i Hwf Hx) as (s1 & Hrun & Hwf1 & Hp1). unfold init_entry. rewrite Hrun, bind_Ok.
  assert (Hx1 : aget (pcb s1) i = Ok (reset_entry zero_pcb)) by (rewrite Hp1; by apply aget_insert_eq).
  set (f := λ x, rewind_stacks (x <| kernel_stack_top := u32 (STK_UNMAPPED_BASE - i * STK_MAX_OCC) |>
    <| user_stack_top := u32 (STK_UNMAPPED_BASE - NUM_MAX_TASK * STK_MAX_OCC - i * STK_MAX_OCC) |>)).
  set (y := rewound (reset_entry zero_pcb
    <| kernel_stack_top := u32 (STK_UNMAPPED_BASE - i * STK_MAX_OCC) |>
    <| user_stack_top := u32 (STK_UNMAPPED_BASE - NUM_MAX_TASK * STK_MAX_OCC - i * STK_MAX_OCC) |>)).
  assert (Hy : f (reset_entry zero_pcb) = Ok y) by (apply rewind_stacks_spec; split; reflexivity).
  assert (Hpy : priority y = 1) by reflexivity.
  assert (Hwy : waiting_desc y = None) by reflexivity.
  assert (Hfy : fresh i y).
  { unfold fresh. rewrite Hwy. unfold NUM_MAX_TASK in Hi.
    split_and!; [reflexivity|apply rewound_regs; split; reflexivity|reflexivity| |].
    - change (kernel_stack_top y) with (u32 (STK_UNMAPPED_BASE - i * STK_MAX_OCC)).
      rewrite u32_small; unfold STK_UNMAPPED_BASE, STK_MAX_OCC; lia.
    - change (user_stack_top y) with (u32 (STK_UNMAPPED_BASE - NUM_MAX_TASK * STK_MAX_OCC - i * STK_MAX_OCC)).
      rewrite u32_small; unfold STK_UNMAPPED_BASE, STK_MAX_OCC, NUM_MAX_TASK; lia. }
  clearbody y. fold f. clearbody f.
  destruct (upd_proc_m_spec s1 (λ _, []) i _ f y Hwf1 Hx1 Hy) as (s2 & Hs2 & Hwf2 & Hp2 & Hx2);
    [rewrite Hpy; unfold MAX_PRIORITY_NUM; lia|rewrite Hwy; reflexivity|].
  exists s2. split; [exact Hs2|].
  assert (Hpcb : pcb s2 = <[Z.to_nat i := y]> (pcb s)).
  { rewrite Hp2. change (<[Z.to_nat i := y]> (pcb s1) = <[Z.to_nat i := y]> (pcb s)).
    rewrite Hp1. apply list_insert_insert_eq. }
  split; [exact Hwf2| |].
  - intros j Hj. destruct (decide (j = i)) as [->|]; [by exists y|].
    rewrite Hpcb, aget_insert_ne by lia. apply Hfresh. lia.
  - intros j Hj. rewrite Hpcb, aget_insert_ne by lia. apply Hzero. lia.
Qed.

Lemma init_table ds log :
  ∃ s, for_range 0 NUM_MAX_TASK init_entry (boot_kstate ds 0 log) = Ok s ∧ table_init s NUM_MAX_TASK.
Proof.
  apply (for_range_inv (λ n s, table_init s n)); [done|apply boot_table|].
  intros i s Hi Hs. by apply init_entry_spec.
Qed.

Lemma sched_wf_current s Q c : sched_wf s Q → sched_wf (s <| current_running := c |>) Q.
Proof. intros [[H1 H2 H3] H4 H5 H6 H7 H8 H9]. split; try done; by split. Qed.

Lemma table_regs s p x : table_init s NUM_MAX_TASK → aget (pcb s) p = Ok x → regs_ok x.
Proof.
  intros [Hwf Hf _] Hx. pose proof (aget_bound _ _ _ Hx). rewrite (wf_pcb _ _ Hwf) in *.
  destruct (Hf p) as (y & Hy & _ & Hr & _); [done|]. congruence.
Qed.

(** The processes after [init_pcb]. *)
Record booted (exit shell : Z) (s : kstate) : Prop := {
  bt_wf : sched_wf s (qset (λ _, []) (QReady 0) [1]);
  bt_current : current_running s = Some 0;
  bt_kernel : ∃ x, aget (pcb s) 0 = Ok x ∧ Kstate.type x = KERNEL_PROCESS ∧ name x = str "kernel" ∧
    p_pid x = 0 ∧ kernel_stack_top x = STK_UNMAPPED_BASE;
  bt_shell : ∃ x, aget (pcb s) 1 = Ok x ∧ status x = TASK_READY ∧ priority x = 0 ∧ p_pid x = 1 ∧
    cp0_epc (user_context x) = shell ∧ name x = str "shell" ∧
    regs (kernel_context x) !! 31%nat = Some exit;
  bt_free i : 2 ≤ i < NUM_MAX_TASK → ∃ x, aget (pcb s) i = Ok x ∧ fresh i x;
  bt_ready : ∃ x, aget (pcb s) 0 = Ok x ∧ status x = TASK_READY ∧ priority x = 0;
  bt_files : mutexes s = ∅ ∧ files_ok s;
}.

(** The registers and the locks of the entries, all along. *)
Lemma no_locks_ok s x : regs_ok x → locks x = replicate 8 None → file_ok s x.
Proof. intros Hr Hl. split; [done|]. rewrite Hl. split; [done|]. by intros a [Ha _]%elem_of_replicate. Qed.

Lemma boot_files ds last log : files_ok (boot_kstate ds last log).
Proof.
  intros p x [_ Hx]%aget_Ok. change (pcb _) with (replicate 16 zero_pcb) in Hx.
  apply lookup_replicate in Hx as [-> _]. by apply no_locks_ok.
Qed.

Lemma init_entry_files i s s' : init_entry i s = Ok s' → files_ok s → files_ok s'.
Proof.
  unfold init_entry, reset_pcb. intros H Hf. apply bind_Ok_inv in H as (s1 & H & H2).
  apply bind_Ok_inv in H as (s0 & H0 & H). apply bind_Ok_inv in H as (lk & _ & [= <-]).
  eapply upd_proc_m_files; [exact H2| |].
  - intros x y Hy Hx. eapply rewind_stacks_ok in Hy; [exact Hy|apply Hx|exact Hx].
  - apply (files_ok_mutexes s0); [done|done|]. eapply upd_proc_files; [exact H0| |done].
    intros x _. by apply no_locks_ok.
Qed.

Lemma init_pcb_files exit shell ds log s :
  init_pcb exit shell (boot_kstate ds 0 log) = Ok s → files_ok s.
Proof.
  unfold init_pcb. intros H. apply bind_Ok_inv in H as (s0 & H0 & H).
  apply bind_Ok_inv in H as ([r s1] & H1 & H). apply bind_Ok_inv in H as (s2 & H2 & H).
  eapply spawn_files; [exact H|]. clear H.
  assert (files_ok s0) as Hf0.
  { eapply (for_range_keeps (λ _, files_ok)); [| | |exact H0]; [done|apply boot_files|].
    intros i t t' _ Ht Hi. by eapply init_entry_files. }
  assert (files_ok s1) as Hf1.
  { eapply find_free_files; [exact H1|]. by apply (files_ok_mutexes s0). }
  destruct r as [p|]; [|by injection H2 as <-].
  eapply upd_proc_files; [exact H2|done|by apply (files_ok_mutexes s1)].
Qed.

Lemma init_pcb_mutexes exit shell ds log s :
  init_pcb exit shell (boot_kstate ds 0 log) = Ok s → mutexes s = ∅.
Proof.
  intros Hs. assert (Hc : (s ← init_pcb exit shell (boot_kstate ds 0 log); Ok (mutexes s)) = Ok ∅)
    by (vm_compute; reflexivity).
  rewrite Hs in Hc. by injection Hc.
Qed.

Lemma init_pcb_spec ds exit shell log :
  ∃ s, init_pcb exit shell (boot_kstate ds 0 log) = Ok s ∧ booted exit shell s.
Proof.
  destruct (init_table ds log) as (s0 & Hrun & Ht). pose proof (ti_wf _ _ Ht) as Hwf0.
  assert (Hfin : ∀ s, init_pcb exit shell (boot_kstate ds 0 log) = Ok s → mutexes s = ∅ ∧ files_ok s).
  { intros s Hs. split; [by eapply init_pcb_mutexes|by eapply init_pcb_files]. }
  revert Hfin. unfold init_pcb. rewrite Hrun, bind_Ok. clear Hrun. set (s1 := s0 <| current_running := None |>).
  assert (Hwf1 : sched_wf s1 (λ _, [])) by (by apply sched_wf_current).
  destruct (ti_fresh _ _ Ht 0 ltac:(done)) as (x0 & Hx0 & Hst0 & Hr0 & Hw0 & Hk0 & Hu0).
  destruct (ti_fresh _ _ Ht 1 ltac:(done)) as (x1 & Hx1 & Hst1 & Hr1 & Hw1 & _).
  destruct (create_proc_spec s1 (λ _, []) 0 Hwf1 ltac:(lia)) as (r & s2 & -> & Hwf2 & Hr & _ & _ & _ & Hp2).
  { intros p x. by apply (table_regs s0). }
  assert (r = Some 0) as ->.
  { apply (first_free_at s1 0 r x0); [done|exact Hx0|by left|lia|exact Hr]. }
  destruct Hp2 as (x & Hx & Hp2). change (pcb s1) with (pcb s0) in Hx, Hp2.
  assert (x = x0) as -> by congruence. rewrite bind_Ok.
  destruct (upd_proc_spec (s2 <| current_running := Some 0 |>) (λ _, []) 0
    (λ x, x <| Kstate.type := KERNEL_PROCESS |> <| name := str "kernel" |>))
    as (y & s3 & Hy & -> & Hwf3 & Hs3); [by apply sched_wf_current|done|done|].
  rewrite bind_Ok. change (pcb (s2 <| current_running := Some 0 |>)) with (pcb s2) in Hy, Hs3.
  pose proof (aget_bound _ _ _ Hx0) as Hb. rewrite Hp2, aget_insert_eq in Hy by done. injection Hy as <-.
  set (k := created x0 0 (clamp_priority 0) <| Kstate.type := KERNEL_PROCESS |> <| name := str "kernel" |>) in *.
  assert (Hp3 : pcb s3 = <[Z.to_nat 0 := k]> (pcb s0)).
  { rewrite Hs3. cbn [pcb update upd_pcb]. rewrite Hp2. apply list_insert_insert_eq. }
  assert (Hother : ∀ p, p ≠ 0 → aget (pcb s3) p = aget (pcb s0) p)
    by (intros p Hp; rewrite Hp3; apply aget_insert_ne; [done|congruence]).
  assert (Hk3 : aget (pcb s3) 0 = Ok k) by (rewrite Hp3; by apply aget_insert_eq).
  destruct (spawn_spec exit s3 (λ _, []) (TaskInfo (str "shell") shell USER_PROCESS) 0 Hwf3)
    as (r & s4 & -> & Hr4 & Hc4 & Hres); [done| |by intros i _ q ?%elem_of_nil|].
  { intros p z Hz. destruct (decide (p = 0)) as [->|].
    - assert (z = k) as -> by congruence. apply rewound_regs. by destruct Hr0.
    - rewrite Hother in Hz by done. by apply (table_regs s0 p). }
  assert (r = Some 1) as ->.
  { apply (first_free_at s3 1 r x1); [done|by rewrite Hother|by left| |done].
    intros j z Hj Hz. assert (j = 0) as -> by lia. assert (z = k) as -> by congruence. by intros []. }
  destruct Hres as (Hwf4 & Hsame & z & Hz & Hz1 & Hz2 & Hz3 & Hz4 & _ & Hz5 & Hz6 & _).
  exists s4. split; [done|]. split.
  - exact Hwf4.
  - by rewrite Hc4, Hs3.
  - exists k. rewrite Hsame by done. split_and!; [done..|]. rewrite Z.mul_0_r, Z.sub_0_r in Hk0. exact Hk0.
  - by exists z.
  - intros i Hi. rewrite Hsame, Hother by lia. apply (ti_fresh _ _ Ht). lia.
  - exists k. rewrite Hsame by done. done.
  - by apply Hfin.
Qed.

(** With the scheduler's index at 0 ([booted]), the programs, with their locks and
    other objects, find the processes in a state from which [Life.no_process_lost]
    starts. *)
Lemma booted_settled exit shell s ms sems bars conds :
  booted exit shell s →
  settled (s <| mutexes := ms |> <| semaphores := sems |> <| barriers := bars |> <| conditions := conds |>)
    (qset (λ _, []) (QReady 0) [1]).
Proof.
  intros [Hwf Hc _ (x1 & Hx1 & Hst1 & _) Hfree (x0 & Hx0 & Hst0 & Hp0) [Hm Hf]].
  set (s' := s <| mutexes := ms |> <| semaphores := sems |> <| barriers := bars |> <| conditions := conds |>).
  assert (same_sched s s') as Hs by done.
  assert (unqueued (qset (λ _, []) (QReady 0) [1]) 0) as Hun
    by (intros q; unfold qset; case_decide; set_solver).
  split; [split|exists 0, x0; split_and!; [done|done|by right]].
  - by apply (same_sched_wf s).
  - apply (files_ok_mutexes s); [done| |done]. intros a. rewrite Hm. by intros [? ?].
  - intros p x [q Hq] Hx. assert (p = 1) as -> by (unfold qset in Hq; case_decide; set_solver).
    change (pcb s') with (pcb s) in Hx. assert (x = x1) as -> by congruence.
    unfold free_status. rewrite Hst1. by intros [|].
  - intros p x Hx Hnf. change (pcb s') with (pcb s) in Hx.
    destruct (decide (p = 0)) as [->|]; [by right|]. destruct (decide (p = 1)) as [->|].
    { left. exists (QReady 0). rewrite qset_eq. set_solver. }
    pose proof (aget_pcb_ok _ _ _ _ Hwf Hx) as Hp. unfold pid_ok in Hp.
    destruct (Hfree p) as (y & Hy & Hst & _); [lia|]. exfalso. apply Hnf. left. congruence.
  - exists 0, x0. split_and!; [done|done|]. unfold current_state. by rewrite Hst0.
  - exists x0. split_and!; [done|done|by left].
Qed.

(** From there on no process is lost, whatever the programs do with their
    objects, provided that the index of the scheduler, which [boot_kstate] gets as 0
    here, is not the -1 that the program starts with. *)
Theorem processes_after_boot ds exit tasks shell log ms sems bars conds ops :
  ∃ s m Q', init_pcb exit shell (boot_kstate ds 0 log) = Ok s ∧
    kernel_run exit tasks (World (s <| mutexes := ms |> <| semaphores := sems |> <| barriers := bars |>
      <| conditions := conds |>) ∅) ops = Ok m ∧ world_ok m Q'.
Proof.
  destruct (init_pcb_spec ds exit shell log) as (s & Hs & Hb).
  destruct (kernel_run_ok exit tasks ops _ _ (world_start _ _ (booted_settled exit shell s ms sems bars conds Hb)))
    as (m & Q' & Hrun & Hset). exists s, m, Q'. exact (conj Hs (conj Hrun Hset)).
Qed.

(** [init_pcb] does not look at the index of the scheduler. *)
Lemma init_pcb_last ds exit shell log :
  init_pcb exit shell (boot_kstate ds (-1) log) =
    (s ← init_pcb exit shell (boot_kstate ds 0 log); Ok (s <| last_sel_index := -1 |>)).
Proof. vm_compute. reflexivity. Qed.

Lemma init_pcb_cursor ds exit shell log s :
  init_pcb exit shell (boot_kstate ds 0 log) = Ok s →
  Kstate.screen_cursor_x s = 0 ∧ Kstate.screen_cursor_y s = 0.
Proof.
  intros Hs. assert (Hc : (s ← init_pcb exit shell (boot_kstate ds 0 log);
    Ok (Kstate.screen_cursor_x s, Kstate.screen_cursor_y s)) = Ok (0, 0)) by (vm_compute; reflexivity).
  rewrite Hs in Hc. injection Hc as Hx Hy. exact (conj Hx Hy).
Qed.

Lemma init_pready_queue_boot ds last log :
  init_pready_queue (boot_kstate ds last log) = Ok (boot_kstate ds last log).
Proof. reflexivity. Qed.

Lemma init_screen_boot : ∃ s, init_screen boot_screen = Ok s ∧ in_bounds s.
Proof.
  destruct (synced_init blank_vt) as (s & Hs & Hsync & _); [exact eq_refl|].
  exists s. split; [exact Hs|]. by apply (sync_bounds _ _ Hsync).
Qed.

Lemma booted_last exit shell s log last :
  booted exit shell s →
  booted exit shell (s <| last_sel_index := last |> <| klog := log |> <| last_sel_index := 0 |>).
Proof.
  intros [Hwf Hc Hk Hs Hf Hr Hl]. split; [|exact Hc|exact Hk|exact Hs|exact Hf|exact Hr|exact Hl].
  destruct Hwf as [[H1 H2 H3] H4 H5 H6 H7 H8 H9]. split; try done; by split.
Qed.

Definition power_on {D} (mem : Z → Z) (f : fs D) (n : net) (uart : bytes) : machine D :=
  Machine D mem empty_table (Kernel D (boot_kstate (d_tdes0 <$> descs n) (-1) []) boot_screen f n uart 0) false.

(** [a .. a+n) and [b .. b+m) do not meet. *)
Definition apart (a n b m : Z) : Prop := a + n ≤ b ∨ b + m ≤ a.

Section theorems.
Context {D : Type} {dev : BlockDev D} {laws : BlockDevLaws D}.
Context (entry tlb exit shell : Z) (junk : bytes).

Lemma init_exception_spec mem :
  apart 0x80000180 256 entry 256 → apart 0x80000000 180 tlb 180 → apart 0x80000180 256 tlb 180 →
  ∃ mem', init_exception entry tlb mem = Ok mem' ∧
    (∀ i, 0 ≤ i < 256 → mem' (0x80000180 + i) = mem (entry + i)) ∧
    (∀ i, 0 ≤ i < 180 → mem' (0x80000000 + i) = mem (tlb + i)).
Proof.
  unfold apart. intros H1 H2 H3. unfold init_exception.
  destruct (copy_code_spec 0x80000180 entry 256 mem) as (m1 & -> & Hm1); [lia|lia|]. rewrite bind_Ok.
  destruct (copy_code_spec 0x80000000 tlb 180 m1) as (m2 & -> & Hm2); [lia|lia|].
  exists m2. split; [done|]. split; intros i Hi; rewrite Hm2.
  - rewrite decide_False, Hm1, decide_True by lia. f_equal. lia.
  - rewrite decide_True, Hm1, decide_False by lia. f_equal. lia.
Qed.

Lemma on_kernel_sched (f : kstate → outcome kstate) (m : machine D) s' :
  f (sched_in (m_kernel m)) = Ok s' →
  on_kernel (on_sched f) m = Ok (m <| m_kernel := sched_out s' (m_kernel m) |>).
Proof. intros Hf. unfold on_kernel, on_sched. by rewrite Hf. Qed.

Lemma on_kernel_screen (f : screen → outcome screen) (m : machine D) s' :
  f (k_screen (m_kernel m)) = Ok s' →
  on_kernel (on_screen f) m = Ok (m <| m_kernel := m_kernel m <| k_screen := s' |> |>).
Proof. intros Hf. unfold on_kernel, on_screen. by rewrite Hf. Qed.

Lemma on_kernel_fs (f : fs D → outcome (fs D)) (m : machine D) s' :
  f (k_fs (m_kernel m)) = Ok s' →
  on_kernel (on_fs f) m = Ok (m <| m_kernel := m_kernel m <| k_fs := s' |> |>).
Proof. intros Hf. unfold on_kernel, on_fs. by rewrite Hf. Qed.

(** The run of [_start] from what its steps return. *)
Lemma _start_steps (m : machine D) mem table s1 s2 scr f :
  init_exception entry tlb (m_mem m) = Ok mem → init_syscall (m_table m) = Ok table →
  let m1 := printk "> [INIT] System call initialized successfully."
    (printk "> [INIT] Interrupt processing initialization succeeded."
      (m <| m_int := false |> <| m_mem := mem |>) <| m_table := table |>) in
  init_pready_queue (sched_in (m_kernel m1)) = Ok s1 →
  let m2 := printk "> [INIT] Priority ready queue initialized successfully."
    (m1 <| m_kernel := sched_out s1 (m_kernel m1) |>) in
  init_pcb exit shell (sched_in (m_kernel m2)) = Ok s2 →
  let m3 := printk "> [INIT] PCB initialization succeeded."
    (m2 <| m_kernel := sched_out s2 (m_kernel m2) |>) in
  init_screen (k_screen (m_kernel m3)) = Ok scr →
  let m4 := printk "> [INIT] Mount RUA-FS if it exists."
    (printk "> [INIT] SCREEN initialization succeeded."
      (m3 <| m_kernel := m_kernel m3 <| k_screen := scr |> |>)) in
  mount_fs (k_fs (m_kernel m4)) junk = Ok f →
  _start entry tlb exit shell junk m =
    Ok (m4 <| m_kernel := m_kernel m4 <| k_fs := f |> |> <| m_int := true |>).
Proof.
  intros Hmem Htable m1 H1 m2 H2 m3 H3 m4 H4. unfold _start.
  change (m_mem (m <| m_int := false |>)) with (m_mem m). rewrite Hmem, bind_Ok.
  change (m_table _) with (m_table m) at 1. rewrite Htable, bind_Ok. fold m1.
  rewrite (on_kernel_sched _ m1 s1 H1), bind_Ok. fold m2.
  rewrite (on_kernel_sched _ m2 s2 H2), bind_Ok. fold m3.
  rewrite (on_kernel_screen _ m3 scr H3), bind_Ok. fold m4.
  rewrite (on_kernel_fs (λ s, mount_fs s junk) m4 f H4), bind_Ok. done.
Qed.

(** C12.  Starting the kernel on the disk of an earlier run: [_start] returns to
    its idle loop with interrupts enabled, the exception vectors hold the code of
    the handlers, the table has every system call, the screen is within its
    bounds, the directories on the disk are mounted, process 0 is the kernel and
    runs, process 1 is the shell and waits in the ready queue of priority 0, the
    other entries of the process table are free with a stack each, and every queue
    is well formed.  Only the index of the scheduler is not: it is -1, so that the
    first choice of a queue reads outside the array. *)
Theorem boot_correct mem s T blk s0 net uart :
  fs_inv s T blk → inode_dirty s0 = replicate 256 0 →
  length (nodes s0) = length (nodes s) →
  Z.of_nat (length (inode_bit_map s0)) = INODE_BIT_MAP_SIZE →
  Z.of_nat (length (block_bit_map s0)) = DATA_BLOCK_BIT_MAP_SIZE →
  (2 ≤ length (cwd_str s0))%nat →
  apart 0x80000180 256 entry 256 → apart 0x80000000 180 tlb 180 → apart 0x80000180 256 tlb 180 →
  ∃ m, _start entry tlb exit shell junk (power_on mem (s0 <| disk := disk s |>) net uart) = Ok m ∧
    m_int m = true ∧ m_table m = syscall_table ∧
    (∀ i, 0 ≤ i < 256 → m_mem m (0x80000180 + i) = mem (entry + i)) ∧
    (∀ i, 0 ≤ i < 180 → m_mem m (0x80000000 + i) = mem (tlb + i)) ∧
    in_bounds (k_screen (m_kernel m)) ∧
    fs_inv (k_fs (m_kernel m)) T blk ∧ cwd (k_fs (m_kernel m)) = 0 ∧
    booted exit shell (k_sched (m_kernel m) <| last_sel_index := 0 |>) ∧
    select_queue (k_sched (m_kernel m)) = Fault OutOfBounds.
Proof.
  intros Hinv Hd Hn Hi Hb Hc H1 H2 H3.
  destruct (init_exception_spec mem H1 H2 H3) as (mem' & Hmem & Hgen & Htlb).
  destruct init_screen_boot as (scr & Hscr & Hbounds).
  destruct (remount_spec s T blk s0 junk Hinv Hd Hn Hi Hb Hc) as (f & Hf & Hinv' & _ & _ & _ & _ & Hcwd).
  set (ds := d_tdes0 <$> descs net : gmap addr Z).
  set (log1 := [Printk (str "> [INIT] Interrupt processing initialization succeeded." ++ [10; 0]) [];
    Printk (str "> [INIT] System call initialized successfully." ++ [10; 0]) []]).
  set (log2 := log1 ++ [Printk (str "> [INIT] Priority ready queue initialized successfully." ++ [10; 0]) []]).
  destruct (init_pcb_spec ds exit shell log2) as (t & Ht & Hbt).
  destruct (init_pcb_cursor _ _ _ _ _ Ht) as [Hx Hy].
  pose proof (_start_steps (power_on mem (s0 <| disk := disk s |>) net uart) mem' syscall_table
    (boot_kstate ds (-1) log1) (t <| last_sel_index := -1 |>) scr f Hmem syscall_table_Ok) as Hrun.
  cbv zeta in Hrun. specialize (Hrun (init_pready_queue_boot ds (-1) log1)).
  match type of Hrun with ?P → _ => assert P as Hpcb end.
  { transitivity (init_pcb exit shell (boot_kstate ds (-1) log2)); [reflexivity|].
    rewrite init_pcb_last, Ht. reflexivity. }
  specialize (Hrun Hpcb).
  match type of Hrun with ?P → _ => assert P as Hscr' end.
  { transitivity (init_screen (screen_move_cursor (Kstate.screen_cursor_x t)
      (Kstate.screen_cursor_y t) boot_screen)); [reflexivity|]. rewrite Hx, Hy. exact Hscr. }
  specialize (Hrun Hscr' Hf). eexists. split; [exact Hrun|].
  split; [reflexivity|]. split; [reflexivity|]. split; [exact Hgen|]. split; [exact Htlb|].
  split; [exact Hbounds|]. split; [exact Hinv'|]. split; [exact Hcwd|].
  split; [exact (booted_last _ _ _ _ (-1) Hbt)|]. reflexivity.
Qed.
End theorems.

Lemma boot_correct_witness :
  ∃ (s : fs memdisk) (m : machine memdisk),
    fs_inv s {[ 0 := dots 0 0 ]} (λ _, 0) ∧
    _start 0xa0801000 0xa0802000 7 9 (fill BLOCK_SIZE 0)
      (power_on (λ a, a mod 256) (boot_fs <| disk := disk s |>) (Net ∅ (λ _, 0) []) []) = Ok m ∧
    m_int m = true ∧ m_mem m 0x80000184 = 4 ∧ fs_inv (k_fs (m_kernel m)) {[ 0 := dots 0 0 ]} (λ _, 0).
Proof.
  destruct made_fs as (s & Hinv & _).
  destruct (boot_correct 0xa0801000 0xa0802000 7 9 (fill BLOCK_SIZE 0) (λ a, a mod 256) s
    {[ 0 := dots 0 0 ]} (λ _, 0) boot_fs (Net ∅ (λ _, 0) []) [])
    as (m & Hm & Hint & _ & Hgen & _ & _ & Hfs & _).
  - exact Hinv.
  - reflexivity.
  - apply Nat2Z.inj. rewrite (ok_nodes _ (fi_ok _ _ _ Hinv)). by apply length_fill.
  - by apply length_fill.
  - by apply length_fill.
  - apply Nat2Z.inj_le. unfold boot_fs. cbn [cwd_str]. rewrite length_fill; lia.
  - left. apply Z.leb_le. reflexivity.
  - left. apply Z.leb_le. reflexivity.
  - left. apply Z.leb_le. reflexivity.
  - exists s, m. split; [exact Hinv|]. split; [exact Hm|]. split; [exact Hint|].
    split; [exact (Hgen 4 ltac:(split; [apply Z.leb_le|]; reflexivity))|exact Hfs].
Defined.
