(* ===== verification/Image.v ===== *)
(** * The disk image: [tools/createimage.c] and [arch/mips/boot/bootblock.S]

    The host program that joins the boot block and the kernel into an image, and
    the boot block that loads the kernel from it.  The program runs on the host:
    files are byte strings by name, and the functions of <stdio.h> and the
    structures of <elf.h> (little-endian) are modelled as the C library and the
    ELF format define them. *)

From S2P Require Import Prelude CString Printk FsLayout.

(** ** Files *)

Record host := Host { contents_of : gmap bytes bytes; stdout : list (bytes * list arg) }.

(** An open file: its name and the position. *)
Record FILE := File { f_name : bytes; f_pos : Z }.

Definition content (f : FILE) (h : host) : bytes := default [] (contents_of h !! f_name f).

Definition fopen_read (name : bytes) (h : host) : option FILE :=
  match contents_of h !! name with Some _ => Some (File name 0) | None => None end.

(** Mode w+: the file is created or truncated. *)
Definition fopen_create (name : bytes) (h : host) : FILE * host :=
  (File name 0, Host (<[name := []]> (contents_of h)) (stdout h)).

Definition fseek (pos : Z) (f : FILE) : FILE := File (f_name f) pos.

(** Up to [n] bytes go to the start of [buff]; the second result is their number. *)
Definition fread (buff : bytes) (n : Z) (f : FILE) (h : host) : outcome (bytes * Z * FILE) :=
  let c := content f h in
  let got := take (Z.to_nat (n `min` Z.of_nat (length c))) (drop (Z.to_nat (f_pos f)) c) in
  buff ← put buff 0 got;
  Ok (buff, Z.of_nat (length got), fseek (f_pos f + Z.of_nat (length got)) f).

Definition fwrite (data : bytes) (f : FILE) (h : host) : FILE * host :=
  let c := content f h in
  let p := Z.to_nat (f_pos f) in
  let c' := take p c ++ replicate (p - length c) 0 ++ data ++ drop (p + length data) c in
  (fseek (f_pos f + Z.of_nat (length data)) f,
   Host (<[f_name f := c']> (contents_of h)) (stdout h)).

Definition say_host (fmt : bytes) (args : list arg) (h : host) : host :=
  Host (contents_of h) (stdout h ++ [(fmt, args)]).

(** ** ELF *)

Definition EHDR_SIZE : Z := 52.    (* sizeof(Elf32_Ehdr) *)
Definition PHDR_SIZE : Z := 32.    (* sizeof(Elf32_Phdr) *)
Definition PT_LOAD : Z := 1.

Definition get16 (b : bytes) (o : Z) : outcome Z := w ← slice b o 2; Ok (FsLayout.word w).

Definition e_phentsize (ehdr : bytes) : outcome Z := get16 ehdr 42.
Definition e_phnum (ehdr : bytes) : outcome Z := get16 ehdr 44.
Definition p_type (phdr : bytes) : outcome Z := get32 phdr 0.
Definition p_offset (phdr : bytes) : outcome Z := get32 phdr 4.
Definition p_vaddr (phdr : bytes) : outcome Z := get32 phdr 8.
Definition p_filesz (phdr : bytes) : outcome Z := get32 phdr 16.
Definition p_memsz (phdr : bytes) : outcome Z := get32 phdr 20.

Section createimage.
(** The content of uninitialised memory, and what [free] leaves of a block. *)
Context (garbage : Z → Z) (freed : bytes → bytes).
Implicit Types (h : host).

Definition uninit (n : Z) : bytes := map garbage (seqZ 0 n).

(** A negative size is larger than any memory: null. *)
Definition malloc (n : Z) : outcome bytes := if n <? 0 then Fault NullPointer else Ok (uninit n).

(** An [int] that is passed as [size_t]. *)
Definition size_t (n : Z) : Z := n mod 2 ^ 64.

Definition SECTOR_SIZE : Z := 512.
Definition IMAGE_FILE : bytes := str "./image".

(** [tmp + i * _ph_sz] counts in structures. *)
Definition find_load (ph_num ph_sz : Z) (buff2 phdr : bytes) : outcome (bool * bytes) :=
  for_range 0 ph_num (λ i '(found, phdr),
    if found : bool then Ok (found, phdr)
    else
      let tmp := PHDR_SIZE * (i * ph_sz) in
      t ← get32 buff2 tmp;
      if t =? PT_LOAD then p ← slice buff2 tmp PHDR_SIZE; phdr ← put phdr 0 p; Ok (true, phdr)
      else Ok (false, phdr)) (false, phdr).

Definition read_exec_file (opfile : FILE) h : outcome bytes :=
  '(buff, _, opfile) ← fread (uninit 52) EHDR_SIZE opfile h;
  ph_sz ← e_phentsize buff;
  ph_num ← e_phnum buff;
  let ph_sz_tot := i32 (ph_sz * ph_num) in
  buff2 ← malloc ph_sz_tot;
  '(buff2, _, opfile) ← fread buff2 (size_t ph_sz_tot) opfile h;
  phdr ← malloc ph_sz;
  '(_, phdr) ← find_load ph_num ph_sz buff2 phdr;
  off ← p_offset phdr;
  let read_sz := i32 (i32 off - i32 (EHDR_SIZE + ph_sz_tot)) in
  if read_sz =? 0 then Ok phdr
  else '(_, _, _) ← fread buff (size_t read_sz) opfile h; Ok phdr.

Definition sectors (n : Z) : Z := Z.shiftr n 9 + (if Z.land n 511 =? 0 then 0 else 1).

Definition count_kernel_sectors (phdr : bytes) : outcome Z :=
  fsz ← p_memsz phdr; Ok (sectors fsz).

Definition write_bootblock (image file : FILE) (phdr : bytes) h : outcome host :=
  off ← p_offset phdr;
  sz ← p_memsz phdr;
  '(buff, _, _) ← fread (replicate 517 0) (size_t (i32 sz)) (fseek off file) h;
  Ok (fwrite (take 512 buff) (fseek 0 image) h).2.

(** [memset] has the size of the type of its size for a size: 8. *)
Definition write_kernel (image knfile : FILE) (phdr : bytes) (kernelsz : Z) h : outcome host :=
  sec_cnt ← count_kernel_sectors phdr;
  buff ← malloc (i32 (sec_cnt * 512));
  buff ← memset buff 0 8;
  off ← p_offset phdr;
  '(buff, _, _) ← fread buff (size_t (i32 kernelsz)) (fseek off knfile) h;
  Ok (fwrite buff (fseek 512 image) h).2.

(** [fuel] bounds the words of the image. *)
Fixpoint record_loop (fuel : nat) (os_sz byte_cnt : Z) (buf : bytes) (image : FILE) h : outcome host :=
  match fuel with
  | O => OutOfFuel
  | S fuel =>
      '(buf, n, image) ← fread buf 4 image h;
      if negb (n =? 4) then Ok h
      else
        let byte_cnt := byte_cnt + 4 in
        let image := fseek (f_pos image - 4) image in
        let '(image, h) := fwrite (if byte_cnt =? 512 then le32 os_sz else take 4 buf) image h in
        record_loop fuel os_sz byte_cnt buf image h
  end.

Definition record_kernel_sectors (image : FILE) (kernelsz : Z) h : outcome host :=
  let os_sz := i32 (i32 (sectors kernelsz) * 512) in
  record_loop (S (length (content image h))) (u32 os_sz) 0 (uninit 4 ++ [0]) (fseek 0 image) h.

Definition extent_opt (phdr_bb phdr_k : bytes) h : outcome host :=
  let line fmt v := say_host (9 :: str fmt ++ [10; 0]) [ArgInt v] in
  o ← p_offset phdr_bb; f ← p_filesz phdr_bb; m ← p_memsz phdr_bb; v ← p_vaddr phdr_bb;
  o' ← p_offset phdr_k; f' ← p_filesz phdr_k; m' ← p_memsz phdr_k; v' ← p_vaddr phdr_k;
  n ← count_kernel_sectors phdr_k;
  let h := say_host (str "bootblock info:" ++ [10; 0]) [] h in
  let h := line "padding upto 0x%x" (u32 (v + 512)) (line "vaddr: 0x%x" v
    (line "memory size: 0x%x" m (line "file size: 0x%x" f (line "offset: 0x%x" o h)))) in
  let h := say_host (str "kernel info:" ++ [10; 0]) [] h in
  Ok (line "padding upto 0x%x" (u32 (v' + 512 * n)) (line "vaddr: 0x%x" v'
    (line "memory size: 0x%x" m' (line "file size: 0x%x" f' (line "offset: 0x%x" o' h))))).

(** [error] ends the program with status -1. *)
Definition EXIT_ERROR : Z := -1.

(** The first result is the exit status when the program ends inside.  The size
    is read from the header after [free]. *)
Definition create_image (extended : bool) (btblk_name kernel_name : bytes) h :
    outcome (option Z * host) :=
  let btblk_file := fopen_read btblk_name h in
  let kernel_file := fopen_read kernel_name h in
  let '(image_file, h) := fopen_create IMAGE_FILE h in
  match btblk_file, kernel_file with
  | Some btblk_file, Some kernel_file =>
      kn_phdr ← read_exec_file kernel_file h;
      bb_phdr ← read_exec_file btblk_file h;
      h ← write_bootblock image_file btblk_file bb_phdr h;
      filesz ← p_filesz kn_phdr;
      h ← write_kernel image_file kernel_file kn_phdr filesz h;
      h ← (if extended then extent_opt bb_phdr kn_phdr h else Ok h);
      memsz ← p_memsz (freed kn_phdr);
      image_file ← deref (fopen_read IMAGE_FILE h);
      h ← record_kernel_sectors image_file (i32 memsz) h;
      Ok (None, h)
  | _, _ =>
      Ok (Some EXIT_ERROR, say_host (str "Wrong file names: %s %s, check and rerun!" ++ [10; 0])
        [ArgStr (btblk_name ++ [0]); ArgStr (kernel_name ++ [0])] h)
  end.

Definition print_usage h : host :=
  say_host (str "Usage: ./createimage[--extended] [--vm] <bootblock> <executable-file> ..." ++ [10; 0]) [] h.

(** The label [bad_para]: the parameters are joined in an array of 256 characters. *)
Definition bad_para (argv : list bytes) h : outcome (Z * host) :=
  let add c '(par, len) := par ← aset par len c; Ok (par, len + 1) in
  r ← for_range 1 (Z.of_nat (length argv)) (λ i r,
    a ← aget argv i;
    s ← read_cstr a;
    r ← foldl (λ r c, r ← r; add c r) (Ok r) s;
    add 32 r) (uninit 256, 0);
  '(par, _) ← add 0 r;
  Ok (EXIT_ERROR, say_host (str "Bad parameters: %s" ++ [10; 0]) [ArgStr par] h).

(** One option: whether it is [--extended], or neither known one. *)
Definition parse_option (a : bytes) : outcome (option bool) :=
  r ← strcmp a (cstr "--extended");
  if r =? 0 then Ok (Some true)
  else r ← strcmp a (cstr "--vm"); Ok (if r =? 0 then Some false else None).

Definition run_create (extended : bool) (argv : list bytes) (i : Z) h : outcome (Z * host) :=
  b ← aget argv i; b ← read_cstr b;
  k ← aget argv (i + 1); k ← read_cstr k;
  '(status, h) ← create_image extended b k h;
  Ok (default 0 status, h).

Definition main (argv : list bytes) h : outcome (Z * host) :=
  let argc := Z.of_nat (length argv) in
  if (argc <? 3) || (5 <? argc) then bad_para argv (print_usage h)
  else if argc =? 3 then run_create false argv 1 h
  else
    a ← aget argv 1;
    o1 ← parse_option a;
    match o1 with
    | None => bad_para argv h
    | Some e1 =>
        if argc =? 4 then run_create e1 argv 2 h
        else
          a ← aget argv 2;
          o2 ← parse_option a;
          match o2 with
          | None => bad_para argv h
          | Some e2 => run_create (e1 || e2) argv 3 h
          end
    end.
End createimage.

(** ** The boot block *)

Definition KERNEL_ADDRESS : Z := 0xa0800200.

(** Reading the SD card. *)
Definition read_sd_card (card : bytes) (o n : Z) : outcome bytes := slice card o n.

(** What it loads at [KERNEL_ADDRESS] before it jumps there: the size is in the
    last word of the first sector. *)
Definition bootblock (card : bytes) : outcome bytes :=
  w ← read_sd_card card 508 4;
  read_sd_card card 0x200 (FsLayout.word w).

(** ** Files that are read and written *)

(** The host with another content of one file. *)
Definition with_file (name c : bytes) (h : host) : host :=
  Host (<[name := c]> (contents_of h)) (stdout h).

Lemma content_with_file f c h : content f (with_file (f_name f) c h) = c.
Proof. unfold content, with_file. cbn. by rewrite lookup_insert_eq. Qed.

Lemma content_with_other f name c h : f_name f ≠ name → content f (with_file name c h) = content f h.
Proof. intros Hne. unfold content, with_file. cbn. by rewrite lookup_insert_ne. Qed.

Lemma with_file_twice name c c' h : with_file name c' (with_file name c h) = with_file name c' h.
Proof. unfold with_file. cbn. by rewrite insert_insert_eq. Qed.

Lemma fread_spec buff n f h got :
  0 ≤ n → got = take (Z.to_nat n) (drop (Z.to_nat (f_pos f)) (content f h)) →
  (length got ≤ length buff)%nat →
  fread buff n f h = Ok (splice buff 0 got, Z.of_nat (length got), fseek (f_pos f + Z.of_nat (length got)) f).
Proof.
  intros Hn Hgot Hl. unfold fread.
  assert (take (Z.to_nat (n `min` Z.of_nat (length (content f h)))) (drop (Z.to_nat (f_pos f)) (content f h)) = got)
    as ->.
  { subst got. destruct (Z.le_gt_cases n (Z.of_nat (length (content f h)))) as [H|H].
    - by rewrite Z.min_l.
    - rewrite Z.min_r by lia. rewrite !take_ge; [done|rewrite length_drop; lia..]. }
  unfold put. rewrite decide_True by lia. done.
Qed.

(** A read of the size of the buffer replaces its content. *)
Lemma splice_all (b got : bytes) : length got = length b → splice b 0 got = got.
Proof.
  intros Hl. unfold splice. rewrite drop_ge by lia. by rewrite app_nil_r.
Qed.

Lemma fwrite_inside data f h c :
  content f h = c → 0 ≤ f_pos f → f_pos f + Z.of_nat (length data) ≤ Z.of_nat (length c) →
  fwrite data f h =
    (fseek (f_pos f + Z.of_nat (length data)) f, with_file (f_name f) (splice c (f_pos f) data) h).
Proof.
  intros Hc Hp Hl. unfold fwrite, with_file, splice. rewrite Hc.
  replace (Z.to_nat (f_pos f) - length c)%nat with 0%nat by lia. done.
Qed.

Lemma fwrite_end data f h c :
  content f h = c → f_pos f = Z.of_nat (length c) →
  fwrite data f h =
    (fseek (f_pos f + Z.of_nat (length data)) f, with_file (f_name f) (c ++ data) h).
Proof.
  intros Hc Hp. unfold fwrite, with_file. rewrite Hc, Hp, Nat2Z.id, Nat.sub_diag, firstn_all.
  rewrite drop_ge by lia. by rewrite app_nil_r.
Qed.

(** Writing back what was read. *)
Lemma splice_same (c : bytes) p (n : nat) :
  0 ≤ p → p + Z.of_nat n ≤ Z.of_nat (length c) → splice c p (take n (drop (Z.to_nat p) c)) = c.
Proof.
  intros Hp Hn. unfold splice. rewrite length_take, length_drop, Nat.min_l by lia.
  rewrite <- (drop_drop c n (Z.to_nat p)), take_drop. apply take_drop.
Qed.

(** ** The size of the kernel in the image *)

Lemma content_stored f h c : contents_of h !! f_name f = Some c → content f h = c.
Proof. intros Hc. unfold content. by rewrite Hc. Qed.

Lemma with_file_same name c h : contents_of h !! name = Some c → with_file name c h = h.
Proof. intros Hc. unfold with_file. rewrite insert_id by done. by destruct h. Qed.

(** One word: it is written back, except for the last word of the first sector. *)
Definition recorded (os_sz : Z) (c : bytes) (k : nat) : bytes :=
  if decide (k = 127%nat) then splice c 508 (le32 os_sz) else c.

Lemma record_step os_sz (k : nat) buf image h c :
  contents_of h !! f_name image = Some c → (4 * S k ≤ length c)%nat → f_pos image = 4 * Z.of_nat k →
  length buf = 5%nat →
  ∃ buf', length buf' = 5%nat ∧ ∀ fuel,
  record_loop (S fuel) os_sz (4 * Z.of_nat k) buf image h =
    record_loop fuel os_sz (4 * Z.of_nat (S k)) buf' (fseek (4 * Z.of_nat (S k)) image)
      (with_file (f_name image) (recorded os_sz c k) h).
Proof.
  intros Hc Hl Hp Hbuf. set (got := take 4 (drop (Z.to_nat (4 * Z.of_nat k)) c)).
  assert (Hgot : length got = 4%nat) by (unfold got; rewrite length_take, length_drop; lia).
  assert (Heq : got = take 4 (drop (Z.to_nat (4 * Z.of_nat k)) c)) by reflexivity. clearbody got.
  exists (splice buf 0 got). split; [rewrite length_splice; lia|]. intros fuel. cbn [record_loop].
  rewrite (fread_spec buf 4 image h got); [|lia| |lia].
  2:{ rewrite (content_stored image h c Hc), Hp. exact Heq. }
  rewrite bind_Ok, Hgot. change (Z.of_nat 4 =? 4) with true. cbn [negb]. cbv zeta.
  assert (Hcase : (4 * Z.of_nat k + 4 =? 512) = bool_decide (k = 127%nat)).
  { destruct (Z.eqb_spec (4 * Z.of_nat k + 4) 512); case_bool_decide; lia. }
  rewrite Hcase. assert (Htake : take 4 (splice buf 0 got) = got).
  { unfold splice. change (take (Z.to_nat 0) buf) with (@nil Z). cbn [app].
    rewrite take_app_le by lia. by rewrite take_ge by lia. }
  rewrite Htake. set (data := if bool_decide (k = 127%nat) then le32 os_sz else got).
  assert (Hdata : length data = 4%nat) by (unfold data; case_bool_decide; done).
  rewrite (fwrite_inside data _ h c); cbn [fseek f_pos f_name]; [|exact (content_stored image h c Hc)|lia|lia].
  rewrite Hdata, Hp. 
  replace (4 * Z.of_nat k + Z.of_nat 4 - 4) with (4 * Z.of_nat k) by lia.
  replace (4 * Z.of_nat k + Z.of_nat 4) with (4 * Z.of_nat (S k)) by lia.
  replace (4 * Z.of_nat k + 4) with (4 * Z.of_nat (S k)) by lia.
  do 2 f_equal. unfold recorded, data. case_bool_decide as Hk; [subst k; by rewrite decide_True|].
  rewrite decide_False by done. rewrite Heq. apply splice_same; lia.
Qed.

Lemma record_loop_spec os_sz m : ∀ (k : nat) fuel buf image h c,
  contents_of h !! f_name image = Some c → length c = (4 * (k + m))%nat →
  f_pos image = 4 * Z.of_nat k → (m < fuel)%nat → length buf = 5%nat →
  record_loop fuel os_sz (4 * Z.of_nat k) buf image h =
    Ok (with_file (f_name image)
      (if decide (k ≤ 127 < k + m)%nat then splice c 508 (le32 os_sz) else c) h).
Proof.
  induction m as [|m IH]; intros k fuel buf image h c Hc Hl Hp Hfuel Hbuf.
  - destruct fuel as [|fuel]; [lia|]. cbn [record_loop].
    rewrite (fread_spec buf 4 image h []); [|lia| |cbn; lia].
    2:{ rewrite (content_stored image h c Hc), Hp, drop_ge by lia. done. }
    rewrite bind_Ok. change (Z.of_nat (length []) =? 4) with false. cbn [negb].
    rewrite decide_False by lia. by rewrite with_file_same.
  - destruct fuel as [|fuel]; [lia|].
    destruct (record_step os_sz k buf image h c Hc ltac:(lia) Hp Hbuf) as (buf' & Hbuf' & ->).
    assert (Hlr : length (recorded os_sz c k) = length c).
    { unfold recorded. case_decide; [|done]. rewrite length_splice; [done|lia|]. change (length (le32 os_sz)) with 4%nat. lia. }
    rewrite (IH (S k) fuel buf' _ _ (recorded os_sz c k)); cbn [fseek f_name f_pos].
    + f_equal. rewrite with_file_twice. f_equal. unfold recorded.
      destruct (decide (k = 127%nat)) as [->|Hk].
      * rewrite decide_False, decide_True by lia. done.
      * destruct (decide (S k ≤ 127 < S k + m)%nat), (decide (k ≤ 127 < k + S m)%nat); (done || lia).
    + cbn. by rewrite lookup_insert_eq.
    + lia.
    + done.
    + lia.
    + done.
Qed.

(** ** Executable files *)

Lemma slice_take (c : bytes) (m : nat) o n :
  o + n ≤ Z.of_nat m → slice (take m c) o n = slice c o n.
Proof.
  intros Hm. unfold slice. rewrite length_take.
  destruct (decide (0 ≤ o ∧ 0 ≤ n ∧ o + n ≤ Z.of_nat (m `min` length c))) as [H|H].
  - rewrite decide_True by lia. f_equal. rewrite skipn_firstn_comm, take_take. f_equal. lia.
  - rewrite decide_False by lia. done.
Qed.

Lemma slice_drop (c : bytes) (m : nat) o n :
  0 ≤ o → (m ≤ length c)%nat → slice (drop m c) o n = slice c (Z.of_nat m + o) n.
Proof.
  intros Ho Hm. unfold slice. rewrite length_drop.
  destruct (decide (0 ≤ o ∧ 0 ≤ n ∧ o + n ≤ Z.of_nat (length c - m))) as [H|H].
  - rewrite decide_True by lia. rewrite drop_drop. do 3 f_equal. lia.
  - rewrite decide_False by lia. done.
Qed.

Lemma get32_take (c : bytes) (m : nat) o : o + 4 ≤ Z.of_nat m → get32 (take m c) o = get32 c o.
Proof. intros. unfold get32. by rewrite slice_take. Qed.

Lemma uninit_length garbage n : 0 ≤ n → Z.of_nat (length (uninit garbage n)) = n.
Proof. intros. unfold uninit. rewrite length_map, length_seqZ. lia. Qed.

(** An executable whose first program header is the segment to load, and follows
    the header of the file; the segment starts at most 52 bytes behind the table. *)
Record exec_file (c phdr : bytes) (off filesz memsz : Z) : Prop := {
  ex_size : Z.of_nat (length c) < 2 ^ 31;
  ex_phentsize : e_phentsize c = Ok 32;
  ex_phnum : ∃ num, e_phnum c = Ok num ∧ 1 ≤ num ∧ 52 + 32 * num ≤ off ≤ 52 + 32 * num + 52;
  ex_phdr : slice c 52 32 = Ok phdr;
  ex_type : p_type phdr = Ok PT_LOAD;
  ex_offset : p_offset phdr = Ok off;
  ex_filesz : p_filesz phdr = Ok filesz;
  ex_memsz : p_memsz phdr = Ok memsz;
  ex_segment : 0 ≤ filesz ∧ off + filesz ≤ Z.of_nat (length c);
}.

Lemma find_load_first num ph_sz buff2 x p phdr :
  1 ≤ num → get32 buff2 0 = Ok PT_LOAD → slice buff2 0 PHDR_SIZE = Ok p → put x 0 p = Ok phdr →
  find_load num ph_sz buff2 x = Ok (true, phdr).
Proof.
  intros Hn Ht Hp Hput. unfold find_load. rewrite for_range_cons by lia.
  rewrite Z.mul_0_l, Z.mul_0_r, Ht, bind_Ok. change (PT_LOAD =? PT_LOAD) with true. cbn iota.
  rewrite Hp, bind_Ok, Hput, !bind_Ok.
  set (body := λ (i : Z) '((found, phdr) : bool * bytes), _).
  destruct (for_range_inv (λ _ r, r = (true, phdr)) 1 num body (true, phdr)) as (r & Hr & ->);
    [lia|done| |exact Hr].
  intros i r _ ->. by eexists.
Qed.

Section theorems.
Context (garbage : Z → Z) (freed : bytes → bytes).

(** Up to the last read, of what lies between the table and the segment. *)
Lemma read_exec_file_eq name h c phdr num off :
  contents_of h !! name = Some c → Z.of_nat (length c) < 2 ^ 31 → e_phentsize c = Ok 32 →
  e_phnum c = Ok num → 1 ≤ num → slice c 52 32 = Ok phdr → p_type phdr = Ok PT_LOAD →
  p_offset phdr = Ok off → 52 + 32 * num ≤ off → off ≤ Z.of_nat (length c) →
  read_exec_file garbage (File name 0) h =
    if off - (52 + 32 * num) =? 0 then Ok phdr
    else '(_, _, _) ← fread (take 52 c) (off - (52 + 32 * num)) (File name (52 + 32 * num)) h; Ok phdr.
Proof.
  intros Hc Hsz Hent Hnum Hn1 Hphdr Htype Hpoff Hoff Hseg. unfold read_exec_file.
  assert (Hcont : ∀ p, content (File name p) h = c) by (intros p; by apply content_stored).
  assert (Hl : 52 + 32 * num ≤ Z.of_nat (length c)) by lia.
  rewrite (fread_spec _ _ _ _ (take 52 c)); [|done|by rewrite Hcont, drop_0|].
  2:{ rewrite length_take. unfold uninit. rewrite length_map, length_seqZ. lia. }
  rewrite bind_Ok, splice_all.
  2:{ rewrite length_take. unfold uninit. rewrite length_map, length_seqZ. lia. }
  unfold e_phentsize, e_phnum, get16 in *.
  rewrite !slice_take by (cbn; lia).
  rewrite Hent, bind_Ok, Hnum, bind_Ok.
  assert (Htot : i32 (32 * num) = 32 * num) by (apply i32_small; lia). rewrite Htot.
  unfold malloc. rewrite (proj2 (Z.ltb_ge (32 * num) 0)), bind_Ok by lia.
  assert (Hst : size_t (32 * num) = 32 * num) by (apply Z.mod_small; lia). rewrite Hst.
  set (table := take (Z.to_nat (32 * num)) (drop 52 c)).
  assert (Hlt : Z.of_nat (length table) = 32 * num)
    by (unfold table; rewrite length_take, length_drop; lia).
  assert (Hlc : (length (take 52 c) = 52)%nat) by (rewrite length_take; lia).
  rewrite (fread_spec _ _ _ _ table); [|lia| |].
  2:{ rewrite (content_stored _ h c) by exact Hc. cbn [f_pos fseek]. by rewrite Hlc. }
  2:{ pose proof (uninit_length garbage (32 * num) ltac:(lia)). lia. }
  rewrite bind_Ok, splice_all by (pose proof (uninit_length garbage (32 * num) ltac:(lia)); lia).
  change (32 <? 0) with false. cbn iota. rewrite bind_Ok.
  assert (Hslice : slice table 0 PHDR_SIZE = Ok phdr).
  { unfold table. rewrite slice_take by (unfold PHDR_SIZE; lia).
    rewrite slice_drop by lia. exact Hphdr. }
  assert (Hlp : length phdr = 32%nat).
  { apply slice_Ok in Hphdr as [Hb ->]. rewrite length_take, length_drop. lia. }
  pose proof (uninit_length garbage 32 ltac:(lia)) as Hu.
  rewrite (find_load_first num 32 table (uninit garbage 32) phdr phdr); [|done| |done|].
  2:{ unfold get32. unfold table. rewrite slice_take, slice_drop by lia.
      unfold p_type, get32 in Htype. apply slice_Ok in Hphdr as [Hb ->].
      rewrite slice_take, slice_drop in Htype by lia. exact Htype. }
  2:{ unfold put. rewrite decide_True by lia. rewrite splice_all by lia. done. }
  rewrite bind_Ok, Hpoff, bind_Ok. unfold EHDR_SIZE.
  rewrite (i32_small off), (i32_small (52 + 32 * num)) by lia. rewrite i32_small by lia. cbv zeta.
  assert (Hst' : size_t (off - (52 + 32 * num)) = off - (52 + 32 * num)) by (apply Z.mod_small; lia).
  rewrite Hst', Hlc, Hlt. done.
Qed.

Lemma read_exec_file_spec name h c phdr off filesz memsz :
  contents_of h !! name = Some c → exec_file c phdr off filesz memsz →
  read_exec_file garbage (File name 0) h = Ok phdr.
Proof.
  intros Hc [Hsz Hent (num & Hnum & Hn1 & Hoff) Hphdr Htype Hpoff _ _ Hseg].
  rewrite (read_exec_file_eq name h c phdr num off) by (done || lia).
  destruct (Z.eqb_spec (off - (52 + 32 * num)) 0) as [|Hgap]; [done|].
  erewrite fread_spec; [done|lia|reflexivity|]. rewrite !length_take. lia.
Qed.

(** The bytes between the table of program headers and the segment are read into
    the 52 bytes of the header: a segment that starts more than 52 bytes behind
    the table, as one aligned to a page does, overflows them. *)
Theorem read_exec_file_overflow name h c phdr num off :
  contents_of h !! name = Some c → Z.of_nat (length c) < 2 ^ 31 → e_phentsize c = Ok 32 →
  e_phnum c = Ok num → 1 ≤ num → slice c 52 32 = Ok phdr → p_type phdr = Ok PT_LOAD →
  p_offset phdr = Ok off → 52 + 32 * num + 52 < off → off ≤ Z.of_nat (length c) →
  read_exec_file garbage (File name 0) h = Fault OutOfBounds.
Proof.
  intros Hc Hsz Hent Hnum Hn1 Hphdr Htype Hpoff Hoff Hseg.
  rewrite (read_exec_file_eq name h c phdr num off) by (done || lia).
  rewrite (proj2 (Z.eqb_neq _ 0)) by lia. unfold fread. rewrite (content_stored _ h c) by exact Hc.
  unfold put. rewrite decide_False; [done|]. rewrite !length_take, length_drop. cbn [f_pos]. lia.
Qed.

Lemma sectors_spec n : 0 ≤ n → n ≤ 512 * sectors n < n + 512.
Proof.
  intros Hn. unfold sectors. rewrite Z.shiftr_div_pow2 by lia.
  change 511 with (Z.ones 9). rewrite Z.land_ones by lia. change (2 ^ 9) with 512.
  pose proof (Z.div_mod n 512 ltac:(lia)). pose proof (Z.mod_pos_bound n 512 ltac:(lia)).
  destruct (Z.eqb_spec (n mod 512) 0); lia.
Qed.

(** The segment of [n] bytes at [off], and what follows it in an array. *)
Definition segment (c : bytes) (off n : Z) : bytes := take (Z.to_nat n) (drop (Z.to_nat off) c).
Definition over (b got : bytes) : bytes := got ++ drop (length got) b.

Lemma splice_over b got : splice b 0 got = over b got.
Proof. done. Qed.

Lemma over_length b got : (length got ≤ length b)%nat → length (over b got) = length b.
Proof. intros. unfold over. rewrite length_app, length_drop. lia. Qed.

(** The first sector: the boot block's segment, and zeros. *)
Definition boot_sector (c : bytes) (off memsz : Z) : bytes :=
  take 512 (over (replicate 517 0) (segment c off memsz)).

Lemma boot_sector_length c off memsz :
  0 ≤ memsz ≤ 517 → length (boot_sector c off memsz) = 512%nat.
Proof.
  intros Hm. unfold boot_sector. rewrite length_take, over_length; [done|].
  unfold segment. rewrite length_take, length_drop, length_replicate. lia.
Qed.

(** The sectors of the kernel: its segment, and behind it what the block of
    memory held, of which the first 8 bytes are cleared. *)
Definition kernel_sectors (c : bytes) (off filesz memsz : Z) : bytes :=
  over (over (uninit garbage (512 * sectors memsz)) (replicate 8 0)) (segment c off filesz).

Lemma kernel_sectors_length c off filesz memsz :
  1 ≤ memsz → filesz ≤ memsz →
  Z.of_nat (length (kernel_sectors c off filesz memsz)) = 512 * sectors memsz.
Proof.
  intros Hm Hf. pose proof (sectors_spec memsz ltac:(lia)) as Hs.
  pose proof (uninit_length garbage (512 * sectors memsz) ltac:(lia)) as Hu.
  assert (Ho : length (over (uninit garbage (512 * sectors memsz)) (replicate 8 0)) =
    length (uninit garbage (512 * sectors memsz))) by (apply over_length; rewrite length_replicate; lia).
  unfold kernel_sectors. rewrite over_length; [lia|].
  unfold segment. rewrite length_take, length_drop. lia.
Qed.

Lemma write_bootblock_spec name h c phdr off filesz memsz :
  contents_of h !! name = Some c → contents_of h !! IMAGE_FILE = Some [] →
  exec_file c phdr off filesz memsz → 0 ≤ memsz ≤ 517 →
  write_bootblock (File IMAGE_FILE 0) (File name 0) phdr h =
    Ok (with_file IMAGE_FILE (boot_sector c off memsz) h).
Proof.
  intros Hc Hi He Hm. unfold write_bootblock.
  destruct (ex_phnum _ _ _ _ _ He) as (num & _ & Hnum & Hoff).
  rewrite (ex_offset _ _ _ _ _ He), bind_Ok, (ex_memsz _ _ _ _ _ He), bind_Ok.
  rewrite i32_small by lia. unfold size_t. rewrite Z.mod_small by lia.
  rewrite (fread_spec _ _ _ _ (segment c off memsz)); [|lia| |].
  2:{ rewrite (content_stored _ h c) by exact Hc. done. }
  2:{ unfold segment. rewrite length_take, length_drop, length_replicate. lia. }
  rewrite bind_Ok, splice_over.
  rewrite (fwrite_end _ _ _ []); [done|by apply content_stored|done].
Qed.

Lemma write_kernel_spec name h c phdr off filesz memsz image :
  contents_of h !! name = Some c → contents_of h !! IMAGE_FILE = Some image →
  length image = 512%nat → exec_file c phdr off filesz memsz →
  1 ≤ memsz < 2 ^ 31 - 512 → filesz ≤ memsz →
  write_kernel garbage (File IMAGE_FILE 0) (File name 0) phdr filesz h =
    Ok (with_file IMAGE_FILE (image ++ kernel_sectors c off filesz memsz) h).
Proof.
  intros Hc Hi Hl He Hm Hf. unfold write_kernel, count_kernel_sectors.
  destruct (ex_phnum _ _ _ _ _ He) as (num & _ & Hnum & Hoff).
  destruct (ex_segment _ _ _ _ _ He) as [Hf0 Hseg].
  pose proof (sectors_spec memsz ltac:(lia)) as Hs.
  pose proof (uninit_length garbage (512 * sectors memsz) ltac:(lia)) as Hu.
  rewrite (ex_memsz _ _ _ _ _ He), !bind_Ok. rewrite (Z.mul_comm (sectors memsz)).
  rewrite (i32_small (512 * sectors memsz)), (i32_small filesz) by lia. unfold malloc.
  rewrite (proj2 (Z.ltb_ge (512 * sectors memsz) 0)), bind_Ok by lia.
  rewrite memset_spec, bind_Ok by lia. rewrite (ex_offset _ _ _ _ _ He), bind_Ok.
  unfold size_t. rewrite Z.mod_small by lia.
  change (replicate (Z.to_nat 8) (u8 0)) with (replicate 8 0). rewrite splice_over.
  assert (Ho : length (over (uninit garbage (512 * sectors memsz)) (replicate 8 0)) =
    length (uninit garbage (512 * sectors memsz))) by (apply over_length; rewrite length_replicate; lia).
  rewrite (fread_spec _ _ _ _ (segment c off filesz)); [|lia| |].
  2:{ rewrite (content_stored _ h c) by exact Hc. done. }
  2:{ unfold segment. rewrite length_take, length_drop. lia. }
  rewrite bind_Ok, splice_over.
  rewrite (fwrite_end _ _ _ image); [done|by apply content_stored|by rewrite Hl].
Qed.

Lemma record_kernel_sectors_spec h c memsz :
  contents_of h !! IMAGE_FILE = Some c → 1 ≤ memsz < 2 ^ 31 - 512 →
  Z.of_nat (length c) = 512 + 512 * sectors memsz →
  record_kernel_sectors garbage (File IMAGE_FILE 0) (i32 memsz) h =
    Ok (with_file IMAGE_FILE (splice c 508 (le32 (512 * sectors memsz))) h).
Proof.
  intros Hc Hm Hl. pose proof (sectors_spec memsz ltac:(lia)) as Hs. unfold record_kernel_sectors.
  rewrite (i32_small memsz), (i32_small (sectors memsz)), (Z.mul_comm (sectors memsz)) by lia.
  rewrite (i32_small (512 * sectors memsz)), u32_small by lia.
  rewrite (content_stored _ h c) by exact Hc.
  rewrite (record_loop_spec _ (Z.to_nat (128 + 128 * sectors memsz)) 0 _ _ _ h c);
    [|exact Hc|lia|done|lia|reflexivity].
  rewrite decide_True by lia. done.
Qed.

(** The image of a boot block and a kernel. *)
Definition image_of (boot : bytes) (boff bmemsz : Z) (kern : bytes) (off filesz memsz : Z) : bytes :=
  splice (boot_sector boot boff bmemsz ++ kernel_sectors kern off filesz memsz) 508
    (le32 (512 * sectors memsz)).

Lemma phdr_length c phdr off filesz memsz : exec_file c phdr off filesz memsz → length phdr = 32%nat.
Proof.
  intros He. destruct (proj1 (slice_Ok _ _ _ _) (ex_phdr _ _ _ _ _ He)) as [Hr ->].
  rewrite length_take, length_drop. lia.
Qed.

(** The host with more lines on its standard output. *)
Definition said (h : host) (out : list (bytes * list arg)) : host :=
  Host (contents_of h) (stdout h ++ out).

(** The option [--extended] only prints. *)
Lemma extent_opt_spec bphdr phdr :
  length bphdr = 32%nat → length phdr = 32%nat →
  ∃ out, ∀ h, extent_opt bphdr phdr h = Ok (said h out).
Proof.
  assert (Hget : ∀ p o, length p = 32%nat → 0 ≤ o ≤ 28 → ∃ v, get32 p o = Ok v).
  { intros p o Hp Ho. unfold get32, slice. rewrite decide_True by lia. by eexists. }
  intros Hb Hk. unfold extent_opt, count_kernel_sectors, p_offset, p_filesz, p_memsz, p_vaddr.
  destruct (Hget bphdr 4 Hb ltac:(lia)) as [o ->], (Hget bphdr 16 Hb ltac:(lia)) as [f ->],
    (Hget bphdr 20 Hb ltac:(lia)) as [m ->], (Hget bphdr 8 Hb ltac:(lia)) as [v ->],
    (Hget phdr 4 Hk ltac:(lia)) as [o' ->], (Hget phdr 16 Hk ltac:(lia)) as [f' ->],
    (Hget phdr 20 Hk ltac:(lia)) as [m' ->], (Hget phdr 8 Hk ltac:(lia)) as [v' ->].
  eexists. intros h. rewrite !bind_Ok. unfold say_host, said. cbn [contents_of stdout].
  rewrite <- !(assoc_L (++)). reflexivity.
Qed.

Lemma create_image_spec extended h bname kname boot bphdr boff bfilesz bmemsz kern phdr off filesz memsz :
  bname ≠ IMAGE_FILE → kname ≠ IMAGE_FILE →
  contents_of h !! bname = Some boot → contents_of h !! kname = Some kern →
  exec_file boot bphdr boff bfilesz bmemsz → 0 ≤ bmemsz ≤ 512 →
  exec_file kern phdr off filesz memsz → 1 ≤ memsz < 2 ^ 31 - 512 → filesz ≤ memsz →
  p_memsz (freed phdr) = Ok memsz →
  ∃ out, (extended = false → out = []) ∧
    create_image garbage freed extended bname kname h =
      Ok (None, with_file IMAGE_FILE (image_of boot boff bmemsz kern off filesz memsz) (said h out)).
Proof.
  intros Hbn Hkn Hb Hk Hbe Hbm Hke Hm Hf Hfreed.
  assert (∃ out, (extended = false → out = []) ∧
    ∀ h, (if extended then extent_opt bphdr phdr h else Ok h) = Ok (said h out)) as (out & Hout & Hsay).
  { destruct extended.
    - destruct (extent_opt_spec bphdr phdr) as [out Ho]; [| |by exists out].
      + exact (phdr_length _ _ _ _ _ Hbe).
      + exact (phdr_length _ _ _ _ _ Hke).
    - exists []. split; [done|]. intros [c o]. unfold said. cbn. by rewrite app_nil_r. }
  exists out. split; [done|]. unfold create_image, fopen_read, fopen_create.
  rewrite Hb, Hk. cbv zeta. change (Host _ (stdout h)) with (with_file IMAGE_FILE [] h).
  assert (Hname : ∀ n c, n ≠ IMAGE_FILE → contents_of (with_file IMAGE_FILE c h) !! n = contents_of h !! n)
    by (intros n c Hn; cbn; by rewrite lookup_insert_ne).
  assert (Himg : ∀ c h, contents_of (with_file IMAGE_FILE c h) !! IMAGE_FILE = Some c)
    by (intros c h'; cbn; by rewrite lookup_insert_eq).
  rewrite (read_exec_file_spec kname _ kern phdr off filesz memsz), bind_Ok by (by rewrite ?Hname).
  rewrite (read_exec_file_spec bname _ boot bphdr boff bfilesz bmemsz), bind_Ok by (by rewrite ?Hname).
  rewrite (write_bootblock_spec bname _ boot bphdr boff bfilesz bmemsz), bind_Ok, with_file_twice;
    [|by rewrite Hname|apply Himg|done|lia].
  rewrite (ex_filesz _ _ _ _ _ Hke), bind_Ok.
  rewrite (write_kernel_spec kname _ kern phdr off filesz memsz (boot_sector boot boff bmemsz)),
    bind_Ok, with_file_twice; [|by rewrite Hname|apply Himg|apply boot_sector_length; lia|done|lia|done].
  rewrite Hsay, bind_Ok, Hfreed, bind_Ok.
  change (said (with_file IMAGE_FILE ?c h) out) with (with_file IMAGE_FILE c (said h out)).
  rewrite Himg. cbn [deref]. rewrite bind_Ok.
  rewrite (record_kernel_sectors_spec _ _ memsz (Himg _ _)), bind_Ok, with_file_twice; [done|lia|].
  rewrite length_app, boot_sector_length by lia.
  pose proof (kernel_sectors_length kern off filesz memsz ltac:(lia) Hf). lia.
Qed.

Lemma bootblock_loads boot boff bmemsz kern off filesz memsz :
  0 ≤ bmemsz ≤ 512 → 1 ≤ memsz < 2 ^ 31 - 512 → filesz ≤ memsz →
  bootblock (image_of boot boff bmemsz kern off filesz memsz) =
    Ok (kernel_sectors kern off filesz memsz).
Proof.
  intros Hb Hm Hf. pose proof (sectors_spec memsz ltac:(lia)) as Hs.
  pose proof (kernel_sectors_length kern off filesz memsz ltac:(lia) Hf) as Hk.
  pose proof (boot_sector_length boot boff bmemsz ltac:(lia)) as Hbl.
  set (size := 512 * sectors memsz) in *. unfold bootblock, read_sd_card, image_of. fold size.
  change 4 with (Z.of_nat (length (le32 size))) at 1. rewrite slice_splice_eq;
    [|lia|rewrite length_app; change (length (le32 size)) with 4%nat; lia].
  rewrite bind_Ok, word_le32 by lia. change (length (le32 size)) with 4%nat.
  rewrite slice_splice_ne; [|lia|rewrite length_app; change (length (le32 size)) with 4%nat; lia|
    right; change (length (le32 size)) with 4%nat; lia].
  apply slice_Ok. rewrite length_app. split; [lia|].
  rewrite drop_app_length' by lia. by rewrite take_ge by lia.
Qed.

(** An option of the program. *)
Definition is_option (o : bytes) : Prop := o = cstr "--extended" ∨ o = cstr "--vm".

Lemma parse_option_spec o : is_option o → ∃ e, parse_option o = Ok (Some e) ∧ (e = true → o = cstr "--extended").
Proof. intros [-> | ->]; [exists true|exists false]; split; (reflexivity || done). Qed.

(** The command line: up to two options, then the names of the files. *)
Lemma main_options opts argv0 bname kname h :
  Forall is_option opts → (length opts ≤ 2)%nat →
  ∃ e i, main garbage freed (argv0 :: opts ++ [bname; kname]) h =
      run_create garbage freed e (argv0 :: opts ++ [bname; kname]) i h ∧
    (e = true → cstr "--extended" ∈ opts) ∧
    aget (argv0 :: opts ++ [bname; kname]) i = Ok bname ∧
    aget (argv0 :: opts ++ [bname; kname]) (i + 1) = Ok kname.
Proof.
  intros Hopts Hlen. destruct opts as [|o1 [|o2 [|]]]; [| | |simpl in Hlen; lia].
  - by exists false, 1.
  - apply Forall_cons in Hopts as [H1 _]. destruct (parse_option_spec o1 H1) as (e & He & Hx).
    exists e, 2. split; [|split; [intros ->; rewrite (Hx eq_refl); left|done]].
    change (main _ _ _ h) with (o ← parse_option o1; match o with
      | None => bad_para garbage [argv0; o1; bname; kname] h
      | Some e1 => run_create garbage freed e1 [argv0; o1; bname; kname] 2 h end).
    by rewrite He.
  - apply Forall_cons in Hopts as [H1 [H2 _]%Forall_cons].
    destruct (parse_option_spec o1 H1) as (e1 & He1 & Hx1), (parse_option_spec o2 H2) as (e2 & He2 & Hx2).
    exists (e1 || e2), 3. split; [|split; [|done]].
    + change (main _ _ _ h) with (o ← parse_option o1; match o with
        | None => bad_para garbage [argv0; o1; o2; bname; kname] h
        | Some e1 => o ← parse_option o2; match o with
          | None => bad_para garbage [argv0; o1; o2; bname; kname] h
          | Some e2 => run_create garbage freed (e1 || e2) [argv0; o1; o2; bname; kname] 3 h end end).
      by rewrite He1, bind_Ok, He2.
    + intros [-> | ->]%orb_true_iff; [rewrite (Hx1 eq_refl); left|rewrite (Hx2 eq_refl); right; left].
Qed.

(** C33.  Making an image and booting from it: [createimage], given up to two
    options and two executables, ends with status 0 and changes no file but the
    image, and only prints more with [--extended], which the Makefile uses; the
    image starts with the segment of the boot block and holds the size of the
    kernel in the last word of the first sector, so that the boot block loads whole
    sectors whose first bytes are the kernel's segment.  The executables are as in
    [exec_file]: smaller than 2 GB, the first program header is the segment to
    load, and this starts at most 52 bytes behind the table of headers, since
    [read_exec_file] overflows a buffer otherwise ([read_exec_file_overflow]).  The
    boot block's segment takes at most 512 bytes in memory, the kernel's at least
    one and less than 2 GB - 512, and neither has more bytes in the file than in
    memory.  The size is taken from a block after [free], hence the hypothesis that
    its header is still there. *)
Theorem createimage_boots h argv0 opts bname kname boot bphdr boff bfilesz bmemsz kern phdr off filesz memsz :
  Forall is_option opts → (length opts ≤ 2)%nat →
  0 ∉ bname → 0 ∉ kname → bname ≠ IMAGE_FILE → kname ≠ IMAGE_FILE →
  contents_of h !! bname = Some boot → contents_of h !! kname = Some kern →
  exec_file boot bphdr boff bfilesz bmemsz → bfilesz ≤ bmemsz ≤ 512 →
  exec_file kern phdr off filesz memsz → 1 ≤ memsz < 2 ^ 31 - 512 → filesz ≤ memsz →
  p_memsz (freed phdr) = Ok memsz →
  ∃ image loaded out, main garbage freed (argv0 :: opts ++ [bname ++ [0]; kname ++ [0]]) h =
      Ok (0, with_file IMAGE_FILE image (said h out)) ∧
    (cstr "--extended" ∉ opts → out = []) ∧
    bootblock image = Ok loaded ∧ Z.of_nat (length loaded) = 512 * sectors memsz ∧
    take (Z.to_nat filesz) loaded = segment kern off filesz ∧
    take (Z.to_nat (bfilesz `min` 508)) image = segment boot boff (bfilesz `min` 508).
Proof.
  intros Hopts Hlen Hbz Hkz Hbn Hkn Hb Hk Hbe [Hbf Hbm] Hke Hm Hf Hfreed.
  destruct (ex_segment _ _ _ _ _ Hbe) as [Hbf0 Hbseg].
  destruct (ex_segment _ _ _ _ _ Hke) as [Hf0 Hseg].
  destruct (ex_phnum _ _ _ _ _ Hbe) as (? & _ & ? & ?).
  destruct (ex_phnum _ _ _ _ _ Hke) as (? & _ & ? & ?).
  destruct (main_options opts argv0 (bname ++ [0]) (kname ++ [0]) h Hopts Hlen)
    as (e & i & -> & He & Hi & Hi1).
  destruct (create_image_spec e h bname kname boot bphdr boff bfilesz bmemsz kern phdr off filesz memsz)
    as (out & Hout & Hrun); [done..|lia|done|done|done|done|].
  exists (image_of boot boff bmemsz kern off filesz memsz), (kernel_sectors kern off filesz memsz), out.
  split.
  { unfold run_create. rewrite Hi, bind_Ok.
    rewrite (proj2 (read_cstr_Ok _ bname)), bind_Ok by (by apply string_at_app).
    rewrite Hi1, bind_Ok.
    rewrite (proj2 (read_cstr_Ok _ kname)), bind_Ok by (by apply string_at_app).
    by rewrite Hrun. }
  split; [intros Hn; apply Hout; destruct e; [by destruct Hn; apply He|done]|].
  split; [apply bootblock_loads; lia|]. split; [apply kernel_sectors_length; lia|]. split.
  - unfold kernel_sectors, over at 1. rewrite take_app_le, take_ge; [done|..];
      unfold segment; rewrite length_take, length_drop; lia.
  - pose proof (boot_sector_length boot boff bmemsz ltac:(lia)) as Hl.
    unfold image_of, splice. rewrite take_app_le, take_take, Nat.min_l by
      (rewrite ?length_take, ?length_app; lia).
    rewrite take_app_le by lia. unfold boot_sector, over. rewrite take_take, Nat.min_l by lia.
    rewrite take_app_le by (unfold segment; rewrite length_take, length_drop; lia).
    unfold segment. rewrite take_take. f_equal. lia.
Qed.
End theorems.

(** ** Two small executables *)

(** An ELF file with one loadable segment [s] after the header and its table. *)
Definition small_exec (s : bytes) (memsz : Z) : bytes :=
  replicate 42 0 ++ [32; 0; 1; 0] ++ replicate 6 0 ++
  le32 PT_LOAD ++ le32 84 ++ le32 0 ++ le32 0 ++ le32 (Z.of_nat (length s)) ++ le32 memsz ++
  le32 0 ++ le32 0 ++ s.

Definition small_phdr (s : bytes) (memsz : Z) : bytes := take 32 (drop 52 (small_exec s memsz)).

Definition small_host : host :=
  Host {[ str "bootblock" := small_exec [1; 2; 3] 5; str "main" := small_exec [7; 8; 9; 10] 600 ]} [].

Lemma small_boot : exec_file (small_exec [1; 2; 3] 5) (small_phdr [1; 2; 3] 5) 84 3 5.
Proof.
  split; try reflexivity.
  - exists 1. split; [reflexivity|]. split_and!; apply Z.leb_le; reflexivity.
  - split; apply Z.leb_le; reflexivity.
Qed.

Lemma small_kernel : exec_file (small_exec [7; 8; 9; 10] 600) (small_phdr [7; 8; 9; 10] 600) 84 4 600.
Proof.
  split; try reflexivity.
  - exists 1. split; [reflexivity|]. split_and!; apply Z.leb_le; reflexivity.
  - split; apply Z.leb_le; reflexivity.
Qed.

(** As the Makefile calls it. *)
Lemma createimage_boots_witness :
  ∃ image loaded out,
    main (λ _, 77) id [cstr "createimage"; cstr "--extended"; cstr "bootblock"; cstr "main"] small_host =
      Ok (0, with_file IMAGE_FILE image (said small_host out)) ∧
    bootblock image = Ok loaded ∧ Z.of_nat (length loaded) = 1024 ∧
    take 4 loaded = [7; 8; 9; 10] ∧ take 3 image = [1; 2; 3].
Proof.
  assert (Hne : str "bootblock" ≠ IMAGE_FILE ∧ str "main" ≠ IMAGE_FILE)
    by (split; apply (bool_decide_unpack _); vm_compute; exact I).
  destruct (createimage_boots (λ _, 77) id small_host (cstr "createimage") [cstr "--extended"]
    (str "bootblock") (str "main")
    (small_exec [1; 2; 3] 5) (small_phdr [1; 2; 3] 5) 84 3 5
    (small_exec [7; 8; 9; 10] 600) (small_phdr [7; 8; 9; 10] 600) 84 4 600)
    as (image & loaded & out & Hrun & _ & Hboot & Hlen & Hk & Hb).
  - constructor; [by left|constructor].
  - apply Nat.leb_le. reflexivity.
  - vm_compute. set_solver.
  - vm_compute. set_solver.
  - apply Hne.
  - apply Hne.
  - vm_compute. reflexivity.
  - vm_compute. reflexivity.
  - exact small_boot.
  - split; apply Z.leb_le; reflexivity.
  - exact small_kernel.
  - split; [apply Z.leb_le|]; reflexivity.
  - apply Z.leb_le. reflexivity.
  - reflexivity.
  - exists image, loaded, out. split; [exact Hrun|]. split; [exact Hboot|]. split; [exact Hlen|].
    split; [exact Hk|exact Hb].
Defined.
