(* ===== verification/Cpu.v ===== *)
(** * The processor: the instructions that the assembly files use

    The registers that [arch/mips/include/regs.h] names, the instructions of
    [entry.S], of [syscall.S] and of the inline assembly in C functions as the assembler reads them, and their effect on
    the registers, the coprocessor 0, the TLB and memory.  Memory is the bytes of
    the unmapped segments, by address, as in [Memory].  Code is a list of
    routines; a run starts at a label and ends where control leaves the assembly.
    Calls of C functions are a parameter of the run. *)

From S2P Require Import Prelude Kstate Memory.

(** ** Registers *)

Module Regs.
Definition zero : Z := 0.
Definition AT : Z := 1.
Definition v0 : Z := 2.
Definition v1 : Z := 3.
Definition a0 : Z := 4.
Definition a1 : Z := 5.
Definition a2 : Z := 6.
Definition a3 : Z := 7.
Definition t0 : Z := 8.
Definition t1 : Z := 9.
Definition t2 : Z := 10.
Definition t3 : Z := 11.
Definition k0 : Z := 26.
Definition k1 : Z := 27.
Definition gp : Z := 28.
Definition sp : Z := 29.
Definition fp : Z := 30.
Definition ra : Z := 31.

(** The offset of general register [r] in a context: [OFFSET_REG0] to
    [OFFSET_REG31]. *)
Definition OFFSET_REG (r : Z) : Z := 4 * r.
Definition OFFSET_STATUS : Z := 128.
Definition OFFSET_HI : Z := 132.
Definition OFFSET_LO : Z := 136.
Definition OFFSET_BADVADDR : Z := 140.
Definition OFFSET_CAUSE : Z := 144.
Definition OFFSET_EPC : Z := 148.
Definition OFFSET_PC : Z := 152.
Definition OFFSET_SIZE : Z := 156.

Definition CP0_INDEX : Z := 0.
Definition CP0_RANDOM : Z := 1.
Definition CP0_ENTRYLO0 : Z := 2.
Definition CP0_ENTRYLO1 : Z := 3.
Definition CP0_PAGEMASK : Z := 5.
Definition CP0_BADVADDR : Z := 8.
Definition CP0_COUNT : Z := 9.
Definition CP0_ENTRYHI : Z := 10.
Definition CP0_COMPARE : Z := 11.
Definition CP0_STATUS : Z := 12.
Definition CP0_CAUSE : Z := 13.
Definition CP0_EPC : Z := 14.
Definition CP0_CONFIG : Z := 16.
Definition CP0_WATCHLO : Z := 18.
Definition CP0_WATCHHI : Z := 19.
End Regs.
Import Regs.

(** ** The state of the processor *)

Record tlb_entry := TlbEntry {
  te_mask : Z;
  te_hi : Z;
  te_lo0 : Z;
  te_lo1 : Z;
}.

Record cpu := Cpu {
  gpr : Z → Z;
  hi_reg : Z;
  lo_reg : Z;
  cp0 : Z → Z;
  mem : Z → Z;
  tlbs : list tlb_entry;
}.

Definition cpu_eta (s : cpu) : cpu :=
  Cpu (gpr s) (hi_reg s) (lo_reg s) (cp0 s) (mem s) (tlbs s).
#[export] Instance upd_gpr : Update gpr := ltac:(derive_update cpu_eta gpr).
#[export] Instance upd_hi_reg : Update hi_reg := ltac:(derive_update cpu_eta hi_reg).
#[export] Instance upd_lo_reg : Update lo_reg := ltac:(derive_update cpu_eta lo_reg).
#[export] Instance upd_cp0 : Update cp0 := ltac:(derive_update cpu_eta cp0).
#[export] Instance upd_mem : Update mem := ltac:(derive_update cpu_eta mem).
#[export] Instance upd_tlbs : Update tlbs := ltac:(derive_update cpu_eta tlbs).

Definition fupd (k v : Z) (f : Z → Z) : Z → Z := λ x, if x =? k then v else f x.

(** Register 0 reads as 0, and [BadVAddr] cannot be written. *)
Definition rd (s : cpu) (r : Z) : Z := if r =? 0 then 0 else gpr s r.
Definition wr (r v : Z) (s : cpu) : cpu := if r =? 0 then s else s <| gpr ::= fupd r v |>.
Definition wr_cp0 (c v : Z) (s : cpu) : cpu :=
  if c =? CP0_BADVADDR then s else s <| cp0 ::= fupd c v |>.

(** The words that code reaches without the TLB: those of the unmapped segments. *)
Definition word_ok (a : Z) : bool := (2 ^ 31 <=? a) && (a mod 4 =? 0).

Definition lw (a : Z) (s : cpu) : outcome Z :=
  if word_ok a then Ok (load32 (mem s) a) else Fault ProcessorTrap.

Definition sw (a v : Z) (s : cpu) : outcome cpu :=
  if word_ok a then Ok (s <| mem ::= store32 a v |>) else Fault ProcessorTrap.

(** ** The TLB *)

(** Entries are compared on the page pair and, unless global, on the process. *)
Definition te_match (hi : Z) (e : tlb_entry) : bool :=
  let page x := Z.land x (Z.ldiff 0xffffe000 (te_mask e)) in
  (page (te_hi e) =? page hi) &&
  (Z.testbit (Z.land (te_lo0 e) (te_lo1 e)) 0 || (Z.land (te_hi e) 255 =? Z.land hi 255)).

Definition te_find (hi : Z) (l : list tlb_entry) : option nat :=
  fst <$> list_find (λ e, te_match hi e = true) l.

Definition probe (s : cpu) : option nat := te_find (cp0 s CP0_ENTRYHI) (tlbs s).

Definition entry_regs (s : cpu) : tlb_entry :=
  TlbEntry (cp0 s CP0_PAGEMASK) (cp0 s CP0_ENTRYHI) (cp0 s CP0_ENTRYLO0) (cp0 s CP0_ENTRYLO1).

(** [tlbwi] and [tlbwr] write the entry that [Index] or [Random] names. *)
Definition write_entry (c : Z) (s : cpu) : outcome cpu :=
  l ← aset (tlbs s) (Z.land (cp0 s c) 63) (entry_regs s); Ok (s <| tlbs := l |>).

(** ** Instructions *)

Inductive instr :=
  | LW (rt off rs : Z) | SW (rt off rs : Z)
  | LW_sym (rt : Z) (x : string)                   (* lw rt, x *)
  | LA (rt : Z) (x : string)
  | LI (rt imm : Z) | MOVE (rd rs : Z)
  | ADDIU (rt rs imm : Z) | ADD (rd rs rt : Z) | AND (rd rs rt : Z) | OR (rd rs rt : Z)
  | ANDI (rt rs imm : Z) | ORI (rt rs imm : Z)
  | SRL (rd rt sa : Z) | SLL (rd rt sa : Z)
  | MFC0 (rt c : Z) | MTC0 (rt c : Z)
  | MFHI (r : Z) | MFLO (r : Z) | MTHI (r : Z) | MTLO (r : Z)
  | TLBP | TLBR | TLBWI | TLBWR
  | NOP.

(** [add] traps when the signed sum overflows; [tlbp] sets the sign bit of
    [Index] when no entry matches. *)
Definition exec (symbol : string → Z) (i : instr) (s : cpu) : outcome cpu :=
  match i with
  | LW rt off rs => v ← lw (u32 (rd s rs + off)) s; Ok (wr rt v s)
  | SW rt off rs => sw (u32 (rd s rs + off)) (rd s rt) s
  | LW_sym rt x => v ← lw (symbol x) s; Ok (wr rt v s)
  | LA rt x => Ok (wr rt (symbol x) s)
  | LI rt imm => Ok (wr rt (u32 imm) s)
  | MOVE d rs => Ok (wr d (rd s rs) s)
  | ADDIU rt rs imm => Ok (wr rt (u32 (rd s rs + imm)) s)
  | ADD d rs rt =>
      let v := i32 (rd s rs) + i32 (rd s rt) in
      if (- 2 ^ 31 <=? v) && (v <? 2 ^ 31) then Ok (wr d (u32 v) s) else Fault ProcessorTrap
  | AND d rs rt => Ok (wr d (Z.land (rd s rs) (rd s rt)) s)
  | OR d rs rt => Ok (wr d (Z.lor (rd s rs) (rd s rt)) s)
  | ANDI rt rs imm => Ok (wr rt (Z.land (rd s rs) (u32 imm)) s)
  | ORI rt rs imm => Ok (wr rt (Z.lor (rd s rs) (u32 imm)) s)
  | SRL d rt sa => Ok (wr d (Z.shiftr (rd s rt) sa) s)
  | SLL d rt sa => Ok (wr d (u32 (Z.shiftl (rd s rt) sa)) s)
  | MFC0 rt c => Ok (wr rt (cp0 s c) s)
  | MTC0 rt c => Ok (wr_cp0 c (rd s rt) s)
  | MFHI r => Ok (wr r (hi_reg s) s)
  | MFLO r => Ok (wr r (lo_reg s) s)
  | MTHI r => Ok (s <| hi_reg := rd s r |>)
  | MTLO r => Ok (s <| lo_reg := rd s r |>)
  | TLBP => Ok (wr_cp0 CP0_INDEX (match probe s with Some i => Z.of_nat i | None => 2 ^ 31 end) s)
  | TLBR =>
      e ← aget (tlbs s) (Z.land (cp0 s CP0_INDEX) 63);
      Ok (wr_cp0 CP0_PAGEMASK (te_mask e) (wr_cp0 CP0_ENTRYHI (te_hi e)
        (wr_cp0 CP0_ENTRYLO0 (te_lo0 e) (wr_cp0 CP0_ENTRYLO1 (te_lo1 e) s))))
  | TLBWI => write_entry CP0_INDEX s
  | TLBWR => write_entry CP0_RANDOM s
  | NOP => Ok s
  end.

(** ** Code *)

(** The assembler fills the delay slots, so that a branch is followed by the
    next line of the source. *)
Inductive line :=
  | I (i : instr)
  | Label (l : string)
  | BEQ (rs rt : Z) (l : string)
  | BNE (rs rt : Z) (l : string)
  | BEQZ (rs : Z) (l : string)
  | J (l : string)
  | JAL (l : string)
  | JR (r : Z)
  | SYSCALL
  | ERET.

(** How a run ends: by a jump through a register, by the return from an
    exception to an address, or at a [syscall]. *)
Inductive exit :=
  | Jump (a : Z)
  | Resume (a : Z)
  | Trapped (rest : list line).

Fixpoint after_label (l : string) (ls : list line) : option (list line) :=
  match ls with
  | [] => None
  | Label l' :: ls => if decide (l = l') then Some ls else after_label l ls
  | _ :: ls => after_label l ls
  end.

(** The lines from a label on: a routine, or the rest of one. *)
Fixpoint code_at (text : list (string * list line)) (l : string) : outcome (list line) :=
  match text with
  | [] => Fault BadPointer
  | (f, body) :: text =>
      if decide (l = f) then Ok body
      else match after_label l body with Some ls => Ok ls | None => code_at text l end
  end.

(** [eret] ends exception mode, bit 1 of [Status]. *)
Definition leave (s : cpu) : cpu := s <| cp0 ::= fupd CP0_STATUS (Z.ldiff (cp0 s CP0_STATUS) 2) |>.

Section run.
(** Addresses of labels, the routines, and the effect of calling a C function. *)
Context (symbol : string → Z) (text : list (string * list line))
  (call : string → cpu → outcome cpu).

Fixpoint run (fuel : nat) (ls : list line) (s : cpu) : outcome (exit * cpu) :=
  match fuel with
  | O => OutOfFuel
  | S fuel =>
      match ls with
      | [] => Fault BadPointer
      | I i :: ls => s ← exec symbol i s; run fuel ls s
      | Label _ :: ls => run fuel ls s
      | BEQ rs rt l :: ls =>
          if rd s rs =? rd s rt then ls ← code_at text l; run fuel ls s else run fuel ls s
      | BNE rs rt l :: ls =>
          if rd s rs =? rd s rt then run fuel ls s else ls ← code_at text l; run fuel ls s
      | BEQZ rs l :: ls =>
          if rd s rs =? 0 then ls ← code_at text l; run fuel ls s else run fuel ls s
      | J l :: _ => ls ← code_at text l; run fuel ls s
      | JAL f :: ls => s ← call f s; run fuel ls s
      | JR r :: _ => Ok (Jump (rd s r), s)
      | SYSCALL :: ls => Ok (Trapped ls, s)
      | ERET :: _ => Ok (Resume (cp0 s CP0_EPC), leave s)
      end
  end.

Definition start (fuel : nat) (l : string) (s : cpu) : outcome (exit * cpu) :=
  ls ← code_at text l; run fuel ls s.
End run.

(** What the processor does at an exception: the cause is noted, [epc] is the
    instruction that is interrupted, and exception mode is entered. *)
Definition take_exception (code epc : Z) (s : cpu) : cpu :=
  s <| cp0 ::= fupd CP0_EPC epc |>
    <| cp0 ::= λ c, fupd CP0_CAUSE (Z.lor (Z.ldiff (c CP0_CAUSE) 0x7c) (Z.shiftl code 2)) c |>
    <| cp0 ::= λ c, fupd CP0_STATUS (Z.lor (c CP0_STATUS) 2) c |>.

(** ** Every register holds a word *)

Definition word (x : Z) : Prop := 0 ≤ x < 2 ^ 32.

Lemma word_mod x : word x ↔ Z.land x (Z.ones 32) = x.
Proof.
  rewrite Z.land_ones by lia. split; [apply Z.mod_small|]. intros <-. by apply Z.mod_pos_bound.
Qed.

Lemma word_land a b : word a → word (Z.land a b).
Proof. rewrite !word_mod. intros Ha. by rewrite (Z.land_comm a), <- Z.land_assoc, Ha. Qed.

Lemma word_lor a b : word a → word b → word (Z.lor a b).
Proof. rewrite !word_mod. intros Ha Hb. by rewrite Z.land_lor_distr_l, Ha, Hb. Qed.

Lemma word_ldiff a b : word a → word (Z.ldiff a b).
Proof. rewrite Z.ldiff_land. apply word_land. Qed.

Lemma word_shiftr a n : word a → 0 ≤ n → word (Z.shiftr a n).
Proof.
  unfold word. intros Ha Hn. rewrite Z.shiftr_div_pow2 by done.
  assert (0 < 2 ^ n) by lia. split; [apply Z.div_pos; lia|].
  apply Z.le_lt_trans with a; [|lia]. apply Z.div_le_upper_bound; nia.
Qed.

Lemma word_u32 x : word (u32 x).
Proof. apply u32_range. Qed.

Lemma word_0 : word 0.
Proof. done. Qed.

Definition entry_words (e : tlb_entry) : Prop :=
  word (te_mask e) ∧ word (te_hi e) ∧ word (te_lo0 e) ∧ word (te_lo1 e).

Record words_ok (s : cpu) : Prop := {
  wo_gpr r : word (gpr s r);
  wo_hi : word (hi_reg s);
  wo_lo : word (lo_reg s);
  wo_cp0 c : word (cp0 s c);
  wo_mem a : 0 ≤ mem s a < 256;
  wo_size : (length (tlbs s) ≤ 64)%nat;
  wo_tlbs : Forall entry_words (tlbs s);
}.

(** The bytes of a word. *)
Definition word_byte (v j : Z) : Z := v / 2 ^ (8 * j) mod 256.

Lemma word_bytes v :
  word v → word_byte v 0 + 2 ^ 8 * word_byte v 1 + 2 ^ 16 * word_byte v 2 + 2 ^ 24 * word_byte v 3 = v.
Proof. unfold word, word_byte. intros Hv. cbn [Z.mul Z.pow]. Z.div_mod_to_equations. lia. Qed.

Lemma load32_word r a : (∀ x, 0 ≤ r x < 256) → word (load32 r a).
Proof.
  intros H. unfold word, load32. pose proof (H a). pose proof (H (a + 1)).
  pose proof (H (a + 2)). pose proof (H (a + 3)). lia.
Qed.

Lemma store32_bytes a v r : (∀ x, 0 ≤ r x < 256) → ∀ x, 0 ≤ store32 a v r x < 256.
Proof.
  intros H x. unfold store32, store8. repeat case_match; try done; by apply Z.mod_pos_bound.
Qed.

Lemma rd_word s r : words_ok s → word (rd s r).
Proof. intros []. unfold rd. destruct (r =? 0); [done|auto]. Qed.

Lemma fupd_word k v f : word v → (∀ x, word (f x)) → ∀ x, word (fupd k v f x).
Proof. intros ? ? x. unfold fupd. by destruct (x =? k). Qed.

Lemma wr_words r v s : words_ok s → word v → words_ok (wr r v s).
Proof.
  intros [] Hv. unfold wr. destruct (r =? 0); [done|]. split; try done. by apply fupd_word.
Qed.

Lemma wr_cp0_words c v s : words_ok s → word v → words_ok (wr_cp0 c v s).
Proof.
  intros [] Hv. unfold wr_cp0. destruct (c =? CP0_BADVADDR); [done|].
  split; try done. by apply fupd_word.
Qed.

Lemma lw_word a s v : words_ok s → lw a s = Ok v → word v.
Proof. intros []. unfold lw. destruct (word_ok a); [|done]. intros [= <-]. by apply load32_word. Qed.

Lemma mem_words m s : words_ok s → (∀ x, 0 ≤ m x < 256) → words_ok (s <| mem := m |>).
Proof. intros [] Hm. by split. Qed.

Lemma sw_words a v s s' : words_ok s → sw a v s = Ok s' → words_ok s'.
Proof.
  intros []. unfold sw. destruct (word_ok a); [|done]. intros [= <-]. split; try done.
  by apply store32_bytes.
Qed.

Lemma te_match_refl e : te_match (te_hi e) e = true.
Proof. unfold te_match. by rewrite !Z.eqb_refl, orb_true_r. Qed.

Lemma te_find_Some hi l i : te_find hi l = Some i → (i < length l)%nat.
Proof.
  unfold te_find. destruct (list_find _ _) as [[j e]|] eqn:E; [|done]. intros [= <-].
  apply list_find_Some in E as (Hi & _). by eapply lookup_lt_Some.
Qed.

Lemma te_find_written l i e : (i < length l)%nat → is_Some (te_find (te_hi e) (<[i := e]> l)).
Proof.
  intros Hi. unfold te_find. destruct (list_find_elem_of (λ x, te_match (te_hi e) x = true)
    (<[i := e]> l) e) as [[j x] ->]; [|apply te_match_refl|by eexists].
  apply list_elem_of_lookup. exists i. by apply list_lookup_insert_eq.
Qed.

Lemma probe_word s : words_ok s → word (match probe s with Some i => Z.of_nat i | None => 2 ^ 31 end).
Proof.
  intros Hs. destruct (probe s) as [i|] eqn:E; [|done]. apply te_find_Some in E.
  pose proof (wo_size s Hs). unfold word. lia.
Qed.

Lemma write_entry_words c s s' : words_ok s → write_entry c s = Ok s' → words_ok s'.
Proof.
  intros [] H. unfold write_entry in H. outcome_inv H. subst s'.
  match goal with Ha : aset _ _ _ = Ok _ |- _ => apply aset_Ok in Ha as [_ ->] end.
  split; try done; cbn.
  - by rewrite length_insert.
  - apply Forall_insert; [done|]. by split_and!; cbn.
Qed.

(** Shift amounts are not negative. *)
Definition instr_ok (i : instr) : bool :=
  match i with SRL _ _ sa => 0 <=? sa | _ => true end.

(** Goals that a register is not, or is not among, some others. *)
Ltac regs_ne :=
  repeat match goal with H : _ ∉ _ :: _ |- _ => apply not_elem_of_cons in H as [? H] end;
  repeat (apply not_elem_of_cons; split); first [done | apply not_elem_of_nil].

(** Goals [word v] and [words_ok s]. *)
Ltac words :=
  repeat first [assumption | apply wr_words | apply wr_cp0_words | apply word_u32 | apply word_land
    | apply word_lor | apply word_ldiff | apply rd_word | apply wo_cp0 | apply wo_hi | apply wo_lo
    | apply probe_word].

Lemma exec_words symbol i s s' :
  (∀ x, word (symbol x)) → instr_ok i = true → words_ok s → exec symbol i s = Ok s' → words_ok s'.
Proof.
  intros Hsym Hi Hs H. destruct i; cbn [exec] in H; try outcome_inv H; subst;
    try match goal with Ha : lw _ _ = Ok _ |- _ => apply lw_word in Ha; [|done] end;
    try (words; apply Hsym).
  - by eapply sw_words.
  - case_match; [|done]. injection H as <-. words.
  - words. apply word_shiftr; [words|]. by apply Z.leb_le.
  - pose proof (rd_word s r Hs). destruct Hs. by split.
  - pose proof (rd_word s r Hs). destruct Hs. by split.
  - match goal with Ha : aget _ _ = Ok _ |- _ => apply aget_Ok in Ha as [_ Ha] end.
    assert (entry_words a) as (?&?&?&?) by (by eapply Forall_lookup_1, H0; apply wo_tlbs).
    words.
  - by eapply write_entry_words.
  - by eapply write_entry_words.
Qed.

(** ** Straight-line code *)

Fixpoint exec_all (symbol : string → Z) (ins : list instr) (s : cpu) : outcome cpu :=
  match ins with
  | [] => Ok s
  | i :: ins => s ← exec symbol i s; exec_all symbol ins s
  end.

Lemma exec_all_app symbol ins js s :
  exec_all symbol (ins ++ js) s = (s ← exec_all symbol ins s; exec_all symbol js s).
Proof.
  revert s. induction ins as [|i ins IH]; intros s; [done|]. cbn.
  destruct (exec symbol i s); [apply IH|done|done].
Qed.

Lemma exec_all_cons symbol i ins s s' :
  exec symbol i s = Ok s' → exec_all symbol (i :: ins) s = exec_all symbol ins s'.
Proof. intros H. cbn [exec_all]. by rewrite H. Qed.

Lemma run_block symbol text call n ins ls s s' :
  exec_all symbol ins s = Ok s' →
  run symbol text call (length ins + n) ((I <$> ins) ++ ls) s = run symbol text call n ls s'.
Proof.
  revert s. induction ins as [|i ins IH]; intros s; cbn; [by intros [= ->]|].
  intros H. apply bind_Ok_inv in H as (s1 & -> & H). rewrite bind_Ok. by apply IH.
Qed.

Lemma fupd_eq k v f : fupd k v f k = v.
Proof. unfold fupd. by rewrite Z.eqb_refl. Qed.

Lemma fupd_ne k v f x : x ≠ k → fupd k v f x = f x.
Proof. intros. unfold fupd. by rewrite (proj2 (Z.eqb_neq x k)). Qed.

Lemma rd_wr r v s : r ≠ 0 → rd (wr r v s) r = v.
Proof. intros. unfold rd, wr. rewrite (proj2 (Z.eqb_neq r 0)) by done. apply fupd_eq. Qed.

Lemma rd_wr_ne r r' v s : r' ≠ r → rd (wr r v s) r' = rd s r'.
Proof.
  intros. unfold rd, wr. destruct (r =? 0); [done|]. destruct (r' =? 0); [done|].
  by apply fupd_ne.
Qed.

Lemma word_ok_spec a : word_ok a = true ↔ 2 ^ 31 ≤ a ∧ a mod 4 = 0.
Proof. unfold word_ok. rewrite andb_true_iff, Z.leb_le, Z.eqb_eq. done. Qed.

Lemma lw_ok a s : 2 ^ 31 ≤ a → a mod 4 = 0 → lw a s = Ok (load32 (mem s) a).
Proof. intros. unfold lw. by rewrite (proj2 (word_ok_spec a)). Qed.

Lemma sw_ok a v s : 2 ^ 31 ≤ a → a mod 4 = 0 → sw a v s = Ok (s <| mem ::= store32 a v |>).
Proof. intros. unfold sw. by rewrite (proj2 (word_ok_spec a)). Qed.

(** ** Words of a record in memory *)

(** Stores of words at offsets from [base], in order. *)
Definition store_all (base : Z) (l : list (Z * Z)) (m : Z → Z) : Z → Z :=
  foldl (λ m p, store32 (base + p.1) p.2 m) m l.

Lemma store_all_app base l1 l2 m :
  store_all base (l1 ++ l2) m = store_all base l2 (store_all base l1 m).
Proof. apply foldl_app. Qed.

Definition words_apart (l : list Z) : Prop := NoDup l ∧ Forall (λ o, o mod 4 = 0) l.

Lemma aligned_apart o o' : o mod 4 = 0 → o' mod 4 = 0 → o ≠ o' → o + 4 ≤ o' ∨ o' + 4 ≤ o.
Proof. intros. Z.div_mod_to_equations. lia. Qed.

Lemma store_all_notin base l m o :
  Forall (λ o, o mod 4 = 0) l.*1 → o mod 4 = 0 → o ∉ l.*1 →
  load32 (store_all base l m) (base + o) = load32 m (base + o).
Proof.
  revert m. induction l as [|[o' v] l IH]; intros m Hl Ho Hn; [done|].
  apply Forall_cons in Hl as [Ho' Hl]. apply not_elem_of_cons in Hn as [Hne Hn]. cbn in *.
  change (load32 (store_all base l (store32 (base + o') v m)) (base + o) = load32 m (base + o)).
  rewrite IH by done. destruct (aligned_apart o o' Ho Ho' Hne); apply load32_store32_ne; lia.
Qed.

Lemma store_all_in base l m o v :
  words_apart l.*1 → (o, v) ∈ l → 0 ≤ v < 2 ^ 32 → load32 (store_all base l m) (base + o) = v.
Proof.
  intros [Hnd Hal]. revert m. induction l as [|[o' v'] l IH]; intros m Hin Hv.
  { by apply not_elem_of_nil in Hin. }
  cbn in Hnd, Hal. apply NoDup_cons in Hnd as [Hn Hnd]. apply Forall_cons in Hal as [Ho Hal].
  change (load32 (store_all base l (store32 (base + o') v' m)) (base + o) = v).
  apply elem_of_cons in Hin as [[= -> ->]|Hin].
  - rewrite store_all_notin by done. by apply load32_store32.
  - by apply IH.
Qed.

Lemma store_all_out base l m x :
  (∀ o v, (o, v) ∈ l → ¬ (base + o ≤ x < base + o + 4)) → store_all base l m x = m x.
Proof.
  revert m. induction l as [|[o v] l IH]; intros m Hx; [done|].
  change (store_all base l (store32 (base + o) v m) x = m x). rewrite IH.
  - apply store32_ne. assert (¬ (base + o ≤ x < base + o + 4)) by (apply (Hx o v); left). lia.
  - intros o' v' Hin. apply (Hx o' v'). by right.
Qed.

Lemma store_all_bytes base l m :
  (∀ x, 0 ≤ m x < 256) → ∀ x, 0 ≤ store_all base l m x < 256.
Proof.
  revert m. induction l as [|[o v] l IH]; intros m Hm; [done|].
  apply (IH (store32 (base + o) v m)). by apply store32_bytes.
Qed.

(** Loads of words at offsets into registers, in order. *)
Definition load_all (m : Z → Z) (base : Z) (l : list Z) (g : Z → Z) : Z → Z :=
  foldl (λ g r, fupd r (load32 m (base + OFFSET_REG r)) g) g l.

Lemma load_all_notin m base l g r : r ∉ l → load_all m base l g r = g r.
Proof.
  revert g. induction l as [|r' l IH]; intros g Hn; [done|].
  apply not_elem_of_cons in Hn as [Hne Hn].
  change (load_all m base l (fupd r' (load32 m (base + OFFSET_REG r')) g) r = g r).
  rewrite IH by done. by apply fupd_ne.
Qed.

Lemma load_all_in m base l g r : r ∈ l → load_all m base l g r = load32 m (base + OFFSET_REG r).
Proof.
  revert g. induction l as [|r' l IH]; intros g Hin; [by apply not_elem_of_nil in Hin|].
  change (load_all m base l (fupd r' (load32 m (base + OFFSET_REG r')) g) r =
    load32 m (base + OFFSET_REG r)).
  destruct (decide (r ∈ l)) as [|Hn]; [by apply IH|].
  apply elem_of_cons in Hin as [->|]; [|done]. rewrite load_all_notin by done. apply fupd_eq.
Qed.

Lemma exec_all_words symbol ins s s' :
  (∀ x, word (symbol x)) → exec_all symbol ins s = Ok s' → forallb instr_ok ins = true →
  words_ok s → words_ok s'.
Proof.
  intros Hsym. revert s. induction ins as [|i ins IH]; intros s H Hi Hs; cbn in *.
  { by injection H as <-. }
  apply andb_true_iff in Hi as [Hi Hins]. outcome_inv H. eapply IH; [done|done|].
  by eapply exec_words.
Qed.

(** ** Runs without fuel *)

Section runs.
Context (symbol : string → Z) (text : list (string * list line))
  (call : string → cpu → outcome cpu).
Notation run := (run symbol text call).

(** With enough fuel the run ends; more fuel changes nothing. *)
Definition runs (ls : list line) (s : cpu) (e : exit) (s' : cpu) : Prop :=
  ∃ fuel, run fuel ls s = Ok (e, s').

Lemma run_mono fuel fuel' ls s r : (fuel ≤ fuel')%nat → run fuel ls s = Ok r → run fuel' ls s = Ok r.
Proof.
  revert fuel' ls s. induction fuel as [|n IH]; intros [|n'] ls s Hle H; try done; [lia|].
  assert (Hn : ∀ ls s, run n ls s = Ok r → run n' ls s = Ok r) by (intros; apply IH; [lia|done]).
  cbn [Cpu.run] in *. destruct ls as [|[]]; try done; try by apply Hn.
  - destruct (exec _ _ _); [|done|done]. by apply Hn.
  - destruct (_ =? _); [|by apply Hn]. destruct (code_at _ _); [|done|done]. by apply Hn.
  - destruct (_ =? _); [by apply Hn|]. destruct (code_at _ _); [|done|done]. by apply Hn.
  - destruct (_ =? _); [|by apply Hn]. destruct (code_at _ _); [|done|done]. by apply Hn.
  - destruct (code_at _ _); [|done|done]. by apply Hn.
  - destruct (call _ _); [|done|done]. by apply Hn.
Qed.

Lemma runs_det ls s e1 s1 e2 s2 : runs ls s e1 s1 → runs ls s e2 s2 → e1 = e2 ∧ s1 = s2.
Proof.
  intros [n1 H1] [n2 H2]. apply (run_mono _ (n1 `max` n2)) in H1, H2; try lia.
  rewrite H1 in H2. by injection H2.
Qed.

Lemma runs_block ins ls s s1 e s' :
  exec_all symbol ins s = Ok s1 → runs ls s1 e s' → runs ((I <$> ins) ++ ls) s e s'.
Proof. intros H [n Hn]. exists (length ins + n)%nat. by rewrite (run_block _ _ _ _ _ _ _ s1). Qed.

Lemma runs_I i ls s s1 e s' : exec symbol i s = Ok s1 → runs ls s1 e s' → runs (I i :: ls) s e s'.
Proof. intros H [n Hn]. exists (S n). cbn. by rewrite H. Qed.

Lemma runs_NOP ls s e s' : runs ls s e s' → runs (I NOP :: ls) s e s'.
Proof. by apply runs_I. Qed.

Lemma runs_Label l ls s e s' : runs ls s e s' → runs (Label l :: ls) s e s'.
Proof. intros [n Hn]. by exists (S n). Qed.

Lemma runs_J l ls ls' s e s' : code_at text l = Ok ls' → runs ls' s e s' → runs (J l :: ls) s e s'.
Proof. intros H [n Hn]. exists (S n). cbn. by rewrite H. Qed.

Lemma runs_JAL f ls s s1 e s' : call f s = Ok s1 → runs ls s1 e s' → runs (JAL f :: ls) s e s'.
Proof. intros H [n Hn]. exists (S n). cbn. by rewrite H. Qed.

Lemma runs_JR r ls s : runs (JR r :: ls) s (Jump (rd s r)) s.
Proof. by exists 1%nat. Qed.

Lemma runs_JR_to r ls s a : rd s r = a → runs (JR r :: ls) s (Jump a) s.
Proof. intros <-. apply runs_JR. Qed.

Lemma runs_ERET_to ls s a : cp0 s CP0_EPC = a → runs (ERET :: ls) s (Resume a) (leave s).
Proof. intros <-. by exists 1%nat. Qed.

Lemma runs_ERET ls s : runs (ERET :: ls) s (Resume (cp0 s CP0_EPC)) (leave s).
Proof. by exists 1%nat. Qed.

Lemma runs_SYSCALL ls s : runs (SYSCALL :: ls) s (Trapped ls) s.
Proof. by exists 1%nat. Qed.

Lemma runs_BEQ rs rt l ls ls' s e s' :
  code_at text l = Ok ls' → rd s rs = rd s rt → runs ls' s e s' → runs (BEQ rs rt l :: ls) s e s'.
Proof. intros H E [n Hn]. exists (S n). cbn. by rewrite E, Z.eqb_refl, H. Qed.

Lemma runs_BEQ_ne rs rt l ls s e s' :
  rd s rs ≠ rd s rt → runs ls s e s' → runs (BEQ rs rt l :: ls) s e s'.
Proof. intros E [n Hn]. exists (S n). cbn. by rewrite (proj2 (Z.eqb_neq _ _) E). Qed.

Lemma runs_BNE rs rt l ls ls' s e s' :
  code_at text l = Ok ls' → rd s rs ≠ rd s rt → runs ls' s e s' → runs (BNE rs rt l :: ls) s e s'.
Proof. intros H E [n Hn]. exists (S n). cbn. by rewrite (proj2 (Z.eqb_neq _ _) E), H. Qed.

Lemma runs_BNE_eq rs rt l ls s e s' :
  rd s rs = rd s rt → runs ls s e s' → runs (BNE rs rt l :: ls) s e s'.
Proof. intros E [n Hn]. exists (S n). cbn. by rewrite E, Z.eqb_refl. Qed.

Lemma runs_BEQZ rs l ls ls' s e s' :
  code_at text l = Ok ls' → rd s rs = 0 → runs ls' s e s' → runs (BEQZ rs l :: ls) s e s'.
Proof. intros H E [n Hn]. exists (S n). cbn. by rewrite E, H. Qed.

Lemma runs_BEQZ_ne rs l ls s e s' :
  rd s rs ≠ 0 → runs ls s e s' → runs (BEQZ rs l :: ls) s e s'.
Proof. intros E [n Hn]. exists (S n). cbn. by rewrite (proj2 (Z.eqb_neq _ _) E). Qed.
End runs.
