(* ===== verification/Inline.v ===== *)
(** * The inline assembly of C functions

    [scheduler] of [kernel/sched/sched.c] clears the TLB when it switches;
    [write_TLB_index] and [write_TLB_rand] of [kernel/mm/memory.c] write it;
    [read_cp0_count] of [kernel/sched/time.c] reads a register of the coprocessor.
    [Memory] records the writes of the TLB; here they reach the TLB of [Cpu]. *)

From S2P Require Import Prelude Kstate Sched Memory Cpu.
Import Regs.

(** ** The code *)

(** [scheduler], lines 220-229. *)
Definition clear_setup : list instr :=
  [MTC0 zero CP0_ENTRYHI; MTC0 zero CP0_ENTRYLO1; MTC0 zero CP0_ENTRYLO0;
   MOVE k0 zero; LI k1 32].

Definition clear_entry : list instr := [MTC0 k0 CP0_INDEX; TLBWI; ADDIU k0 k0 1].

Definition clear_loop : list line := (I <$> clear_entry) ++ [BNE k0 k1 "1"].

Definition clear_TLB : list line := (I <$> clear_setup) ++ Label "1" :: clear_loop.

(** Operands in memory are words at an offset from the stack pointer. *)
Definition load_entry (hi lo0 lo1 : Z) : list instr :=
  [LW k0 hi sp; MTC0 k0 CP0_ENTRYHI; LW k0 lo0 sp; MTC0 k0 CP0_ENTRYLO0;
   LW k0 lo1 sp; MTC0 k0 CP0_ENTRYLO1; MTC0 zero CP0_PAGEMASK].

Definition write_index (hi lo0 lo1 : Z) : list instr :=
  load_entry hi lo0 lo1 ++ [MTC0 a2 CP0_INDEX; TLBWI].

Definition write_rand (hi lo0 lo1 : Z) : list instr := load_entry hi lo0 lo1 ++ [TLBWR].

Definition read_cp0_count (count : Z) : list instr := [MFC0 k0 CP0_COUNT; SW k0 count sp].

(** ** What the TLB translates *)

(** The frame of an address of process [asid]: bit 12 chooses the page of the
    pair, bit 1 of its word says whether it is valid. *)
Definition translation (va asid : Z) (l : list tlb_entry) : option Z :=
  i ← te_find (Z.lor (Z.land va 0xffffe000) asid) l;
  e ← l !! i;
  let lo := if Z.testbit va 12 then te_lo1 e else te_lo0 e in
  if Z.testbit lo 1 then Some (Z.shiftr lo 6) else None.

(** ** Clearing *)

(** What the inline assembly changes: the two registers of the kernel, the
    registers of the TLB, and the TLB. *)
Record only_tlb (s s' : cpu) : Prop := {
  ot_gpr r : r ≠ k0 → r ≠ k1 → gpr s' r = gpr s r;
  ot_hi : hi_reg s' = hi_reg s;
  ot_lo : lo_reg s' = lo_reg s;
  ot_mem : mem s' = mem s;
  ot_cp0 c : c ∉ [CP0_ENTRYHI; CP0_ENTRYLO0; CP0_ENTRYLO1; CP0_PAGEMASK; CP0_INDEX] → cp0 s' c = cp0 s c;
}.

#[export] Instance only_tlb_preorder : PreOrder only_tlb.
Proof.
  split; [by intros s; split|]. intros s1 s2 s3 [A1 A2 A3 A4 A5] [B1 B2 B3 B4 B5].
  split; intros; by rewrite ?B1, ?B2, ?B3, ?B4, ?B5, ?A1, ?A2, ?A3, ?A4, ?A5.
Qed.

Lemma only_tlb_wr r v s : r = k0 ∨ r = k1 → only_tlb s (wr r v s).
Proof. intros [-> | ->]; split; try done; intros; by apply fupd_ne. Qed.

Lemma only_tlb_wr_cp0 c v s :
  c ∈ [CP0_ENTRYHI; CP0_ENTRYLO0; CP0_ENTRYLO1; CP0_PAGEMASK; CP0_INDEX] → only_tlb s (wr_cp0 c v s).
Proof.
  intros Hc. unfold wr_cp0. case_match; [done|].
  split; try done. intros c' Hc'. apply fupd_ne. by intros ->.
Qed.

Lemma only_tlb_tlbs f s : only_tlb s (s <| tlbs ::= f |>).
Proof. by split. Qed.

Section clear.
Context (symbol : string → Z) (text : list (string * list line)) (call : string → cpu → outcome cpu)
  (rest : list line).
Notation runs := (runs symbol text call).

Context (Htext : code_at text "1" = Ok (clear_loop ++ rest)).

(** One round writes the registers of the TLB to the entry [k0]. *)
Lemma clear_round s i :
  rd s k0 = i → 0 ≤ i < 32 → (32 ≤ length (tlbs s))%nat →
  ∃ s1, exec_all symbol clear_entry s = Ok s1 ∧ only_tlb s s1 ∧ rd s1 k0 = i + 1 ∧ rd s1 k1 = rd s k1 ∧
    entry_regs s1 = entry_regs s ∧ tlbs s1 = <[Z.to_nat i := entry_regs s]> (tlbs s).
Proof.
  intros Hk Hi Hl. eexists. split.
  { cbn [clear_entry exec_all exec]. rewrite bind_Ok. unfold write_entry.
    change (cp0 (wr_cp0 CP0_INDEX (rd s k0) s) CP0_INDEX) with (rd s k0). rewrite Hk.
    assert (Z.land i 63 = i) as ->.
    { change 63 with (Z.ones 6). rewrite Z.land_ones by lia. apply Z.mod_small. lia. }
    rewrite aset_total by (cbn; lia). rewrite !bind_Ok. reflexivity. }
  split_and!.
  - etrans; [by apply (only_tlb_wr_cp0 CP0_INDEX i); set_solver|].
    etrans; [apply (only_tlb_tlbs (λ _, <[Z.to_nat i:=entry_regs s]> (tlbs s)))|]. by apply only_tlb_wr; left.
  - rewrite rd_wr by done. change (rd _ k0) with (rd s k0). rewrite Hk, u32_small by lia. done.
  - by rewrite rd_wr_ne by done.
  - done.
  - done.
Qed.

Lemma clear_rounds m s :
  (m < 32)%nat → rd s k0 = 31 - Z.of_nat m → rd s k1 = 32 → (32 ≤ length (tlbs s))%nat →
  ∃ s1, only_tlb s s1 ∧ entry_regs s1 = entry_regs s ∧
    tlbs s1 = take (31 - m) (tlbs s) ++ replicate (S m) (entry_regs s) ++ drop 32 (tlbs s) ∧
    ∀ e s', runs rest s1 e s' → runs (clear_loop ++ rest) s e s'.
Proof.
  revert s. induction m as [|m IH]; intros s Hm Hk Hk1 Hl.
  - destruct (clear_round s 31) as (s1 & Hx & Ho & H0 & H1 & He & Ht); [lia|lia|done|].
    exists s1. split_and!; [done|done| |].
    + rewrite Ht. change (Z.to_nat 31) with 31%nat. change (31 - 0)%nat with 31%nat.
      rewrite (insert_take_drop (tlbs s) 31) by lia. done.
    + intros e s' Hr. unfold clear_loop. rewrite <- (assoc_L (++)). eapply runs_block; [done|].
      apply runs_BNE_eq; [by rewrite H0, H1|done].
  - destruct (clear_round s (31 - Z.of_nat (S m))) as (s1 & Hx & Ho & H0 & H1 & He & Ht); [done|lia|done|].
    destruct (IH s1) as (s2 & Ho2 & He2 & Ht2 & Hr2); [lia|lia|lia| |].
    { rewrite Ht, length_insert. done. }
    exists s2. split_and!; [by etrans|by rewrite He2| |].
    + rewrite Ht2, Ht, He. replace (Z.to_nat (31 - Z.of_nat (S m))) with (31 - S m)%nat by lia.
      rewrite drop_insert_lt by lia. rewrite (insert_take_drop (tlbs s)) by lia.
      rewrite take_app, length_take, Nat.min_l, take_ge by (rewrite ?length_take; lia).
      replace (31 - m - (31 - S m))%nat with 1%nat by lia. cbn [take]. rewrite <- (assoc_L (++)). done.
    + intros e s' Hr. unfold clear_loop at 1. rewrite <- (assoc_L (++)). eapply runs_block; [done|].
      eapply runs_BNE; [apply Htext| |by apply Hr2]. rewrite H0, H1. lia.
Qed.

Lemma clear_run s :
  (32 ≤ length (tlbs s))%nat →
  ∃ s1, only_tlb s s1 ∧
    tlbs s1 = replicate 32 (TlbEntry (cp0 s CP0_PAGEMASK) 0 0 0) ++ drop 32 (tlbs s) ∧
    ∀ e s', runs rest s1 e s' → runs (clear_TLB ++ rest) s e s'.
Proof.
  intros Hl. assert (∃ s0, exec_all symbol clear_setup s = Ok s0 ∧ only_tlb s s0 ∧ rd s0 k0 = 0 ∧
    rd s0 k1 = 32 ∧ entry_regs s0 = TlbEntry (cp0 s CP0_PAGEMASK) 0 0 0 ∧ tlbs s0 = tlbs s)
    as (s0 & Hx & Ho & H0 & H1 & He & Ht).
  { eexists. split; [reflexivity|]. split_and!; [|done..].
    do 2 (etrans; [|by apply only_tlb_wr; auto]). do 3 (etrans; [|by apply only_tlb_wr_cp0; set_solver]). done. }
  destruct (clear_rounds 31 s0) as (s1 & Ho1 & He1 & Ht1 & Hr); [lia|done|done|by rewrite Ht|].
  exists s1. split_and!; [by etrans|by rewrite Ht1, Ht, He|].
  intros e s' H. unfold clear_TLB. rewrite <- (assoc_L (++)). eapply runs_block; [done|].
  cbn [app]. apply runs_Label. by apply Hr.
Qed.
End clear.

Lemma translation_cleared mask va asid n : translation va asid (replicate n (TlbEntry mask 0 0 0)) = None.
Proof.
  unfold translation. destruct (te_find _ _) as [i|]; [|done]. cbn [mbind option_bind].
  destruct (replicate n _ !! i) as [e|] eqn:He; [|done]. cbn [mbind option_bind].
  apply lookup_replicate in He as [-> _]. by destruct (Z.testbit va 12).
Qed.

(** C21.  No translation of the process that leaves is left: the inline assembly that
    [scheduler] ends with overwrites all 32 entries of the TLB with invalid ones,
    so that no address of any process is translated before it is looked up in the
    page tables again.  Its loop ends, and it changes no register that C code
    uses, and no memory. *)
Theorem scheduler_clears_tlb symbol text call rest s :
  code_at text "1" = Ok (clear_loop ++ rest) → length (tlbs s) = 32%nat →
  ∃ s1, only_tlb s s1 ∧ (∀ va asid, translation va asid (tlbs s1) = None) ∧
    ∀ e s', runs symbol text call rest s1 e s' → runs symbol text call (clear_TLB ++ rest) s e s'.
Proof.
  intros Ht Hl. destruct (clear_run symbol text call rest Ht s) as (s1 & Ho & He & Hr); [lia|].
  exists s1. split_and!; [done| |done]. intros va asid.
  rewrite He, drop_ge, app_nil_r by lia. apply translation_cleared.
Qed.

(** ** Writing *)

(** The TLB after a write that [Memory] records. *)
Definition tlb_after (random : Z) (w : tlb_write) (l : list tlb_entry) : list tlb_entry :=
  <[Z.to_nat (default random (tlb_index w)) := TlbEntry 0 (entryhi w) (entrylo0 w) (entrylo1 w)]> l.

(** The operands of the inline assembly for the write [w]. *)
Record operands (hi lo0 lo1 : Z) (w : tlb_write) (s : cpu) : Prop := {
  op_at o : o ∈ [hi; lo0; lo1] → 2 ^ 31 ≤ u32 (rd s sp + o) ∧ u32 (rd s sp + o) mod 4 = 0;
  op_hi : load32 (mem s) (u32 (rd s sp + hi)) = entryhi w;
  op_lo0 : load32 (mem s) (u32 (rd s sp + lo0)) = entrylo0 w;
  op_lo1 : load32 (mem s) (u32 (rd s sp + lo1)) = entrylo1 w;
  op_index i : tlb_index w = Some i → rd s a2 = i;
  op_bound : 0 ≤ default (cp0 s CP0_RANDOM) (tlb_index w) < Z.of_nat (length (tlbs s));
  op_size : (length (tlbs s) ≤ 64)%nat;
}.

Lemma load_operand symbol o s ins v :
  2 ^ 31 ≤ u32 (rd s sp + o) → u32 (rd s sp + o) mod 4 = 0 → load32 (mem s) (u32 (rd s sp + o)) = v →
  exec_all symbol (LW k0 o sp :: ins) s = exec_all symbol ins (wr k0 v s).
Proof. intros H1 H2 <-. apply exec_all_cons. cbn [exec]. by rewrite lw_ok. Qed.

Lemma load_entry_run symbol hi lo0 lo1 w s :
  operands hi lo0 lo1 w s →
  ∃ s', exec_all symbol (load_entry hi lo0 lo1) s = Ok s' ∧ only_tlb s s' ∧ tlbs s' = tlbs s ∧
    entry_regs s' = TlbEntry 0 (entryhi w) (entrylo0 w) (entrylo1 w) ∧
    rd s' a2 = rd s a2 ∧ cp0 s' CP0_RANDOM = cp0 s CP0_RANDOM.
Proof.
  intros [Ha H1 H2 H3 _ _ _]. eexists. split.
  { unfold load_entry.
    destruct (Ha hi) as [??]; [set_solver|]. rewrite (load_operand _ _ _ _ (entryhi w)) by done.
    rewrite (exec_all_cons _ _ _ _ (wr_cp0 CP0_ENTRYHI (entryhi w) (wr k0 (entryhi w) s))) by done.
    destruct (Ha lo0) as [??]; [set_solver|]. rewrite (load_operand _ _ _ _ (entrylo0 w)) by done.
    set (s1 := wr k0 (entrylo0 w) _). rewrite (exec_all_cons _ _ _ _ (wr_cp0 CP0_ENTRYLO0 (entrylo0 w) s1)) by done.
    destruct (Ha lo1) as [??]; [set_solver|]. rewrite (load_operand _ _ _ _ (entrylo1 w)) by done.
    reflexivity. }
  split_and!; try done.
  do 2 (etrans; [|by apply only_tlb_wr_cp0; set_solver]). etrans; [|by apply only_tlb_wr; auto].
  etrans; [|by apply only_tlb_wr_cp0; set_solver]. etrans; [|by apply only_tlb_wr; auto].
  etrans; [|by apply only_tlb_wr_cp0; set_solver]. by apply only_tlb_wr; auto.
Qed.

Lemma write_run symbol hi lo0 lo1 w s :
  operands hi lo0 lo1 w s →
  ∃ s', exec_all symbol ((if tlb_index w then write_index else write_rand) hi lo0 lo1) s = Ok s' ∧
    only_tlb s s' ∧ tlbs s' = tlb_after (cp0 s CP0_RANDOM) w (tlbs s).
Proof.
  intros Hop. destruct (load_entry_run symbol hi lo0 lo1 w s Hop) as (s1 & Hx & Ho & Ht & He & Ha & Hr).
  destruct Hop as [_ _ _ _ Hi Hb Hs].
  assert (∀ i, 0 ≤ i < Z.of_nat (length (tlbs s)) → Z.land i 63 = i) as Hmod.
  { intros i Hlt. change 63 with (Z.ones 6). rewrite Z.land_ones by lia. apply Z.mod_small. lia. }
  unfold tlb_after. destruct (tlb_index w) as [i|]; cbn [default from_option id] in *.
  - unfold write_index. rewrite exec_all_app, Hx, bind_Ok. eexists. split.
    { cbn [exec_all exec]. rewrite bind_Ok. unfold write_entry.
      change (cp0 (wr_cp0 CP0_INDEX (rd s1 a2) s1) CP0_INDEX) with (rd s1 a2).
      rewrite Ha, (Hi i), Hmod by done. rewrite aset_total by (cbn; rewrite ?Ht; lia). reflexivity. }
    split; [|cbn; rewrite Ht; f_equal; by rewrite <- He].
    etrans; [done|]. etrans; [by apply (only_tlb_wr_cp0 CP0_INDEX i); set_solver|]. apply only_tlb_tlbs.
  - unfold write_rand. rewrite exec_all_app, Hx, bind_Ok. eexists. split.
    { cbn [exec_all exec]. unfold write_entry. rewrite Hr, Hmod by done.
      rewrite aset_total by (rewrite ?Ht; lia). reflexivity. }
    split; [|cbn; rewrite Ht; f_equal; by rewrite <- He]. etrans; [done|]. apply only_tlb_tlbs.
Qed.

(** A new entry is the one that is found for its pages. *)
Lemma translation_written va asid i e l :
  te_find (te_hi e) l = None → (i < length l)%nat → Z.lor (Z.land va 0xffffe000) asid = te_hi e →
  translation va asid (<[i := e]> l) =
    let lo := if Z.testbit va 12 then te_lo1 e else te_lo0 e in
    if Z.testbit lo 1 then Some (Z.shiftr lo 6) else None.
Proof.
  intros Hn Hi Hva. unfold translation. rewrite Hva.
  assert (te_find (te_hi e) (<[i := e]> l) = Some i) as ->.
  { destruct (te_find_written l i e Hi) as [j Hj]. rewrite Hj. f_equal. unfold te_find in *.
    destruct (list_find _ (<[i := e]> l)) as [[j' x]|] eqn:E; [|done]. injection Hj as ->.
    apply list_find_Some in E as (Hx & Hm & _). destruct (decide (j = i)) as [|Hne]; [done|].
    rewrite list_lookup_insert_ne in Hx by done.
    destruct (list_find_elem_of (λ e', te_match (te_hi e) e' = true) l x) as [y Hy];
      [by eapply list_elem_of_lookup_2|done|]. rewrite Hy in Hn. done. }
  cbn [mbind option_bind]. by rewrite list_lookup_insert_eq.
Qed.

(** C22.  The inline assembly of [write_TLB_index] and [write_TLB_rand] makes the
    write that [Memory] records, given its operands where the compiler puts them:
    the entry that is named, or the random one, holds the pages, no register of C
    code and no memory changes, and an address of the pair is translated to the
    frame of its page table entry when no other entry stands for the pair. *)
Theorem tlb_write_correct symbol hi lo0 lo1 index kst a b m m' w s :
  write_TLB index kst (Some a) (Some b) m = Ok m' → tlb m' = tlb m ++ [w] → operands hi lo0 lo1 w s →
  ∃ s', exec_all symbol ((if index then write_index else write_rand) hi lo0 lo1) s = Ok s' ∧
    only_tlb s s' ∧ tlbs s' = tlb_after (cp0 s CP0_RANDOM) w (tlbs s) ∧
    ∀ va asid, te_find (entryhi w) (tlbs s) = None → Z.lor (Z.land va 0xffffe000) asid = entryhi w →
      translation va asid (tlbs s') =
        let lo := load32 (ram m) ((if Z.testbit va 12 then b else a) + 4) in
        if Z.testbit lo 1 then Some (Z.shiftr lo 6) else None.
Proof.
  intros Hw Htlb Hop. unfold write_TLB in Hw. cbn [deref] in Hw. rewrite !bind_Ok in Hw.
  apply bind_Ok_inv in Hw as (x & _ & [= <-]).
  apply app_inj_2 in Htlb as [_ [= <-]]; [|done].
  match type of Hop with operands _ _ _ ?e _ => set (w := e) in * end.
  destruct (write_run symbol hi lo0 lo1 w s Hop) as (s' & Hx & Ho & Ht).
  exists s'. split; [destruct index; exact Hx|]. split_and!; [done|done|].
  intros va asid Hn Hva. rewrite Ht. unfold tlb_after.
  rewrite translation_written; [|done| |done].
  - cbn [te_lo0 te_lo1 w entrylo0 entrylo1]. by destruct (Z.testbit va 12).
  - pose proof (op_bound _ _ _ _ _ Hop). lia.
Qed.

(** [count] is the offset of the local variable. *)
Lemma read_cp0_count_run symbol count s :
  2 ^ 31 ≤ u32 (rd s sp + count) → u32 (rd s sp + count) mod 4 = 0 → word (cp0 s CP0_COUNT) →
  ∃ s', exec_all symbol (read_cp0_count count) s = Ok s' ∧
    load32 (mem s') (u32 (rd s sp + count)) = cp0 s CP0_COUNT ∧ cp0 s' = cp0 s.
Proof.
  intros H1 H2 Hw. eexists. split.
  { unfold read_cp0_count. rewrite (exec_all_cons _ _ _ _ (wr k0 (cp0 s CP0_COUNT) s)) by done.
    cbn [exec_all exec]. rewrite rd_wr_ne by done. rewrite sw_ok by done. rewrite bind_Ok. reflexivity. }
  split; [|done]. cbn. by apply load32_store32.
Qed.

(** A TLB full of valid entries. *)
Definition full_cpu : cpu :=
  Cpu (λ r, if r =? sp then 0xa0f00000 else 10) 0 0 (λ _, 0) (λ _, 0)
    (map (λ i, TlbEntry 0 (Z.shiftl i 13) 0x8a 0xca) (seqZ 0 32)).

Definition switch_text : list (string * list line) := [("scheduler", clear_TLB ++ [JR ra])].

Lemma scheduler_clears_tlb_witness :
  translation 0x3123 0 (tlbs full_cpu) = Some 3 ∧
  ∃ s1, only_tlb full_cpu s1 ∧ (∀ va asid, translation va asid (tlbs s1) = None) ∧
    ∀ e s', runs (λ _, 0) switch_text (λ _ s, Ok s) [JR ra] s1 e s' →
      runs (λ _, 0) switch_text (λ _ s, Ok s) (clear_TLB ++ [JR ra]) full_cpu e s'.
Proof.
  split; [vm_compute; reflexivity|].
  exact (scheduler_clears_tlb (λ _, 0) switch_text (λ _ s, Ok s) [JR ra] full_cpu eq_refl eq_refl).
Defined.

(** Entries 20 and 21 of a page table at 0xa0800000. *)
Definition pages_mm : mm_t :=
  Mm [] 0 (store32 0xa080000c 0xca (store32 0xa0800008 21
    (store32 0xa0800004 0x8a (store32 0xa0800000 20 (λ _, 0))))) [] [].

Definition pages_write : tlb_write := TlbWrite (Some 10) (Z.shiftl 10 13) 0x8a 0xca.

Definition stack_words : Z → Z :=
  store32 0xa0f00008 0xca (store32 0xa0f00004 0x8a (store32 0xa0f00000 (Z.shiftl 10 13) (λ _, 0))).

Definition write_cpu : cpu := full_cpu <| mem := stack_words |> <| tlbs := replicate 32 (TlbEntry 0 0 0 0) |>.

Lemma write_operands : operands 0 4 8 pages_write write_cpu.
Proof.
  assert (∀ o, o ∈ [0; 4; 8] → rd write_cpu sp + o = 0xa0f00000 + o ∧ 0 ≤ o ≤ 8 ∧ o mod 4 = 0) as H.
  { intros o Ho. repeat (apply elem_of_cons in Ho as [->|Ho]; [done|]). by apply elem_of_nil in Ho. }
  split; [|vm_compute; reflexivity..|by intros ? [= <-]|done|cbn; lia].
  intros o (-> & Hr & Hm)%H. rewrite u32_small by lia. split; [lia|].
  rewrite <- Z.add_mod_idemp_r, Hm by lia. done.
Qed.

Lemma tlb_write_correct_witness :
  ∃ m', write_TLB (Some 10) demo_state (Some 0xa0800000) (Some 0xa0800008) pages_mm = Ok m' ∧
    tlb m' = tlb pages_mm ++ [pages_write] ∧
  ∃ s', exec_all (λ _, 0) (write_index 0 4 8) write_cpu = Ok s' ∧ only_tlb write_cpu s' ∧
    tlbs s' = tlb_after 0 pages_write (tlbs write_cpu) ∧
    translation 0x14123 0 (tlbs s') = Some 2 ∧ translation 0x15123 0 (tlbs s') = Some 3.
Proof.
  assert (∃ m', write_TLB (Some 10) demo_state (Some 0xa0800000) (Some 0xa0800008) pages_mm = Ok m' ∧
    tlb m' = tlb pages_mm ++ [pages_write]) as (m' & Hw & Ht)
    by (eexists; split; vm_compute; reflexivity).
  exists m'. split; [exact Hw|]. split; [exact Ht|].
  destruct (tlb_write_correct (λ _, 0) 0 4 8 (Some 10) demo_state 0xa0800000 0xa0800008 pages_mm m'
    pages_write write_cpu Hw Ht write_operands) as (s' & Hx & Ho & Hl & Htr).
  exists s'. split; [exact Hx|]. split; [exact Ho|]. split; [exact Hl|].
  split; rewrite Htr; vm_compute; reflexivity.
Defined.
