(* ===== verification/Entry.v ===== *)
(** * Exception entry: [arch/mips/kernel/entry.S] and [arch/mips/kernel/syscall.S]

    The routines of both files, line by line. *)

From S2P Require Import Prelude Kstate Memory Cpu.
Import Regs.

(** ** Constants *)

Definition KERNEL : Z := 0.
Definition USER : Z := 156.
Definition PT : Z := 312.
Definition PID : Z := 4408.

(** ** The macros *)

(** The general registers that are saved: all but 0, k0 and k1. *)
Definition general : list Z := seqZ 1 25 ++ [28; 29; 30; 31].

Definition SAVE_CONTEXT (offset : Z) : list instr :=
  [LW_sym k0 "current_running"; ADDIU k0 k0 offset] ++
  ((λ r, SW r (OFFSET_REG r) k0) <$> general) ++
  [MFC0 k1 CP0_STATUS; SW k1 OFFSET_STATUS k0;
   MFHI k1; SW k1 OFFSET_HI k0;
   MFLO k1; SW k1 OFFSET_LO k0;
   MFC0 k1 CP0_BADVADDR; SW k1 OFFSET_BADVADDR k0;
   MFC0 k1 CP0_CAUSE; SW k1 OFFSET_CAUSE k0;
   MFC0 k1 CP0_EPC; SW k1 OFFSET_EPC k0].

(** The writes of [Status] and [Cause] are commented out in the source. *)
Definition RESTORE_CONTEXT (offset : Z) : list instr :=
  [LW_sym k0 "current_running"; ADDIU k0 k0 offset] ++
  ((λ r, LW r (OFFSET_REG r) k0) <$> general) ++
  [LW k1 OFFSET_STATUS k0;
   LW k1 OFFSET_HI k0; MTHI k1;
   LW k1 OFFSET_LO k0; MTLO k1;
   LW k1 OFFSET_BADVADDR k0; MTC0 k1 CP0_BADVADDR;
   LW k1 OFFSET_CAUSE k0;
   LW k1 OFFSET_EPC k0; MTC0 k1 CP0_EPC].

(** ** The routines *)

(** The assembler keeps the masks of [and] with a constant in register AT. *)
Definition asm_start : list line :=
  (I <$> [MTC0 zero CP0_STATUS; MTC0 zero CP0_COUNT; MTC0 zero CP0_WATCHLO; MTC0 zero CP0_WATCHHI;
          MFC0 t0 CP0_CONFIG; LI AT (Z.lnot 0x7); AND t0 t0 AT; ORI t0 t0 0x2;
          MTC0 t0 CP0_CONFIG]) ++
  [JR ra].

Definition do_scheduler : list line :=
  (I <$> SAVE_CONTEXT KERNEL) ++
  [JAL "scheduler"; I NOP] ++
  (I <$> RESTORE_CONTEXT KERNEL) ++
  [JR ra; I NOP].

(** The branches of [exception_handler_entry] on the code of the exception. *)
Definition dispatch : list line :=
  [I (MFC0 k0 CP0_CAUSE); I (SRL k0 k0 2); I (ANDI k0 k0 31);
   I (LI k1 0); I NOP;
   BEQ k0 k1 "handle_int"; I NOP;
   I (LI k1 2);
   BEQ k0 k1 "TLB_exception_handler_entry";
   I (LI k1 3);
   BEQ k0 k1 "TLB_exception_handler_entry";
   I (LI k1 8); I NOP;
   BEQ k0 k1 "handle_syscall"; I NOP;
   J "handle_other"; I NOP;
   J "exception_handler_exit"].

Definition exception_handler_entry : list line :=
  [I (MFC0 k1 CP0_EPC)] ++ (I <$> SAVE_CONTEXT USER) ++ dispatch.

Definition exception_handler_exit : list line :=
  (I <$> RESTORE_CONTEXT USER) ++
  [I (LI k0 0x8803); I NOP; I (MTC0 k0 CP0_STATUS); ERET].

Definition handle_int : list line :=
  (I <$> RESTORE_CONTEXT KERNEL) ++
  [I (ADDIU sp sp (-8)); I (MFC0 a0 CP0_STATUS); I (MFC0 a1 CP0_CAUSE);
   JAL "interrupt_helper"; I NOP; I (ADDIU sp sp 8)] ++
  (I <$> SAVE_CONTEXT KERNEL) ++
  [J "exception_handler_exit"].

Definition handle_syscall : list line :=
  [I (LW_sym k0 "current_running"); I (ADDIU k0 k0 USER);
   I (LW k1 148 k0); I (ADDIU k1 k1 4); I (SW k1 148 k0);
   I (LW_sym k0 "current_running"); I (LW sp 120 k0); I (MOVE fp sp);
   I (MOVE a3 a2); I (MOVE a2 a1); I (MOVE a1 a0); I (MOVE a0 v0);
   I (ADDIU sp sp (-16));
   JAL "system_call_helper"; I NOP;
   I (ADDIU sp sp 16);
   J "exception_handler_exit"].

Definition handle_other : list line := [I (MFC0 k1 CP0_EPC); J "exception_handler_exit"].

Definition set_count_compare : list line :=
  (I <$> [LW_sym k0 "slice_size"; MTC0 k0 CP0_COMPARE; ADDIU k0 zero 0; MTC0 k0 CP0_COUNT]) ++
  [JR ra; I NOP].

Definition enable_int : list line :=
  [I (ADD k1 ra zero); JAL "set_count_compare"; I NOP;
   I (ADD ra k1 zero); I (MTC0 ra CP0_EPC);
   I (LI k0 0x8003); I NOP; I (MTC0 k0 CP0_STATUS); ERET].

Definition jmp_exception_handler_entry : list line :=
  [I (LA k0 "exception_handler_entry"); JR k0; I NOP].

Definition jmp_TLB_exception_handler_entry : list line := [J "TLB_exception_handler_entry"; I NOP].

(** Straight-line parts of the TLB handler. *)
Definition refill_find : list instr :=
  [MFC0 k0 CP0_BADVADDR; MOVE k1 k0;
   SRL k0 k0 21; SLL k0 k0 2;
   SRL k1 k1 13; ANDI k1 k1 510; SLL k1 k1 3;
   LW_sym t0 "current_running"; LW t2 PID t0;
   ADD k0 k0 t0; LW k0 PT k0].
Definition refill_load : list instr :=
  [LW t0 4 k0; LW t1 12 k0;
   MFC0 k0 CP0_BADVADDR; LI t3 0xffffe000; AND k0 k0 t3; OR k0 k0 t2;
   MTC0 t0 CP0_ENTRYLO0; MTC0 t1 CP0_ENTRYLO1; MTC0 k0 CP0_ENTRYHI;
   MTC0 zero CP0_PAGEMASK;
   TLBP; MFC0 k1 CP0_INDEX; SRL k1 k1 31].
Definition refill_check : list instr :=
  [TLBP; MFC0 k1 CP0_INDEX; TLBR;
   MFC0 t0 CP0_ENTRYHI; MFC0 t1 CP0_ENTRYLO0; MFC0 t2 CP0_ENTRYLO1].
Definition page_missing : list instr :=
  [LW_sym k0 "current_running"; LW sp 120 k0; MOVE fp sp;
   MFC0 a0 CP0_BADVADDR; SRL a0 a0 13; ADDIU sp sp (-4)].

Definition TLB_exception_handler_entry : list line :=
  (I <$> refill_find) ++
  [BEQZ k0 "2";
   I (ADD k0 k0 k1); I (LW t0 0 k0); BEQZ t0 "1"] ++
  (I <$> refill_load) ++
  [BEQ k1 zero "1";
   I TLBWR] ++
  (I <$> refill_check) ++
  [J "3";
   Label "1";
   I TLBWI;
   J "3";
   Label "2"] ++
  (I <$> SAVE_CONTEXT USER) ++
  (I <$> page_missing) ++
  [JAL "page_miss_handler"; I NOP; I (ADDIU sp sp 4)] ++
  (I <$> RESTORE_CONTEXT USER) ++
  [Label "3"; ERET; I NOP].

Definition do_reboot : list line :=
  [I (LI ra 0xa0800000); I (MTC0 zero CP0_STATUS); JR ra].

(** [syscall.S] *)
Definition invoke_syscall : list line :=
  [I (MOVE v0 a0); I (MOVE a0 a1); I (MOVE a1 a2); I (MOVE a2 a3);
   I (ADDIU sp sp (-8)); I (SW ra 0 sp);
   SYSCALL; I NOP;
   I (LW ra 0 sp); I (ADDIU sp sp 8); JR ra; I NOP].

Definition text : list (string * list line) :=
  [("asm_start", asm_start); ("do_scheduler", do_scheduler);
   ("exception_handler_entry", exception_handler_entry);
   ("exception_handler_exit", exception_handler_exit); ("handle_int", handle_int);
   ("handle_syscall", handle_syscall); ("handle_other", handle_other);
   ("set_count_compare", set_count_compare); ("enable_int", enable_int);
   ("jmp_exception_handler_entry", jmp_exception_handler_entry);
   ("jmp_TLB_exception_handler_entry", jmp_TLB_exception_handler_entry);
   ("TLB_exception_handler_entry", TLB_exception_handler_entry); ("do_reboot", do_reboot);
   ("invoke_syscall", invoke_syscall)].

(** ** Contexts in memory *)

(** The [regs_context_t] at an address. *)
Definition context_at (m : Z → Z) (b : Z) : regs_context_t :=
  RegsContext ((λ r, load32 m (b + OFFSET_REG r)) <$> seqZ 0 32)
    (load32 m (b + OFFSET_STATUS)) (load32 m (b + OFFSET_HI)) (load32 m (b + OFFSET_LO))
    (load32 m (b + OFFSET_BADVADDR)) (load32 m (b + OFFSET_CAUSE)) (load32 m (b + OFFSET_EPC))
    (load32 m (b + OFFSET_PC)).

(** The context [old] after the registers of [s] are saved in it: registers 0,
    k0 and k1 and [pc] keep their contents. *)
Definition saved_context (s : cpu) (old : regs_context_t) : regs_context_t :=
  RegsContext ((λ r, if decide (r ∈ general) then rd s r else regs old !!! Z.to_nat r) <$> seqZ 0 32)
    (cp0 s CP0_STATUS) (hi_reg s) (lo_reg s) (cp0 s CP0_BADVADDR) (cp0 s CP0_CAUSE) (cp0 s CP0_EPC)
    (pc old).

(** The words that [SAVE_CONTEXT] writes. *)
Definition general_words (s : cpu) : list (Z * Z) := (λ r, (OFFSET_REG r, rd s r)) <$> general.
Definition special_words (s : cpu) : list (Z * Z) :=
  [(OFFSET_STATUS, cp0 s CP0_STATUS); (OFFSET_HI, hi_reg s); (OFFSET_LO, lo_reg s);
   (OFFSET_BADVADDR, cp0 s CP0_BADVADDR); (OFFSET_CAUSE, cp0 s CP0_CAUSE);
   (OFFSET_EPC, cp0 s CP0_EPC)].
Definition saved_words (s : cpu) : list (Z * Z) := general_words s ++ special_words s.

(** A place for a context. *)
Definition ctx_ok (b : Z) : Prop := b mod 4 = 0 ∧ 2 ^ 31 ≤ b ∧ b + OFFSET_SIZE ≤ 2 ^ 32.

Lemma elem_of_general r : r ∈ general ↔ 1 ≤ r ≤ 31 ∧ r ≠ k0 ∧ r ≠ k1.
Proof.
  unfold general, k0, k1. rewrite elem_of_app, elem_of_seqZ.
  rewrite !elem_of_cons, elem_of_nil. lia.
Qed.

Lemma saved_words_apart s : words_apart (saved_words s).*1.
Proof. by split; apply (bool_decide_eq_true_1 _). Qed.

Lemma saved_words_range s o v :
  words_ok s → (o, v) ∈ saved_words s → 0 ≤ v < 2 ^ 32 ∧ 0 ≤ o ≤ OFFSET_EPC ∧ o mod 4 = 0.
Proof.
  intros Hs [(r & [= -> ->] & Hr%elem_of_general)%list_elem_of_fmap|Hin]%elem_of_app.
  - split; [by apply rd_word|]. unfold OFFSET_REG, OFFSET_EPC. split; [lia|].
    rewrite Z.mul_comm. by apply Z.mod_mul.
  - destruct Hs. unfold special_words in Hin.
    repeat (apply elem_of_cons in Hin as [[= -> ->]|Hin]; [split; [first [done|apply wo_cp0]|done]|]).
    by apply elem_of_nil in Hin.
Qed.

Lemma context_at_saved m s b :
  words_ok s →
  context_at (store_all b (saved_words s) m) b = saved_context s (context_at m b).
Proof.
  intros Hs. pose proof (saved_words_apart s) as Hap.
  assert (Hin : ∀ o v, (o, v) ∈ saved_words s →
    load32 (store_all b (saved_words s) m) (b + o) = v).
  { intros o v Hin. apply store_all_in; [done..|]. by apply (saved_words_range s o v). }
  unfold context_at, saved_context. f_equal; try (apply Hin; unfold saved_words, special_words;
    apply elem_of_app; right; set_solver).
  - apply list_fmap_ext. intros i r [-> Hi]%lookup_seqZ. case_decide as Hr.
    + apply Hin. apply elem_of_app. left. apply list_elem_of_fmap. by exists (0 + Z.of_nat i).
    + rewrite store_all_notin; [|apply Hap| |].
      * cbn [regs]. rewrite list_lookup_total_alt, list_lookup_fmap.
        by rewrite (proj2 (lookup_seqZ 0 32 (Z.to_nat (0 + Z.of_nat i)) (0 + Z.of_nat i))) by lia.
      * cbn beta. unfold OFFSET_REG. rewrite Z.mul_comm. by apply Z.mod_mul.
      * intros Hx. apply list_elem_of_fmap in Hx as ([o v] & Ho & Hx). cbn in Ho.
        apply elem_of_app in Hx as [(r & [= -> ->] & Hr')%list_elem_of_fmap|Hx].
        { apply Hr. unfold OFFSET_REG in Ho. by replace (Z.of_nat i) with r by lia. }
        unfold OFFSET_REG in *. cbn in Hx. set_unfold.
        destruct_or! Hx; apply (f_equal fst) in Hx; cbn in Hx; unfold OFFSET_STATUS, OFFSET_HI,
          OFFSET_LO, OFFSET_BADVADDR, OFFSET_CAUSE, OFFSET_EPC in *; lia.
  - apply store_all_notin; [apply Hap|done|]. by apply (bool_decide_eq_false_1 _).
Qed.

Section macros.
Context (symbol : string → Z).
Implicit Types (s : cpu) (b p : Z).

(** The word [current_running]. *)
Definition current (s : cpu) : Z := load32 (mem s) (symbol "current_running").
Definition current_ok : Prop :=
  2 ^ 31 ≤ symbol "current_running" ∧ symbol "current_running" mod 4 = 0.

Lemma load_current s : current_ok → lw (symbol "current_running") s = Ok (current s).
Proof. intros [? ?]. by apply lw_ok. Qed.

Lemma exec_stores l s b :
  rd s k0 = b → ctx_ok b → (∀ r, r ∈ l → r ∈ general) →
  exec_all symbol ((λ r, SW r (OFFSET_REG r) k0) <$> l) s =
    Ok (s <| mem ::= store_all b ((λ r, (OFFSET_REG r, rd s r)) <$> l) |>).
Proof.
  intros Hk (Hal & Hlo & Hhi). revert s Hk. induction l as [|r l IH]; intros s Hk Hl.
  { by destruct s. }
  assert (Hr : 1 ≤ r ≤ 31) by (apply elem_of_general, Hl; left).
  change (exec_all symbol (SW r (OFFSET_REG r) k0 :: ((λ r, SW r (OFFSET_REG r) k0) <$> l)) s =
    Ok (s <| mem ::= store_all b ((OFFSET_REG r, rd s r) :: ((λ r, (OFFSET_REG r, rd s r)) <$> l)) |>)).
  cbn [exec_all exec]. rewrite Hk. unfold OFFSET_SIZE, OFFSET_REG in *.
  rewrite u32_small by lia. rewrite sw_ok, bind_Ok by (lia || (Z.div_mod_to_equations; lia)).
  by rewrite IH by (done || (intros; apply Hl; by right)).
Qed.

Lemma exec_loads l s b :
  rd s k0 = b → ctx_ok b → (∀ r, r ∈ l → r ∈ general) →
  exec_all symbol ((λ r, LW r (OFFSET_REG r) k0) <$> l) s =
    Ok (s <| gpr ::= load_all (mem s) b l |>).
Proof.
  intros Hk (Hal & Hlo & Hhi). revert s Hk. induction l as [|r l IH]; intros s Hk Hl.
  { by destruct s. }
  assert (Hr : 1 ≤ r ≤ 31 ∧ r ≠ k0 ∧ r ≠ k1) by (apply elem_of_general, Hl; left).
  change (exec_all symbol (LW r (OFFSET_REG r) k0 :: ((λ r, LW r (OFFSET_REG r) k0) <$> l)) s =
    Ok (s <| gpr ::= load_all (mem s) b (r :: l) |>)).
  cbn [exec_all exec]. rewrite Hk. unfold OFFSET_SIZE, OFFSET_REG in *.
  rewrite u32_small by lia.
  rewrite lw_ok, !bind_Ok by (lia || (Z.div_mod_to_equations; lia)).
  rewrite IH; [|rewrite rd_wr_ne; [done|unfold k0 in *; lia]|intros; apply Hl; by right].
  unfold wr. rewrite (proj2 (Z.eqb_neq r 0)) by lia. done.
Qed.

(** What [SAVE_CONTEXT] leaves: only the context, k0 and k1 are changed. *)
Record saved (b : Z) (s s' : cpu) : Prop := {
  sv_context : context_at (mem s') b = saved_context s (context_at (mem s) b);
  sv_mem x : ¬ (b ≤ x < b + OFFSET_SIZE) → mem s' x = mem s x;
  sv_gpr r : r ≠ k0 → r ≠ k1 → rd s' r = rd s r;
  sv_hi : hi_reg s' = hi_reg s;
  sv_lo : lo_reg s' = lo_reg s;
  sv_cp0 : cp0 s' = cp0 s;
  sv_tlbs : tlbs s' = tlbs s;
}.

(** What [RESTORE_CONTEXT] leaves: the registers are those of the context, but
    for k0, k1 and the registers of coprocessor 0 other than [EPC]. *)
Record restored (b : Z) (s s' : cpu) : Prop := {
  rs_gpr r : r ∈ general → regs (context_at (mem s) b) !! Z.to_nat r = Some (rd s' r);
  rs_k0 : rd s' k0 = b;
  rs_hi : hi_reg s' = hi (context_at (mem s) b);
  rs_lo : lo_reg s' = lo (context_at (mem s) b);
  rs_cp0 : cp0 s' = fupd CP0_EPC (cp0_epc (context_at (mem s) b)) (cp0 s);
  rs_mem : mem s' = mem s;
  rs_tlbs : tlbs s' = tlbs s;
}.

(** Two states that agree on all but the general registers. *)
Record same_special (s s' : cpu) : Prop := {
  ss_hi : hi_reg s' = hi_reg s;
  ss_lo : lo_reg s' = lo_reg s;
  ss_cp0 : cp0 s' = cp0 s;
  ss_mem : mem s' = mem s;
  ss_tlbs : tlbs s' = tlbs s;
}.

Lemma current_ext s s' :
  (∀ x, symbol "current_running" ≤ x < symbol "current_running" + 4 → mem s' x = mem s x) →
  current s' = current s.
Proof. intros H. by apply load32_ext. Qed.

Lemma save_prologue offset s b :
  current_ok → u32 (current s + offset) = b →
  ∃ s1, exec_all symbol [LW_sym k0 "current_running"; ADDIU k0 k0 offset] s = Ok s1 ∧
    rd s1 k0 = b ∧ same_special s s1 ∧ ∀ r, r ≠ k0 → rd s1 r = rd s r.
Proof.
  intros Hc Hb. cbn [exec_all exec]. rewrite load_current, !bind_Ok by done.
  rewrite rd_wr by done. eexists. split; [done|]. rewrite Hb. split_and!.
  - by rewrite rd_wr.
  - done.
  - intros r Hr. by rewrite !rd_wr_ne.
Qed.

Definition offset_ok (o : Z) : bool := (0 <=? o) && (o <? OFFSET_SIZE) && (o mod 4 =? 0).

Lemma ctx_word b o :
  ctx_ok b → offset_ok o = true → u32 (b + o) = b + o ∧ 2 ^ 31 ≤ b + o ∧ (b + o) mod 4 = 0.
Proof.
  unfold ctx_ok, offset_ok, OFFSET_SIZE. intros (Hal & Hlo & Hhi) Ho.
  rewrite !andb_true_iff, Z.leb_le, Z.ltb_lt, Z.eqb_eq in Ho. destruct Ho as [[??] ?].
  rewrite u32_small by lia. split_and!; [done|lia|]. Z.div_mod_to_equations. lia.
Qed.

(** Two states that agree on all but k1 and memory. *)
Record same_regs (s s' : cpu) : Prop := {
  sr_gpr r : r ≠ k1 → rd s' r = rd s r;
  sr_hi : hi_reg s' = hi_reg s;
  sr_lo : lo_reg s' = lo_reg s;
  sr_cp0 : cp0 s' = cp0 s;
  sr_tlbs : tlbs s' = tlbs s;
}.

Lemma same_regs_refl s : same_regs s s.
Proof. done. Qed.

(** A special register, moved to k1 and saved. *)
Lemma exec_save mf get o ins s s1 b :
  (∀ s, exec symbol mf s = Ok (wr k1 (get s) s)) →
  (∀ s s', same_regs s s' → get s' = get s) →
  rd s k0 = b → ctx_ok b → offset_ok o = true → same_regs s s1 →
  ∃ s', exec_all symbol (mf :: SW k1 o k0 :: ins) s1 = exec_all symbol ins s' ∧
    mem s' = store32 (b + o) (get s) (mem s1) ∧ same_regs s s'.
Proof.
  intros Hmf Hget Hk Hb Ho Hs. destruct (ctx_word b o Hb Ho) as (Hu & ? & ?).
  exists (wr k1 (get s) s1 <| mem ::= store32 (b + o) (get s) |>).
  cbn [exec_all]. rewrite Hmf, bind_Ok. cbn [exec].
  rewrite rd_wr, rd_wr_ne, (sr_gpr s s1 Hs), Hk, Hu, sw_ok, bind_Ok, (Hget s s1 Hs) by done.
  split_and!; [done|done|]. destruct Hs as [Hg ? ? ? ?]. split; [|done..]. intros r Hr.
  rewrite <- Hg by done. by apply (rd_wr_ne k1 r (get s) s1).
Qed.

Lemma exec_specials s b :
  rd s k0 = b → ctx_ok b →
  ∃ s', exec_all symbol (drop 31 (SAVE_CONTEXT 0)) s = Ok s' ∧
    mem s' = store_all b (special_words s) (mem s) ∧ same_regs s s'.
Proof.
  intros Hk Hb.
  assert (Hz : ∀ s s' : cpu, same_regs s s' → ∀ c, cp0 s' c = cp0 s c) by (by intros ?? [_ _ _ -> _]).
  destruct (exec_save (MFC0 k1 CP0_STATUS) (λ s, cp0 s CP0_STATUS) OFFSET_STATUS
    (drop 33 (SAVE_CONTEXT 0)) s s b) as (s1 & E1 & M1 & S1); [done|eauto|done..|].
  destruct (exec_save (MFHI k1) hi_reg OFFSET_HI (drop 35 (SAVE_CONTEXT 0)) s s1 b)
    as (s2 & E2 & M2 & S2); [done|by intros ?? []|done..|].
  destruct (exec_save (MFLO k1) lo_reg OFFSET_LO (drop 37 (SAVE_CONTEXT 0)) s s2 b)
    as (s3 & E3 & M3 & S3); [done|by intros ?? []|done..|].
  destruct (exec_save (MFC0 k1 CP0_BADVADDR) (λ s, cp0 s CP0_BADVADDR) OFFSET_BADVADDR
    (drop 39 (SAVE_CONTEXT 0)) s s3 b) as (s4 & E4 & M4 & S4); [done|eauto|done..|].
  destruct (exec_save (MFC0 k1 CP0_CAUSE) (λ s, cp0 s CP0_CAUSE) OFFSET_CAUSE
    (drop 41 (SAVE_CONTEXT 0)) s s4 b) as (s5 & E5 & M5 & S5); [done|eauto|done..|].
  destruct (exec_save (MFC0 k1 CP0_EPC) (λ s, cp0 s CP0_EPC) OFFSET_EPC
    (drop 43 (SAVE_CONTEXT 0)) s s5 b) as (s6 & E6 & M6 & S6); [done|eauto|done..|].
  exists s6. split_and!; [|by rewrite M6, M5, M4, M3, M2, M1|done].
  etransitivity; [exact E1|]. etransitivity; [exact E2|]. etransitivity; [exact E3|].
  etransitivity; [exact E4|]. etransitivity; [exact E5|exact E6].
Qed.

Lemma SAVE_CONTEXT_spec offset s b :
  current_ok → words_ok s → u32 (current s + offset) = b → ctx_ok b →
  ∃ s', exec_all symbol (SAVE_CONTEXT offset) s = Ok s' ∧ saved b s s'.
Proof.
  intros Hc Hw Hb Hok. unfold SAVE_CONTEXT. rewrite exec_all_app.
  destruct (save_prologue offset s b Hc Hb) as (s1 & -> & Hk & Hs1 & Hr). rewrite bind_Ok.
  rewrite exec_all_app, (exec_stores general s1 b), bind_Ok by done.
  set (s2 := s1 <| mem ::= store_all b (general_words s1) |>).
  destruct (exec_specials s2 b Hk Hok) as (s' & E & M & [Sg Sh Sl Sc St]).
  change (drop 31 (SAVE_CONTEXT 0)) with (drop 31 (SAVE_CONTEXT offset)) in E.
  destruct Hs1 as [Eh El Ec Em Et].
  assert (Hg : general_words s1 = general_words s).
  { apply list_fmap_ext. intros i r Hi%list_elem_of_lookup_2%elem_of_general.
    by rewrite Hr by apply Hi. }
  assert (Hsp : special_words s2 = special_words s).
  { unfold special_words. change (hi_reg s2) with (hi_reg s1). change (lo_reg s2) with (lo_reg s1).
    change (cp0 s2) with (cp0 s1). by rewrite Eh, El, Ec. }
  assert (Hmem : mem s' = store_all b (saved_words s) (mem s)).
  { rewrite M, Hsp. change (mem s2) with (store_all b (general_words s1) (mem s1)).
    rewrite Hg, Em. unfold saved_words. symmetry. apply store_all_app. }
  exists s'. split; [exact E|]. split.
  - rewrite Hmem. by apply context_at_saved.
  - intros x Hx. rewrite Hmem. apply store_all_out.
    intros o v (_ & Ho & _)%(saved_words_range _ _ _ Hw). unfold OFFSET_EPC, OFFSET_SIZE in *. lia.
  - intros r H0 H1. rewrite Sg by done. by apply Hr.
  - by rewrite Sh.
  - by rewrite Sl.
  - by rewrite Sc.
  - by rewrite St.
Qed.

(** A word of the context, loaded into k1. *)
Lemma exec_load o s b :
  rd s k0 = b → ctx_ok b → offset_ok o = true →
  exec symbol (LW k1 o k0) s = Ok (wr k1 (load32 (mem s) (b + o)) s).
Proof.
  intros Hk Hb Ho. destruct (ctx_word b o Hb Ho) as (Hu & ? & ?).
  cbn [exec]. by rewrite Hk, Hu, lw_ok.
Qed.

Lemma regs_lookup m b r :
  0 ≤ r < 32 → regs (context_at m b) !! Z.to_nat r = Some (load32 m (b + OFFSET_REG r)).
Proof.
  intros Hr. cbn. rewrite list_lookup_fmap, (proj2 (lookup_seqZ 0 32 (Z.to_nat r) r)); [done|lia].
Qed.

Lemma reload_specials s b :
  rd s k0 = b → ctx_ok b →
  ∃ s', exec_all symbol (drop 31 (RESTORE_CONTEXT 0)) s = Ok s' ∧
    (∀ r, r ≠ k1 → rd s' r = rd s r) ∧
    hi_reg s' = load32 (mem s) (b + OFFSET_HI) ∧ lo_reg s' = load32 (mem s) (b + OFFSET_LO) ∧
    cp0 s' = fupd CP0_EPC (load32 (mem s) (b + OFFSET_EPC)) (cp0 s) ∧
    mem s' = mem s ∧ tlbs s' = tlbs s.
Proof.
  intros Hk Hb.
  assert (Hl : ∀ o ins s, rd s k0 = b → offset_ok o = true →
    exec_all symbol (LW k1 o k0 :: ins) s = exec_all symbol ins (wr k1 (load32 (mem s) (b + o)) s)).
  { intros o ins s' Hs Ho. apply exec_all_cons. by apply exec_load. }
  assert (Hw : ∀ v s, rd s k0 = b → rd (wr k1 v s) k0 = b) by (intros; by rewrite rd_wr_ne).
  eexists. split.
  { change (drop 31 (RESTORE_CONTEXT 0)) with
      [LW k1 OFFSET_STATUS k0; LW k1 OFFSET_HI k0; MTHI k1; LW k1 OFFSET_LO k0; MTLO k1;
       LW k1 OFFSET_BADVADDR k0; MTC0 k1 CP0_BADVADDR; LW k1 OFFSET_CAUSE k0;
       LW k1 OFFSET_EPC k0; MTC0 k1 CP0_EPC].
    rewrite Hl by done. rewrite Hl by (done || by apply Hw).
    erewrite (exec_all_cons _ (MTHI k1)) by reflexivity. rewrite Hl by done.
    erewrite (exec_all_cons _ (MTLO k1)) by reflexivity. rewrite Hl by done.
    erewrite (exec_all_cons _ (MTC0 k1 _)) by reflexivity. rewrite Hl by done. rewrite Hl by done.
    erewrite (exec_all_cons _ (MTC0 k1 _)) by reflexivity. reflexivity. }
  split_and!; [|reflexivity..].
  intros r Hr. unfold rd. destruct (r =? 0); [done|]. cbn. unfold fupd.
  by rewrite (proj2 (Z.eqb_neq r k1)).
Qed.

Lemma RESTORE_CONTEXT_spec offset s b :
  current_ok → u32 (current s + offset) = b → ctx_ok b →
  ∃ s', exec_all symbol (RESTORE_CONTEXT offset) s = Ok s' ∧ restored b s s'.
Proof.
  intros Hc Hb Hok. unfold RESTORE_CONTEXT. rewrite exec_all_app.
  destruct (save_prologue offset s b Hc Hb) as (s1 & -> & Hk & [Eh El Ec Em Et] & _).
  rewrite bind_Ok, exec_all_app, (exec_loads general s1 b), bind_Ok by done.
  set (s2 := s1 <| gpr ::= load_all (mem s1) b general |>).
  assert (Hk2 : rd s2 k0 = b).
  { refine (eq_trans (load_all_notin (mem s1) b general (gpr s1) k0 _) Hk).
    by apply (bool_decide_eq_false_1 _). }
  assert (Hg : ∀ r, r ∈ general → gpr s2 r = load32 (mem s) (b + OFFSET_REG r)).
  { intros r Hr. rewrite <- Em. by apply (load_all_in (mem s1) b general (gpr s1) r). }
  change (cp0 s2 = cp0 s) in Ec. change (mem s2 = mem s) in Em. change (tlbs s2 = tlbs s) in Et.
  clearbody s2. destruct (reload_specials s2 b Hk2 Hok) as (s' & E & Hr & H1 & H2 & H3 & H4 & H5).
  exists s'. split; [exact E|]. rewrite Em in *. rewrite Ec in H3. rewrite Et in H5.
  split; [|rewrite Hr; done|done..].
  intros r Hg'. pose proof (proj1 (elem_of_general r) Hg') as (Hr1 & _ & Hr2).
  rewrite regs_lookup, Hr by (lia || done). f_equal. unfold rd.
  rewrite (proj2 (Z.eqb_neq r 0)) by lia. by rewrite Hg.
Qed.
End macros.

Lemma context_at_ext m m' b :
  (∀ x, b ≤ x < b + OFFSET_SIZE → m' x = m x) → context_at m' b = context_at m b.
Proof.
  intros H. unfold OFFSET_SIZE in H.
  assert (Hw : ∀ o, 0 ≤ o ≤ 152 → load32 m' (b + o) = load32 m (b + o)).
  { intros o Ho. apply load32_ext. intros x Hx. apply H. lia. }
  unfold context_at. f_equal; try (apply Hw; done).
  apply list_fmap_ext. intros i r [-> Hi]%lookup_seqZ. apply Hw. unfold OFFSET_REG. lia.
Qed.

(** ** The routines *)

Section routines.
(** Addresses of labels and variables, and the C functions. *)
Context (symbol : string → Z) (call : string → cpu → outcome cpu).
Context (symbol_word : ∀ x, word (symbol x)) (current_place : current_ok symbol).
Notation R := (runs symbol text call).
Notation current := (current symbol).

(** A place for a process table entry. *)
Definition proc_ok (p : Z) : Prop :=
  p mod 4 = 0 ∧ 2 ^ 31 ≤ p ∧ p + PID + 4 ≤ 2 ^ 32 ∧
  (symbol "current_running" + 4 ≤ p ∨ p + PID + 4 ≤ symbol "current_running").

Lemma proc_ctx p o : proc_ok p → o = KERNEL ∨ o = USER → u32 (p + o) = p + o ∧ ctx_ok (p + o).
Proof.
  unfold proc_ok, PID, KERNEL, USER, ctx_ok, OFFSET_SIZE. intros (Hm & Hlo & Hhi & _) Ho.
  rewrite u32_small by lia. split; [done|]. split_and!; [|lia..].
  destruct Ho as [-> | ->]; Z.div_mod_to_equations; lia.
Qed.

Lemma saved_current b s s' :
  saved b s s' →
  (symbol "current_running" + 4 ≤ b ∨ b + OFFSET_SIZE ≤ symbol "current_running") →
  current s' = current s.
Proof. intros [_ Hm _ _ _ _ _] H. apply current_ext. intros x Hx. apply Hm. lia. Qed.

Lemma restored_current b s s' : restored b s s' → current s' = current s.
Proof. intros [_ _ _ _ _ Hm _]. unfold current. by rewrite Hm. Qed.

Lemma runs_save o s :
  words_ok s → proc_ok (current s) → o = KERNEL ∨ o = USER →
  ∃ s1, saved (current s + o) s s1 ∧ words_ok s1 ∧ current s1 = current s ∧
    ∀ ls e s', R ls s1 e s' → R ((I <$> SAVE_CONTEXT o) ++ ls) s e s'.
Proof.
  intros Hw Hp Ho. destruct (proc_ctx _ _ Hp Ho) as [Hu Hc].
  destruct (SAVE_CONTEXT_spec symbol o s _ current_place Hw Hu Hc) as (s1 & E & Hs).
  exists s1. split_and!; [done| | |].
  - by apply (exec_all_words symbol (SAVE_CONTEXT o) s s1).
  - eapply saved_current; [done|]. destruct Hp as (_ & _ & _ & Hp).
    unfold PID, OFFSET_SIZE, KERNEL, USER in *. lia.
  - intros ls e s'. by apply runs_block.
Qed.

Lemma runs_restore o s :
  words_ok s → proc_ok (current s) → o = KERNEL ∨ o = USER →
  ∃ s1, restored (current s + o) s s1 ∧ words_ok s1 ∧ current s1 = current s ∧
    ∀ ls e s', R ls s1 e s' → R ((I <$> RESTORE_CONTEXT o) ++ ls) s e s'.
Proof.
  intros Hw Hp Ho. destruct (proc_ctx _ _ Hp Ho) as [Hu Hc].
  destruct (RESTORE_CONTEXT_spec symbol o s _ current_place Hu Hc) as (s1 & E & Hs).
  exists s1. split_and!; [done| | |].
  - by apply (exec_all_words symbol (RESTORE_CONTEXT o) s s1).
  - by eapply restored_current.
  - intros ls e s'. by apply runs_block.
Qed.

(** [do_scheduler]: [scheduler] runs between the saving and the restoring. *)
Lemma do_scheduler_runs s :
  words_ok s → proc_ok (current s) →
  ∃ s1, saved (current s) s s1 ∧ words_ok s1 ∧ current s1 = current s ∧
    ∀ s2, call "scheduler" s1 = Ok s2 → words_ok s2 → proc_ok (current s2) →
      ∃ s', restored (current s2) s2 s' ∧ words_ok s' ∧ R do_scheduler s (Jump (rd s' ra)) s'.
Proof.
  intros Hw Hp. destruct (runs_save KERNEL s Hw Hp) as (s1 & Hs & Hw1 & Hc1 & Hrun); [by left|].
  unfold KERNEL in Hs. rewrite Z.add_0_r in Hs. exists s1. split_and!; [done..|].
  intros s2 Hcall Hw2 Hp2.
  destruct (runs_restore KERNEL s2 Hw2 Hp2) as (s' & Hr & Hw' & _ & Hrun'); [by left|].
  unfold KERNEL in Hr. rewrite Z.add_0_r in Hr. exists s'. split_and!; [done..|].
  apply Hrun. eapply runs_JAL; [done|]. apply runs_NOP, Hrun', runs_JR.
Qed.

(** The processor runs with the general registers, [hi] and [lo] of a context. *)
Record loaded (x : regs_context_t) (s : cpu) : Prop := {
  ld_gpr r : r ∈ general → regs x !! Z.to_nat r = Some (rd s r);
  ld_hi : hi_reg s = hi x;
  ld_lo : lo_reg s = lo x;
}.

(** [exception_handler_exit] *)
Lemma exit_runs s :
  words_ok s → proc_ok (current s) →
  let x := context_at (mem s) (current s + USER) in
  ∃ s', R exception_handler_exit s (Resume (cp0_epc x)) s' ∧ loaded x s' ∧
    cp0 s' CP0_STATUS = 0x8801 ∧ mem s' = mem s.
Proof.
  intros Hw Hp x. destruct (runs_restore USER s Hw Hp) as (s1 & Hr & Hw1 & _ & Hrun); [by right|].
  set (s2 := wr_cp0 CP0_STATUS 0x8803 (wr k0 0x8803 s1)).
  exists (leave s2). split_and!; [| |done|exact (rs_mem _ _ _ Hr)].
  - apply Hrun. eapply runs_I; [reflexivity|]. apply runs_NOP. eapply runs_I; [reflexivity|].
    replace (cp0_epc x) with (cp0 s2 CP0_EPC); [apply runs_ERET|].
    cbn. by rewrite (rs_cp0 _ _ _ Hr).
  - destruct Hr as [Hg _ Hh Hl _ _ _]. split; [|exact Hh|exact Hl].
    intros r Hr. unfold x. rewrite (Hg r Hr). f_equal. apply elem_of_general in Hr as (_ & H0 & _).
    by rewrite <- (rd_wr_ne k0 r 0x8803 s1 H0).
Qed.

(** States that agree on all but k0 and k1. *)
Record same_but_k (s s' : cpu) : Prop := {
  sk_gpr r : r ≠ k0 → r ≠ k1 → rd s' r = rd s r;
  sk_special : same_special s s';
}.

Lemma same_but_k_refl s : same_but_k s s.
Proof. done. Qed.

Lemma same_but_k_wr r v s s' : r = k0 ∨ r = k1 → same_but_k s s' → same_but_k s (wr r v s').
Proof.
  intros Hr [Hg []]. split.
  - intros r' H0 H1. rewrite rd_wr_ne by (destruct Hr; congruence). by apply Hg.
  - unfold wr. by destruct (r =? 0).
Qed.

Lemma saved_k b s s1 s2 : saved b s s1 → same_but_k s1 s2 → saved b s s2.
Proof.
  intros [H1 H2 H3 H4 H5 H6 H7] [Hg [G1 G2 G3 G4 G5]].
  split; try congruence.
  - intros x Hx. by rewrite G4, H2.
  - intros r Hk Hk'. by rewrite Hg, H3.
Qed.

Lemma saved_context_k s s' old : same_but_k s s' → saved_context s' old = saved_context s old.
Proof.
  intros [Hg [G1 G2 G3 _ _]]. unfold saved_context. rewrite G1, G2, G3. f_equal.
  apply list_fmap_ext. intros i r Hi. case_decide as Hr; [|done].
  apply elem_of_general in Hr as (_ & ? & ?). by apply Hg.
Qed.

Lemma k_saved b s s1 s2 : same_but_k s s1 → saved b s1 s2 → saved b s s2.
Proof.
  intros Hk [H1 H2 H3 H4 H5 H6 H7]. pose proof Hk as [Hg [G1 G2 G3 G4 G5]].
  split; try congruence.
  - by rewrite H1, (saved_context_k s s1), G4.
  - intros x Hx. by rewrite H2, G4.
  - intros r ? ?. by rewrite H3, Hg.
Qed.

Definition ExcCode (s : cpu) : Z := Z.land (Z.shiftr (cp0 s CP0_CAUSE) 2) 31.

Definition handler_of (code : Z) : list line :=
  if code =? 0 then handle_int
  else if (code =? 2) || (code =? 3) then TLB_exception_handler_entry
  else if code =? 8 then handle_syscall
  else handle_other.

(** One way through the branches; [step] takes a branch or passes it. *)
Ltac dispatch_case step :=
  eexists; split; [|split];
  [| |intros ? ? ?; repeat first [eassumption | step | apply runs_NOP | eapply runs_I; [reflexivity|]]];
  [repeat apply same_but_k_wr; auto using same_but_k_refl|words].

Lemma dispatch_runs s :
  words_ok s →
  ∃ s2, same_but_k s s2 ∧ words_ok s2 ∧
    ∀ e s', R (handler_of (ExcCode s)) s2 e s' → R dispatch s e s'.
Proof.
  intros Hw. set (c := ExcCode s).
  assert (Hc : word c) by (apply word_land, word_shiftr; [by apply wo_cp0|done]).
  assert (Hsh : word (Z.shiftr (cp0 s CP0_CAUSE) 2)) by (apply word_shiftr; [by apply wo_cp0|done]).
  unfold handler_of.
  destruct (Z.eqb_spec c 0) as [E0|E0].
  { dispatch_case ltac:(eapply runs_BEQ; [reflexivity|exact E0|]). }
  destruct (Z.eqb_spec c 2) as [E2|E2].
  { dispatch_case ltac:(first
      [apply runs_BEQ_ne; [exact E0|]|eapply runs_BEQ; [reflexivity|exact E2|]]). }
  destruct (Z.eqb_spec c 3) as [E3|E3].
  { dispatch_case ltac:(first
      [apply runs_BEQ_ne; [first [exact E0|exact E2]|]|eapply runs_BEQ; [reflexivity|exact E3|]]). }
  destruct (Z.eqb_spec c 8) as [E8|E8].
  { dispatch_case ltac:(first
      [apply runs_BEQ_ne; [first [exact E0|exact E2|exact E3]|]
      |eapply runs_BEQ; [reflexivity|exact E8|]]). }
  dispatch_case ltac:(first [apply runs_BEQ_ne;
    [first [exact E0|exact E2|exact E3|exact E8]|]|eapply runs_J; [reflexivity|]]).
Qed.

(** The user context is saved, and the handler of the exception runs. *)
Lemma entry_runs s :
  words_ok s → proc_ok (current s) →
  ∃ s2, saved (current s + USER) s s2 ∧ words_ok s2 ∧ current s2 = current s ∧
    ∀ e s', R (handler_of (ExcCode s)) s2 e s' → R exception_handler_entry s e s'.
Proof.
  intros Hw Hp. set (s0 := wr k1 (cp0 s CP0_EPC) s).
  assert (Hk0 : same_but_k s s0) by (apply same_but_k_wr; auto using same_but_k_refl).
  destruct (runs_save USER s0) as (s1 & Hs1 & Hw1 & Hc1 & Hrun);
    [unfold s0; words|exact Hp|by right|].
  destruct (dispatch_runs s1 Hw1) as (s2 & Hk2 & Hw2 & Hrun2).
  assert (Hs2 : saved (current s + USER) s s2) by (eapply saved_k, Hk2; by eapply k_saved).
  exists s2. split_and!; [done|done| |].
  - destruct Hk2 as [_ [_ _ _ Hm _]]. unfold current. rewrite Hm. exact Hc1.
  - intros e s' H. eapply runs_I; [reflexivity|]. apply Hrun, Hrun2.
    unfold ExcCode. by rewrite (sv_cp0 _ _ _ Hs1).
Qed.

(** [handle_other] returns to the instruction that raised the exception. *)
Lemma handle_other_runs s e s' :
  R exception_handler_exit (wr k1 (cp0 s CP0_EPC) s) e s' → R handle_other s e s'.
Proof. intros H. eapply runs_I; [reflexivity|]. eapply runs_J; [reflexivity|exact H]. Qed.

(** What [interrupt_helper] is called with: the kernel context, and the causes. *)
Record int_call (s s1 : cpu) : Prop := {
  ic_status : rd s1 a0 = cp0 s CP0_STATUS;
  ic_cause : rd s1 a1 = cp0 s CP0_CAUSE;
  ic_gpr r : r ∈ general → r ≠ a0 → r ≠ a1 → r ≠ sp →
    regs (context_at (mem s) (current s)) !! Z.to_nat r = Some (rd s1 r);
  ic_sp : rd s1 sp = u32 (load32 (mem s) (current s + OFFSET_REG 29) - 8);
  ic_words : words_ok s1;
  ic_mem : mem s1 = mem s;
}.

(** [handle_int]: the interrupt handler runs in the kernel context, which is
    saved again when it returns. *)
Lemma handle_int_runs s :
  words_ok s → proc_ok (current s) →
  ∃ s1, int_call s s1 ∧
    ∀ s2, call "interrupt_helper" s1 = Ok s2 → words_ok s2 → proc_ok (current s2) →
      ∃ s3, saved (current s2) (wr sp (u32 (rd s2 sp + 8)) s2) s3 ∧ words_ok s3 ∧
        current s3 = current s2 ∧
        ∀ e s', R exception_handler_exit s3 e s' → R handle_int s e s'.
Proof.
  intros Hw Hp. destruct (runs_restore KERNEL s Hw Hp) as (s0 & Hr & Hw0 & Hc0 & Hrun); [by left|].
  unfold KERNEL in Hr. rewrite Z.add_0_r in Hr.
  set (s1 := wr a1 (cp0 s0 CP0_CAUSE) (wr a0 (cp0 s0 CP0_STATUS) (wr sp (u32 (rd s0 sp + -8)) s0))).
  exists s1. split.
  - split.
    + unfold s1. rewrite rd_wr_ne, rd_wr by done. by rewrite (rs_cp0 _ _ _ Hr).
    + unfold s1. rewrite rd_wr by done. by rewrite (rs_cp0 _ _ _ Hr).
    + intros r Hg ? ? ?. unfold s1. rewrite !rd_wr_ne by done. by apply (rs_gpr _ _ _ Hr).
    + unfold s1. rewrite !rd_wr_ne, rd_wr by done. f_equal. pose proof (rs_gpr _ _ _ Hr 29) as H29.
      rewrite regs_lookup in H29 by done. injection H29 as ->; [done|by apply elem_of_general].
    + unfold s1. words.
    + exact (rs_mem _ _ _ Hr).
  - intros s2 Hcall Hw2 Hp2.
    destruct (runs_save KERNEL (wr sp (u32 (rd s2 sp + 8)) s2)) as (s3 & Hs3 & Hw3 & Hc3 & Hrun3);
      [words|exact Hp2|by left|].
    unfold KERNEL in Hs3. rewrite Z.add_0_r in Hs3. exists s3. split_and!; [done..|].
    intros e s' H. apply Hrun. do 3 (eapply runs_I; [reflexivity|]).
    eapply runs_JAL; [exact Hcall|]. apply runs_NOP. eapply runs_I; [reflexivity|].
    apply Hrun3. eapply runs_J; [reflexivity|exact H].
Qed.

(** The store of an incremented [EPC] in the user context. *)
Lemma context_at_epc m b v :
  word v → context_at (store32 (b + OFFSET_EPC) v m) b = context_at m b <| cp0_epc := v |>.
Proof.
  intros Hv. unfold context_at, OFFSET_EPC.
  assert (Hne : ∀ o, 0 ≤ o ≤ 144 ∨ o = 152 → load32 (store32 (b + 148) v m) (b + o) = load32 m (b + o)).
  { intros o Ho. apply load32_store32_ne. lia. }
  rewrite load32_store32 by done.
  rewrite !Hne by (unfold OFFSET_STATUS, OFFSET_HI, OFFSET_LO, OFFSET_BADVADDR, OFFSET_CAUSE,
    OFFSET_PC; lia).
  replace ((λ r, load32 (store32 (b + 148) v m) (b + OFFSET_REG r)) <$> seqZ 0 32)
    with ((λ r, load32 m (b + OFFSET_REG r)) <$> seqZ 0 32); [done|].
  apply list_fmap_ext. intros i r [-> Hi]%lookup_seqZ. symmetry. apply Hne. unfold OFFSET_REG. lia.
Qed.

(** What [system_call_helper] is called with. *)
Record helper_call (s s1 : cpu) : Prop := {
  hc_fn : rd s1 a0 = rd s v0;
  hc_arg1 : rd s1 a1 = rd s a0;
  hc_arg2 : rd s1 a2 = rd s a1;
  hc_arg3 : rd s1 a3 = rd s a2;
  hc_fp : rd s1 fp = load32 (mem s) (current s + OFFSET_REG 30);
  hc_sp : rd s1 sp = u32 (rd s1 fp - 16);
  hc_words : words_ok s1;
  hc_mem : mem s1 = store32 (current s + USER + OFFSET_EPC)
    (u32 (cp0_epc (context_at (mem s) (current s + USER)) + 4)) (mem s);
}.

Lemma helper_current s s1 : proc_ok (current s) → helper_call s s1 → current s1 = current s.
Proof.
  intros (_ & _ & _ & Hp) [_ _ _ _ _ _ _ Hm]. apply current_ext. intros x Hx. rewrite Hm.
  apply store32_ne. unfold PID, USER, OFFSET_EPC in *. lia.
Qed.

Lemma helper_context s s1 :
  helper_call s s1 →
  context_at (mem s1) (current s + USER) =
    context_at (mem s) (current s + USER)
      <| cp0_epc := u32 (cp0_epc (context_at (mem s) (current s + USER)) + 4) |> ∧
  context_at (mem s1) (current s) = context_at (mem s) (current s).
Proof.
  intros [_ _ _ _ _ _ _ Hm]. rewrite Hm. split; [apply context_at_epc, word_u32|].
  apply context_at_ext. intros x Hx. apply store32_ne. unfold USER, OFFSET_EPC, OFFSET_SIZE in *. lia.
Qed.

Lemma proc_word p o :
  proc_ok p → 0 ≤ o ≤ PID → o mod 4 = 0 →
  u32 (p + o) = p + o ∧ 2 ^ 31 ≤ p + o ∧ (p + o) mod 4 = 0.
Proof.
  unfold proc_ok, PID. intros (Hm & Hlo & Hhi & _) Ho Ho4. rewrite u32_small by lia.
  split_and!; [done|lia|]. Z.div_mod_to_equations. lia.
Qed.

Lemma handle_syscall_runs s :
  words_ok s → proc_ok (current s) →
  ∃ s1, helper_call s s1 ∧
    ∀ s2 e s', call "system_call_helper" s1 = Ok s2 → 
      R exception_handler_exit (wr sp (u32 (rd s2 sp + 16)) s2) e s' → R handle_syscall s e s'.
Proof.
  intros Hw Hp. set (c := current s) in *.
  destruct (proc_word c 156 Hp) as (U1 & L1 & A1); [done..|].
  destruct (proc_word c 304 Hp) as (U2 & L2 & A2); [done..|].
  destruct (proc_word c 120 Hp) as (U3 & L3 & A3); [done..|].
  set (v := u32 (load32 (mem s) (c + 304) + 4)).
  set (m := store32 (c + 304) v (mem s)).
  set (f := load32 m (c + 120)).
  assert (Hcm : load32 m (symbol "current_running") = c).
  { destruct Hp as (_ & _ & _ & Hp). apply load32_store32_ne. unfold PID in Hp. lia. }
  set (t2 := wr k0 (c + 156) (wr k0 c s)).
  set (t4 := wr k1 v (wr k1 (load32 (mem s) (c + 304)) t2)).
  set (t5 := t4 <| mem ::= store32 (c + 304) v |>).
  set (t7 := wr sp f (wr k0 c t5)).
  set (t := wr fp f t7).
  assert (E1 : exec_all symbol [LW_sym k0 "current_running"; ADDIU k0 k0 USER; LW k1 148 k0;
    ADDIU k1 k1 4; SW k1 148 k0] s = Ok t5).
  { erewrite exec_all_cons by (cbn [exec]; by rewrite load_current).
    erewrite (exec_all_cons _ (ADDIU k0 k0 USER) _ _ t2) by
      (unfold t2; rewrite <- U1; reflexivity).
    erewrite (exec_all_cons _ (LW k1 148 k0)).
    2: { cbn [exec]. change (rd t2 k0) with (c + 156). replace (c + 156 + 148) with (c + 304) by lia.
         rewrite U2, lw_ok by done. reflexivity. }
    erewrite (exec_all_cons _ (ADDIU k1 k1 4) _ _ t4) by reflexivity.
    erewrite (exec_all_cons _ (SW k1 148 k0)); [reflexivity|].
    cbn [exec]. change (rd t4 k0) with (c + 156). replace (c + 156 + 148) with (c + 304) by lia.
    rewrite U2, sw_ok by done. reflexivity. }
  assert (E2 : exec_all symbol [LW_sym k0 "current_running"; LW sp 120 k0; MOVE fp sp] t5 = Ok t).
  { erewrite (exec_all_cons _ _ _ _ (wr k0 c t5)).
    2: { cbn [exec]. rewrite load_current by done. unfold current.
         change (mem t5) with m. by rewrite Hcm. }
    erewrite (exec_all_cons _ _ _ _ t7); [reflexivity|].
    cbn [exec]. change (rd (wr k0 c t5) k0) with c. rewrite U3, lw_ok by done. reflexivity. }
  set (t' := wr sp (u32 (f + -16)) (wr a0 (rd s v0) (wr a1 (rd s a0) (wr a2 (rd s a1)
    (wr a3 (rd s a2) t))))).
  assert (E3 : exec_all symbol [MOVE a3 a2; MOVE a2 a1; MOVE a1 a0; MOVE a0 v0; ADDIU sp sp (-16)] t
    = Ok t') by reflexivity.
  assert (Hf : f = load32 (mem s) (c + OFFSET_REG 30)) by 
    (unfold f, OFFSET_REG; apply load32_store32_ne; lia).
  exists t'. split.
  - split; try reflexivity.
    + exact Hf.
    + refine (exec_all_words symbol _ _ _ symbol_word E3 eq_refl _).
      refine (exec_all_words symbol _ _ _ symbol_word E2 eq_refl _).
      exact (exec_all_words symbol _ _ _ symbol_word E1 eq_refl Hw).
    + change (mem t') with m. fold c.
      change (cp0_epc (context_at (mem s) (c + USER))) with (load32 (mem s) (c + USER + OFFSET_EPC)).
      by replace (c + USER + OFFSET_EPC) with (c + 304) by (unfold USER, OFFSET_EPC; lia).
  - intros s2 e s' Hcall Hrun.
    eapply (runs_block _ _ _ [_; _; _; _; _] _ _ _ _ _ E1).
    eapply (runs_block _ _ _ [_; _; _] _ _ _ _ _ E2).
    eapply (runs_block _ _ _ [_; _; _; _; _] _ _ _ _ _ E3).
    eapply runs_JAL; [exact Hcall|]. apply runs_NOP. eapply runs_I; [reflexivity|].
    eapply runs_J; [reflexivity|exact Hrun].
Qed.

(** ** Exceptions are transparent *)

(** The function returns to the process for which it was called, whose user
    context it does not change; other processes may have run meanwhile. *)
Definition keeps_user (f : string) (c : Z) (x : regs_context_t) : Prop :=
  ∀ s1, words_ok s1 → current s1 = c → context_at (mem s1) (c + USER) = x →
    ∃ s2, call f s1 = Ok s2 ∧ words_ok s2 ∧ current s2 = c ∧ context_at (mem s2) (c + USER) = x.

Lemma take_exception_code code epc s : 0 ≤ code < 32 → ExcCode (take_exception code epc s) = code.
Proof.
  intros Hc. unfold ExcCode, take_exception. cbn.
  rewrite Z.shiftr_lor, Z.shiftr_ldiff, Z.shiftr_shiftl_l by done. rewrite Z.shiftl_0_r.
  rewrite Z.land_lor_distr_l. change (Z.shiftr 124 2) with 31. change 31 with (Z.ones 5).
  rewrite (Z.land_ones code), Z.mod_small by lia. by rewrite Z.land_ldiff.
Qed.

Lemma take_exception_words code epc s :
  0 ≤ code < 32 → word epc → words_ok s → words_ok (take_exception code epc s).
Proof.
  intros Hc He Hs. assert (Hcode : word (Z.shiftl code 2)).
  { unfold word. rewrite Z.shiftl_mul_pow2 by done. lia. }
  assert (word 2) by done. destruct Hs. split; try done.
  intros r. cbn. repeat apply fupd_word; auto using word_lor, word_ldiff.
Qed.

Lemma saved_lookup s old r :
  r ∈ general → regs (saved_context s old) !! Z.to_nat r = Some (rd s r).
Proof.
  intros Hr. pose proof (proj1 (elem_of_general r) Hr) as (H & _). cbn.
  rewrite list_lookup_fmap, (proj2 (lookup_seqZ 0 32 (Z.to_nat r) r)) by lia. cbn.
  by rewrite decide_True.
Qed.

Lemma loaded_saved s old v s' :
  loaded (saved_context s old <| cp0_epc := v |>) s' →
  (∀ r, r ∈ general → rd s' r = rd s r) ∧ hi_reg s' = hi_reg s ∧ lo_reg s' = lo_reg s.
Proof.
  intros [Hg Hh Hl]. split; [|done]. intros r Hr. specialize (Hg r Hr).
  change (regs (saved_context s old) !! Z.to_nat r = Some (rd s' r)) in Hg.
  rewrite saved_lookup in Hg by done. by injection Hg.
Qed.

(** The state [s] has the registers of [s0] again, in process [c]. *)
Record resumed (s0 : cpu) (c : Z) (s : cpu) : Prop := {
  rm_gpr r : r ∈ general → rd s r = rd s0 r;
  rm_hi : hi_reg s = hi_reg s0;
  rm_lo : lo_reg s = lo_reg s0;
  rm_current : current s = c;
  rm_status : cp0 s CP0_STATUS = 0x8801;
}.

Lemma exit_resumed s0 old c v s :
  words_ok s → proc_ok c → current s = c →
  context_at (mem s) (c + USER) = saved_context s0 old <| cp0_epc := v |> →
  ∃ s', R exception_handler_exit s (Resume v) s' ∧ resumed s0 c s' ∧ mem s' = mem s.
Proof.
  intros Hw Hp Hc Hx. destruct (exit_runs s Hw) as (s' & Hr & Hl & Hst & Hm); [by rewrite Hc|].
  rewrite Hc, Hx in Hr, Hl. exists s'. split_and!; [exact Hr| |exact Hm].
  destruct (loaded_saved _ _ _ _ Hl) as (Hg & Hh & Hlo).
  split; [exact Hg|exact Hh|exact Hlo| |exact Hst]. unfold current. by rewrite Hm.
Qed.

(** The call of [system_call_helper] out of the exception state [s0]. *)
Record syscall_entry (s0 s1 : cpu) : Prop := {
  se_words : words_ok s1;
  se_current : current s1 = current s0;
  se_args : rd s1 a0 = rd s0 v0 ∧ rd s1 a1 = rd s0 a0 ∧ rd s1 a2 = rd s0 a1 ∧ rd s1 a3 = rd s0 a2;
  se_fp : rd s1 fp = load32 (mem s0) (current s0 + OFFSET_REG 30);
  se_sp : rd s1 sp = u32 (rd s1 fp - 16);
  se_context : context_at (mem s1) (current s0 + USER) =
    saved_context s0 (context_at (mem s0) (current s0 + USER)) <| cp0_epc := u32 (cp0 s0 CP0_EPC + 4) |>;
  se_mem y : ¬ (current s0 + USER ≤ y < current s0 + USER + OFFSET_SIZE) → mem s1 y = mem s0 y;
}.

Lemma syscall_returns s0 (P : (Z → Z) → Prop) :
  words_ok s0 → proc_ok (current s0) → ExcCode s0 = 8 →
  (∀ s1, syscall_entry s0 s1 →
    ∃ s2, call "system_call_helper" s1 = Ok s2 ∧ words_ok s2 ∧ current s2 = current s0 ∧
      context_at (mem s2) (current s0 + USER) = context_at (mem s1) (current s0 + USER) ∧ P (mem s2)) →
  ∃ s', R exception_handler_entry s0 (Resume (u32 (cp0 s0 CP0_EPC + 4))) s' ∧
    resumed s0 (current s0) s' ∧ P (mem s').
Proof.
  intros Hw Hp Hcode Hcall. destruct (entry_runs s0 Hw Hp) as (s1 & Hs1 & Hw1 & Hc1 & Hrun).
  rewrite Hcode in Hrun. pose proof (sv_context _ _ _ Hs1) as Hx.
  destruct (handle_syscall_runs s1 Hw1) as (s2 & Hh & Hret); [by rewrite Hc1|].
  destruct (helper_context s1 s2 Hh) as [Hx2 _]. rewrite Hc1, Hx in Hx2.
  assert (He : syscall_entry s0 s2).
  { destruct Hs1 as [_ Hm Hg _ _ _ _]. pose proof (helper_current s1 s2) as Hc2.
    destruct Hh as [H1 H2 H3 H4 H5 H6 H7 H8]. split; [done| | | |done| |].
    - rewrite Hc2; [done|by rewrite Hc1|done].
    - by rewrite H1, H2, H3, H4, !Hg.
    - rewrite H5, Hc1. apply load32_ext. intros y Hy. apply Hm.
      unfold OFFSET_REG, USER in *. lia.
    - exact Hx2.
    - intros y Hy. rewrite H8, Hc1, store32_ne; [by apply Hm|].
      unfold OFFSET_SIZE, OFFSET_EPC in *. lia. }
  destruct (Hcall s2 He) as (s3 & Hc & Hw3 & Hc3 & Hx3 & HP).
  destruct (exit_resumed s0 (context_at (mem s0) (current s0 + USER)) (current s0)
    (u32 (cp0 s0 CP0_EPC + 4)) (wr sp (u32 (rd s3 sp + 16)) s3)) as (s' & Hr & Hres & Hm);
    [words|done|exact Hc3|exact (eq_trans Hx3 Hx2)|].
  exists s'. split_and!; [by eapply Hrun, Hret|done|by rewrite Hm].
Qed.

Lemma interrupt_returns s0 :
  words_ok s0 → proc_ok (current s0) → ExcCode s0 = 0 →
  keeps_user "interrupt_helper" (current s0)
    (saved_context s0 (context_at (mem s0) (current s0 + USER))) →
  ∃ s', R exception_handler_entry s0 (Resume (cp0 s0 CP0_EPC)) s' ∧ resumed s0 (current s0) s'.
Proof.
  intros Hw Hp Hcode Hcall. destruct (entry_runs s0 Hw Hp) as (s1 & Hs1 & Hw1 & Hc1 & Hrun).
  rewrite Hcode in Hrun. pose proof (sv_context _ _ _ Hs1) as Hx.
  destruct (handle_int_runs s1 Hw1) as (s2 & Hi & Hret); [by rewrite Hc1|].
  pose proof (ic_mem _ _ Hi) as Hm2.
  destruct (Hcall s2) as (s3 & Hc & Hw3 & Hc3 & Hx3); [apply Hi| |by rewrite Hm2|].
  { unfold current at 1. rewrite Hm2. exact Hc1. }
  destruct (Hret s3 Hc Hw3) as (s4 & Hs4 & Hw4 & Hc4 & Hrun4); [by rewrite Hc3|].
  rewrite Hc3 in Hs4, Hc4.
  destruct (exit_resumed s0 (context_at (mem s0) (current s0 + USER)) (current s0)
    (cp0 s0 CP0_EPC) s4 Hw4 Hp Hc4) as (s' & Hr & Hres & _).
  - rewrite (context_at_ext (mem s3)); [exact Hx3|]. intros y Hy. apply (sv_mem _ _ _ Hs4).
    unfold USER, OFFSET_SIZE in *. lia.
  - exists s'. split; [|done]. by apply Hrun, Hrun4.
Qed.

Lemma other_returns s0 :
  words_ok s0 → proc_ok (current s0) → handler_of (ExcCode s0) = handle_other →
  ∃ s', R exception_handler_entry s0 (Resume (cp0 s0 CP0_EPC)) s' ∧ resumed s0 (current s0) s'.
Proof.
  intros Hw Hp Hcode. destruct (entry_runs s0 Hw Hp) as (s1 & Hs1 & Hw1 & Hc1 & Hrun).
  rewrite Hcode in Hrun. pose proof (sv_context _ _ _ Hs1) as Hx.
  destruct (exit_resumed s0 (context_at (mem s0) (current s0 + USER)) (current s0)
    (cp0 s0 CP0_EPC) (wr k1 (cp0 s1 CP0_EPC) s1)) as (s' & Hr & Hres & _);
    [words|done|exact Hc1|exact Hx|].
  exists s'. split; [|done]. by apply Hrun, handle_other_runs.
Qed.

(** C5. Interrupts, system calls and the exceptions that the kernel does not handle
    give all general registers back to the process, with the address to go on
    from: the instruction after a system call, and otherwise the interrupted
    one, so that an unhandled exception is raised again. *)
Theorem exceptions_transparent s code epc :
  words_ok s → proc_ok (current s) → word epc → 0 ≤ code < 32 → code ≠ 2 → code ≠ 3 →
  let c := current s in
  let s0 := take_exception code epc s in
  let x := saved_context s0 (context_at (mem s) (c + USER)) in
  (code = 0 → keeps_user "interrupt_helper" c x) →
  (code = 8 → keeps_user "system_call_helper" c (x <| cp0_epc := u32 (epc + 4) |>)) →
  ∃ s', R exception_handler_entry s0 (Resume (if code =? 8 then u32 (epc + 4) else epc)) s' ∧
    resumed s c s'.
Proof.
  intros Hw Hp He Hcode H2 H3 c s0 x Hint Hsys.
  assert (Hw0 : words_ok s0) by (by apply take_exception_words).
  assert (Hc0 : ExcCode s0 = code) by (by apply take_exception_code).
  destruct (Z.eqb_spec code 8) as [->|E8].
  { destruct (syscall_returns s0 (λ _, True) Hw0 Hp Hc0) as (s' & Hr & [] & _); [|by exists s'].
    intros s1 [Hw1 Hc1 _ _ _ Hx1 _]. destruct (Hsys eq_refl s1 Hw1 Hc1 Hx1) as (s2 & ? & ? & ? & Hx2).
    exists s2. split_and!; [done..| |done]. exact (eq_trans Hx2 (eq_sym Hx1)). }
  destruct (Z.eq_dec code 0) as [->|E0].
  { destruct (interrupt_returns s0 Hw0 Hp Hc0 (Hint eq_refl)) as (s' & Hr & []). by exists s'. }
  destruct (other_returns s0 Hw0 Hp) as (s' & Hr & []); [|by exists s'].
  rewrite Hc0. unfold handler_of. by rewrite !(proj2 (Z.eqb_neq code _)).
Qed.

(** ** A system call from the stub to the helper and back *)

(** What the stub leaves at its [syscall]: the number in v0, the arguments in
    a0 to a2, the return address on the stack. *)
Definition at_syscall (s : cpu) : cpu :=
  wr sp (u32 (rd s sp - 8)) (wr a2 (rd s a3) (wr a1 (rd s a2) (wr a0 (rd s a1) (wr v0 (rd s a0) s))))
    <| mem ::= store32 (u32 (rd s sp - 8)) (rd s ra) |>.

(** A place on the user stack, apart from the process table entry at [c]. *)
Definition stack_ok (c a : Z) : Prop :=
  2 ^ 31 ≤ a ∧ a mod 4 = 0 ∧ (a + 4 ≤ c ∨ c + PID + 4 ≤ a) ∧
  (a + 4 ≤ symbol "current_running" ∨ symbol "current_running" + 4 ≤ a).

Lemma stub_traps s :
  stack_ok (current s) (u32 (rd s sp - 8)) →
  R invoke_syscall s (Trapped (drop 7 invoke_syscall)) (at_syscall s).
Proof.
  set (a := u32 (rd s sp - 8)). intros (Hlo & Hal & _).
  set (t := wr sp a (wr a2 (rd s a3) (wr a1 (rd s a2) (wr a0 (rd s a1) (wr v0 (rd s a0) s))))).
  assert (E : exec_all symbol [MOVE v0 a0; MOVE a0 a1; MOVE a1 a2; MOVE a2 a3; ADDIU sp sp (-8)] s = Ok t)
    by reflexivity.
  eapply (runs_block _ _ _ [_; _; _; _; _] _ _ _ _ _ E). eapply runs_I; [|apply runs_SYSCALL].
  cbn [exec]. change (rd t sp) with a. rewrite Z.add_0_r, (u32_small a) by apply u32_range.
  rewrite sw_ok by done. reflexivity.
Qed.

(** The end of the stub, when the registers and the stack are those of its
    [syscall]. *)
Lemma stub_returns s s1 :
  stack_ok (current s) (u32 (rd s sp - 8)) → word (rd s sp) → word (rd s ra) →
  (∀ r, r ∈ general → rd s1 r = rd (at_syscall s) r) →
  load32 (mem s1) (u32 (rd s sp - 8)) = rd s ra →
  ∃ s', R (drop 7 invoke_syscall) s1 (Jump (rd s ra)) s' ∧
    (∀ r, r ∈ general → r ∉ [v0; a0; a1; a2] → rd s' r = rd s r) ∧ mem s' = mem s1.
Proof.
  set (a := u32 (rd s sp - 8)). intros (Hlo & Hal & _) Hsp Hra Hg Hm.
  assert (H1 : rd s1 sp = a) by (apply Hg; by apply elem_of_general).
  set (t := wr sp (u32 (a + 8)) (wr ra (rd s ra) s1)).
  exists t. split_and!.
  - apply runs_NOP. eapply runs_I.
    { cbn [exec]. rewrite H1, Z.add_0_r, (u32_small a) by apply u32_range.
      rewrite lw_ok, Hm by done. reflexivity. }
    eapply runs_I. { cbn [exec]. rewrite rd_wr_ne, H1 by done. reflexivity. }
    exact (runs_JR symbol text call ra [I NOP] t).
  - intros r Hr Hn. unfold t. destruct (decide (r = sp)) as [->|].
    { rewrite rd_wr by done. unfold a. unfold u32. rewrite Zplus_mod_idemp_l.
      rewrite Z.sub_add. by apply Z.mod_small. }
    destruct (decide (r = ra)) as [->|]; [by rewrite rd_wr_ne, rd_wr|].
    rewrite !rd_wr_ne, Hg by done. unfold at_syscall.
    change (rd (wr sp a (wr a2 (rd s a3) (wr a1 (rd s a2) (wr a0 (rd s a1) (wr v0 (rd s a0) s))))) r =
      rd s r).
    rewrite !rd_wr_ne by regs_ne. done.
  - done.
Qed.

Lemma at_syscall_words s : words_ok s → words_ok (at_syscall s).
Proof.
  intros Hs. unfold at_syscall.
  assert (Ht : words_ok (wr sp (u32 (rd s sp - 8)) (wr a2 (rd s a3) (wr a1 (rd s a2)
    (wr a0 (rd s a1) (wr v0 (rd s a0) s)))))) by words.
  destruct Ht. split; try done. by apply store32_bytes.
Qed.

Lemma at_syscall_current s :
  stack_ok (current s) (u32 (rd s sp - 8)) → current (at_syscall s) = current s.
Proof. intros (_ & _ & _ & H). apply current_ext. intros x Hx. apply store32_ne. lia. Qed.

(** The saved user context and the stack word survive the call. *)
Definition helper_returns (s : cpu) : Prop :=
  let c := current s in
  ∀ s1, words_ok s1 → current s1 = c →
    (rd s1 a0 = rd s a0 ∧ rd s1 a1 = rd s a1 ∧ rd s1 a2 = rd s a2 ∧ rd s1 a3 = rd s a3) →
    rd s1 fp = load32 (mem s) (c + OFFSET_REG 30) → rd s1 sp = u32 (rd s1 fp - 16) →
    ∃ s2, call "system_call_helper" s1 = Ok s2 ∧ words_ok s2 ∧ current s2 = c ∧
      context_at (mem s2) (c + USER) = context_at (mem s1) (c + USER) ∧
      load32 (mem s2) (u32 (rd s sp - 8)) = load32 (mem s1) (u32 (rd s sp - 8)).

(** C6. [invoke_syscall(fn, arg1, arg2, arg3)] at address [epc - 24] traps; the
    exception code calls [system_call_helper] with the four arguments, on the
    kernel stack of the process; and the stub returns to its caller with the
    stack pointer and every register but v0 and the argument registers as
    before. *)
Theorem system_call_correct s epc :
  words_ok s → proc_ok (current s) → word epc →
  stack_ok (current s) (u32 (rd s sp - 8)) → helper_returns s →
  ∃ su sv sk s',
    R invoke_syscall s (Trapped (drop 7 invoke_syscall)) su ∧
    R jmp_exception_handler_entry (take_exception 8 epc su)
      (Jump (symbol "exception_handler_entry")) sv ∧
    R exception_handler_entry sv (Resume (u32 (epc + 4))) sk ∧
    R (drop 7 invoke_syscall) sk (Jump (rd s ra)) s' ∧
    (∀ r, r ∈ general → r ∉ [v0; a0; a1; a2] → rd s' r = rd s r) ∧
    current s' = current s ∧ cp0 sk CP0_STATUS = 0x8801.
Proof.
  intros Hw Hp He Hst Hcall. set (c := current s) in *. set (a := u32 (rd s sp - 8)) in *.
  set (su := at_syscall s). set (s0 := wr k0 (symbol "exception_handler_entry") (take_exception 8 epc su)).
  assert (Hcu : current s0 = c) by exact (at_syscall_current s Hst).
  assert (Hw0 : words_ok s0).
  { apply wr_words; [|done]. apply take_exception_words; [done|done|]. by apply at_syscall_words. }
  assert (Ha : load32 (mem s0) a = rd s ra) by (apply load32_store32; by apply rd_word).
  destruct (syscall_returns s0 (λ m, load32 m a = rd s ra)) as (sk & Hrk & Hres & Hmk);
    [done|by rewrite Hcu|by apply take_exception_code| |].
  { intros s1 [Hw1 Hc1 (A0 & A1 & A2 & A3) Hfp Hsp _ Hm]. rewrite Hcu in *.
    destruct (Hcall s1) as (s2 & Hc & Hw2 & Hc2 & Hx2 & Hl2); [done|done|by rewrite A0, A1, A2, A3| |done|].
    - rewrite Hfp. apply load32_store32_ne. destruct Hst as (_ & _ & Hap & _). fold a.
      unfold OFFSET_REG, PID in *. lia.
    - exists s2. split_and!; [done..|]. cbn beta. fold a in Hl2. rewrite Hl2, <- Ha. apply load32_ext. intros x Hx. apply Hm.
      destruct Hst as (_ & _ & Hap & _). unfold USER, OFFSET_SIZE, PID in *. lia. }
  rewrite Hcu in Hres.
  destruct (stub_returns s sk Hst) as (s' & Hr' & Hg' & Hm');
    [by apply rd_word|by apply rd_word| |exact Hmk|].
  { intros r Hr. rewrite (rm_gpr _ _ _ Hres) by done.
    apply elem_of_general in Hr as (_ & Hk & _). exact (rd_wr_ne k0 r _ _ Hk). }
  exists su, s0, sk, s'. split_and!; [by apply stub_traps| |exact Hrk|exact Hr'|exact Hg'| |].
  - eapply runs_I; [reflexivity|]. exact (runs_JR symbol text call k0 [I NOP] s0).
  - unfold current. rewrite Hm'. exact (rm_current _ _ _ Hres).
  - exact (rm_status _ _ _ Hres).
Qed.

(** ** Start, time slices and reboot *)

(** [asm_start] turns interrupts off, stops the watch and makes kseg0 uncached. *)
Lemma asm_start_runs s :
  ∃ s', R asm_start s (Jump (rd s ra)) s' ∧ mem s' = mem s ∧ cp0 s' CP0_STATUS = 0 ∧
    cp0 s' CP0_COUNT = 0 ∧ cp0 s' CP0_WATCHLO = 0 ∧ cp0 s' CP0_WATCHHI = 0 ∧
    cp0 s' CP0_CONFIG = Z.lor (Z.land (cp0 s CP0_CONFIG) 0xfffffff8) 2.
Proof. eexists. split; [eapply runs_block; [reflexivity|by apply runs_JR_to]|]. split_and!; reflexivity. Qed.

(** [do_reboot] turns interrupts off and enters the kernel's image. *)
Lemma do_reboot_runs s :
  ∃ s', R do_reboot s (Jump 0xa0800000) s' ∧ mem s' = mem s ∧ cp0 s' CP0_STATUS = 0.
Proof.
  eexists. split; [eapply (runs_block _ _ _ [_; _]); [reflexivity|by apply runs_JR_to]|]. split_and!; reflexivity.
Qed.

(** The code that [init_exception] copies to the exception vector. *)
Lemma jmp_exception_handler_runs s :
  ∃ s', R jmp_exception_handler_entry s (Jump (symbol "exception_handler_entry")) s' ∧
    ∀ r, r ≠ k0 → rd s' r = rd s r.
Proof.
  eexists. split; [eapply runs_I; [reflexivity|]; by apply runs_JR_to|]. intros r Hr. by apply rd_wr_ne.
Qed.

Lemma set_count_compare_runs s :
  2 ^ 31 ≤ symbol "slice_size" → symbol "slice_size" mod 4 = 0 →
  R set_count_compare s (Jump (rd s ra))
    (wr_cp0 CP0_COUNT 0 (wr k0 0 (wr_cp0 CP0_COMPARE (load32 (mem s) (symbol "slice_size"))
      (wr k0 (load32 (mem s) (symbol "slice_size")) s)))).
Proof.
  intros H1 H2. eapply (runs_block _ _ _ [_; _; _; _]); [|by apply runs_JR_to].
  cbn [exec_all exec]. rewrite lw_ok by done. reflexivity.
Qed.

Lemma exec_ADD_zero d r s :
  word (rd s r) → exec symbol (ADD d r zero) s = Ok (wr d (rd s r) s).
Proof.
  intros Hr. cbn [exec]. change (rd s zero) with 0. change (i32 0) with 0. rewrite Z.add_0_r.
  pose proof (i32_range (rd s r)). rewrite (proj2 (Z.leb_le _ _)), (proj2 (Z.ltb_lt _ _)) by lia. cbn [andb].
  do 2 f_equal. unfold u32, i32, word in *. Z.div_mod_to_equations. lia.
Qed.

(** A call of an assembly routine: it starts with a return address in [ra] and
    ends with the jump there. *)
Definition calls (f : string) (body : list line) : Prop :=
  ∃ a, word a ∧ ∀ s s', R body (wr ra a s) (Jump a) s' → call f s = Ok s'.

(** [enable_int] starts a time slice of [slice_size] ticks and returns to its
    caller with interrupts enabled; only k0 and k1 change. *)
Theorem enable_int_correct s :
  words_ok s → 2 ^ 31 ≤ symbol "slice_size" → symbol "slice_size" mod 4 = 0 →
  calls "set_count_compare" set_count_compare →
  ∃ s', R enable_int s (Resume (rd s ra)) s' ∧
    cp0 s' CP0_COUNT = 0 ∧ cp0 s' CP0_COMPARE = load32 (mem s) (symbol "slice_size") ∧
    cp0 s' CP0_STATUS = 0x8001 ∧ mem s' = mem s ∧
    ∀ r, r ≠ k0 → r ≠ k1 → rd s' r = rd s r.
Proof.
  intros Hw H1 H2 (a & Ha & Hcall). set (s1 := wr k1 (rd s ra) s).
  pose proof (rd_word s ra Hw) as Hra.
  pose proof (set_count_compare_runs (wr ra a s1) H1 H2) as Hc%Hcall.
  set (s2 := wr_cp0 CP0_COUNT _ _) in Hc. assert (Hk1 : rd s2 k1 = rd s ra) by reflexivity.
  eexists. split.
  - eapply runs_I; [apply exec_ADD_zero, Hra|]. eapply runs_JAL; [exact Hc|]. apply runs_NOP.
    eapply runs_I; [apply exec_ADD_zero; by rewrite Hk1|].
    eapply (runs_block _ _ _ [_; _; _; _]); [reflexivity|by apply runs_ERET_to].
  - split_and!; try reflexivity. intros r Hr0 Hr1. subst s2 s1.
    destruct (Z.eq_dec r ra) as [->|Hra']; [reflexivity|].
    unfold rd. destruct (r =? 0); [done|]. cbn. unfold fupd, k0, k1, ra in *.
    by rewrite !(proj2 (Z.eqb_neq r _)) by assumption.
Qed.
End routines.

(** ** Witnesses *)

(** A machine with the variable [current_running], one process table entry and
    C functions that do nothing. *)
Definition demo_symbol (x : string) : Z :=
  if decide (x = "current_running"%string) then 0xa0800300 else 0xa0800400.
Definition demo_pcb : Z := 0xa0810000.
Definition demo_call (f : string) (s : cpu) : outcome cpu := Ok s.

(** Memory with the given words, and 0 elsewhere. *)
Definition words_mem (l : list (Z * Z)) : Z → Z :=
  store_all 0 ((demo_symbol "current_running", demo_pcb) :: l) (λ _, 0).

Lemma words_mem_bytes l x : 0 ≤ words_mem l x < 256.
Proof. by apply store_all_bytes. Qed.

(** Register [r] holds 16 [r] except the stack pointer. *)
Definition demo_cpu (l : list (Z * Z)) (va : Z) (t : list tlb_entry) : cpu :=
  Cpu (λ r, if r =? 29 then 0xa0f00000 else if (0 <? r) && (r <? 32) then 16 * r else 0) 7 8
    (fupd CP0_BADVADDR va (λ _, 0)) (words_mem l) t.

Lemma demo_symbol_word x : word (demo_symbol x).
Proof. unfold demo_symbol. by case_decide. Qed.

Lemma demo_place : current_ok demo_symbol.
Proof. split; vm_compute; [intros [=]|reflexivity]. Qed.

Lemma demo_words l va t :
  word va → (length t ≤ 64)%nat → Forall entry_words t → words_ok (demo_cpu l va t).
Proof.
  intros Hva Hlen Ht. split; try done.
  - intros r. cbn. destruct (r =? 29); [done|]. unfold word.
    destruct (0 <? r) eqn:E1, (r <? 32) eqn:E2; cbn [andb]; [|done..].
    apply Z.ltb_lt in E1, E2. lia.
  - apply fupd_word; [done|]. done.
  - apply words_mem_bytes.
Qed.

Lemma demo_cpu_current l va t :
  words_apart (demo_symbol "current_running" :: l.*1) →
  current demo_symbol (demo_cpu l va t) = demo_pcb.
Proof.
  intros H. apply (store_all_in 0 ((demo_symbol "current_running", demo_pcb) :: l) (λ _, 0)); [exact H|left|].
  by vm_compute.
Qed.

Lemma demo_proc : proc_ok demo_symbol demo_pcb.
Proof. unfold proc_ok. split_and!; [reflexivity|by vm_compute|by vm_compute|left; by vm_compute]. Qed.

Lemma exceptions_transparent_witness :
  ∃ s', runs demo_symbol text demo_call exception_handler_entry
    (take_exception 8 0x1000 (demo_cpu [] 0 [])) (Resume 0x1004) s' ∧ rd s' 17 = 16 * 17.
Proof.
  assert (Hc : current demo_symbol (demo_cpu [] 0 []) = demo_pcb) by reflexivity.
  destruct (exceptions_transparent demo_symbol demo_call demo_symbol_word demo_place
    (demo_cpu [] 0 []) 8 0x1000) as (s' & Hr & Hg).
  - apply demo_words; [done|cbn; lia|constructor].
  - rewrite Hc. exact demo_proc.
  - done.
  - lia.
  - done.
  - done.
  - intros [=].
  - intros _ s1 Hw H1 H2. exists s1. exact (conj eq_refl (conj Hw (conj H1 H2))).
  - exists s'. split; [exact Hr|]. apply (rm_gpr _ _ _ _ Hg). by apply elem_of_general.
Defined.

Lemma system_call_correct_witness :
  ∃ sk s', runs demo_symbol text demo_call (drop 7 invoke_syscall) sk (Jump 496) s' ∧
    rd s' sp = 0xa0f00000.
Proof.
  assert (Hc : current demo_symbol (demo_cpu [] 0 []) = demo_pcb) by reflexivity.
  destruct (system_call_correct demo_symbol demo_call demo_symbol_word demo_place
    (demo_cpu [] 0 []) 0x1000) as (su & sv & sk & s' & _ & _ & _ & Hr & Hg & _).
  - apply demo_words; [done|cbn; lia|constructor].
  - rewrite Hc. exact demo_proc.
  - done.
  - rewrite Hc. unfold stack_ok. split_and!; [by vm_compute|reflexivity|right; by vm_compute|right; by vm_compute].
  - intros s1 Hw H1 H2 H3 H4. exists s1.
    exact (conj eq_refl (conj Hw (conj H1 (conj eq_refl eq_refl)))).
  - exists sk, s'. split; [exact Hr|]. rewrite Hg; [reflexivity|by apply elem_of_general|regs_ne].
Defined.
