(* ===== verification/Refill.v ===== *)
(** * TLB exceptions: [TLB_exception_handler_entry] of [arch/mips/kernel/entry.S]

    What the handler loads into the TLB, and the pages it finds in the tables
    that [Memory] builds. *)

From S2P Require Import Prelude Kstate Process Memory Cpu Entry.
Import Regs.

Lemma page_miss_add k c x v m :
  current_running k = Some c → aget (pcb k) c = Ok x →
  page_miss_handler k v m = add_2_page k v (p_pid x) m.
Proof.
  intros Hc Hx. unfold page_miss_handler, get_pcb. rewrite Hc. cbn [deref]. by rewrite bind_Ok, Hx, bind_Ok.
Qed.

Section refill.
Context (symbol : string → Z) (call : string → cpu → outcome cpu).
Context (symbol_word : ∀ x, word (symbol x)) (current_place : current_ok symbol).
Notation R := (runs symbol text call).
Notation current := (current symbol).
Notation proc_ok := (proc_ok symbol).

(** ** The refill of the TLB *)

Lemma exec_ADD d rs rt s p o :
  (rd s rs = p ∧ rd s rt = o ∨ rd s rs = o ∧ rd s rt = p) →
  2 ^ 31 ≤ p → 0 ≤ o → p + o < 2 ^ 32 →
  exec symbol (ADD d rs rt) s = Ok (wr d (p + o) s).
Proof.
  intros Hr Hp Ho Hpo. cbn [exec].
  assert (Hi : i32 p = p - 2 ^ 32) by (unfold i32; Z.div_mod_to_equations; lia).
  assert (Hj : i32 o = o) by (apply i32_small; lia).
  assert (Hs : i32 (rd s rs) + i32 (rd s rt) = p + o - 2 ^ 32) by
    (destruct Hr as [[-> ->]|[-> ->]]; rewrite Hi, Hj; lia).
  rewrite Hs, (proj2 (Z.leb_le _ _)), (proj2 (Z.ltb_lt _ _)) by lia. cbn [andb].
  replace (u32 (p + o - 2 ^ 32)) with (p + o); [done|]. unfold u32. Z.div_mod_to_equations. lia.
Qed.

(** The fault address, its table of second level, and the offset in that table
    that the handler computes. *)
Definition table_of (s : cpu) : Z :=
  load32 (mem s) (current s + PT + 4 * Z.shiftr (cp0 s CP0_BADVADDR) 21).
Definition refill_index (va : Z) : Z := Z.land (Z.shiftr va 13) 510.
Definition refill_pte (s : cpu) : Z := table_of s + 8 * refill_index (cp0 s CP0_BADVADDR).

Lemma land_510 x : Z.land x 510 = 2 * (x / 2 mod 2 ^ 8).
Proof.
  rewrite <- Z.land_ones, Z.mul_comm by done. change 2 with (2 ^ 1) at 2.
  rewrite <- (Z.shiftl_mul_pow2 _ 1), Z.shiftl_land by done. change (x / 2) with (x / 2 ^ 1).
  rewrite <- Z.shiftr_div_pow2, <- Z.ldiff_ones_r, Z.ldiff_land, <- Z.land_assoc by done.
  f_equal.
Qed.

Lemma refill_index_range va : 0 ≤ refill_index va ≤ 510 ∧ refill_index va mod 2 = 0.
Proof.
  unfold refill_index. rewrite land_510. set (q := Z.shiftr va 13 / 2).
  pose proof (Z.mod_pos_bound q (2 ^ 8)). split; [lia|]. Z.div_mod_to_equations. lia.
Qed.

(** A place for a table of second level. *)
Definition table_ok (f : Z) : Prop := f mod 4 = 0 ∧ 2 ^ 31 ≤ f ∧ f + PAGE_SIZE ≤ 2 ^ 32.

(** The first lines: k0 points to the entry's table, k1 is the offset in it. *)
Lemma refill_table s :
  words_ok s → proc_ok (current s) → cp0 s CP0_BADVADDR < 2 ^ 31 →
  ∃ s1, exec_all symbol refill_find s = Ok s1 ∧
    rd s1 k0 = table_of s ∧ rd s1 k1 = 8 * refill_index (cp0 s CP0_BADVADDR) ∧
    rd s1 t0 = current s ∧ rd s1 t2 = load32 (mem s) (current s + PID) ∧ same_special s s1 ∧ words_ok s1 ∧
    (∀ r, r ∉ [t0; t2; k0; k1] → rd s1 r = rd s r).
Proof.
  intros Hw Hp Hva. set (va := cp0 s CP0_BADVADDR) in *. set (c := current s) in *.
  assert (H0 : 0 ≤ va) by apply (wo_cp0 s Hw).
  assert (Hi : 0 ≤ Z.shiftr va 21 < 1024).
  { rewrite Z.shiftr_div_pow2 by done. split; [by apply Z.div_pos|]. apply Z.div_lt_upper_bound; lia. }
  pose proof (refill_index_range va) as [Hx _].
  assert (U1 : u32 (Z.shiftl (Z.shiftr va 21) 2) = 4 * Z.shiftr va 21).
  { rewrite Z.shiftl_mul_pow2, u32_small by lia. lia. }
  assert (U2 : u32 (Z.shiftl (Z.land (Z.shiftr va 13) (u32 510)) 3) = 8 * refill_index va).
  { change (u32 510) with 510. fold (refill_index va). rewrite Z.shiftl_mul_pow2, u32_small by lia. lia. }
  destruct (proc_word symbol c PID Hp) as (U3 & L3 & A3); [done..|].
  destruct (proc_word symbol c (PT + 4 * Z.shiftr va 21) Hp) as (U4 & L4 & A4); [unfold PT, PID; lia| |].
  { unfold PT. Z.div_mod_to_equations. lia. }
  set (i4 := 4 * Z.shiftr va 21) in *. set (o := 8 * refill_index va) in *.
  set (g := wr k1 (Z.land (Z.shiftr va 13) (u32 510)) (wr k1 (Z.shiftr va 13) (wr k0 i4 (wr k0 (Z.shiftr va 21)
    (wr k1 va (wr k0 va s)))))).
  set (t4 := wr t0 c (wr k1 o g)). set (t5 := wr t2 (load32 (mem s) (c + PID)) t4).
  set (t6 := wr k0 (c + i4) t5). set (t7 := wr k0 (table_of s) t6).
  assert (E1 : exec_all symbol (take 7 refill_find) s = Ok (wr k1 o g)).
  { unfold g. rewrite <- U1, <- U2. reflexivity. }
  assert (E2 : exec_all symbol (drop 7 refill_find) (wr k1 o g) = Ok t7).
  { cbn [drop refill_find].
    erewrite exec_all_cons by (cbn [exec]; by rewrite load_current).
    erewrite (exec_all_cons _ (LW t2 PID t0) _ t4 t5).
    2: { cbn [exec]. change (rd t4 t0) with c. rewrite U3, lw_ok by done. reflexivity. }
    erewrite (exec_all_cons _ (ADD k0 k0 t0) _ t5 t6).
    2: { apply exec_ADD; [right; by split|apply Hp|lia|]. unfold proc_ok, PT, PID in *. lia. }
    erewrite (exec_all_cons _ (LW k0 PT k0) _ t6 t7); [reflexivity|].
    cbn [exec]. change (rd t6 k0) with (c + i4). replace (c + i4 + PT) with (c + (PT + i4)) by lia.
    rewrite U4, lw_ok, bind_Ok by done.
    unfold t7, table_of. fold c va i4. by rewrite <- (Z.add_assoc c PT i4). }
  assert (E : exec_all symbol refill_find s = Ok t7).
  { change refill_find with (take 7 refill_find ++ drop 7 refill_find). by rewrite exec_all_app, E1. }
  exists t7. split_and!; [done|done|done|done|done|done| |].
  - by apply (exec_all_words symbol refill_find s t7).
  - intros r Hr. unfold t7, t6, t5, t4, g. rewrite !rd_wr_ne by regs_ne. done.
Qed.

(** The entry that the handler builds for address [va] from the pair at [e]. *)
Definition built_entry (m : Z → Z) (va pid e : Z) : tlb_entry :=
  TlbEntry 0 (Z.lor (Z.land va 0xffffe000) pid) (load32 m (e + 4)) (load32 m (e + 12)).

Lemma refill_load_spec s e :
  rd s k0 = e → e mod 4 = 0 → 2 ^ 31 ≤ e → e + 16 ≤ 2 ^ 32 →
  ∃ s1, exec_all symbol refill_load s = Ok s1 ∧
    entry_regs s1 = built_entry (mem s) (cp0 s CP0_BADVADDR) (rd s t2) e ∧
    cp0 s1 CP0_INDEX = match probe s1 with Some i => Z.of_nat i | None => 2 ^ 31 end ∧
    rd s1 k1 = Z.shiftr (cp0 s1 CP0_INDEX) 31 ∧ rd s1 t3 = 0xffffe000 ∧
    cp0 s1 CP0_EPC = cp0 s CP0_EPC ∧ cp0 s1 CP0_RANDOM = cp0 s CP0_RANDOM ∧
    hi_reg s1 = hi_reg s ∧ lo_reg s1 = lo_reg s ∧ mem s1 = mem s ∧ tlbs s1 = tlbs s ∧
    (∀ r, r ∉ [t0; t1; t3; k0; k1] → rd s1 r = rd s r).
Proof.
  intros Hk Hal Hlo Hhi.
  set (s1 := wr t0 (load32 (mem s) (e + 4)) s). set (s2 := wr t1 (load32 (mem s) (e + 12)) s1).
  assert (E1 : exec_all symbol (take 2 refill_load) s = Ok s2).
  { cbn [take refill_load]. erewrite (exec_all_cons _ (LW t0 4 k0) _ s s1).
    2: { cbn [exec]. rewrite Hk, u32_small, lw_ok by (lia || (Z.div_mod_to_equations; lia)). done. }
    erewrite (exec_all_cons _ (LW t1 12 k0) _ s1 s2); [reflexivity|].
    cbn [exec]. change (rd s1 k0) with (rd s k0).
    rewrite Hk, u32_small, lw_ok by (lia || (Z.div_mod_to_equations; lia)). done. }
  change refill_load with (take 2 refill_load ++ drop 2 refill_load).
  rewrite exec_all_app, E1, bind_Ok. eexists. split; [reflexivity|].
  split_and!; try reflexivity. intros r Hr.
  assert (Hn : r ≠ t0 ∧ r ≠ t1 ∧ r ≠ t3 ∧ r ≠ k0 ∧ r ≠ k1) by (split_and!; regs_ne).
  destruct Hn as (N0 & N1 & N3 & N4 & N5).
  unfold rd. destruct (r =? 0); [done|]. cbn. unfold fupd.
  by rewrite (proj2 (Z.eqb_neq r _) N0), (proj2 (Z.eqb_neq r _) N1), (proj2 (Z.eqb_neq r _) N3),
    (proj2 (Z.eqb_neq r _) N4), (proj2 (Z.eqb_neq r _) N5).
Qed.

(** ** The handler *)

(** What the handler leaves alone, besides memory. *)
Record refilled (s s' : cpu) : Prop := {
  rf_gpr r : r ∉ [t0; t1; t2; t3; k0; k1] → rd s' r = rd s r;
  rf_t3 : rd s' t3 = 0xffffe000;
  rf_hi : hi_reg s' = hi_reg s;
  rf_lo : lo_reg s' = lo_reg s;
  rf_mem : mem s' = mem s;
}.

(** The end: an entry that matches is overwritten, and otherwise the one that
    [Random] names. *)
Lemma refill_write s :
  (Z.to_nat (Z.land (cp0 s CP0_RANDOM) 63) < length (tlbs s))%nat → (length (tlbs s) ≤ 64)%nat →
  cp0 s CP0_INDEX = match probe s with Some i => Z.of_nat i | None => 2 ^ 31 end →
  rd s k1 = Z.shiftr (cp0 s CP0_INDEX) 31 →
  ∃ i s', R (drop (length refill_find + 4 + length refill_load) TLB_exception_handler_entry) s
      (Resume (cp0 s CP0_EPC)) s' ∧
    (i < length (tlbs s))%nat ∧ tlbs s' = <[i := entry_regs s]> (tlbs s) ∧
    match probe s with Some j => i = j | None => i = Z.to_nat (Z.land (cp0 s CP0_RANDOM) 63) end ∧
    (∀ r, r ∉ [t0; t1; t2; k1] → rd s' r = rd s r) ∧
    hi_reg s' = hi_reg s ∧ lo_reg s' = lo_reg s ∧ mem s' = mem s.
Proof.
  intros Hrand Hsize Hidx Hk1. destruct (probe s) as [i|] eqn:E.
  - assert (Hi : (i < length (tlbs s))%nat) by (by eapply te_find_Some).
    set (s1 := s <| tlbs := <[i := entry_regs s]> (tlbs s) |>).
    exists i, (leave s1). split_and!; try done.
    eapply runs_BEQ; [reflexivity| |].
    { rewrite Hk1, Hidx. change (rd s zero) with 0. rewrite Z.shiftr_div_pow2 by done.
      apply Z.div_small. lia. }
    eapply runs_I.
    { cbn [exec]. unfold write_entry. rewrite Hidx. change 63 with (Z.ones 6).
      rewrite Z.land_ones, Z.mod_small by lia. rewrite aset_total, bind_Ok, Nat2Z.id by lia.
      reflexivity. }
    eapply runs_J; [reflexivity|]. exact (runs_ERET _ _ _ _ s1).
  - set (n := Z.to_nat (Z.land (cp0 s CP0_RANDOM) 63)) in *.
    assert (H63 : 0 ≤ Z.land (cp0 s CP0_RANDOM) 63).
    { change 63 with (Z.ones 6). rewrite Z.land_ones by done. by apply Z.mod_pos_bound. }
    set (s1 := s <| tlbs := <[n := entry_regs s]> (tlbs s) |>).
    destruct (te_find_written (tlbs s) n (entry_regs s) Hrand) as [j Hj].
    assert (Hjl : (j < length (tlbs s))%nat).
    { apply te_find_Some in Hj. by rewrite length_insert in Hj. }
    change (probe s1 = Some j) in Hj.
    destruct (aget_total (tlbs s1) (Z.of_nat j)) as [e He].
    { cbn. rewrite length_insert. lia. }
    set (s2 := wr k1 (Z.of_nat j) (wr_cp0 CP0_INDEX (Z.of_nat j) s1)).
    set (s3 := wr_cp0 CP0_PAGEMASK (te_mask e) (wr_cp0 CP0_ENTRYHI (te_hi e)
        (wr_cp0 CP0_ENTRYLO0 (te_lo0 e) (wr_cp0 CP0_ENTRYLO1 (te_lo1 e) s2)))).
    set (s4 := wr t2 (te_lo1 e) (wr t1 (te_lo0 e) (wr t0 (te_hi e) s3))).
    assert (Hc : exec_all symbol refill_check s1 = Ok s4).
    { unfold refill_check. erewrite exec_all_cons by (cbn [exec]; by rewrite Hj).
      rewrite (exec_all_cons _ (MFC0 k1 CP0_INDEX) _ _ s2) by reflexivity.
      rewrite (exec_all_cons _ TLBR _ _ s3); [reflexivity|].
      cbn [exec]. change (cp0 s2 CP0_INDEX) with (Z.of_nat j). change 63 with (Z.ones 6).
      rewrite Z.land_ones, Z.mod_small by lia. change (tlbs s2) with (tlbs s1). by rewrite He. }
    exists n, (leave s4). split_and!; try done.
    + eapply runs_BEQ_ne. { rewrite Hk1, Hidx. done. }
      eapply runs_I.
      { cbn [exec]. unfold write_entry. rewrite aset_total, bind_Ok by (cbn; lia). reflexivity. }
      eapply (runs_block _ _ _ refill_check _ _ _ _ _ Hc).
      eapply runs_J; [reflexivity|]. exact (runs_ERET _ _ _ _ s4).
    + intros r Hr. change (rd (leave s4) r) with (rd s4 r). unfold s4.
      rewrite !rd_wr_ne by regs_ne. unfold s3. change (rd s2 r = rd s r). unfold s2.
      by rewrite rd_wr_ne by regs_ne.
Qed.

Lemma refill_runs s :
  words_ok s → proc_ok (current s) → cp0 s CP0_BADVADDR < 2 ^ 31 → table_ok (table_of s) →
  load32 (mem s) (refill_pte s) ≠ 0 →
  (Z.to_nat (Z.land (cp0 s CP0_RANDOM) 63) < length (tlbs s))%nat →
  let new := built_entry (mem s) (cp0 s CP0_BADVADDR) (load32 (mem s) (current s + PID)) (refill_pte s) in
  ∃ i s', R TLB_exception_handler_entry s (Resume (cp0 s CP0_EPC)) s' ∧ refilled s s' ∧
    (i < length (tlbs s))%nat ∧ tlbs s' = <[i := new]> (tlbs s) ∧
    match te_find (te_hi new) (tlbs s) with
    | Some j => i = j
    | None => i = Z.to_nat (Z.land (cp0 s CP0_RANDOM) 63)
    end.
Proof.
  intros Hw Hp Hva (Ht4 & Htlo & Hthi) Hv Hrand new. set (va := cp0 s CP0_BADVADDR) in *.
  destruct (refill_table s Hw Hp Hva) as (s1 & E1 & K0 & K1 & _ & T2 & [Sh Sl Sc Sm St] & _ & Hg1).
  fold va in K1. pose proof (refill_index_range va) as [Hx _].
  assert (Hpte : refill_pte s = table_of s + 8 * refill_index va) by done.
  unfold PAGE_SIZE in Hthi.
  assert (Hal : refill_pte s mod 4 = 0) by (rewrite Hpte; Z.div_mod_to_equations; lia).
  set (s2 := wr k0 (refill_pte s) s1). set (s3 := wr t0 (load32 (mem s) (refill_pte s)) s2).
  assert (E2 : exec symbol (ADD k0 k0 k1) s1 = Ok s2).
  { unfold s2. rewrite Hpte. apply exec_ADD; [left; by split|lia|lia|lia]. }
  assert (E3 : exec symbol (LW t0 0 k0) s2 = Ok s3).
  { cbn [exec]. change (rd s2 k0) with (refill_pte s).
    rewrite Z.add_0_r, u32_small, lw_ok by (lia || done). change (mem s2) with (mem s1). by rewrite Sm. }
  destruct (refill_load_spec s3 (refill_pte s))
    as (s4 & E4 & Hnew & Hidx & Hk1 & Ht3 & Hepc & Hran & Hh & Hl & Hm & Htl & Hg4);
    [done|done|lia|lia|].
  change (mem s3) with (mem s1) in *. change (tlbs s3) with (tlbs s1) in *.
  change (cp0 s3) with (cp0 s1) in *. change (hi_reg s3) with (hi_reg s1) in *.
  change (lo_reg s3) with (lo_reg s1) in *.
  change (rd s3 t2) with (rd s1 t2) in Hnew. rewrite Sm, Sc, T2 in Hnew. fold va new in Hnew.
  rewrite St in Htl. rewrite Sc in Hepc, Hran.
  destruct (refill_write s4) as (i & s' & Hr & Hi & Htlb & Hij & Hg & Hh' & Hl' & Hm');
    [by rewrite Hran, Htl|rewrite Htl; by apply wo_size|done|done|].
  rewrite Htl, Hnew in Htlb. rewrite Htl in Hi.
  exists i, s'. split_and!; [| |done|done|].
  - eapply (runs_block _ _ _ refill_find _ _ _ _ _ E1). apply runs_BEQZ_ne; [rewrite K0; lia|].
    eapply runs_I; [exact E2|]. eapply runs_I; [exact E3|]. apply runs_BEQZ_ne; [exact Hv|].
    eapply (runs_block _ _ _ refill_load _ _ _ _ _ E4). rewrite <- Hepc. exact Hr.
  - split.
    + intros r Hn. rewrite Hg, Hg4 by regs_ne. unfold s3, s2. rewrite !rd_wr_ne by regs_ne.
      apply Hg1. regs_ne.
    + rewrite Hg; [exact Ht3|]. regs_ne.
    + by rewrite Hh', Hh, Sh.
    + by rewrite Hl', Hl, Sl.
    + by rewrite Hm', Hm, Sm.
  - replace (te_find (te_hi new) (tlbs s)) with (probe s4).
    { destruct (probe s4); [done|]. by rewrite <- Hran. }
    unfold probe. rewrite Htl, <- Hnew. done.
Qed.
(** No entry in a table that exists: the handler writes the registers of the
    coprocessor as they are to the TLB, and returns. *)
Lemma hole_runs s :
  words_ok s → proc_ok (current s) → cp0 s CP0_BADVADDR < 2 ^ 31 → table_ok (table_of s) →
  load32 (mem s) (refill_pte s) = 0 →
  (Z.to_nat (Z.land (cp0 s CP0_INDEX) 63) < length (tlbs s))%nat →
  ∃ s', R TLB_exception_handler_entry s (Resume (cp0 s CP0_EPC)) s' ∧
    mem s' = mem s ∧
    tlbs s' = <[Z.to_nat (Z.land (cp0 s CP0_INDEX) 63) := entry_regs s]> (tlbs s) ∧
    cp0 s' = cp0 (leave s).
Proof.
  intros Hw Hp Hva (Ht4 & Htlo & Hthi) Hv Hidx. set (va := cp0 s CP0_BADVADDR) in *.
  destruct (refill_table s Hw Hp Hva) as (s1 & E1 & K0 & K1 & _ & _ & [Sh Sl Sc Sm St] & _ & _).
  fold va in K1. pose proof (refill_index_range va) as [Hx _].
  assert (Hpte : refill_pte s = table_of s + 8 * refill_index va) by done.
  unfold PAGE_SIZE in Hthi.
  assert (Hal : refill_pte s mod 4 = 0) by (rewrite Hpte; Z.div_mod_to_equations; lia).
  set (s2 := wr k0 (refill_pte s) s1). set (s3 := wr t0 0 s2).
  assert (E2 : exec symbol (ADD k0 k0 k1) s1 = Ok s2).
  { unfold s2. rewrite Hpte. apply exec_ADD; [left; by split|lia|lia|lia]. }
  assert (E3 : exec symbol (LW t0 0 k0) s2 = Ok s3).
  { cbn [exec]. change (rd s2 k0) with (refill_pte s).
    rewrite Z.add_0_r, u32_small, lw_ok by (lia || done). change (mem s2) with (mem s1).
    by rewrite Sm, Hv. }
  assert (H63 : 0 ≤ Z.land (cp0 s CP0_INDEX) 63).
  { change 63 with (Z.ones 6). rewrite Z.land_ones by done. by apply Z.mod_pos_bound. }
  assert (He : entry_regs s3 = entry_regs s) by
    (unfold entry_regs; change (cp0 s3) with (cp0 s1); by rewrite Sc).
  set (s4 := s3 <| tlbs := <[Z.to_nat (Z.land (cp0 s CP0_INDEX) 63) := entry_regs s]> (tlbs s) |>).
  exists (leave s4). split_and!; [|exact Sm|done|].
  - eapply (runs_block _ _ _ refill_find _ _ _ _ _ E1). apply runs_BEQZ_ne; [rewrite K0; lia|].
    eapply runs_I; [exact E2|]. eapply runs_I; [exact E3|].
    eapply runs_BEQZ; [reflexivity|done|]. eapply runs_I.
    { cbn [exec]. unfold write_entry. change (cp0 s3) with (cp0 s1). change (tlbs s3) with (tlbs s1).
      rewrite He, Sc, St, aset_total, bind_Ok by lia. reflexivity. }
    eapply runs_J; [reflexivity|]. replace (cp0 s CP0_EPC) with (cp0 s4 CP0_EPC).
    + apply runs_ERET.
    + change (cp0 s4) with (cp0 s1). by rewrite Sc.
  - change (fupd CP0_STATUS (Z.ldiff (cp0 s1 CP0_STATUS) 2) (cp0 s1) =
      fupd CP0_STATUS (Z.ldiff (cp0 s CP0_STATUS) 2) (cp0 s)). by rewrite Sc.
Qed.
(** ** A missing page *)

(** The call of [page_miss_handler] out of state [s]; [x] is the user context. *)
Record miss_entry (s s1 : cpu) (x : regs_context_t) : Prop := {
  me_words : words_ok s1;
  me_current : current s1 = current s;
  me_arg : rd s1 a0 = get_vpn2 (cp0 s CP0_BADVADDR);
  me_fp : rd s1 fp = load32 (mem s) (current s + OFFSET_REG 30);
  me_sp : rd s1 sp = u32 (rd s1 fp - 4);
  me_context : context_at (mem s1) (current s + USER) = x;
  me_mem y : ¬ (current s + USER ≤ y < current s + USER + OFFSET_SIZE) → mem s1 y = mem s y;
}.

(** The user context that the handler saves has the handler's t0 and t2. *)
Definition miss_context (s : cpu) : regs_context_t :=
  saved_context (wr t2 (load32 (mem s) (current s + PID)) (wr t0 (current s) s))
    (context_at (mem s) (current s + USER)).

Lemma miss_runs s (P : (Z → Z) → Prop) :
  words_ok s → proc_ok (current s) → cp0 s CP0_BADVADDR < 2 ^ 31 → table_of s = 0 →
  (∀ s1, miss_entry s s1 (miss_context s) →
    ∃ s2, call "page_miss_handler" s1 = Ok s2 ∧ words_ok s2 ∧ current s2 = current s ∧
      context_at (mem s2) (current s + USER) = miss_context s ∧ P (mem s2)) →
  ∃ s', R TLB_exception_handler_entry s (Resume (cp0 s CP0_EPC)) s' ∧ P (mem s') ∧
    loaded (miss_context s) s'.
Proof.
  intros Hw Hp Hva Ht Hcall.
  destruct (refill_table s Hw Hp Hva) as (s1 & E1 & K0 & K1 & T0 & T2 & [Sh Sl Sc Sm St] & Hw1 & Hg1).
  assert (Hc1 : current s1 = current s) by (unfold current; by rewrite Sm).
  destruct (runs_save symbol call symbol_word current_place USER s1 Hw1) as (s2 & Hs2 & Hw2 & Hc2 & Hrun2);
    [by rewrite Hc1|by right|].
  rewrite Hc1 in *. set (c := current s) in *.
  assert (Hx2 : context_at (mem s2) (c + USER) = miss_context s).
  { rewrite (sv_context _ _ _ Hs2), Sm. unfold miss_context. unfold saved_context.
    rewrite Sc, Sh, Sl. f_equal. apply list_fmap_ext. intros i r _. case_decide as Hr; [|done].
    apply elem_of_general in Hr as (_ & Hk0 & Hk1).
    destruct (decide (r = t2)) as [->|]; [by rewrite T2, rd_wr|].
    destruct (decide (r = t0)) as [->|]; [by rewrite T0, rd_wr_ne, rd_wr|].
    rewrite !rd_wr_ne by done. apply Hg1. regs_ne. }
  destruct (proc_word symbol c 120 Hp) as (U3 & L3 & A3); [done..|].
  set (f := load32 (mem s2) (c + 120)).
  set (s3 := wr fp f (wr sp f (wr k0 c s2))).
  set (s4 := wr sp (u32 (f + -4)) (wr a0 (Z.shiftr (cp0 s CP0_BADVADDR) 13) (wr a0 (cp0 s CP0_BADVADDR) s3))).
  assert (Hcp : cp0 s2 = cp0 s) by (by rewrite (sv_cp0 _ _ _ Hs2), Sc).
  assert (E2 : exec_all symbol page_missing s2 = Ok s4).
  { unfold page_missing.
    rewrite (exec_all_cons _ _ _ _ (wr k0 c s2)).
    2: { cbn [exec]. rewrite load_current by done. by rewrite Hc2. }
    rewrite (exec_all_cons _ (LW sp 120 k0) _ _ (wr sp f (wr k0 c s2))).
    2: { cbn [exec]. change (rd (wr k0 c s2) k0) with c. rewrite U3, lw_ok by done. done. }
    unfold s4. rewrite <- Hcp. reflexivity. }
  assert (Hm2 : ∀ y, ¬ (c + USER ≤ y < c + USER + OFFSET_SIZE) → mem s2 y = mem s y).
  { intros y Hy. rewrite <- Sm. by apply (sv_mem _ _ _ Hs2). }
  destruct (Hcall s4) as (s5 & Hcl & Hw5 & Hc5 & Hx5 & HP).
  { split.
    - by apply (exec_all_words symbol page_missing s2 s4).
    - exact Hc2.
    - done.
    - change (f = load32 (mem s) (c + OFFSET_REG 30)). apply load32_ext.
      intros y Hy. apply Hm2. unfold USER, OFFSET_SIZE, OFFSET_REG in *. lia.
    - done.
    - exact Hx2.
    - exact Hm2. }
  destruct (runs_restore symbol call symbol_word current_place USER (wr sp (u32 (rd s5 sp + 4)) s5))
    as (s6 & Hr6 & _ & _ & Hrun6); [words| |by right|].
  { change (proc_ok (current s5)). by rewrite Hc5. }
  change (current (wr sp (u32 (rd s5 sp + 4)) s5)) with (current s5) in Hr6. rewrite Hc5 in Hr6.
  destruct Hr6 as [Hg6 _ Hh6 Hl6 Hcp6 Hm6 _].
  change (mem (wr sp (u32 (rd s5 sp + 4)) s5)) with (mem s5) in *. rewrite Hx5 in *.
  exists (leave s6). split_and!; [| |by split].
  - eapply (runs_block _ _ _ refill_find _ _ _ _ _ E1). eapply runs_BEQZ; [reflexivity|by rewrite K0|].
    apply Hrun2. eapply (runs_block _ _ _ page_missing _ _ _ _ _ E2).
    eapply runs_JAL; [exact Hcl|]. apply runs_NOP. eapply runs_I; [reflexivity|].
    apply Hrun6. apply runs_Label. replace (cp0 s CP0_EPC) with (cp0 s6 CP0_EPC); [apply runs_ERET|].
    rewrite Hcp6. exact (fupd_eq CP0_EPC _ _).
  - change (mem (leave s6)) with (mem s6). by rewrite Hm6.
Qed.
(** ** The page tables of [Memory] *)

(** Memory holds the page tables of process [p], whose entry is at [c]. *)
Record tables_at (mm : mm_t) (p c : Z) (m : Z → Z) : Prop := {
  ta_table i : 0 ≤ i < FIRST_PTE_NUM → get_pt mm (Some p) i = Ok (load32 m (c + PT + 4 * i));
  ta_ram f x : f ∈ pool → in_page f x → ram mm x = m x;
}.

(** The page whose entry the handler reads for [va]. *)
Definition refill_page (va : Z) : Z := 512 * Z.shiftr va 21 + refill_index va.

Lemma refill_page_div va :
  refill_page va = 512 * (get_vpn2 va / 256) + 2 * (get_vpn2 va / 2 mod 256).
Proof.
  unfold refill_page, refill_index. rewrite land_510. fold (get_vpn2 va).
  replace (Z.shiftr va 21) with (get_vpn2 va / 256); [done|]. unfold get_vpn2.
  by rewrite !Z.shiftr_div_pow2, Z.div_div by done.
Qed.

(** It is the first page of the pair only at the two ends of each group of 512
    pairs. *)
Lemma refill_page_right va :
  refill_page va = 2 * get_vpn2 va ↔ get_vpn2 va mod 512 = 0 ∨ get_vpn2 va mod 512 = 511.
Proof. rewrite refill_page_div. Z.div_mod_to_equations. lia. Qed.

Lemma refill_page_index va k :
  0 ≤ k ≤ 1 →
  get_first_level_index (refill_page va + k) = Z.shiftr va 21 ∧
  get_second_level_index (refill_page va + k) = refill_index va + k.
Proof.
  intros Hk. pose proof (refill_index_range va) as [Hr Hm]. rewrite first_level_div, second_level_mod.
  unfold refill_page. Z.div_mod_to_equations. lia.
Qed.

Section tables.
Context (mm : mm_t) (used : list Z) (p : Z) (s : cpu).
Context (Hok : frames_ok mm used) (Hpt : pt_ok mm used) (Hs : words_ok s) (Hc : proc_ok (current s)).
Context (Hrep : tables_at mm p (current s) (mem s)).
Notation va := (cp0 s CP0_BADVADDR).
Context (Hva : va < 2 ^ 31).

Lemma first_range : 0 ≤ Z.shiftr va 21 < FIRST_PTE_NUM.
Proof.
  pose proof (wo_cp0 s Hs CP0_BADVADDR) as [? _]. rewrite Z.shiftr_div_pow2 by done.
  split; [by apply Z.div_pos|]. apply Z.div_lt_upper_bound; [done|]. unfold FIRST_PTE_NUM. lia.
Qed.

Lemma table_in_pool : table_of s ≠ 0 → table_of s ∈ pool ∧ table_ok (table_of s).
Proof.
  intros H0. assert (Hp : table_of s ∈ pool).
  { apply (frames_pool mm used); [done|]. eapply pt_used; [done| |exact H0].
    apply (ta_table _ _ _ _ Hrep), first_range. }
  split; [done|]. apply pool_range in Hp as [? Hm]. unfold table_ok, PAGE_SIZE in *.
  split; [Z.div_mod_to_equations; lia|lia].
Qed.

Lemma pte_read k :
  0 ≤ k ≤ 1 →
  pte mm p (refill_page va + k) =
    if table_of s =? 0 then None
    else Some (load32 (mem s) (refill_pte s + 8 * k), load32 (mem s) (refill_pte s + 8 * k + 4)).
Proof.
  intros Hk. destruct (refill_page_index va k Hk) as [H1 H2]. unfold pte.
  rewrite H1, H2, (ta_table _ _ _ _ Hrep) by apply first_range. fold (table_of s).
  destruct (Z.eqb_spec (table_of s) 0) as [|H0]; [done|].
  destruct (table_in_pool H0) as [Hp _]. cbv zeta.
  replace (table_of s + PTE_SIZE * (refill_index va + k)) with (refill_pte s + 8 * k) by
    (unfold refill_pte, PTE_SIZE; lia).
  pose proof (refill_index_range va) as [Hr _].
  do 2 f_equal; apply load32_ext; intros x Hx; apply (ta_ram _ _ _ _ Hrep (table_of s)); try done;
    unfold in_page, refill_pte, PAGE_SIZE in *; lia.
Qed.
End tables.


(** When the table of second level exists but has no entry for the page, as
    for every page of a 2 MB region but the first pair that was touched, the
    handler does not call [page_miss_handler]: it writes whatever the registers of
    the coprocessor hold to the TLB and returns to the same instruction.  No page
    becomes mapped, so that the next exception for it finds the same tables. *)
Theorem tlb_hole_unresolved mm used p s lo0 :
  words_ok s → proc_ok (current s) → frames_ok mm used → pt_ok mm used →
  tables_at mm p (current s) (mem s) → cp0 s CP0_BADVADDR < 2 ^ 31 →
  pte mm p (refill_page (cp0 s CP0_BADVADDR)) = Some (0, lo0) →
  (Z.to_nat (Z.land (cp0 s CP0_INDEX) 63) < length (tlbs s))%nat →
  ∃ s', R TLB_exception_handler_entry s (Resume (cp0 s CP0_EPC)) s' ∧
    current s' = current s ∧ tables_at mm p (current s) (mem s') ∧
    tlbs s' = <[Z.to_nat (Z.land (cp0 s CP0_INDEX) 63) := entry_regs s]> (tlbs s) ∧
    cp0 s' = cp0 (leave s).
Proof.
  intros Hw Hp Hok Hpt Hrep Hva H0 Hidx.
  pose proof (pte_read mm used p s Hok Hpt Hw Hrep Hva 0) as Hread.
  rewrite Z.add_0_r, H0 in Hread. specialize (Hread ltac:(lia)).
  destruct (Z.eqb_spec (table_of s) 0) as [|Ht]; [done|].
  destruct (table_in_pool mm used p s Hok Hpt Hw Hrep Hva Ht) as [_ Htab].
  injection Hread as Hv _. rewrite Z.add_0_r in Hv.
  destruct (hole_runs s Hw Hp Hva Htab (eq_sym Hv) Hidx) as (s' & Hr & Hm & Htl & Hcp).
  exists s'. split_and!; [done| |by rewrite Hm|done|done]. unfold current. by rewrite Hm.
Qed.

(** C18. When the process has no table for the page, [page_miss_handler] is called
    on its kernel stack with the number of the pair, and both pages get valid,
    writable entries made for two new frames, distinct and not in use before; as in
    [page_miss_correct], a frame from [0xa1000000] on is not the page that its entry
    leads to, which lies 16 MB below.  The process then goes on at the instruction
    that raised the exception.  Its registers are restored, except that t0 and t2
    are lost: the handler had overwritten them before it saved the context.  Assumed
    of the compiled [page_miss_handler]: where the model's handler succeeds, it
    returns with the tables that the model's leaves, and keeps the pointer to the
    process and the context saved in its entry. *)
Theorem page_missing_correct mm used p k c x s :
  words_ok s → proc_ok (current s) → frames_ok mm used → pt_ok mm used → top mm + 4 < FRAME_NUM →
  tables_at mm p (current s) (mem s) → cp0 s CP0_BADVADDR < 2 ^ 31 →
  current_running k = Some c → aget (pcb k) c = Ok x → get_proc_by_pid k (p_pid x) = Ok (Some p) →
  pte mm p (refill_page (cp0 s CP0_BADVADDR)) = None →
  let vpn2 := get_vpn2 (cp0 s CP0_BADVADDR) in
  (∀ mm' s1, page_miss_handler k vpn2 mm = Ok mm' → miss_entry s s1 (miss_context s) →
    ∃ s2, call "page_miss_handler" s1 = Ok s2 ∧ words_ok s2 ∧ current s2 = current s ∧
      context_at (mem s2) (current s + USER) = miss_context s ∧
      tables_at mm' p (current s) (mem s2)) →
  ∃ mm' used' f0 f1 s', page_miss_handler k vpn2 mm = Ok mm' ∧
    used ⊆ used' ∧ f0 ≠ f1 ∧ f0 ∉ used ∧ f1 ∉ used ∧
    entry_made mm' used' p (2 * vpn2) f0 ∧ entry_made mm' used' p (2 * vpn2 + 1) f1 ∧
    maps mm' p (2 * vpn2) (if decide (f0 < 0xa1000000) then f0 else f0 - 0x1000000) ∧
    maps mm' p (2 * vpn2 + 1) (if decide (f1 < 0xa1000000) then f1 else f1 - 0x1000000) ∧
    R TLB_exception_handler_entry s (Resume (cp0 s CP0_EPC)) s' ∧
    tables_at mm' p (current s) (mem s') ∧
    (∀ r, r ∈ general → r ≠ t0 → r ≠ t2 → rd s' r = rd s r) ∧
    rd s' t0 = current s ∧ rd s' t2 = load32 (mem s) (current s + PID).
Proof.
  intros Hw Hp Hok Hpt Htop Hrep Hva Hc Hx Hq H0 vpn2 Hcall.
  pose proof (pte_read mm used p s Hok Hpt Hw Hrep Hva 0) as Hread.
  rewrite Z.add_0_r, H0 in Hread. specialize (Hread ltac:(lia)).
  destruct (Z.eqb_spec (table_of s) 0) as [Ht|]; [|done].
  assert (Hv : 0 ≤ vpn2 < 2 ^ 18).
  { pose proof (wo_cp0 s Hw CP0_BADVADDR) as [? _]. unfold vpn2, get_vpn2.
    rewrite Z.shiftr_div_pow2 by done. Z.div_mod_to_equations. lia. }
  destruct (add_2_page_spec k (p_pid x) p vpn2 mm used Hq Hv Hok Hpt Htop)
    as (mm' & used' & f0 & f1 & Hadd & [Hok' _ Hsub _ _] & Hne & _ & _ & Hn0 & Hn1 & Hm0 & Hm1 & _).
  assert (Hpm : page_miss_handler k vpn2 mm = Ok mm').
  { by rewrite (page_miss_add k c x vpn2 mm Hc Hx). }
  destruct (miss_runs s (tables_at mm' p (current s)) Hw Hp Hva Ht) as (s' & Hr & HP & [Hg _ _]).
  { intros s1 He. by apply (Hcall mm' s1). }
  assert (Hgr : ∀ r, r ∈ general →
    rd s' r = rd (wr t2 (load32 (mem s) (current s + PID)) (wr t0 (current s) s)) r).
  { intros r Hr'. specialize (Hg r Hr'). unfold miss_context in Hg.
    rewrite saved_lookup in Hg by done. by injection Hg. }
  exists mm', used', f0, f1, s'. split_and!; try done.
  - by eapply entry_made_maps.
  - by eapply entry_made_maps.
  - intros r Hr' H8 H10. rewrite Hgr by done. by rewrite !rd_wr_ne.
  - rewrite Hgr by (by apply elem_of_general). done.
  - rewrite Hgr by (by apply elem_of_general). done.
Qed.
End refill.

(** ** Writing the tables of [Memory] to memory *)

(** Memory [m] with the frames and the tables of process [p] taken from [mm]. *)
Definition sync (mm : mm_t) (p c : Z) (m : Z → Z) : Z → Z := λ x,
  if (0xa08f0000 <=? x) && (x <? 0xa10f0000) then ram mm x
  else if (c + PT <=? x) && (x <? c + PT + 4096) then
    word_byte (match get_pt mm (Some p) ((x - (c + PT)) / 4) with Ok a => a | _ => 0 end)
      ((x - (c + PT)) mod 4)
  else m x.

Lemma sync_tables mm used p c m :
  frames_ok mm used → pt_ok mm used → 0 ≤ p < NUM_TABLES →
  c + PT + 4096 ≤ 0xa08f0000 → tables_at mm p c (sync mm p c m).
Proof.
  intros Hok Hpt Hp Hc. split.
  - intros i Hi. destruct (get_pt_total mm used p i Hpt) as [a Ha]; [done|]. rewrite Ha. f_equal.
    assert (Hw : word a).
    { destruct (Z.eq_dec a 0) as [->|H0]; [done|].
      assert (a ∈ pool) as Hpool by (by apply (frames_pool mm used), (pt_used _ _ Hpt p i)).
      apply pool_range in Hpool. unfold word. lia. }
    assert (Hb : ∀ j, 0 ≤ j < 4 → sync mm p c m (c + PT + 4 * i + j) = word_byte a j).
    { intros j Hj. unfold sync, FIRST_PTE_NUM in *.
      rewrite (proj2 (Z.leb_gt _ _)) by lia. cbn [andb].
      rewrite (proj2 (Z.leb_le _ _)), (proj2 (Z.ltb_lt _ _)) by lia. cbn [andb].
      replace (c + PT + 4 * i + j - (c + PT)) with (j + i * 4) by lia.
      rewrite Z.div_add, Z.mod_add, Z.div_small, Z.mod_small by lia. by rewrite Z.add_0_l, Ha. }
    unfold load32. rewrite <- (Z.add_0_r (c + PT + 4 * i)) at 1. rewrite !Hb by lia. by rewrite word_bytes.
  - intros f x Hf Hx. apply pool_range in Hf as [Hf Hm]. unfold in_page, PAGE_SIZE in *. unfold sync.
    rewrite (proj2 (Z.leb_le _ _)), (proj2 (Z.ltb_lt _ _)); [done| |lia]. Z.div_mod_to_equations. lia.
Qed.

Lemma sync_out mm p c m x :
  x < c + PT → x < 0xa08f0000 → sync mm p c m x = m x.
Proof.
  intros H1 H2. unfold sync. rewrite (proj2 (Z.leb_gt 0xa08f0000 x)) by done.
  by rewrite (proj2 (Z.leb_gt (c + PT) x)).
Qed.

Lemma sync_bytes mm p c m :
  (∀ x, 0 ≤ ram mm x < 256) → (∀ x, 0 ≤ m x < 256) → ∀ x, 0 ≤ sync mm p c m x < 256.
Proof.
  intros H1 H2 x. unfold sync. destruct (_ && _); [done|]. destruct (_ && _); [|done].
  by apply Z.mod_pos_bound.
Qed.

(** ** Memory holds bytes *)

Definition bytes_ok (m : mm_t) : Prop := ∀ x, 0 ≤ ram m x < 256.

Lemma kalloc_bytes m a m' : kalloc m = Ok (a, m') → bytes_ok m → bytes_ok m'.
Proof.
  unfold kalloc. destruct (_ <? _); [|done]. intros H Hm. outcome_inv H. subst m'.
  refine (for_range_keeps (λ _, bytes_ok) 0 (PAGE_SIZE / 4) _ m _ _ Hm _ H1); [by vm_compute|].
  intros i s s' _ Hs [= <-]. exact (store32_bytes _ _ _ Hs).
Qed.

Lemma map_page_bytes proc base m m' : map_page proc base m = Ok m' → bytes_ok m → bytes_ok m'.
Proof.
  intros H Hm. rewrite map_page_eq in H. apply bind_Ok_inv in H as (m1 & H1 & H).
  apply bind_Ok_inv in H as ([frame m2] & H2 & H). outcome_inv H. subst m'.
  assert (Hm1 : bytes_ok m1).
  { unfold ensure_table in H1. apply bind_Ok_inv in H1 as (table & _ & H1).
    destruct (table =? 0); [|by injection H1 as <-].
    apply bind_Ok_inv in H1 as ([page m3] & H3 & H1). unfold set_pt in H1. outcome_inv H1. subst m1.
    by apply (kalloc_bytes m page m3). }
  apply (kalloc_bytes _ _ _ H2) in Hm1. exact (store32_bytes _ _ _ (store32_bytes _ _ _ Hm1)).
Qed.

Lemma page_miss_bytes k vpn2 m m' : page_miss_handler k vpn2 m = Ok m' → bytes_ok m → bytes_ok m'.
Proof.
  unfold page_miss_handler, add_2_page. intros H Hm. apply bind_Ok_inv in H as (x & _ & H).
  apply bind_Ok_inv in H as (proc & _ & H). apply bind_Ok_inv in H as (m1 & H1 & H).
  by apply (map_page_bytes _ _ _ _ H), (map_page_bytes _ _ _ _ H1).
Qed.

(** ** Witnesses *)

(** Process 0 has one table of second level, which maps pages 0x40000 and
    0x40001. *)
Definition demo_frame : Z := 0xa08f0000.
Definition demo_entries : list (Z * Z) :=
  [(demo_pcb + PT + 2048, demo_frame); (demo_frame, 0x40000); (demo_frame + 4, 100);
   (demo_frame + 8, 0x40001); (demo_frame + 12, 200)].
Definition demo_rows : list (list Z) :=
  <[Z.to_nat 0 := <[Z.to_nat 512 := demo_frame]> (fill FIRST_PTE_NUM 0)]> (replicate 16 (fill FIRST_PTE_NUM 0)).
Definition demo_mm : mm_t := Mm pool 3 (words_mem demo_entries) demo_rows [].
Definition demo_tlb : list tlb_entry := replicate 4 (TlbEntry 0 0 0 0).
Definition demo_fault (va : Z) : cpu := demo_cpu demo_entries va demo_tlb.

Lemma demo_frames : frames_ok demo_mm (take 3 pool).
Proof.
  split.
  - change (Z.of_nat (length pool) = FRAME_NUM). unfold pool. by rewrite length_fmap, length_seqZ.
  - done.
  - change (take 3 pool ++ drop 3 pool ≡ₚ pool). by rewrite take_drop.
Qed.

Lemma demo_get_pt q i :
  get_pt demo_mm (Some q) i =
    if decide (q = 0 ∧ i = 512) then Ok demo_frame
    else get_pt init_mm (Some q) i.
Proof.
  unfold get_pt. cbn [deref]. rewrite !bind_Ok.
  change (secondary_pt demo_mm) with demo_rows. unfold demo_rows.
  change (secondary_pt init_mm) with (replicate 16 (fill FIRST_PTE_NUM 0)).
  destruct (decide (q = 0)) as [->|Hq].
  - rewrite aget_insert_eq, bind_Ok by done.
    destruct (decide (i = 512)) as [->|Hi].
    + rewrite aget_insert_eq; [done|].
      unfold fill, FIRST_PTE_NUM. rewrite length_replicate. lia.
    + rewrite aget_insert_ne, decide_False by naive_solver lia.
      reflexivity.
  - rewrite aget_insert_ne by lia.
    by rewrite decide_False by naive_solver.
Qed.

Lemma demo_pt : pt_ok demo_mm (take 3 pool).
Proof.
  assert (H : ∀ q i a, get_pt demo_mm (Some q) i = Ok a → a ≠ 0 → q = 0 ∧ i = 512 ∧ a = demo_frame).
  { intros q i a. rewrite demo_get_pt. case_decide as Hd.
    - intros [= <-] _. by destruct Hd.
    - by intros ->%get_pt_init. }
  split.
  - exact eq_refl.
  - apply Forall_insert; [apply Forall_replicate, length_fill; done|].
    by rewrite length_insert, length_fill.
  - intros p i a Ha H0. destruct (H p i a Ha H0) as (_ & _ & ->).
    unfold pool. rewrite <- fmap_take. apply list_elem_of_fmap. by exists 0; split; [|left].
  - intros p i p' i' a Ha Ha' H0. destruct (H p i a Ha H0) as (-> & -> & _).
    by destruct (H p' i' a Ha' H0) as (-> & -> & _).
Qed.

Lemma demo_tables : tables_at demo_mm 0 demo_pcb (words_mem demo_entries).
Proof.
  split; [|done]. intros i Hi. rewrite demo_get_pt. case_decide as Hd.
  - destruct Hd as [_ ->]. by vm_compute.
  - destruct (get_pt_total init_mm [] 0 i init_mm_tables) as [a Ha]; [by split|].
    rewrite Ha. apply get_pt_init in Ha as ->. f_equal. symmetry.
    unfold words_mem. rewrite <- (Z.add_0_l (demo_pcb + PT + 4 * i)).
    rewrite store_all_notin; [done|by apply (bool_decide_eq_true_1 _)| |].
    + unfold demo_pcb, PT. Z.div_mod_to_equations. lia.
    + assert (i ≠ 512) by naive_solver. unfold FIRST_PTE_NUM in Hi.
      change (demo_symbol "current_running") with 0xa0800300.
      unfold demo_entries, demo_frame, demo_pcb, PT. cbn [fmap list_fmap fst].
      repeat (apply not_elem_of_cons; split); [lia..|apply not_elem_of_nil].
Qed.

Lemma demo_fault_words va : word va → words_ok (demo_fault va).
Proof. intros Hva. apply demo_words; [done|cbn; lia|by apply (bool_decide_eq_true_1 _)]. Qed.

Lemma demo_fault_current va : current demo_symbol (demo_fault va) = demo_pcb.
Proof. apply demo_cpu_current. by apply (bool_decide_eq_true_1 _). Qed.


Lemma tlb_hole_unresolved_witness :
  ∃ s', runs demo_symbol text demo_call TLB_exception_handler_entry (demo_fault 0x40008000)
      (Resume 0) s' ∧
    tables_at demo_mm 0 demo_pcb (mem s').
Proof.
  set (s := demo_fault 0x40008000).
  assert (Hc : current demo_symbol s = demo_pcb) by apply demo_fault_current.
  destruct (tlb_hole_unresolved demo_symbol demo_call demo_symbol_word demo_place demo_mm (take 3 pool) 0
    s 0) as (s' & Hr & _ & Ht & _).
  - by apply demo_fault_words.
  - rewrite Hc. exact demo_proc.
  - exact demo_frames.
  - exact demo_pt.
  - rewrite Hc. exact demo_tables.
  - by vm_compute.
  - by vm_compute.
  - by vm_compute; lia.
  - exists s'. split; [exact Hr|]. rewrite Hc in Ht. exact Ht.
Defined.

(** [page_miss_handler] as a function on the processor's memory. *)
Definition miss_call (f : string) (s : cpu) : outcome cpu :=
  mm ← page_miss_handler three_ready (get_vpn2 0x400000) demo_mm;
  Ok (s <| mem ::= sync mm 0 demo_pcb |>).

Lemma miss_call_correct x mm' s1 y :
  aget (pcb three_ready) 0 = Ok x → get_proc_by_pid three_ready (p_pid x) = Ok (Some 0) →
  page_miss_handler three_ready 512 demo_mm = Ok mm' →
  words_ok s1 → current demo_symbol s1 = demo_pcb → context_at (mem s1) (demo_pcb + USER) = y →
  ∃ s2, miss_call "page_miss_handler" s1 = Ok s2 ∧ words_ok s2 ∧ current demo_symbol s2 = demo_pcb ∧
    context_at (mem s2) (demo_pcb + USER) = y ∧ tables_at mm' 0 demo_pcb (mem s2).
Proof.
  intros Hx Hp0 Hmm Hw1 Hc1 Hx1. exists (s1 <| mem ::= sync mm' 0 demo_pcb |>).
  assert (Hb : bytes_ok mm') by exact (page_miss_bytes _ _ _ _ Hmm (words_mem_bytes demo_entries)).
  assert (Hout : ∀ z, z < demo_pcb + PT → sync mm' 0 demo_pcb (mem s1) z = mem s1 z).
  { intros z Hz. apply sync_out; [exact Hz|]. unfold demo_pcb, PT in Hz. lia. }
  split_and!.
  - unfold miss_call. change (get_vpn2 0x400000) with 512. by rewrite Hmm.
  - exact (mem_words _ s1 Hw1 (sync_bytes mm' 0 demo_pcb (mem s1) Hb (wo_mem s1 Hw1))).
  - refine (eq_trans _ Hc1). apply current_ext. intros z Hz. apply Hout. unfold demo_pcb, PT.
    change (demo_symbol "current_running") with 0xa0800300 in Hz. lia.
  - refine (eq_trans _ Hx1). apply context_at_ext. intros z Hz. apply Hout.
    unfold PT, USER, OFFSET_SIZE in *. lia.
  - assert (Ht : top demo_mm + 4 < FRAME_NUM) by exact eq_refl.
    destruct (add_2_page_spec three_ready (p_pid x) 0 512 demo_mm (take 3 pool) Hp0 ltac:(lia)
      demo_frames demo_pt Ht) as (mm2 & u2 & g0 & g1 & Hadd & [Hok2 Hpt2 _ _ _] & _).
    rewrite (page_miss_add three_ready 0 x 512 demo_mm eq_refl Hx), Hadd in Hmm. injection Hmm as ->.
    refine (sync_tables mm' u2 0 demo_pcb (mem s1) Hok2 Hpt2 _ _);
      [unfold NUM_TABLES, NUM_MAX_TASK; lia|unfold demo_pcb, PT; lia].
Qed.

Lemma page_missing_correct_witness :
  ∃ mm' f0 s', page_miss_handler three_ready 512 demo_mm = Ok mm' ∧ f0 ∉ take 3 pool ∧
    pte mm' 0 1024 = Some (1024, entry_of f0) ∧
    runs demo_symbol text miss_call TLB_exception_handler_entry (demo_fault 0x400000) (Resume 0) s' ∧
    rd s' t1 = 144 ∧ rd s' t0 = demo_pcb.
Proof.
  assert (t1 ∈ general ∧ t1 ≠ t0 ∧ t1 ≠ t2) as (N1 & N2 & N3) by (by split; [apply elem_of_general|]).
  set (s := demo_fault 0x400000).
  assert (Hc : current demo_symbol s = demo_pcb) by apply demo_fault_current.
  destruct three_ready_0 as (x & Hx & Hp0).
  destruct (page_missing_correct demo_symbol miss_call demo_symbol_word demo_place demo_mm (take 3 pool) 0
    three_ready 0 x s) as (mm' & used' & f0 & f1 & s' & Hpm & _ & _ & Hn & _ & Hm & _ & _ & _ & Hr & _ & Hg & H0 & _).
  - by apply demo_fault_words.
  - rewrite Hc. exact demo_proc.
  - exact demo_frames.
  - exact demo_pt.
  - exact eq_refl.
  - rewrite Hc. exact demo_tables.
  - exact eq_refl.
  - exact eq_refl.
  - exact Hx.
  - exact Hp0.
  - by vm_compute.
  - intros mm' s1 Hmm [Hw1 Hc1 _ _ _ Hx1 _]. rewrite Hc in *.
    exact (miss_call_correct x mm' s1 _ Hx Hp0 Hmm Hw1 Hc1 Hx1).
  - exists mm', f0, s'. exact (conj Hpm (conj Hn (conj (mp_entry _ _ _ _ _ Hm) (conj Hr
      (conj (Hg t1 N1 N2 N3) (eq_trans H0 Hc)))))).
Defined.
