(* ===== verification/Switch.v ===== *)
(** * Switching processes: [do_scheduler] of [entry.S] around [scheduler] of
    [kernel/sched/sched.c]

    The saving and restoring of registers (Entry.v) composed with the choice of
    the next process (Sched.v): memory represents the process table. *)

From S2P Require Import Prelude CString Queue Kstate Sched Process Memory Cpu Entry.
Import Regs.

(** ** [scheduler] does not touch the contexts *)

Definition contexts (k : kstate) : list (regs_context_t * regs_context_t) :=
  (λ x, (kernel_context x, user_context x)) <$> pcb k.

Lemma contexts_pcb k k' : pcb k' = pcb k → contexts k' = contexts k.
Proof. unfold contexts. by intros ->. Qed.

Lemma upd_proc_contexts k p f k' :
  (∀ x, kernel_context (f x) = kernel_context x ∧ user_context (f x) = user_context x) →
  upd_proc k p f = Ok k' → contexts k' = contexts k.
Proof.
  intros Hf H. unfold upd_proc in H. apply bind_Ok_inv in H as (i & _ & H).
  apply bind_Ok_inv in H as (x & [Hi Hx]%aget_Ok & H).
  apply bind_Ok_inv in H as (t & [_ ->]%aset_Ok & H). injection H as <-.
  unfold contexts. cbn. rewrite list_fmap_insert. destruct (Hf x) as [-> ->].
  apply list_insert_id. by rewrite list_lookup_fmap, Hx.
Qed.

Lemma k_push_contexts k q p k' : k_push k q p = Ok k' → contexts k' = contexts k.
Proof. unfold k_push. intros H. by apply bind_Ok_inv in H as ([] & _ & [= <-]). Qed.

Lemma k_push_if_contexts k q p k' : k_push_if_not_exist k q p = Ok k' → contexts k' = contexts k.
Proof. unfold k_push_if_not_exist. intros H. by apply bind_Ok_inv in H as ([] & _ & [= <-]). Qed.

Lemma k_dequeue_contexts k q r k' : k_dequeue k q = Ok (r, k') → contexts k' = contexts k.
Proof. unfold k_dequeue. intros H. by apply bind_Ok_inv in H as ([[] ?] & _ & [= _ <-]). Qed.

Lemma increase_contexts k n k' : increase_priority_upper_bound k n = Ok k' → contexts k' = contexts k.
Proof.
  unfold increase_priority_upper_bound. intros H. apply bind_Ok_inv in H as (? & _ & H).
  by apply bind_Ok_inv in H as (? & _ & [= <-]).
Qed.

Create HintDb contexts.
#[local] Hint Resolve upd_proc_contexts k_push_contexts k_push_if_contexts k_dequeue_contexts
  increase_contexts : contexts.

Lemma invoke_contexts k p k' : invoke_blocked_proc k p = Ok k' → contexts k' = contexts k.
Proof.
  unfold invoke_blocked_proc. destruct p; [|by intros [= ->]]. intros H.
  apply bind_Ok_inv in H as (k1 & H1 & H). apply bind_Ok_inv in H as (x & _ & H).
  apply bind_Ok_inv in H as (k2 & H2 & H). apply bind_Ok_inv in H as (q & _ & H).
  apply k_push_if_contexts in H as ->. apply increase_contexts in H2 as ->.
  by apply upd_proc_contexts in H1.
Qed.

Lemma check_sleeping_contexts k k' : check_sleeping k = Ok k' → contexts k' = contexts k.
Proof.
  unfold check_sleeping. destruct (head _); [|by intros [= ->]]. intros H.
  apply bind_Ok_inv in H as (x & _ & H). destruct (_ <? _); [|by injection H as ->].
  apply bind_Ok_inv in H as ([r k1] & H1 & H). apply bind_Ok_inv in H as (k2 & H2 & H).
  apply invoke_contexts in H as ->. apply upd_proc_contexts in H2 as ->; [|done].
  by apply k_dequeue_contexts in H1.
Qed.

Lemma check_net_recv_contexts k k' : check_net_recv k = Ok k' → contexts k' = contexts k.
Proof.
  unfold check_net_recv. destruct (head _); [|by intros [= ->]]. intros H.
  apply bind_Ok_inv in H as (x & _ & H). apply bind_Ok_inv in H as (d & _ & H).
  apply bind_Ok_inv in H as (w & _ & H). destruct (_ =? _); [|by injection H as ->].
  apply bind_Ok_inv in H as ([r k1] & H1 & H).
  apply invoke_contexts in H as ->. by apply k_dequeue_contexts in H1.
Qed.

Lemma dequeue_live_contexts n k q r k' : dequeue_live n k q = Ok (r, k') → contexts k' = contexts k.
Proof.
  revert k. induction n as [|n IH]; intros k H; [done|]. cbn in H.
  apply bind_Ok_inv in H as ([top k1] & H1%k_dequeue_contexts & H). rewrite <- H1.
  destruct top; [|by injection H as _ <-]. apply bind_Ok_inv in H as (x & _ & H).
  case_decide; [by apply IH|by injection H as _ <-].
Qed.

Lemma select_queue_pcb k i k' : select_queue k = Ok (i, k') → pcb k' = pcb k.
Proof.
  unfold select_queue. intros H. apply bind_Ok_inv in H as (j & _ & H).
  apply bind_Ok_inv in H as ([j' k1] & H1 & H).
  assert (Hk1 : pcb k1 = pcb k).
  { destruct (MAX_PRIORITY_NUM <=? j); [|by injection H1 as _ <-]. by apply bind_Ok_inv in H1 as (t & _ & [= _ <-]). }
  rewrite <- Hk1. clear H1. cbv zeta in H. destruct (_ <=? _); [by injection H as _ <-|].
  apply bind_Ok_inv in H as (q & _ & H). destruct (head _); [|by injection H as _ <-].
  apply bind_Ok_inv in H as (c & _ & H). by apply bind_Ok_inv in H as (t & _ & [= _ <-]).
Qed.

Lemma switch_to_contexts k top k' : switch_to k top = Ok k' → contexts k' = contexts k.
Proof.
  unfold switch_to. intros H. apply bind_Ok_inv in H as (k1 & H1 & H).
  apply bind_Ok_inv in H as (k2 & H2 & H). apply bind_Ok_inv in H as (c & _ & H).
  apply bind_Ok_inv in H as (cp & _ & H). apply bind_Ok_inv in H as (k3 & H3 & H).
  apply bind_Ok_inv in H as (k4 & H4 & H). apply bind_Ok_inv in H as (k5 & H5 & H).
  apply bind_Ok_inv in H as (x & _ & [= <-]).
  apply upd_proc_contexts in H1; [|done]. apply upd_proc_contexts in H2; [|done].
  apply check_sleeping_contexts in H4. apply check_net_recv_contexts in H5.
  assert (H3' : contexts k3 = contexts k2).
  { case_decide; [|by injection H3 as ->]. apply bind_Ok_inv in H3 as (q & _ & H3).
    by apply k_push_contexts in H3. }
  change (contexts k5 = contexts k). congruence.
Qed.

Lemma scheduler_contexts k k' : scheduler k = Ok k' → contexts k' = contexts k.
Proof.
  unfold scheduler. intros H. apply bind_Ok_inv in H as ([i k1] & H1%select_queue_pcb & H).
  apply bind_Ok_inv in H as (q & _ & H). apply bind_Ok_inv in H as ([top k2] & H2 & H).
  apply dequeue_live_contexts in H2. apply contexts_pcb in H1. rewrite <- H1, <- H2.
  destruct top; [by apply switch_to_contexts in H|]. by injection H as <-.
Qed.

Lemma contexts_lookup k k' p x' :
  contexts k' = contexts k → aget (pcb k') p = Ok x' →
  ∃ x, aget (pcb k) p = Ok x ∧ kernel_context x' = kernel_context x ∧ user_context x' = user_context x.
Proof.
  intros H [Hp Hx']%aget_Ok.
  assert (Hl : contexts k' !! Z.to_nat p = Some (kernel_context x', user_context x')).
  { unfold contexts. by rewrite list_lookup_fmap, Hx'. }
  rewrite H in Hl. unfold contexts in Hl. rewrite list_lookup_fmap in Hl.
  destruct (pcb k !! Z.to_nat p) as [x|] eqn:Hx; [|done]. exists x. split; [by apply aget_Ok|].
  by injection Hl as -> ->.
Qed.

Lemma scheduler_length k k' : scheduler k = Ok k' → length (pcb k') = length (pcb k).
Proof.
  intros H%scheduler_contexts%(f_equal length). unfold contexts in H. by rewrite !length_fmap in H.
Qed.

(** ** The process table in memory *)

Section switch.
(** [pcb_size] is [sizeof(pcb_t)]. *)
Context (symbol : string → Z) (call : string → cpu → outcome cpu) (pcb_size : Z).
Notation R := (runs symbol text call).
Notation current := (current symbol).

Definition pcb_addr (p : pid) : Z := symbol "pcb" + pcb_size * p.

(** The process table and [current_running] are placed apart, in the unmapped
    segments. *)
Record layout_ok : Prop := {
  ly_word x : word (symbol x);
  ly_current : Entry.current_ok symbol;
  ly_size : PID + 4 ≤ pcb_size;
  ly_proc p : pid_ok p → proc_ok symbol (pcb_addr p);
}.
Context (layout : layout_ok).

(** What memory holds of the kernel's state: the current process and the
    contexts of all processes. *)
Record represents (k : kstate) (s : cpu) : Prop := {
  rp_current : current s = match current_running k with Some p => pcb_addr p | None => 0 end;
  rp_kernel p x : aget (pcb k) p = Ok x → context_at (mem s) (pcb_addr p) = kernel_context x;
  rp_user p x : aget (pcb k) p = Ok x → context_at (mem s) (pcb_addr p + USER) = user_context x;
  rp_words : words_ok s;
}.

(** The kernel's state after the registers of [s] are saved for process [c]. *)
Definition save_in (k : kstate) (c : pid) (x : pcb_t) (s : cpu) : kstate :=
  k <| pcb := <[Z.to_nat c := x <| kernel_context ::= saved_context s |>]> (pcb k) |>.

Lemma represents_saved k c x s s1 :
  Z.of_nat (length (pcb k)) = NUM_MAX_TASK →
  represents k s → current_running k = Some c → aget (pcb k) c = Ok x →
  saved (pcb_addr c) s s1 → words_ok s1 → current s1 = current s →
  represents (save_in k c x s) s1.
Proof.
  intros Hlen [Hcur Hker Husr _] Hc Hx Hs1 Hw1 Hc1.
  pose proof (aget_bound _ _ _ Hx) as Hcb. pose proof (ly_size layout) as Hsize.
  assert (Hout : ∀ p o, 0 ≤ p → (p ≠ c ∨ o = USER) → 0 ≤ o ≤ USER →
    context_at (mem s1) (pcb_addr p + o) = context_at (mem s) (pcb_addr p + o)).
  { intros p o Hp Hpc Ho. apply context_at_ext. intros y Hy. apply (sv_mem _ _ _ Hs1).
    unfold pcb_addr, PID, USER, OFFSET_SIZE in *.
    assert (p = c ∨ pcb_size * p + pcb_size ≤ pcb_size * c ∨ pcb_size * c + pcb_size ≤ pcb_size * p)
      as [->|Hap] by (destruct (Z.lt_trichotomy p c) as [|[|]]; [right; left; nia|by left|right; right; nia]).
    - destruct Hpc as [Hpc| ->]; [done|lia].
    - destruct Hap; lia. }
  split; [by rewrite Hc1, Hcur| | |done].
  - intros p y Hy. pose proof (aget_bound _ _ _ Hy) as Hpb. cbn in Hy.
    destruct (Z.eq_dec p c) as [->|Hne].
    + rewrite aget_insert_eq in Hy by lia. injection Hy as <-. cbn.
      rewrite (sv_context _ _ _ Hs1). by rewrite (Hker c x).
    + rewrite aget_insert_ne in Hy by lia. pose proof (Hout p 0) as H0. rewrite Z.add_0_r in H0.
      rewrite H0; [by apply Hker|lia|by left|unfold USER; lia].
  - intros p y Hy. pose proof (aget_bound _ _ _ Hy) as Hpb. cbn in Hy.
    rewrite Hout; [|lia|by right|unfold USER; lia]. destruct (Z.eq_dec p c) as [->|Hne].
    + rewrite aget_insert_eq in Hy by lia. injection Hy as <-. cbn. by apply Husr.
    + rewrite aget_insert_ne in Hy by lia. by apply Husr.
Qed.

Lemma save_in_wf k Q c x s :
  sched_wf k Q → Sched.current_ok k Q c x →
  sched_wf (save_in k c x s) Q ∧
  Sched.current_ok (save_in k c x s) Q c (x <| kernel_context ::= saved_context s |>).
Proof.
  intros Hwf (Hc & Hx & Hn & Hr). pose proof (aget_pcb_ok _ _ _ _ Hwf Hx) as Hp.
  destruct (upd_proc_spec k Q c (λ x, x <| kernel_context ::= saved_context s |>) Hwf Hp)
    as (y & k1 & Hy & _ & Hwf1 & Hk1); [done|].
  rewrite Hx in Hy. injection Hy as <-. change (k1 = save_in k c x s) in Hk1. subst k1.
  split; [done|]. split_and!; [done| |done|exact Hr].
  pose proof (aget_bound _ _ _ Hx). cbn. by apply aget_insert_eq.
Qed.

(** [scheduler], run in state [s1] of the processor, does to memory what
    [Sched.scheduler] does to the kernel's state. *)
Definition scheduler_compiled (k : kstate) : Prop :=
  ∀ k' s1, scheduler k = Ok k' → represents k s1 →
    ∃ s2, call "scheduler" s1 = Ok s2 ∧ represents k' s2.

Lemma switch_runs k Q c x s :
  sched_wf k Q → Sched.current_ok k Q c x → represents k s →
  scheduler_compiled (save_in k c x s) →
  ∃ k' d y s', scheduler (save_in k c x s) = Ok k' ∧ current_running k' = Some d ∧
    aget (pcb (save_in k c x s)) d = Ok y ∧ pid_ok d ∧
    R do_scheduler s (Jump (rd s' ra)) s' ∧ represents k' s' ∧ loaded (kernel_context y) s'.
Proof.
  intros Hwf Hcur Hrep Hcall. destruct (save_in_wf k Q c x s Hwf Hcur) as [Hwf1 Hcur1].
  destruct Hcur as (Hc & Hx & _ & _). pose proof (aget_pcb_ok _ _ _ _ Hwf Hx) as Hpc.
  assert (Hcs : current s = pcb_addr c) by (by rewrite (rp_current _ _ Hrep), Hc).
  destruct (do_scheduler_runs symbol call (ly_word layout) (ly_current layout) s (rp_words _ _ Hrep))
    as (s1 & Hs1 & Hw1 & Hc1 & Hrun); [rewrite Hcs; by apply layout|].
  rewrite Hcs in Hs1.
  assert (Hrep1 : represents (save_in k c x s) s1).
  { apply represents_saved; [apply Hwf|done..]. }
  destruct (scheduler_spec (save_in k c x s) Q c _ Hwf1 Hcur1)
    as (k' & Q' & i & r & rest & Hsch & Hwf' & _ & _ & _ & Hnext).
  destruct (Hcall k' s1 Hsch Hrep1) as (s2 & Hcl & Hrep2).
  assert (Hd : ∃ d y', current_running k' = Some d ∧ aget (pcb k') d = Ok y').
  { destruct r as [d|]; [|by destruct Hnext as (? & ? & _); eauto].
    destruct Hnext as (Hd & _ & (y' & Hy' & _) & _). by exists d, y'. }
  destruct Hd as (d & y' & Hd & Hy'). pose proof (aget_pcb_ok _ _ _ _ Hwf' Hy') as Hpd.
  destruct (contexts_lookup _ _ _ _ (scheduler_contexts _ _ Hsch) Hy') as (y & Hy & Hky & _).
  assert (Hcs2 : current s2 = pcb_addr d) by (by rewrite (rp_current _ _ Hrep2), Hd).
  destruct (Hrun s2 Hcl (rp_words _ _ Hrep2)) as (s' & Hrs & Hw' & Hr); [rewrite Hcs2; by apply layout|].
  rewrite Hcs2 in Hrs. pose proof (rp_kernel _ _ Hrep2 d y' Hy') as Hctx.
  exists k', d, y, s'. split_and!; [done..| |].
  - pose proof (rs_mem _ _ _ Hrs) as Hm. destruct Hrep2 as [H1 H2 H3 H4].
    split; [unfold Entry.current; rewrite Hm; exact H1|by rewrite Hm|by rewrite Hm|done].
  - rewrite <- Hky, <- Hctx. destruct Hrs. by split.
Qed.

(** C3. [do_scheduler] saves the registers of the running process in its entry
    of the process table, and comes back with those of the process that
    [scheduler] chose: memory represents the kernel's state after [scheduler],
    and control goes to the return address of the chosen process.  If that is
    the calling process no register has changed, except k0 and k1; otherwise
    they are the ones saved in its entry. *)
Theorem context_switch_correct k Q c x s :
  sched_wf k Q → Sched.current_ok k Q c x → represents k s →
  scheduler_compiled (save_in k c x s) →
  ∃ k' d s', scheduler (save_in k c x s) = Ok k' ∧ current_running k' = Some d ∧
    R do_scheduler s (Jump (rd s' ra)) s' ∧ represents k' s' ∧
    (d = c → (∀ r, r ∈ general → rd s' r = rd s r) ∧ hi_reg s' = hi_reg s ∧ lo_reg s' = lo_reg s) ∧
    (d ≠ c → ∃ y, aget (pcb k) d = Ok y ∧ loaded (kernel_context y) s') ∧
    ∃ x', aget (pcb k') c = Ok x' ∧ kernel_context x' = saved_context s (kernel_context x).
Proof.
  intros Hwf Hcur Hrep Hcall.
  destruct (switch_runs k Q c x s Hwf Hcur Hrep Hcall)
    as (k' & d & y & s' & Hsch & Hd & Hy & Hpd & Hr & Hrep' & Hl).
  destruct Hcur as (_ & Hx & _ & _). pose proof (aget_bound _ _ _ Hx) as Hb. unfold pid_ok in Hpd.
  exists k', d, s'. split_and!; [done..| | |].
  - intros ->. cbn in Hy. rewrite aget_insert_eq in Hy by done. injection Hy as <-.
    exact (loaded_saved s (kernel_context x) (cp0 s CP0_EPC) s' Hl).
  - intros Hne. cbn in Hy. rewrite aget_insert_ne in Hy by lia. by exists y.
  - assert (Hlen : length (pcb k') = length (pcb k)).
    { rewrite (scheduler_length _ _ Hsch). cbn. apply length_insert. }
    destruct (aget_total (pcb k') c) as [x' Hx']; [lia|]. exists x'. split; [done|].
    destruct (contexts_lookup _ _ _ _ (scheduler_contexts _ _ Hsch) Hx') as (z & Hz & -> & _).
    cbn in Hz. rewrite aget_insert_eq in Hz by done. by injection Hz as <-.
Qed.

(** ** Away and back *)

(** What happens between two moments at which process [c] is not running: the
    running process executes its own code, which leaves the saved registers of
    [c] alone, or gives the processor to another process than [c]. *)
Inductive elsewhere (c : pid) : kstate * cpu → kstate * cpu → Prop :=
  | elsewhere_refl m : elsewhere c m m
  | elsewhere_code m k s k' s' :
      elsewhere c m (k, s) → represents k' s' → current_running k' = current_running k →
      (∀ x', aget (pcb k') c = Ok x' →
        ∃ x, aget (pcb k) c = Ok x ∧ kernel_context x' = kernel_context x) →
      elsewhere c m (k', s')
  | elsewhere_switch m k s d x k' s' :
      elsewhere c m (k, s) → current_running k = Some d → aget (pcb k) d = Ok x →
      scheduler (save_in k d x s) = Ok k' → current_running k' ≠ Some c →
      R do_scheduler s (Jump (rd s' ra)) s' → represents k' s' →
      elsewhere c m (k', s').

Lemma elsewhere_keeps c m m' ctx :
  elsewhere c m m' → pid_ok c → current_running m.1 ≠ Some c →
  (∀ x, aget (pcb m.1) c = Ok x → kernel_context x = ctx) →
  current_running m'.1 ≠ Some c ∧ ∀ x, aget (pcb m'.1) c = Ok x → kernel_context x = ctx.
Proof.
  intros H Hc. induction H as [m|m k s k' s' _ IH _ Hd Hk|m k s d x k' s' _ IH Hd Hx Hs Hne _ _]; intros H1 H2.
  - done.
  - destruct (IH H1 H2) as [H3 H4]. cbn in *. split; [by rewrite Hd|]. intros x' Hx'.
    destruct (Hk x' Hx') as (x & Hx & ->). by apply H4.
  - destruct (IH H1 H2) as [H3 H4]. cbn in *. split; [done|]. intros x' Hx'.
    destruct (contexts_lookup _ _ _ _ (scheduler_contexts _ _ Hs) Hx') as (y & Hy & -> & _).
    pose proof (aget_bound _ _ _ Hx). unfold pid_ok in Hc. cbn in Hy.
    rewrite aget_insert_ne in Hy by (lia || congruence). by apply H4.
Qed.

(** C4. A process that gives the processor away gets it back as it left it:
    whatever the other processes do with their own state and however often they
    switch among themselves, when the scheduler chooses the process again all
    its registers except k0 and k1, the stack pointer and the return address
    among them, and [hi] and [lo], are those it had when it called
    [do_scheduler], and it continues after that call. *)
Theorem registers_kept k Q c x s kn Qn d xn sn :
  sched_wf k Q → Sched.current_ok k Q c x → represents k s →
  scheduler_compiled (save_in k c x s) →
  sched_wf kn Qn → Sched.current_ok kn Qn d xn → represents kn sn → d ≠ c →
  scheduler_compiled (save_in kn d xn sn) →
  ∃ k1 s1, scheduler (save_in k c x s) = Ok k1 ∧
    R do_scheduler s (Jump (rd s1 ra)) s1 ∧ represents k1 s1 ∧
    (current_running k1 ≠ Some c → elsewhere c (k1, s1) (kn, sn) →
      ∃ k2 e s2, scheduler (save_in kn d xn sn) = Ok k2 ∧ current_running k2 = Some e ∧
        R do_scheduler sn (Jump (rd s2 ra)) s2 ∧ represents k2 s2 ∧
        (e = c → rd s2 ra = rd s ra ∧ (∀ r, r ∈ general → rd s2 r = rd s r) ∧
          hi_reg s2 = hi_reg s ∧ lo_reg s2 = lo_reg s)).
Proof.
  intros Hwf Hcur Hrep Hcall Hwfn Hcurn Hrepn Hdc Hcalln.
  destruct (switch_runs k Q c x s Hwf Hcur Hrep Hcall)
    as (k1 & d1 & y1 & s1 & Hsch & Hd1 & _ & _ & Hr1 & Hrep1 & _).
  exists k1, s1. split_and!; [done..|]. intros Hne Hels.
  destruct (switch_runs kn Qn d xn sn Hwfn Hcurn Hrepn Hcalln)
    as (k2 & e & y2 & s2 & Hsch2 & He & Hy2 & Hpe & Hr2 & Hrep2 & Hl2).
  exists k2, e, s2. split_and!; [done..|]. intros ->.
  assert (Hctx : kernel_context y2 = saved_context s (kernel_context x)).
  { destruct Hcur as (_ & Hx & _). destruct Hcurn as (_ & Hxn & _).
    pose proof (aget_bound _ _ _ Hx) as Hb. pose proof (aget_bound _ _ _ Hxn) as Hbn.
    destruct (elsewhere_keeps _ _ _ (saved_context s (kernel_context x)) Hels Hpe Hne) as [_ Hk].
    { intros x1 Hx1. destruct (contexts_lookup _ _ _ _ (scheduler_contexts _ _ Hsch) Hx1) as (z & Hz & -> & _).
      cbn in Hz. rewrite aget_insert_eq in Hz by done. by injection Hz as <-. }
    cbn in Hy2. rewrite aget_insert_ne in Hy2 by lia. by apply Hk. }
  rewrite Hctx in Hl2.
  destruct (loaded_saved s (kernel_context x) (cp0 s CP0_EPC) s2 Hl2) as (Hg & Hh & Hlo).
  split_and!; [apply Hg; by apply elem_of_general|done..].
Qed.

(** ** A new process *)

Lemma resume_context k d y s :
  represents k s → current_running k = Some d → pid_ok d → aget (pcb k) d = Ok y →
  ∃ s', R exception_handler_exit s (Resume (cp0_epc (user_context y))) s' ∧
    loaded (user_context y) s' ∧ cp0 s' CP0_STATUS = 0x8801.
Proof.
  intros Hrep Hd Hpd Hy. assert (Hc : current s = pcb_addr d) by (by rewrite (rp_current _ _ Hrep), Hd).
  destruct (exit_runs symbol call (ly_word layout) (ly_current layout) s (rp_words _ _ Hrep))
    as (s' & Hr & Hl & Hst & _); [rewrite Hc; by apply layout|].
  rewrite Hc, (rp_user _ _ Hrep d y Hy) in Hr, Hl. by exists s'.
Qed.

(** C31. A spawned process starts at its entry point: [do_spawn] prepares its two
    contexts so that, when the scheduler chooses it for the first time,
    [do_scheduler] jumps to [exception_handler_exit] instead of returning, and
    this enters the program with its own stack and interrupts enabled. *)
Theorem spawned_process_starts k0 Q c x task p :
  sched_wf k0 Q → Sched.current_ok k0 Q c x → status x = TASK_RUNNING →
  (∀ p x, aget (pcb k0) p = Ok x → regs_ok x) →
  first_free k0 NUM_MAX_TASK (Some p) → unqueued Q p →
  ∃ k, do_spawn (symbol "exception_handler_exit") k0 task = Ok k ∧
    ∀ s, represents k s → scheduler_compiled (save_in k c x s) →
      ∃ k' d s1, scheduler (save_in k c x s) = Ok k' ∧ current_running k' = Some d ∧
        represents k' s1 ∧
        (d = p → ∃ y s2, aget (pcb k) p = Ok y ∧
          R do_scheduler s (Jump (symbol "exception_handler_exit")) s1 ∧
          R exception_handler_exit s1 (Resume (task_entry_point task)) s2 ∧
          rd s2 sp = user_stack_top y ∧ cp0 s2 CP0_STATUS = 0x8801).
Proof.
  intros Hwf Hcur Hst Hregs Hp Hun. pose proof Hcur as (Hc & Hx & Hn & Hr).
  assert (Hpc : p ≠ c).
  { intros ->. destruct Hp as (_ & (z & Hz & Hf) & _). rewrite Hx in Hz. injection Hz as <-.
    destruct Hf; congruence. }
  assert (Huniq : ∀ r, first_free k0 NUM_MAX_TASK r → r = Some p).
  { destruct Hp as (Hp & (z & Hz & Hf) & Hmin). intros r Hr'. by apply (first_free_at k0 p r z). }
  destruct (spawn_spec (symbol "exception_handler_exit") k0 Q task 1 Hwf ltac:(done) Hregs)
    as (r & k & Hs & Hr' & Hck & Hres).
  { intros i Hi. specialize (Huniq _ Hi). by injection Huniq as ->. }
  rewrite (Huniq _ Hr') in Hres. destruct Hres as (Hwf1 & Hsame & y & Hy & _ & _ & _ & Hepc & _ & _ & H31 & H29).
  exists k. split; [done|]. intros s Hrep Hcall.
  assert (Hcur1 : Sched.current_ok k (qset Q (QReady 1) (Q (QReady 1) ++ [p])) c x).
  { assert (Hqn : ∀ q, c ∉ Q q → c ∉ qset Q (QReady 1) (Q (QReady 1) ++ [p]) q).
    { intros q Hq. unfold qset. case_decide; [subst q|done]. rewrite not_elem_of_app.
      split; [apply Hn|]. by intros ?%list_elem_of_singleton. }
    split_and!; [by rewrite Hck|by rewrite Hsame| |].
    - intros i. apply Hqn, Hn.
    - intros Hrun q. apply Hqn. by apply Hr. }
  destruct (switch_runs k _ c x s Hwf1 Hcur1 Hrep Hcall)
    as (k' & d & z & s1 & Hsch & Hd & Hz & Hpd & Hrun & Hrep' & Hl).
  exists k', d, s1. split_and!; [done..|]. intros ->. pose proof (aget_bound _ _ _ Hx).
  cbn in Hz. rewrite aget_insert_ne in Hz by (lia || done). rewrite Hy in Hz. injection Hz as <-.
  assert (Hra : rd s1 ra = symbol "exception_handler_exit").
  { pose proof (ld_gpr _ _ Hl ra) as Hg. change (Z.to_nat ra) with 31%nat in Hg. rewrite H31 in Hg.
    injection Hg as ->; [done|by apply elem_of_general]. }
  rewrite Hra in Hrun.
  pose proof (aget_bound _ _ _ Hy) as Hpb.
  destruct (aget_total (pcb k') p) as [y' Hy'].
  { rewrite (scheduler_length _ _ Hsch). cbn. by rewrite length_insert. }
  destruct (contexts_lookup _ _ _ _ (scheduler_contexts _ _ Hsch) Hy') as (w & Hw & _ & Hu).
  cbn in Hw. rewrite aget_insert_ne in Hw by (lia || done). rewrite Hy in Hw. injection Hw as <-.
  destruct (resume_context k' p y' s1 Hrep' Hd Hpd Hy') as (s2 & Hr2 & Hl2 & Hst2).
  rewrite Hu, Hepc in Hr2. rewrite Hu in Hl2. exists y, s2. split_and!; [done..| |done].
  pose proof (ld_gpr _ _ Hl2 sp) as Hg. change (Z.to_nat sp) with 29%nat in Hg. rewrite H29 in Hg.
  injection Hg as ->; [done|by apply elem_of_general].
Qed.
End switch.

(** ** Witnesses *)

(** The contexts of a process table as the bytes of memory: entries of 8192
    bytes from 0xa0810000. *)
Definition table_symbol (x : string) : Z :=
  if decide (x = "pcb"%string) then 0xa0810000 else demo_symbol x.
Definition table_size : Z := 8192.
Definition context_words (x : regs_context_t) : list Z :=
  regs x ++ [cp0_status x; hi x; lo x; cp0_badvaddr x; cp0_cause x; cp0_epc x; pc x].
Definition entry_word (x : pcb_t) (o : Z) : Z :=
  if o <? USER then context_words (kernel_context x) !!! Z.to_nat (o / 4)
  else context_words (user_context x) !!! Z.to_nat ((o - USER) / 4).
Definition table_mem (k : kstate) (a : Z) : Z :=
  let c := table_symbol "current_running" in
  if (c <=? a) && (a <? c + 4) then
    word_byte (pcb_addr table_symbol table_size (default 0 (current_running k))) (a - c)
  else
    let o := a - table_symbol "pcb" in
    if o <? 0 then 0 else
    match pcb k !! Z.to_nat (o / table_size) with
    | Some x => word_byte (entry_word x (o mod table_size)) (o mod 4)
    | None => 0
    end.
Definition table_cpu (k : kstate) : cpu := demo_cpu [] 0 [] <| mem := table_mem k |>.

(** [scheduler] as a function on memory: [next] gives the process it chooses
    when [current_running] holds the given address. *)
Definition table_call (next : Z → pid) (f : string) (s : cpu) : outcome cpu :=
  Ok (s <| mem ::= store32 (table_symbol "current_running")
             (pcb_addr table_symbol table_size (next (current table_symbol s))) |>).

Lemma table_layout : layout_ok table_symbol table_size.
Proof.
  split.
  - intros x. unfold table_symbol. case_decide; [done|apply demo_symbol_word].
  - exact demo_place.
  - by vm_compute.
  - intros p Hp. unfold pid_ok in Hp. unfold proc_ok, pcb_addr, table_size, PID.
    change (table_symbol "pcb") with 0xa0810000. change (table_symbol "current_running") with 0xa0800300.
    change NUM_MAX_TASK with 16 in Hp. split_and!; [|lia..].
    replace (0xa0810000 + 8192 * p) with ((0x28204000 + 2048 * p) * 4) by lia. by apply Z.mod_mul.
Qed.

Definition table_holds (k : kstate) : bool :=
  forallb (λ p, match aget (pcb k) p with
    | Ok x =>
        bool_decide (context_words (context_at (table_mem k) (pcb_addr table_symbol table_size p)) =
          context_words (kernel_context x)) &&
        bool_decide (context_words (context_at (table_mem k) (pcb_addr table_symbol table_size p + USER)) =
          context_words (user_context x))
    | _ => true
    end) (seqZ 0 16).

Lemma context_words_inj x y :
  length (regs x) = length (regs y) → context_words x = context_words y → x = y.
Proof. destruct x, y. unfold context_words. cbn. intros Hl [-> H]%app_inj_1; [|done]. by injection H as -> -> -> -> -> -> ->. Qed.

Lemma table_represents k c :
  length (pcb k) = 16%nat → current_running k = Some c → pid_ok c →
  (∀ p x, aget (pcb k) p = Ok x → regs_ok x) → table_holds k = true →
  represents table_symbol table_size k (table_cpu k).
Proof.
  intros Hlen Hc Hp Hregs H. unfold table_holds in H. rewrite forallb_forall in H.
  assert (Hx : ∀ p x, aget (pcb k) p = Ok x →
    context_at (table_mem k) (pcb_addr table_symbol table_size p) = kernel_context x ∧
    context_at (table_mem k) (pcb_addr table_symbol table_size p + USER) = user_context x).
  { intros p x Hx. pose proof (aget_bound _ _ _ Hx) as Hb. specialize (H p).
    rewrite Hx in H. destruct (Hregs _ _ Hx) as [H1 H2].
    assert (Hin : In p (seqZ 0 16)) by (apply list_elem_of_In, elem_of_seqZ; lia).
    apply andb_prop in H as [Hk Hu]; [|done]. apply bool_decide_eq_true in Hk, Hu.
    split; (apply context_words_inj; [|done]); [by rewrite H1|by rewrite H2]. }
  split; [|by apply Hx|by apply Hx|].
  - rewrite Hc. unfold current, load32, table_cpu. cbn -[table_symbol]. unfold table_mem. rewrite Hc.
    apply (word_bytes (pcb_addr table_symbol table_size c)). unfold word, pid_ok in *.
    change NUM_MAX_TASK with 16 in Hp. unfold pcb_addr, table_size.
    change (table_symbol "pcb") with 0xa0810000. lia.
  - pose proof (demo_words [] 0 [] ltac:(done) ltac:(cbn; lia) ltac:(constructor)) as Hw.
    destruct Hw as [W1 W2 W3 W4 _ W6 W7]. split; [exact W1|exact W2|exact W3|exact W4| |exact W6|exact W7].
    intros a. change (0 ≤ table_mem k a < 256). unfold table_mem, word_byte.
    destruct (_ && _); [by apply Z.mod_pos_bound|]. cbv zeta. destruct (_ <? _); [done|].
    destruct (pcb k !! _); [by apply Z.mod_pos_bound|done].
Qed.

Definition chosen (k : kstate) : option pid :=
  match scheduler k with Ok k' => current_running k' | _ => None end.

Lemma table_compiled next k c d :
  length (pcb k) = 16%nat → current_running k = Some c → chosen k = Some d → pid_ok d →
  next (pcb_addr table_symbol table_size c) = d →
  scheduler_compiled table_symbol (table_call next) table_size k.
Proof.
  intros Hlen Hc Hd Hpd Hnext k' s1 Hs Hrep. unfold chosen in Hd. rewrite Hs in Hd.
  assert (Hp : ∀ p x, aget (pcb k) p = Ok x → pid_ok p).
  { intros p x Hx%aget_bound. unfold pid_ok. change NUM_MAX_TASK with 16. lia. }
  unfold table_call. rewrite (rp_current _ _ _ _ Hrep), Hc, Hnext.
  eexists. split; [reflexivity|]. pose proof (scheduler_contexts _ _ Hs) as Hctx.
  assert (Hw : word (pcb_addr table_symbol table_size d)).
  { unfold word, pid_ok in *. change NUM_MAX_TASK with 16 in Hpd. unfold pcb_addr, table_size.
    change (table_symbol "pcb") with 0xa0810000. lia. }
  assert (Hout : ∀ p o, pid_ok p → o = 0 ∨ o = USER →
    context_at (store32 (table_symbol "current_running") (pcb_addr table_symbol table_size d) (mem s1))
      (pcb_addr table_symbol table_size p + o) =
    context_at (mem s1) (pcb_addr table_symbol table_size p + o)).
  { intros p o Hpp Ho. apply context_at_ext. intros y Hy. apply store32_ne. unfold pid_ok in Hpp.
    unfold pcb_addr, table_size, USER, OFFSET_SIZE in *.
    change (table_symbol "pcb") with 0xa0810000 in *.
    change (table_symbol "current_running") with 0xa0800300. change NUM_MAX_TASK with 16 in *. lia. }
  split.
  - rewrite Hd. by apply load32_store32.
  - intros p x' Hx'. destruct (contexts_lookup _ _ _ _ Hctx Hx') as (x & Hx & -> & _).
    pose proof (Hout p 0 (Hp p x Hx) (or_introl eq_refl)) as Ho. rewrite Z.add_0_r in Ho.
    etransitivity; [exact Ho|]. by apply Hrep.
  - intros p x' Hx'. destruct (contexts_lookup _ _ _ _ Hctx Hx') as (x & Hx & _ & ->).
    etransitivity; [exact (Hout p USER (Hp p x Hx) (or_intror eq_refl))|]. by apply Hrep.
  - destruct (rp_words _ _ _ _ Hrep) as [W1 W2 W3 W4 W5 W6 W7].
    split; [exact W1|exact W2|exact W3|exact W4| |exact W6|exact W7].
    intros a. cbn. by apply store32_bytes.
Qed.

Definition running_0 : pcb_t := no_pcb 0 <| status := TASK_RUNNING |>.
Definition demo_cpu_table : cpu := table_cpu demo_state.

(** Process 1 is switched to, and 0 left with its registers saved. *)
Lemma context_switch_correct_witness :
  ∃ k' s', current_running k' = Some 1 ∧
    runs table_symbol text (table_call (λ _, 1)) do_scheduler demo_cpu_table (Jump (rd s' ra)) s' ∧
    represents table_symbol table_size k' s'.
Proof.
  set (k := save_in demo_state 0 running_0 demo_cpu_table).
  assert (Hd : chosen k = Some 1) by (vm_compute; reflexivity).
  destruct (context_switch_correct table_symbol (table_call (λ _, 1)) table_size table_layout
    demo_state demo_queues 0 running_0 demo_cpu_table demo_wf demo_current)
    as (k' & d & s' & Hs & Hc & Hr & Hrep & _).
  - apply (table_represents demo_state 0); [reflexivity|reflexivity|by vm_compute|exact demo_regs|vm_compute; reflexivity].
  - apply (table_compiled _ k 0 1); [reflexivity|reflexivity|exact Hd|by vm_compute|reflexivity].
  - exists k', s'. unfold chosen in Hd. fold k in Hs. rewrite Hs in Hd.
    exact (conj Hd (conj Hr Hrep)).
Defined.

Lemma idle_regs p x : aget (pcb idle_state) p = Ok x → regs_ok x.
Proof.
  intros [_ Hx]%aget_Ok. apply list_elem_of_lookup_2 in Hx. rewrite list_elem_of_In in Hx.
  simpl in Hx. repeat (destruct Hx as [<-|Hx]; [done|]). done.
Qed.

(** Processes 0 and 1 take turns. *)
Definition pair_state : kstate := push_or idle_state (QReady 1) 1.
Definition pair_queues : queue_map := qset (λ _, []) (QReady 1) [1].
Definition pair_cpu : cpu := table_cpu pair_state.
Definition pair_call : string → cpu → outcome cpu :=
  table_call (λ a, if a =? table_symbol "pcb" then 1 else 0).

Lemma pair_regs p x : aget (pcb pair_state) p = Ok x → regs_ok x.
Proof. exact (idle_regs p x). Qed.

Lemma pair_wf : sched_wf pair_state pair_queues ∧ Sched.current_ok pair_state pair_queues 0 running_0.
Proof.
  destruct (push_or_wf idle_state (λ _, []) (QReady 1) 1) as [H _];
    [apply idle_wf|done|by intros ? ?%elem_of_nil|done|].
  split; [exact H|]. split_and!; [reflexivity|reflexivity|..].
  - intros i. unfold pair_queues, qset. case_decide; set_solver.
  - intros _ q. unfold pair_queues, qset. case_decide; set_solver.
Qed.

Lemma scheduler_next k Q c x k' :
  sched_wf k Q → Sched.current_ok k Q c x → scheduler k = Ok k' →
  ∃ Q' d y, sched_wf k' Q' ∧ Sched.current_ok k' Q' d y.
Proof.
  intros Hwf Hcur Hs. destruct (scheduler_spec k Q c x Hwf Hcur)
    as (k1 & Q' & i & r & rest & Hs' & Hwf' & _ & _ & Hlive & Hr).
  rewrite Hs in Hs'. injection Hs' as <-. exists Q'. destruct r as [d|].
  - destruct Hr as (Hd & Hun & (y & Hy & _) & _). exists d, y.
    split; [exact Hwf'|]. split_and!; [exact Hd|exact Hy|intros j; apply Hun|intros _; exact Hun].
  - destruct Hr as (Hd & Hx & HQ). exists c, x. destruct Hcur as (_ & _ & Hn & Hq).
    split; [exact Hwf'|]. split_and!; [exact Hd|exact Hx| |].
    + intros j. rewrite HQ. unfold qset. case_decide; [apply not_elem_of_nil|apply Hn].
    + intros Hrun q. rewrite HQ. unfold qset. case_decide; [apply not_elem_of_nil|by apply Hq].
Qed.

Lemma registers_kept_witness :
  ∃ s1 s2, runs table_symbol text pair_call do_scheduler pair_cpu (Jump (rd s1 ra)) s1 ∧
    runs table_symbol text pair_call do_scheduler s1 (Jump (rd pair_cpu ra)) s2 ∧
    rd s2 sp = 0xa0f00000.
Proof.
  destruct pair_wf as [Hwf Hcur]. set (k := save_in pair_state 0 running_0 pair_cpu).
  assert (Hrep : represents table_symbol table_size pair_state pair_cpu).
  { apply (table_represents pair_state 0); [reflexivity|reflexivity|by vm_compute|exact pair_regs|vm_compute; reflexivity]. }
  assert (Hcall : scheduler_compiled table_symbol pair_call table_size k).
  { apply (table_compiled _ k 0 1); [reflexivity|reflexivity|vm_compute; reflexivity|by vm_compute|vm_compute; reflexivity]. }
  destruct (switch_runs table_symbol pair_call table_size table_layout pair_state pair_queues 0 running_0
    pair_cpu Hwf Hcur Hrep Hcall) as (kn & d & y & sn & Hsn & Hdn & _ & _ & Hrn & Hrepn & _).
  destruct (save_in_wf pair_state pair_queues 0 running_0 pair_cpu Hwf Hcur) as [Hwfs Hcurs].
  destruct (scheduler_next _ _ _ _ _ Hwfs Hcurs Hsn) as (Qn & dn & xn & Hwfn & Hcurn).
  assert (Hkn : chosen k = Some 1) by (vm_compute; reflexivity).
  unfold chosen in Hkn. fold k in Hsn. rewrite Hsn in Hkn.
  assert (dn = 1) as -> by (destruct Hcurn as (Hdn' & _); rewrite Hkn in Hdn'; by injection Hdn').
  assert (Hchoice : chosen (save_in kn 1 xn sn) = Some 0).
  { clear - Hsn Hcurn. destruct Hcurn as (_ & Hx & _).
    assert (E : match scheduler k with Ok k' => k' = kn | _ => False end) by (by rewrite Hsn).
    vm_compute in E. subst kn. vm_compute in Hx. injection Hx as <-. vm_compute. reflexivity. }
  destruct (registers_kept table_symbol pair_call table_size table_layout pair_state pair_queues 0 running_0
    pair_cpu kn Qn 1 xn sn Hwf Hcur Hrep Hcall Hwfn Hcurn Hrepn) as (k1 & s1 & Hs1 & Hr1 & _ & H).
  - intros [=].
  - apply (table_compiled _ _ 1 0); [|exact (proj1 Hcurn)|exact Hchoice|by vm_compute|vm_compute; reflexivity].
    change (length (<[1%nat := xn <| kernel_context ::= saved_context sn |>]> (pcb kn)) = 16%nat).
    rewrite length_insert, (scheduler_length _ _ Hsn). reflexivity.
  - fold k in Hs1. rewrite Hsn in Hs1. injection Hs1 as <-.
    destruct (runs_det _ _ _ _ _ _ _ _ _ Hrn Hr1) as [_ <-].
    destruct H as (k2 & e & s2 & Hs2 & He & Hr2 & _ & Hk); [rewrite Hkn; intros [=]|constructor|].
    unfold chosen in Hchoice. rewrite Hs2, He in Hchoice. injection Hchoice as ->.
    destruct (Hk eq_refl) as (Hra & Hg & _). exists sn, s2. rewrite Hra in Hr2.
    split; [exact Hrn|]. split; [exact Hr2|]. rewrite Hg by (by apply elem_of_general). reflexivity.
Defined.
(** A process is spawned when no other is ready, and gets the processor. *)
Definition new_task : task_info_t := TaskInfo (str "fs") 0xa0820000 USER_PROCESS.
Definition spawned : kstate :=
  match do_spawn (table_symbol "exception_handler_exit") idle_state new_task with Ok k => k | _ => idle_state end.
Definition spawned_cpu : cpu := table_cpu spawned.

Lemma spawned_process_starts_witness :
  let k := save_in spawned 0 running_0 spawned_cpu in
  chosen k = Some 4 ∧
  ∃ s1 s2 y, aget (pcb spawned) 4 = Ok y ∧
    runs table_symbol text (table_call (λ _, 4)) do_scheduler spawned_cpu
      (Jump (table_symbol "exception_handler_exit")) s1 ∧
    runs table_symbol text (table_call (λ _, 4)) exception_handler_exit s1 (Resume 0xa0820000) s2 ∧
    rd s2 sp = user_stack_top y.
Proof.
  intros k. assert (Hd : chosen k = Some 4) by (vm_compute; reflexivity). split; [exact Hd|].
  destruct (spawned_process_starts table_symbol (table_call (λ _, 4)) table_size table_layout
    idle_state (λ _, []) 0 running_0 new_task 4 idle_wf) as (k0 & Hk0 & H).
  - split_and!; [reflexivity|reflexivity|intros ?; apply not_elem_of_nil|intros _ ?; apply not_elem_of_nil].
  - reflexivity.
  - exact idle_regs.
  - split_and!; [by vm_compute|by vm_compute| |].
    + eexists. split; [vm_compute; reflexivity|right; reflexivity].
    + intros j x Hj Hx Hf.
      assert (j = 0 ∨ j = 1 ∨ j = 2 ∨ j = 3) as [->|[->|[->| ->]]] by lia;
        vm_compute in Hx; injection Hx as <-; destruct Hf as [Hf|Hf]; discriminate Hf.
  - intros ?. apply not_elem_of_nil.
  - assert (Hk : k0 = spawned) by (unfold spawned; by rewrite Hk0). subst k0.
    destruct (H spawned_cpu) as (k' & d & s1 & Hs & Hc & _ & Hp).
    + apply (table_represents spawned 0); [vm_compute; reflexivity|vm_compute; reflexivity|by vm_compute| |vm_compute; reflexivity].
      intros p x Hx. assert (Hf : forallb (λ x, bool_decide (regs_ok x)) (pcb spawned) = true) by (vm_compute; reflexivity).
      rewrite forallb_forall in Hf. apply aget_Ok in Hx as [_ Hx].
      apply list_elem_of_lookup_2, list_elem_of_In, Hf, bool_decide_eq_true in Hx. exact Hx.
    + apply (table_compiled _ k 0 4); [vm_compute; reflexivity|vm_compute; reflexivity|exact Hd|by vm_compute|reflexivity].
    + assert (Hd' := Hd). unfold chosen in Hd'. fold k in Hs. rewrite Hs in Hd'. rewrite Hd' in Hc.
      injection Hc as <-. destruct (Hp eq_refl) as (y & s2 & Hy & Hr1 & Hr2 & Hsp & _).
      exists s1, s2, y. exact (conj Hy (conj Hr1 (conj Hr2 Hsp))).
Defined.
